(** * The xHCI ring engine of the MTK USB3 host test driver

    A shallow embedding of the transfer/command/event ring code of
    [drivers/usb/mu3h/mu3h_test_drv/xhci.c]: ring cursors ([inc_deq],
    [inc_enq], [room_on_ring], [prepare_ring]), the TD builders
    ([xhci_queue_bulk_tx], [queue_bulk_sg_tx], [xhci_queue_ctrl_tx]) and the
    event dispatcher ([handle_cmd_completion], [handle_tx_event],
    [finish_td]).

    Conventions.
    - A [u32]/[u64] is a [Z]; arithmetic that can leave the range is wrapped
      explicitly ([wrap32], [wrap64]).
    - A TRB pointer is a pair (segment, offset in TRBs from [seg->trbs]).
      Segments are named by their index in the ring's segment store.
    - A function returns [None] where the C code would read or write outside
      a segment, dereference NULL, divide by zero, or loop for ever. *)

From Stdlib Require Import ZArith Lia List Bool.
From stdpp Require Import base option list.

Local Open Scope Z_scope.

(** ** Machine integers *)

Definition wrap32 (x : Z) : Z := x mod 2 ^ 32.
Definition wrap64 (x : Z) : Z := x mod 2 ^ 64.
(** Reading a [u32] bit pattern as an [int]. *)
Definition to_int (x : Z) : Z :=
  let y := wrap32 x in if y <? 2 ^ 31 then y else y - 2 ^ 32.
Definition lower_32_bits (x : Z) : Z := x mod 2 ^ 32.
Definition upper_32_bits (x : Z) : Z := (x / 2 ^ 32) mod 2 ^ 32.

(** ** Constants of xhci.h

    The header is not part of the sources; the values below are the TRB
    layout of the xHCI specification that the driver's own code relies on
    (the type field is read as [(field[3] & TRB_TYPE_BITMASK) >> 10] in
    [handle_cmd_completion], the TRB-type numbers index [trb_name], the TD
    size sits in bits 21:17 in [xhci_td_remainder]). *)

Definition TRB_CYCLE : Z := 1.
Definition LINK_TOGGLE : Z := 2.
Definition TRB_ISP : Z := 4.
Definition TRB_CHAIN : Z := 16.
Definition TRB_IOC : Z := 32.
Definition TRB_IDT : Z := 64.
Definition TRB_BEI : Z := 512.
Definition TRB_DIR_IN : Z := 65536.
Definition TRB_TYPE_BITMASK : Z := 64512.
Definition TRB_TYPE (p : Z) : Z := Z.shiftl p 10.
Definition TRB_NORMAL : Z := 1.
Definition TRB_SETUP : Z := 2.
Definition TRB_DATA : Z := 3.
Definition TRB_STATUS : Z := 4.
Definition TRB_LINK : Z := 6.
Definition TRB_TR_NOOP : Z := 8.
Definition TRB_ENABLE_SLOT : Z := 9.
Definition TRB_DISABLE_SLOT : Z := 10.
Definition TRB_ADDR_DEV : Z := 11.
Definition TRB_CONFIG_EP : Z := 12.
Definition TRB_EVAL_CONTEXT : Z := 13.
Definition TRB_RESET_EP : Z := 14.
Definition TRB_STOP_RING : Z := 15.
Definition TRB_SET_DEQ : Z := 16.
Definition TRB_RESET_DEV : Z := 17.
Definition TRB_CMD_NOOP : Z := 23.
Definition TRB_LEN (p : Z) : Z := Z.land p 131071.
Definition TRB_INTR_TARGET (p : Z) : Z := Z.shiftl (Z.land p 1023) 22.
Definition TRB_TRT (p : Z) : Z := Z.shiftl p 16.
Definition TRT_NO_DATA : Z := 0.
Definition TRT_OUT_DATA : Z := 2.
Definition TRT_IN_DATA : Z := 3.
Definition TRB_MAX_BUFF_SHIFT : Z := 16.
Definition TRB_MAX_BUFF_SIZE : Z := Z.shiftl 1 TRB_MAX_BUFF_SHIFT.
Definition SIZEOF_TRB : Z := 16.

Definition GET_COMP_CODE (p : Z) : Z := Z.land (Z.shiftr p 24) 255.
Definition TRB_TO_SLOT_ID (p : Z) : Z := Z.land (Z.shiftr p 24) 255.
Definition TRB_TO_EP_ID (p : Z) : Z := Z.land (Z.shiftr p 16) 31.
Definition TRB_TO_EP_INDEX (p : Z) : Z := Z.land (Z.shiftr p 16) 31 - 1.
Definition COMP_SUCCESS : Z := 1.
Definition COMP_DB_ERR : Z := 2.
Definition COMP_BABBLE : Z := 3.
Definition COMP_TX_ERR : Z := 4.
Definition COMP_TRB_ERR : Z := 5.
Definition COMP_STALL : Z := 6.
Definition COMP_SHORT_TX : Z := 13.
Definition COMP_UNDERRUN : Z := 14.
Definition COMP_OVERRUN : Z := 15.
Definition COMP_BW_OVER : Z := 18.
Definition COMP_MISSED_INT : Z := 23.
Definition COMP_CMD_STOP : Z := 24.
Definition COMP_CMD_ABORT : Z := 25.
Definition COMP_STOP : Z := 26.
Definition COMP_STOP_INVAL : Z := 27.
Definition COMP_BUFF_OVER : Z := 31.
Definition COMP_SPLIT_ERR : Z := 36.

(** Endpoint context states ([ep_info & EP_STATE_MASK]) and the driver's
    own per-endpoint flags ([ep->ep_state]). *)
Definition EP_STATE_MASK : Z := 15.
Definition EP_STATE_DISABLED : Z := 0.
Definition EP_STATE_RUNNING : Z := 1.
Definition EP_STATE_HALTED : Z := 2.
Definition EP_STATE_STOPPED : Z := 3.
Definition EP_STATE_ERROR : Z := 4.
Definition SET_DEQ_PENDING : Z := 1.
Definition EP_HALTED : Z := 2.
Definition EP_HALT_PENDING : Z := 4.
Definition DB_MASK : Z := 65280.
Definition EPI_TO_DB (p : Z) : Z := Z.land (p + 1) 255.
Definition STREAM_ID_TO_DB (p : Z) : Z := Z.shiftl (Z.land p 65535) 16.

(** errno values and URB flags of the kernel headers. *)
Definition ENOENT : Z := 2.
Definition ENOMEM : Z := 12.
Definition ENODEV : Z := 19.
Definition EINVAL : Z := 22.
Definition EPIPE : Z := 32.
Definition ENOSR : Z := 63.
Definition EPROTO : Z := 71.
Definition EOVERFLOW : Z := 75.
Definition EILSEQ : Z := 84.
Definition ESHUTDOWN : Z := 108.
Definition EINPROGRESS : Z := 115.
Definition EREMOTEIO : Z := 121.
Definition URB_SHORT_NOT_OK : Z := 1.
Definition URB_ZERO_PACKET : Z := 64.
Definition USB_DIR_IN : Z := 128.
Definition CMD_DONE : Z := 1.
Definition CMD_FAIL : Z := 2.

(** [x & mask] read as a C truth value. *)
Definition tst (x mask : Z) : bool := negb (Z.land x mask =? 0).

(** ** Data model *)

(** [struct xhci_generic_trb]; [link.control], [event_cmd.flags] and
    [trans_event.flags] alias [field[3]]. *)
Record xhci_trb := mk_trb { field0 : Z; field1 : Z; field2 : Z; field3 : Z }.

Definition zero_trb : xhci_trb := mk_trb 0 0 0 0.

(** [struct xhci_segment]: [trbs] is the array [seg->trbs] points to and
    [trbs_va] the address the pointer holds, [dma] the bus address of the
    array. *)
Record xhci_segment := mk_seg {
  trbs : list xhci_trb;
  next : nat;
  dma : Z;
  trbs_va : Z
}.

Definition trb_ptr : Type := nat * nat.

Record xhci_ring := mk_ring {
  segs : list xhci_segment;
  first_seg : nat;
  enqueue : trb_ptr;
  enq_seg : nat;
  enq_updates : Z;
  dequeue : trb_ptr;
  deq_seg : nat;
  deq_updates : Z;
  cycle_state : Z;
  stream_id : Z;
  td_list : list nat
}.

Definition set_segs (v : list xhci_segment) (r : xhci_ring) : xhci_ring :=
  mk_ring v (first_seg r) (enqueue r) (enq_seg r) (enq_updates r)
    (dequeue r) (deq_seg r) (deq_updates r) (cycle_state r) (stream_id r) (td_list r).
Definition set_enqueue (s : nat) (p : trb_ptr) (r : xhci_ring) : xhci_ring :=
  mk_ring (segs r) (first_seg r) p s (enq_updates r)
    (dequeue r) (deq_seg r) (deq_updates r) (cycle_state r) (stream_id r) (td_list r).
Definition set_enq_updates (v : Z) (r : xhci_ring) : xhci_ring :=
  mk_ring (segs r) (first_seg r) (enqueue r) (enq_seg r) v
    (dequeue r) (deq_seg r) (deq_updates r) (cycle_state r) (stream_id r) (td_list r).
Definition set_dequeue (s : nat) (p : trb_ptr) (r : xhci_ring) : xhci_ring :=
  mk_ring (segs r) (first_seg r) (enqueue r) (enq_seg r) (enq_updates r)
    p s (deq_updates r) (cycle_state r) (stream_id r) (td_list r).
Definition set_deq_updates (v : Z) (r : xhci_ring) : xhci_ring :=
  mk_ring (segs r) (first_seg r) (enqueue r) (enq_seg r) (enq_updates r)
    (dequeue r) (deq_seg r) v (cycle_state r) (stream_id r) (td_list r).
Definition set_cycle_state (v : Z) (r : xhci_ring) : xhci_ring :=
  mk_ring (segs r) (first_seg r) (enqueue r) (enq_seg r) (enq_updates r)
    (dequeue r) (deq_seg r) (deq_updates r) v (stream_id r) (td_list r).
Definition set_td_list (v : list nat) (r : xhci_ring) : xhci_ring :=
  mk_ring (segs r) (first_seg r) (enqueue r) (enq_seg r) (enq_updates r)
    (dequeue r) (deq_seg r) (deq_updates r) (cycle_state r) (stream_id r) v.

(** [ring->cycle_state = (ring->cycle_state ? 0 : 1)] *)
Definition toggle_cycle (r : xhci_ring) : xhci_ring :=
  set_cycle_state (if cycle_state r =? 0 then 1 else 0) r.

(** [trb + 1] *)
Definition ptr_succ (p : trb_ptr) : trb_ptr := (p.1, S p.2).

Definition read_trb (r : xhci_ring) (p : trb_ptr) : option xhci_trb :=
  sg ← segs r !! p.1; trbs sg !! p.2.

Definition write_trb (r : xhci_ring) (p : trb_ptr) (t : xhci_trb) : option xhci_ring :=
  sg ← segs r !! p.1;
  if decide (p.2 < length (trbs sg))%nat
  then Some (set_segs (<[p.1 := mk_seg (<[p.2 := t]> (trbs sg)) (next sg) (dma sg)
                                   (trbs_va sg)]> (segs r)) r)
  else None.

Definition set_control (t : xhci_trb) (c : Z) : xhci_trb :=
  mk_trb (field0 t) (field1 t) (field2 t) c.

Definition is_link_trb (t : xhci_trb) : bool :=
  Z.land (field3 t) TRB_TYPE_BITMASK =? TRB_TYPE TRB_LINK.

(** The [while] loops that step over link TRBs end after at most one
    iteration per segment unless they never end (a ring whose segments all
    start with a link TRB); the bound below is one more than that. *)
Definition ring_fuel (r : xhci_ring) : nat := S (S (length (segs r))).

Section RingEngine.

(** [TRBS_PER_SEGMENT] is defined in the absent xhci.h; the code only uses
    it as the number of TRBs of a segment. *)
Variable TRBS_PER_SEGMENT : nat.
(** [xhci_link_trb_quirk(xhci)]: the controller is 0.95 hardware that needs
    the chain bit set in link TRBs. *)
Variable xhci_link_trb_quirk : bool.

(** ** Ring cursor primitives *)

(** [xhci_trb_virt_to_dma].  [None] as an argument is the NULL pointer.
    The code compares addresses: [trb < seg->trbs], and the offset
    [trb - seg->trbs] in TRBs against [TRBS_PER_SEGMENT], which the offset
    may reach.  The address of a TRB pointer is the address of the array of
    its segment plus its offset, so that the first TRB of a segment whose
    array lies directly behind the array of [seg] gets the address just past
    the end of [seg].  A pointer whose segment the ring does not hold points
    to no memory of the model; it is taken to lie below the array. *)
Definition xhci_trb_virt_to_dma (r : xhci_ring) (seg : option nat)
    (trb : option trb_ptr) : option Z :=
  match seg, trb with
  | Some s, Some p =>
      sg ← segs r !! s;
      match segs r !! p.1 with
      | None => Some 0
      | Some psg =>
          let trb_va := trbs_va psg + Z.of_nat p.2 * SIZEOF_TRB in
          if trb_va <? trbs_va sg then Some 0
          else
            let segment_offset := (trb_va - trbs_va sg) / SIZEOF_TRB in
            if Z.of_nat TRBS_PER_SEGMENT <? segment_offset then Some 0
            else Some (wrap64 (dma sg + segment_offset * SIZEOF_TRB))
      end
  | _, _ => Some 0
  end.

Definition ptr_eqb (p q : trb_ptr) : bool := (p.1 =? q.1)%nat && (p.2 =? q.2)%nat.

(** [ev] is the test [ring == xhci->event_ring]. *)
Definition last_trb_on_last_seg (ev : bool) (r : xhci_ring) (seg : nat)
    (trb : trb_ptr) : option bool :=
  if ev then
    sg ← segs r !! seg;
    Some (ptr_eqb trb (seg, TRBS_PER_SEGMENT) && (next sg =? first_seg r)%nat)
  else
    t ← read_trb r trb; Some (tst (field3 t) LINK_TOGGLE).

Definition last_trb (ev : bool) (r : xhci_ring) (seg : nat) (trb : trb_ptr)
    : option bool :=
  if ev then Some (ptr_eqb trb (seg, TRBS_PER_SEGMENT))
  else t ← read_trb r trb; Some (is_link_trb t).

Definition enqueue_is_link_trb (r : xhci_ring) : option bool :=
  t ← read_trb r (enqueue r); Some (is_link_trb t).

(** [next_trb]: step without skipping link TRBs. *)
Definition next_trb (ev : bool) (r : xhci_ring) (seg : nat) (trb : trb_ptr)
    : option (nat * trb_ptr) :=
  b ← last_trb ev r seg trb;
  if b : bool then sg ← segs r !! seg; Some (next sg, (next sg, 0%nat))
  else Some (seg, ptr_succ trb).

(** The [while (last_trb(...))] loop of [inc_deq]; [next] is
    [ring->dequeue] throughout. *)
Fixpoint inc_deq_loop (fuel : nat) (ev consumer : bool) (r : xhci_ring)
    : option xhci_ring :=
  match fuel with
  | O => None
  | S fuel' =>
      b ← last_trb ev r (deq_seg r) (dequeue r);
      if b : bool then
        tog ← (if consumer then last_trb_on_last_seg ev r (deq_seg r) (dequeue r)
               else Some false);
        let r1 := if tog : bool then toggle_cycle r else r in
        sg ← segs r1 !! deq_seg r1;
        inc_deq_loop fuel' ev consumer (set_dequeue (next sg) (next sg, 0%nat) r1)
      else Some r
  end.

Definition inc_deq (ev : bool) (r : xhci_ring) (consumer : bool) : option xhci_ring :=
  let r1 := set_dequeue (deq_seg r) (ptr_succ (dequeue r)) r in
  let r2 := set_deq_updates (wrap32 (deq_updates r1 + 1)) r1 in
  inc_deq_loop (ring_fuel r2) ev consumer r2.

(** The loop of [inc_enq]; [chain] is the chain bit of the TRB just queued. *)
Fixpoint inc_enq_loop (fuel : nat) (ev consumer more_trbs_coming : bool)
    (chain : Z) (r : xhci_ring) : option xhci_ring :=
  match fuel with
  | O => None
  | S fuel' =>
      b ← last_trb ev r (enq_seg r) (enqueue r);
      if b : bool then
        let advance (r2 : xhci_ring) :=
          sg ← segs r2 !! enq_seg r2;
          inc_enq_loop fuel' ev consumer more_trbs_coming chain
            (set_enqueue (next sg) (next sg, 0%nat) r2) in
        if consumer then advance r
        else
          let toggle_then_advance (r1 : xhci_ring) :=
            tog ← last_trb_on_last_seg ev r1 (enq_seg r1) (enqueue r1);
            advance (if tog : bool then toggle_cycle r1 else r1) in
          if ev then toggle_then_advance r
          else if (chain =? 0) && negb more_trbs_coming then Some r
          else
            t ← read_trb r (enqueue r);
            let c1 :=
              if xhci_link_trb_quirk then field3 t
              else Z.lor (Z.land (field3 t) (Z.lnot TRB_CHAIN)) chain in
            let c2 := Z.lxor c1 TRB_CYCLE in
            r1 ← write_trb r (enqueue r) (set_control t c2);
            toggle_then_advance r1
      else Some r
  end.

Definition inc_enq (ev : bool) (r : xhci_ring) (consumer more_trbs_coming : bool)
    : option xhci_ring :=
  t ← read_trb r (enqueue r);
  let chain := Z.land (field3 t) TRB_CHAIN in
  let r1 := set_enqueue (enq_seg r) (ptr_succ (enqueue r)) r in
  let r2 := set_enq_updates (wrap32 (enq_updates r1 + 1)) r1 in
  inc_enq_loop (ring_fuel r2) ev consumer more_trbs_coming chain r2.

(** The link-skipping [while] of [room_on_ring], on its local cursor. *)
Fixpoint skip_link_trbs (fuel : nat) (ev : bool) (r : xhci_ring) (seg : nat)
    (enq : trb_ptr) : option (nat * trb_ptr) :=
  match fuel with
  | O => None
  | S fuel' =>
      b ← last_trb ev r seg enq;
      if b : bool then
        sg ← segs r !! seg; skip_link_trbs fuel' ev r (next sg) (next sg, 0%nat)
      else Some (seg, enq)
  end.

(** [for (cur_seg = enq_seg->next; cur_seg != enq_seg; cur_seg = cur_seg->next)
      left_on_ring += TRBS_PER_SEGMENT - 1;] *)
Fixpoint count_other_segs (fuel : nat) (r : xhci_ring) (enq_seg cur_seg : nat)
    (left_on_ring : Z) : option Z :=
  match fuel with
  | O => None
  | S fuel' =>
      if (cur_seg =? enq_seg)%nat then Some left_on_ring
      else
        sg ← segs r !! cur_seg;
        count_other_segs fuel' r enq_seg (next sg)
          (wrap32 (left_on_ring + (Z.of_nat TRBS_PER_SEGMENT - 1)))
  end.

(** [for (i = 0; i <= num_trbs; ++i)]: [n] iterations are left. *)
Fixpoint room_loop (n : nat) (ev : bool) (r : xhci_ring) (seg : nat)
    (enq : trb_ptr) : option bool :=
  match n with
  | O => Some true
  | S n' =>
      if ptr_eqb enq (dequeue r) then Some false
      else
        '(seg', enq') ← skip_link_trbs (ring_fuel r) ev r seg (ptr_succ enq);
        room_loop n' ev r seg' enq'
  end.

Definition room_on_ring (ev : bool) (r : xhci_ring) (num_trbs : Z) : option bool :=
  '(seg, enq) ← skip_link_trbs (ring_fuel r) ev r (enq_seg r) (enqueue r);
  if ptr_eqb enq (dequeue r) then
    sg ← segs r !! seg;
    left ← count_other_segs (S (length (segs r))) r seg (next sg)
             (wrap32 (Z.of_nat TRBS_PER_SEGMENT - 1));
    let left_on_ring := wrap32 (left - 1) in
    Some (negb (left_on_ring <? num_trbs))
  else room_loop (S (Z.to_nat num_trbs)) ev r seg enq.

(** The loop of [prepare_ring] that hands pending link TRBs to the hardware. *)
Fixpoint prepare_ring_loop (fuel : nat) (ev : bool) (r : xhci_ring)
    : option xhci_ring :=
  match fuel with
  | O => None
  | S fuel' =>
      b ← last_trb ev r (enq_seg r) (enqueue r);
      if b : bool then
        t ← read_trb r (enqueue r);
        let c1 :=
          if xhci_link_trb_quirk then Z.lor (field3 t) TRB_CHAIN
          else Z.land (field3 t) (Z.lnot TRB_CHAIN) in
        r1 ← write_trb r (enqueue r) (set_control t (Z.lxor c1 TRB_CYCLE));
        tog ← last_trb_on_last_seg ev r1 (enq_seg r1) (enqueue r1);
        let r2 := if tog : bool then toggle_cycle r1 else r1 in
        sg ← segs r2 !! enq_seg r2;
        prepare_ring_loop fuel' ev (set_enqueue (next sg) (next sg, 0%nat) r2)
      else Some r
  end.

(** [prepare_ring]: the return value and the ring as it leaves it. *)
Definition prepare_ring (ev : bool) (ep_ring : xhci_ring) (ep_state num_trbs : Z)
    : option (Z * xhci_ring) :=
  if ep_state =? EP_STATE_DISABLED then Some (- ENOENT, ep_ring)
  else if ep_state =? EP_STATE_ERROR then Some (- EINVAL, ep_ring)
  else if (ep_state =? EP_STATE_HALTED) || (ep_state =? EP_STATE_STOPPED)
          || (ep_state =? EP_STATE_RUNNING) then
    room ← room_on_ring ev ep_ring num_trbs;
    if negb room then Some (- ENOMEM, ep_ring)
    else
      l ← enqueue_is_link_trb ep_ring;
      if l : bool then
        r ← prepare_ring_loop (ring_fuel ep_ring) ev ep_ring; Some (0, r)
      else Some (0, ep_ring)
  else Some (- EINVAL, ep_ring).

(** [ring_ep_doorbell]: the doorbell register of the slot after the call;
    [db] is its value before. *)
Definition ring_ep_doorbell (ep_state db ep_index stream_id : Z) : Z :=
  if negb (tst ep_state EP_HALT_PENDING) && negb (tst ep_state SET_DEQ_PENDING)
     && negb (tst ep_state EP_HALTED)
  then Z.lor (Z.land db DB_MASK) (Z.lor (EPI_TO_DB ep_index) (STREAM_ID_TO_DB stream_id))
  else db.

(** ** Transfer descriptors and URBs *)

Inductive usb_device_speed :=
  | USB_SPEED_UNKNOWN | USB_SPEED_LOW | USB_SPEED_FULL | USB_SPEED_HIGH
  | USB_SPEED_WIRELESS | USB_SPEED_SUPER.

(** [struct usb_ctrlrequest] *)
Record usb_ctrlrequest := mk_setup {
  bRequestType : Z; bRequest : Z; wValue : Z; wIndex : Z; wLength : Z
}.

(** [struct scatterlist], as [sg_dma_address] and [sg_dma_len] read it. *)
Record scatterlist := mk_sg { sg_dma_address : Z; sg_dma_len : Z }.

(** The fields of [struct urb] (with [urb->dev->speed], [urb->ep->desc] and
    [urb->hcpriv]) that the ring engine reads or writes.  [num_sgs] is the
    length of [sg]; [idt_data] are the first two words of
    [urb->transfer_buffer]; [td_cnt] and [priv_length] are [urb_priv->td_cnt]
    and [urb_priv->length]. *)
Record urb := mk_urb {
  transfer_buffer_length : Z;
  actual_length : Z;
  urb_status : Z;
  transfer_flags : Z;
  transfer_dma : Z;
  sg : list scatterlist;
  urb_stream_id : Z;
  speed : usb_device_speed;
  wMaxPacketSize : Z;
  ep_dir_in : bool;
  bmAttributes : Z;
  setup_packet : option usb_ctrlrequest;
  idt_data : Z * Z;
  td_cnt : Z;
  priv_length : Z
}.

Definition set_actual_length (v : Z) (u : urb) : urb :=
  mk_urb (transfer_buffer_length u) v (urb_status u) (transfer_flags u)
    (transfer_dma u) (sg u) (urb_stream_id u) (speed u) (wMaxPacketSize u)
    (ep_dir_in u) (bmAttributes u) (setup_packet u) (idt_data u) (td_cnt u) (priv_length u).
Definition set_urb_status (v : Z) (u : urb) : urb :=
  mk_urb (transfer_buffer_length u) (actual_length u) v (transfer_flags u)
    (transfer_dma u) (sg u) (urb_stream_id u) (speed u) (wMaxPacketSize u)
    (ep_dir_in u) (bmAttributes u) (setup_packet u) (idt_data u) (td_cnt u) (priv_length u).
Definition set_td_cnt (v : Z) (u : urb) : urb :=
  mk_urb (transfer_buffer_length u) (actual_length u) (urb_status u) (transfer_flags u)
    (transfer_dma u) (sg u) (urb_stream_id u) (speed u) (wMaxPacketSize u)
    (ep_dir_in u) (bmAttributes u) (setup_packet u) (idt_data u) v (priv_length u).

(** [struct xhci_td] ([td_start_seg], [td_first_trb], [td_last_trb] are its
    [start_seg], [first_trb], [last_trb]); [td_urb] names the URB in the URB
    store. *)
Record xhci_td := mk_td {
  td_urb : nat;
  td_start_seg : nat;
  td_first_trb : trb_ptr;
  td_last_trb : option trb_ptr;
  on_cancelled_list : bool
}.

Definition set_last_trb (p : trb_ptr) (td : xhci_td) : xhci_td :=
  mk_td (td_urb td) (td_start_seg td) (td_first_trb td) (Some p) (on_cancelled_list td).

(** ** TD builder *)

(** Global knobs of the test driver. *)
Variable g_is_bei : bool.
Variable g_idt_transfer : bool.
Variable g_td_to_noop : bool.

(** [queue_trb]: write the four fields at the enqueue pointer, then
    [inc_enq]. *)
Definition queue_trb (ev : bool) (r : xhci_ring) (consumer more_trbs_coming : bool)
    (f1 f2 f3 f4 : Z) : option xhci_ring :=
  r1 ← write_trb r (enqueue r) (mk_trb f1 f2 f3 f4);
  inc_enq ev r1 consumer more_trbs_coming.

(** [prepare_transfer]: [ep_ring] is what [xhci_stream_id_to_ring] returns,
    [ep_info] is [ep_ctx->ep_info], [td] names the TD [urb_priv->td[td_index]].
    Returns the error code, or the ring with the TD linked and the TD. *)
Definition prepare_transfer (ep_ring : option xhci_ring) (ep_info num_trbs : Z)
    (urb_id td : nat) : option (Z * option xhci_ring * option xhci_td) :=
  match ep_ring with
  | None => Some (- EINVAL, None, None)
  | Some r =>
      '(ret, r1) ← prepare_ring false r (Z.land ep_info EP_STATE_MASK) num_trbs;
      if negb (ret =? 0) then Some (ret, Some r1, None)
      else
        let r2 := set_td_list (td_list r1 ++ [td]) r1 in
        Some (0, Some r2, Some (mk_td urb_id (enq_seg r2) (enqueue r2) None false))
  end.

(** [xhci_td_remainder]; the arguments are [unsigned int]. *)
Definition xhci_td_remainder (td_transfer_size td_running_total maxp
    trb_buffer_length : Z) : option Z :=
  if wrap32 (td_running_total + trb_buffer_length) =? td_transfer_size then Some 0
  else if maxp =? 0 then None
  else
    let packet_transferred := to_int (td_running_total / maxp) in
    let td_packet_count := to_int (wrap32 (td_transfer_size + maxp - 1) / maxp) in
    let remainder := to_int (td_packet_count - packet_transferred) in
    if 31 <? wrap32 remainder then Some (Z.shiftl 31 17)
    else Some (wrap32 (Z.shiftl remainder 17)).

(** [switch (urb->dev->speed)] of the bulk builders; [init] is the value of
    [max_packet] before the switch. *)
Definition bulk_max_packet (init : option Z) (u : urb) : option Z :=
  match speed u with
  | USB_SPEED_SUPER => Some (wMaxPacketSize u)
  | USB_SPEED_HIGH | USB_SPEED_FULL | USB_SPEED_LOW => Some (Z.land (wMaxPacketSize u) 2047)
  | _ => init
  end.

(** [(urb->transfer_flags & URB_ZERO_PACKET) &&
     ((urb->transfer_buffer_length % max_packet) == 0)] *)
Definition wants_zlp (u : urb) (max_packet : Z) : option bool :=
  if tst (transfer_flags u) URB_ZERO_PACKET then
    if max_packet =? 0 then None
    else Some (transfer_buffer_length u mod max_packet =? 0)
  else Some false.

(** [while (running_total < len) { num_trbs++; running_total += TRB_MAX_BUFF_SIZE; }]
    with [running_total] an [int] compared as unsigned.  The loop either ends
    within [len / 64K + 1] rounds or wraps around for ever. *)
Fixpoint count_trbs_loop (fuel : nat) (running_total len num_trbs : Z) : option Z :=
  if wrap32 running_total <? len then
    match fuel with
    | O => None
    | S fuel' =>
        count_trbs_loop fuel' (to_int (running_total + TRB_MAX_BUFF_SIZE)) len
          (to_int (num_trbs + 1))
    end
  else Some num_trbs.

Definition count_fuel (len : Z) : nat := Z.to_nat (len / TRB_MAX_BUFF_SIZE + 2).

(** [giveback_first_trb], up to the doorbell. *)
Definition giveback_start_trb (r : xhci_ring) (start_trb : trb_ptr) (start_cycle : Z)
    : option xhci_ring :=
  t ← read_trb r start_trb;
  write_trb r start_trb
    (set_control t (if negb (start_cycle =? 0) then Z.lor (field3 t) start_cycle
                    else Z.land (field3 t) (Z.lnot 1))).

(** [td_to_noop]: the walk from [first_trb] to [last_trb]. *)
Fixpoint td_to_noop_loop (fuel : nat) (r : xhci_ring) (cur_seg : nat)
    (cur_trb last : trb_ptr) : option xhci_ring :=
  match fuel with
  | O => None
  | S fuel' =>
      t ← read_trb r cur_trb;
      let t' :=
        if is_link_trb t then set_control t (Z.land (field3 t) (Z.lnot TRB_CHAIN))
        else mk_trb 0 0 0 (Z.lor (Z.land (field3 t) TRB_CYCLE) (TRB_TYPE TRB_TR_NOOP)) in
      r1 ← write_trb r cur_trb t';
      if ptr_eqb cur_trb last then Some r1
      else
        '(seg', trb') ← next_trb false r1 cur_seg cur_trb;
        td_to_noop_loop fuel' r1 seg' trb' last
  end.

Definition td_to_noop (r : xhci_ring) (td : xhci_td) : option xhci_ring :=
  last ← td_last_trb td;
  td_to_noop_loop (S (length (segs r) * S TRBS_PER_SEGMENT)) r (td_start_seg td)
    (td_first_trb td) last.

(** [list_del(&td->td_list)] on the ring's TD list. *)
Fixpoint list_del (td : nat) (l : list nat) : list nat :=
  match l with
  | [] => []
  | x :: l' => if (x =? td)%nat then l' else x :: list_del td l'
  end.

(** What a builder leaves behind: its return value, the ring, the TD, the
    TRBs it handed to the ring in program order, and the endpoint's doorbell
    register. *)
Record tx_result := mk_tx {
  tx_ret : Z;
  tx_ring : option xhci_ring;
  tx_td : option xhci_td;
  tx_trbs : list xhci_trb;
  tx_db : Z
}.

(** The loop state of the bulk builders. *)
Record bulk_state := mk_bs {
  bs_ring : xhci_ring;
  bs_td : xhci_td;
  bs_trbs : list xhci_trb;
  bs_running_total : Z
}.

(** The [do { ... } while (num_trbs > 0)] of [xhci_queue_bulk_tx]. *)
Fixpoint bulk_tx_loop (fuel : nat) (u : urb) (max_packet start_cycle : Z)
    (first_trb : bool) (num_trbs running_total trb_buff_len addr : Z)
    (r : xhci_ring) (td : xhci_td) (out : list xhci_trb) : option bulk_state :=
  let field :=
    if first_trb then (if start_cycle =? 0 then 1 else 0) else cycle_state r in
  let last := negb (1 <? num_trbs) in
  let field :=
    if last then Z.lor (Z.lor field TRB_IOC) (if g_is_bei then TRB_BEI else 0)
    else Z.lor field TRB_CHAIN in
  let td := if last then set_last_trb (enqueue r) td else td in
  remainder ← xhci_td_remainder (transfer_buffer_length u) (wrap32 running_total)
                 (wrap32 max_packet) (wrap32 trb_buff_len);
  let length_field := Z.lor (Z.lor (TRB_LEN trb_buff_len) remainder) (TRB_INTR_TARGET 0) in
  let more_trbs_coming := 1 <? num_trbs in
  let idt := g_idt_transfer && negb (ep_dir_in u) in
  let f0 := if idt then (idt_data u).1 else lower_32_bits addr in
  let f1 := if idt then (idt_data u).2 else upper_32_bits addr in
  let f3 := Z.lor (Z.lor (Z.lor field TRB_ISP) (TRB_TYPE TRB_NORMAL))
              (if idt then TRB_IDT else 0) in
  r1 ← queue_trb false r false more_trbs_coming f0 f1 length_field f3;
  let out := out ++ [mk_trb f0 f1 length_field f3] in
  let num_trbs := num_trbs - 1 in
  let running_total := to_int (running_total + trb_buff_len) in
  let addr := wrap64 (addr + trb_buff_len) in
  let trb_buff_len := to_int (transfer_buffer_length u - running_total) in
  let trb_buff_len :=
    if TRB_MAX_BUFF_SIZE <? trb_buff_len then TRB_MAX_BUFF_SIZE else trb_buff_len in
  if 0 <? num_trbs then
    match fuel with
    | O => None
    | S fuel' =>
        bulk_tx_loop fuel' u max_packet start_cycle false num_trbs running_total
          trb_buff_len addr r1 td out
    end
  else Some (mk_bs r1 td out running_total).

(** [TRB_MAX_BUFF_SIZE - (addr & ((1 << TRB_MAX_BUFF_SHIFT) - 1))] *)
Definition to_boundary (addr : Z) : Z :=
  TRB_MAX_BUFF_SIZE - Z.land addr (Z.shiftl 1 TRB_MAX_BUFF_SHIFT - 1).

(** [min_t(int, a, b)] *)
Definition min_int (a b : Z) : Z := if to_int a <? to_int b then to_int a else to_int b.

(** [count_sg_trbs_needed]: the [for_each_sg] loop, [temp] is what is left
    of [urb->transfer_buffer_length]. *)
Fixpoint count_sg_loop (sgs : list scatterlist) (temp num_trbs : Z) : option Z :=
  match sgs with
  | [] => Some num_trbs
  | s :: rest =>
      let running_total := to_boundary (sg_dma_address s) in
      let num_trbs := if negb (running_total =? 0) then num_trbs + 1 else num_trbs in
      num_trbs ← count_trbs_loop (count_fuel (sg_dma_len s)) running_total
                    (sg_dma_len s) num_trbs;
      let len := wrap32 (min_int (sg_dma_len s) temp) in
      let temp := to_int (temp - len) in
      if temp =? 0 then Some num_trbs else count_sg_loop rest temp num_trbs
  end.

Definition count_sg_trbs_needed (u : urb) : option Z :=
  n ← count_sg_loop (sg u) (to_int (transfer_buffer_length u)) 0; Some (wrap32 n).

(** The [do { ... } while (num_trbs > 0)] of [queue_bulk_sg_tx]; [rest] are
    the scatterlist entries after the current one. *)
Fixpoint bulk_sg_loop (fuel : nat) (u : urb) (max_packet start_cycle : Z) (zlp : bool)
    (first_trb : bool) (num_trbs running_total trb_buff_len this_sg_len addr : Z)
    (rest : list scatterlist) (r : xhci_ring) (td : xhci_td) (out : list xhci_trb)
    : option (bulk_state * Z) :=
  let field :=
    if first_trb then (if start_cycle =? 0 then 1 else 0) else cycle_state r in
  let more := (1 <? num_trbs) || zlp in
  let field := if more then Z.lor field TRB_CHAIN else Z.lor field TRB_IOC in
  let td := if more then td else set_last_trb (enqueue r) td in
  remainder ← xhci_td_remainder (transfer_buffer_length u) (wrap32 running_total)
                 (wrap32 max_packet) (wrap32 trb_buff_len);
  let length_field := Z.lor (Z.lor (TRB_LEN trb_buff_len) remainder) (TRB_INTR_TARGET 0) in
  let f3 := Z.lor (Z.lor field TRB_ISP) (TRB_TYPE TRB_NORMAL) in
  r1 ← queue_trb false r false more (lower_32_bits addr) (upper_32_bits addr)
         length_field f3;
  let out := out ++ [mk_trb (lower_32_bits addr) (upper_32_bits addr) length_field f3] in
  let num_trbs := wrap32 (num_trbs - 1) in
  let running_total := to_int (running_total + trb_buff_len) in
  let this_sg_len := to_int (this_sg_len - trb_buff_len) in
  let continue (addr this_sg_len : Z) (rest : list scatterlist) :=
    let trb_buff_len := min_int (to_boundary addr) this_sg_len in
    let trb_buff_len :=
      if transfer_buffer_length u <? wrap32 (running_total + trb_buff_len)
      then to_int (transfer_buffer_length u - running_total) else trb_buff_len in
    if 0 <? num_trbs then
      match fuel with
      | O => None
      | S fuel' =>
          bulk_sg_loop fuel' u max_packet start_cycle zlp false num_trbs running_total
            trb_buff_len this_sg_len addr rest r1 td out
      end
    else Some (mk_bs r1 td out running_total, addr) in
  if this_sg_len =? 0 then
    match rest with
    | [] => Some (mk_bs r1 td out running_total, addr)
    | s :: rest' => continue (sg_dma_address s) (to_int (sg_dma_len s)) rest'
    end
  else continue (wrap64 (addr + trb_buff_len)) this_sg_len rest.

(** [queue_bulk_sg_tx].  [ep_ring] is the ring [xhci_urb_to_transfer_ring]
    and [xhci_stream_id_to_ring] resolve, [ep_info] the endpoint context's
    [ep_info], [ep_state] the flags of [xhci->devs[slot_id]->eps[ep_index]],
    [db] the slot's doorbell register. *)
Definition queue_bulk_sg_tx (ep_ring : option xhci_ring) (ep_info ep_state db ep_index : Z)
    (urb_id td_id : nat) (u : urb) : option tx_result :=
  match ep_ring with
  | None => Some (mk_tx (- EINVAL) None None [] db)
  | Some r0 =>
      num_trbs ← count_sg_trbs_needed u;
      '(ret, r, td) ← prepare_transfer (Some r0) ep_info num_trbs urb_id td_id;
      match r, td with
      | Some r, Some td =>
          max_packet ← bulk_max_packet None u;
          zlp ← wants_zlp u (wrap32 max_packet);
          match sg u with
          | [] => None
          | s :: rest =>
              let start_trb := enqueue r in
              let start_cycle := cycle_state r in
              let addr := sg_dma_address s in
              let this_sg_len := to_int (sg_dma_len s) in
              let trb_buff_len := min_int (to_boundary addr) this_sg_len in
              let trb_buff_len :=
                if transfer_buffer_length u <? wrap32 trb_buff_len
                then to_int (transfer_buffer_length u) else trb_buff_len in
              '(bs, addr) ← bulk_sg_loop (Z.to_nat num_trbs) u max_packet start_cycle zlp
                               true num_trbs 0 trb_buff_len this_sg_len addr rest r td [];
              '(r1, td1, out) ←
                (if zlp : bool then
                   let r := bs_ring bs in
                   let f2 := Z.lor (TRB_LEN 0) (TRB_INTR_TARGET 0) in
                   let f3 := Z.lor (Z.lor (Z.lor (cycle_state r) TRB_IOC) TRB_ISP)
                               (TRB_TYPE TRB_NORMAL) in
                   r1 ← queue_trb false r false false (lower_32_bits addr)
                          (upper_32_bits addr) f2 f3;
                   Some (r1, set_last_trb (enqueue r) (bs_td bs),
                         bs_trbs bs ++ [mk_trb (lower_32_bits addr) (upper_32_bits addr) f2 f3])
                 else Some (bs_ring bs, bs_td bs, bs_trbs bs));
              r2 ← giveback_start_trb r1 start_trb start_cycle;
              Some (mk_tx 0 (Some r2) (Some td1) out
                      (ring_ep_doorbell ep_state db ep_index (urb_stream_id u)))
          end
      | _, _ => Some (mk_tx ret r None [] db)
      end
  end.

(** [xhci_queue_bulk_tx], with the arguments of [queue_bulk_sg_tx]. *)
Definition xhci_queue_bulk_tx (ep_ring : option xhci_ring)
    (ep_info ep_state db ep_index : Z) (urb_id td_id : nat) (u : urb)
    : option tx_result :=
  if negb (length (sg u) =? 0)%nat
  then queue_bulk_sg_tx ep_ring ep_info ep_state db ep_index urb_id td_id u
  else
  match ep_ring with
  | None => Some (mk_tx (- EINVAL) None None [] db)
  | Some r0 =>
      let running_total := to_boundary (transfer_dma u) in
      let num_trbs :=
        if negb (running_total =? 0) || (transfer_buffer_length u =? 0) then 1 else 0 in
      num_trbs ← count_trbs_loop (count_fuel (transfer_buffer_length u)) running_total
                    (transfer_buffer_length u) num_trbs;
      max_packet ← bulk_max_packet (Some 0) u;
      zlp ← wants_zlp u (wrap32 max_packet);
      let num_trbs := if zlp : bool then to_int (num_trbs + 1) else num_trbs in
      '(ret, r, td) ← prepare_transfer (Some r0) ep_info (wrap32 num_trbs) urb_id td_id;
      match r, td with
      | Some r, Some td =>
          let start_trb := enqueue r in
          let start_cycle := cycle_state r in
          let addr := transfer_dma u in
          let trb_buff_len := to_boundary (transfer_dma u) in
          let trb_buff_len :=
            if transfer_buffer_length u <? wrap32 trb_buff_len
            then to_int (transfer_buffer_length u) else trb_buff_len in
          bs ← bulk_tx_loop (Z.to_nat num_trbs) u max_packet start_cycle true num_trbs 0
                 trb_buff_len addr r td [];
          r2 ← giveback_start_trb (bs_ring bs) start_trb start_cycle;
          if g_td_to_noop then
            r3 ← td_to_noop r2 (bs_td bs);
            Some (mk_tx 0 (Some (set_td_list (list_del td_id (td_list r3)) r3))
                    (Some (bs_td bs)) (bs_trbs bs) db)
          else
            Some (mk_tx 0 (Some r2) (Some (bs_td bs)) (bs_trbs bs)
                    (ring_ep_doorbell ep_state db ep_index (urb_stream_id u)))
      | _, _ => Some (mk_tx ret r None [] db)
      end
  end.

(** [xhci_queue_ctrl_tx], with the arguments of [queue_bulk_sg_tx]. *)
Definition xhci_queue_ctrl_tx (ep_ring : option xhci_ring)
    (ep_info ep_state db ep_index : Z) (urb_id td_id : nat) (u : urb)
    : option tx_result :=
  match ep_ring, setup_packet u with
  | None, _ | _, None => Some (mk_tx (- EINVAL) None None [] db)
  | Some r0, Some setup =>
      let num_trbs := if 0 <? transfer_buffer_length u then 3 else 2 in
      '(ret, r, td) ← prepare_transfer (Some r0) ep_info num_trbs urb_id td_id;
      match r, td with
      | Some r, Some td =>
          let start_trb := enqueue r in
          let start_cycle := cycle_state r in
          let dir_in := tst (bRequestType setup) USB_DIR_IN in
          let trt :=
            if num_trbs =? 2 then TRB_TRT TRT_NO_DATA
            else if dir_in then TRB_TRT TRT_IN_DATA else TRB_TRT TRT_OUT_DATA in
          let field := Z.lor (Z.lor (Z.lor TRB_IDT (TRB_TYPE TRB_SETUP)) trt)
                         (if start_cycle =? 0 then 1 else 0) in
          let s0 := wrap32 (Z.lor (Z.lor (bRequestType setup) (Z.shiftl (bRequest setup) 8))
                              (Z.shiftl (wValue setup) 16)) in
          let s1 := wrap32 (Z.lor (wIndex setup) (Z.shiftl (wLength setup) 16)) in
          let s2 := Z.lor (TRB_LEN 8) (TRB_INTR_TARGET 0) in
          r1 ← queue_trb false r false true s0 s1 s2 field;
          let out := [mk_trb s0 s1 s2 field] in
          let length_field :=
            Z.lor (TRB_LEN (transfer_buffer_length u)) (TRB_INTR_TARGET 0) in
          let lo := lower_32_bits (transfer_dma u) in
          let hi := upper_32_bits (transfer_dma u) in
          '(r2, field, out) ←
            (if (0 <? transfer_buffer_length u) : bool then
               let field := if dir_in then TRB_DIR_IN else 0 in
               let f3 := Z.lor (Z.lor (Z.lor field TRB_ISP) (TRB_TYPE TRB_DATA))
                           (cycle_state r1) in
               r2 ← queue_trb false r1 false true lo hi length_field f3;
               Some (r2, field, out ++ [mk_trb lo hi length_field f3])
             else Some (r1, 0, out));
          zlp ← wants_zlp u (wrap32 (wMaxPacketSize u));
          '(r3, out) ←
            (if zlp : bool then
               let field := if dir_in then Z.lor field TRB_DIR_IN else field in
               let f3 := Z.lor (Z.lor (Z.lor field TRB_ISP) (TRB_TYPE TRB_DATA))
                           (cycle_state r2) in
               r3 ← queue_trb false r2 false true lo hi 0 f3;
               Some (r3, out ++ [mk_trb lo hi 0 f3])
             else Some (r2, out));
          let td := set_last_trb (enqueue r3) td in
          let field :=
            if (0 <? transfer_buffer_length u) && dir_in then 0 else TRB_DIR_IN in
          let f3 := Z.lor (Z.lor (Z.lor field TRB_IOC) (TRB_TYPE TRB_STATUS))
                      (cycle_state r3) in
          r4 ← queue_trb false r3 false false 0 0 (TRB_INTR_TARGET 0) f3;
          r5 ← giveback_start_trb r4 start_trb start_cycle;
          Some (mk_tx 0 (Some r5) (Some td) (out ++ [mk_trb 0 0 (TRB_INTR_TARGET 0) f3])
                  (ring_ep_doorbell ep_state db ep_index 0))
      | _, _ => Some (mk_tx ret r None [] db)
      end
  end.

(** ** Event dispatcher *)

Definition ERST_PTR_MASK : Z := 15.
Definition ERST_EHB : Z := 8.
Definition USB_ENDPOINT_XFERTYPE_MASK : Z := 3.
Definition USB_ENDPOINT_XFER_CONTROL : Z := 0.
Definition USB_ENDPOINT_XFER_ISOC : Z := 1.

(** [struct xhci_transfer_event] and [struct xhci_event_cmd] *)
Record xhci_transfer_event := mk_tev { buffer : Z; transfer_len : Z; tev_flags : Z }.
Record xhci_event_cmd := mk_cev { cmd_trb : Z; cev_status : Z; cev_flags : Z }.

(** [struct xhci_virt_ep]: [vep_ring] is [ep->ring], [vep_state] is
    [ep->ep_state]. *)
Record xhci_virt_ep := mk_ep {
  vep_ring : option xhci_ring;
  vep_state : Z;
  stopped_td : option nat;
  stopped_trb : option trb_ptr;
  stopped_stream : Z
}.

(** [struct xhci_virt_device]: [out_ctx] lists the [ep_info] word of each
    endpoint context of the output context. *)
Record xhci_virt_device := mk_dev {
  eps : list xhci_virt_ep;
  out_ctx : list Z
}.

(** [struct xhci_hcd] with the stores its pointers lead to ([urbs], [tds])
    and the driver's globals.  A slot that [devs] does not list is NULL. *)
Record xhci_hcd := mk_xhci {
  cmd_ring : xhci_ring;
  event_ring : xhci_ring;
  devs : list (option xhci_virt_device);
  urbs : list urb;
  tds : list xhci_td;
  error_bitmask : Z;
  erst_dequeue : Z;
  g_slot_id : Z;
  g_cmd_status : Z
}.

Definition set_cmd_ring (v : xhci_ring) (x : xhci_hcd) : xhci_hcd :=
  mk_xhci v (event_ring x) (devs x) (urbs x) (tds x) (error_bitmask x)
    (erst_dequeue x) (g_slot_id x) (g_cmd_status x).
Definition set_event_ring (v : xhci_ring) (x : xhci_hcd) : xhci_hcd :=
  mk_xhci (cmd_ring x) v (devs x) (urbs x) (tds x) (error_bitmask x)
    (erst_dequeue x) (g_slot_id x) (g_cmd_status x).
Definition set_devs (v : list (option xhci_virt_device)) (x : xhci_hcd) : xhci_hcd :=
  mk_xhci (cmd_ring x) (event_ring x) v (urbs x) (tds x) (error_bitmask x)
    (erst_dequeue x) (g_slot_id x) (g_cmd_status x).
Definition set_urbs (v : list urb) (x : xhci_hcd) : xhci_hcd :=
  mk_xhci (cmd_ring x) (event_ring x) (devs x) v (tds x) (error_bitmask x)
    (erst_dequeue x) (g_slot_id x) (g_cmd_status x).
Definition set_tds (v : list xhci_td) (x : xhci_hcd) : xhci_hcd :=
  mk_xhci (cmd_ring x) (event_ring x) (devs x) (urbs x) v (error_bitmask x)
    (erst_dequeue x) (g_slot_id x) (g_cmd_status x).
Definition set_error_bitmask (v : Z) (x : xhci_hcd) : xhci_hcd :=
  mk_xhci (cmd_ring x) (event_ring x) (devs x) (urbs x) (tds x) v
    (erst_dequeue x) (g_slot_id x) (g_cmd_status x).
Definition set_erst_dequeue (v : Z) (x : xhci_hcd) : xhci_hcd :=
  mk_xhci (cmd_ring x) (event_ring x) (devs x) (urbs x) (tds x) (error_bitmask x)
    v (g_slot_id x) (g_cmd_status x).
Definition set_g_slot_id (v : Z) (x : xhci_hcd) : xhci_hcd :=
  mk_xhci (cmd_ring x) (event_ring x) (devs x) (urbs x) (tds x) (error_bitmask x)
    (erst_dequeue x) v (g_cmd_status x).
Definition set_g_cmd_status (v : Z) (x : xhci_hcd) : xhci_hcd :=
  mk_xhci (cmd_ring x) (event_ring x) (devs x) (urbs x) (tds x) (error_bitmask x)
    (erst_dequeue x) (g_slot_id x) v.

(** A pointer to an endpoint: slot and endpoint index. *)
Definition ep_ptr : Type := Z * Z.

(** Array lookup by a C index; a negative index is outside the array. *)
Definition at_index {A : Type} (l : list A) (i : Z) : option A :=
  if i <? 0 then None else l !! Z.to_nat i.

Definition get_dev (x : xhci_hcd) (slot_id : Z) : option xhci_virt_device :=
  d ← at_index (devs x) slot_id; d.

Definition get_ep (x : xhci_hcd) (ep : ep_ptr) : option xhci_virt_ep :=
  d ← get_dev x ep.1; at_index (eps d) ep.2.

Definition set_ep (x : xhci_hcd) (ep : ep_ptr) (v : xhci_virt_ep) : option xhci_hcd :=
  d ← get_dev x ep.1;
  _ ← at_index (eps d) ep.2;
  Some (set_devs (<[Z.to_nat ep.1 := Some (mk_dev (<[Z.to_nat ep.2 := v]> (eps d)) (out_ctx d))]>
                    (devs x)) x).

(** [xhci_get_ep_ctx(xhci, xdev->out_ctx, ep_index)->ep_info] *)
Definition get_ep_info (x : xhci_hcd) (ep : ep_ptr) : option Z :=
  d ← get_dev x ep.1; at_index (out_ctx d) ep.2.

(** Modelled from the spec: [xhci_dma_to_transfer_ring] is declared in the
    absent xhci.h.  The spec gives an endpoint "one ring (or several, if
    stream-capable)"; the model covers endpoints without streams, whose one
    ring is the target whatever the event's buffer address. *)
Definition xhci_dma_to_transfer_ring (ep : xhci_virt_ep) (address : Z)
    : option xhci_ring := vep_ring ep.

(** [&cur_seg->trbs[TRBS_PER_SEGMENT - 1]] as an argument of
    [xhci_trb_virt_to_dma]: before the array when a segment has no TRB. *)
Definition seg_end_dma (r : xhci_ring) (seg : nat) : option Z :=
  if (TRBS_PER_SEGMENT =? 0)%nat then Some 0
  else xhci_trb_virt_to_dma r (Some seg) (Some (seg, (TRBS_PER_SEGMENT - 1)%nat)).

(** The [do { ... } while (cur_seg != start_seg)] of [trb_in_td]. *)
Fixpoint trb_in_td_loop (fuel : nat) (r : xhci_ring) (start_seg cur_seg : nat)
    (start_dma : Z) (end_trb : option trb_ptr) (suspect_dma : Z)
    : option (option nat) :=
  match fuel with
  | O => None
  | S fuel' =>
      if start_dma =? 0 then Some None
      else
        end_seg_dma ← seg_end_dma r cur_seg;
        end_trb_dma ← xhci_trb_virt_to_dma r (Some cur_seg) end_trb;
        if 0 <? end_trb_dma then
          if start_dma <=? end_trb_dma then
            if (start_dma <=? suspect_dma) && (suspect_dma <=? end_trb_dma)
            then Some (Some cur_seg) else Some None
          else
            sg ← segs r !! cur_seg;
            if ((start_dma <=? suspect_dma) && (suspect_dma <=? end_seg_dma))
               || ((dma sg <=? suspect_dma) && (suspect_dma <=? end_trb_dma))
            then Some (Some cur_seg) else Some None
        else if (start_dma <=? suspect_dma) && (suspect_dma <=? end_seg_dma)
        then Some (Some cur_seg)
        else
          sg ← segs r !! cur_seg;
          start_dma' ← xhci_trb_virt_to_dma r (Some (next sg)) (Some (next sg, 0%nat));
          if (next sg =? start_seg)%nat then Some None
          else trb_in_td_loop fuel' r start_seg (next sg) start_dma' end_trb suspect_dma
  end.

(** [trb_in_td]: the segment holding the suspect TRB, or NULL. *)
Definition trb_in_td (r : xhci_ring) (start_seg : nat) (start_trb : trb_ptr)
    (end_trb : option trb_ptr) (suspect_dma : Z) : option (option nat) :=
  start_dma ← xhci_trb_virt_to_dma r (Some start_seg) (Some start_trb);
  trb_in_td_loop (S (length (segs r))) r start_seg start_seg start_dma end_trb suspect_dma.

(** [xhci_set_hc_event_deq] *)
Definition xhci_set_hc_event_deq (x : xhci_hcd) : option xhci_hcd :=
  deq ← xhci_trb_virt_to_dma (event_ring x) (Some (deq_seg (event_ring x)))
          (Some (dequeue (event_ring x)));
  let temp := Z.land (erst_dequeue x) ERST_PTR_MASK in
  let temp := Z.land temp (Z.lnot ERST_EHB) in
  Some (set_erst_dequeue (Z.lor (Z.land deq (wrap64 (Z.lnot ERST_PTR_MASK))) temp) x).

(** [ep->ep_state &= ~flag] on [xhci->devs[slot_id]->eps[ep_index]] *)
Definition clear_ep_flag (x : xhci_hcd) (ep : ep_ptr) (flag : Z) : option xhci_hcd :=
  e ← get_ep x ep;
  set_ep x ep (mk_ep (vep_ring e) (Z.land (vep_state e) (Z.lnot flag)) (stopped_td e)
                 (stopped_trb e) (stopped_stream e)).

(** The [switch] of [handle_cmd_completion] on the type of the command TRB
    [trb]: the state after the case, and whether the function goes on to
    [inc_deq] ([false]: the [return] of the [default] case). *)
Definition cmd_completion_switch (x : xhci_hcd) (event : xhci_event_cmd)
    (trb : xhci_trb) : option (xhci_hcd * bool) :=
  let slot_id := TRB_TO_SLOT_ID (cev_flags event) in
  let ty := Z.land (field3 trb) TRB_TYPE_BITMASK in
  let comp := GET_COMP_CODE (cev_status event) in
  if ty =? TRB_TYPE TRB_CMD_NOOP then Some (x, true)
  else if ty =? TRB_TYPE TRB_ENABLE_SLOT then
    Some (if comp =? COMP_SUCCESS
          then set_g_cmd_status CMD_DONE (set_g_slot_id slot_id x)
          else set_g_cmd_status CMD_FAIL (set_g_slot_id 0 x), true)
  else if ty =? TRB_TYPE TRB_DISABLE_SLOT then
    Some (if comp =? COMP_SUCCESS
          then set_g_cmd_status CMD_DONE (set_g_slot_id slot_id x) else x, true)
  else if ty =? TRB_TYPE TRB_ADDR_DEV then
    Some (set_g_cmd_status
            (if (comp =? COMP_SUCCESS) || (comp =? COMP_CMD_ABORT)
             then CMD_DONE else CMD_FAIL) x, true)
  else if (ty =? TRB_TYPE TRB_CONFIG_EP) || (ty =? TRB_TYPE TRB_RESET_DEV)
          || (ty =? TRB_TYPE TRB_STOP_RING) || (ty =? TRB_TYPE TRB_EVAL_CONTEXT) then
    Some (set_g_cmd_status (if comp =? COMP_SUCCESS then CMD_DONE else CMD_FAIL) x, true)
  else if ty =? TRB_TYPE TRB_SET_DEQ then
    if comp =? COMP_SUCCESS then
      x' ← clear_ep_flag x (slot_id, TRB_TO_EP_INDEX (field3 trb)) SET_DEQ_PENDING;
      Some (set_g_cmd_status CMD_DONE x', true)
    else Some (set_g_cmd_status CMD_FAIL x, true)
  else if ty =? TRB_TYPE TRB_RESET_EP then
    x' ← clear_ep_flag x (slot_id, TRB_TO_EP_INDEX (field3 trb)) EP_HALTED;
    Some (set_g_cmd_status CMD_DONE x', true)
  else if comp =? COMP_CMD_STOP then Some (set_g_cmd_status CMD_DONE x, false)
  else
    Some (set_g_cmd_status CMD_FAIL
            (set_error_bitmask (Z.lor (error_bitmask x) (Z.shiftl 1 6)) x), true).

(** [handle_cmd_completion] *)
Definition handle_cmd_completion (x : xhci_hcd) (event : xhci_event_cmd)
    : option xhci_hcd :=
  let cmd_dma := cmd_trb event in
  cmd_dequeue_dma ← xhci_trb_virt_to_dma (cmd_ring x) (Some (deq_seg (cmd_ring x)))
                      (Some (dequeue (cmd_ring x)));
  if cmd_dequeue_dma =? 0 then
    Some (set_error_bitmask (Z.lor (error_bitmask x) (Z.shiftl 1 4)) x)
  else if negb (cmd_dma =? cmd_dequeue_dma) then
    Some (set_error_bitmask (Z.lor (error_bitmask x) (Z.shiftl 1 5)) x)
  else
    trb ← read_trb (cmd_ring x) (dequeue (cmd_ring x));
    '(x1, go_on) ← cmd_completion_switch x event trb;
    if go_on : bool then
      r ← inc_deq false (cmd_ring x1) false; Some (set_cmd_ring r x1)
    else Some x1.

(** Callees of the transfer-event path that the model leaves open:
    [GET_TRANSFER_LENGTH] (a macro of the absent header), the halted-endpoint
    recovery and the three per-transfer-type handlers.  Each handler returns
    its return value, [*status] and the controller state. *)
Variable GET_TRANSFER_LENGTH : Z -> Z.
Variable xhci_cleanup_halted_endpoint :
  xhci_hcd -> Z -> Z -> Z -> nat -> trb_ptr -> option xhci_hcd.
Variable process_ctrl_td process_isoc_td process_bulk_intr_td :
  xhci_hcd -> nat -> trb_ptr -> xhci_transfer_event -> ep_ptr -> Z -> option (Z * Z * xhci_hcd).

Definition xhci_requires_manual_halt_cleanup (ep_info trb_comp_code : Z) : bool :=
  ((trb_comp_code =? COMP_TX_ERR) || (trb_comp_code =? COMP_BABBLE)
   || (trb_comp_code =? COMP_SPLIT_ERR))
  && (Z.land ep_info EP_STATE_MASK =? EP_STATE_HALTED).

Definition xhci_is_vendor_info_code (trb_comp_code : Z) : bool :=
  (224 <=? trb_comp_code) && (trb_comp_code <=? 255).

(** [while (ep_ring->dequeue != td->last_trb) inc_deq(xhci, ep_ring, false);] *)
Fixpoint deq_to_last_trb (fuel : nat) (r : xhci_ring) (last : option trb_ptr)
    : option xhci_ring :=
  match fuel with
  | O => None
  | S fuel' =>
      if (match last with Some p => ptr_eqb (dequeue r) p | None => false end)
      then Some r
      else r1 ← inc_deq false r false; deq_to_last_trb fuel' r1 last
  end.

Definition set_ep_ring (x : xhci_hcd) (ep : ep_ptr) (r : xhci_ring) : option xhci_hcd :=
  e ← get_ep x ep;
  set_ep x ep (mk_ep (Some r) (vep_state e) (stopped_td e) (stopped_trb e) (stopped_stream e)).

(** The [td_cleanup:] part of [finish_td]. *)
Definition td_cleanup (x : xhci_hcd) (td : nat) (event : xhci_transfer_event)
    (ep : ep_ptr) (status : Z) : option (Z * Z * xhci_hcd) :=
  t ← tds x !! td;
  u ← urbs x !! td_urb t;
  let '(u1, status) :=
    if transfer_buffer_length u <? actual_length u then
      (set_actual_length 0 u,
       if tst (transfer_flags u) URB_SHORT_NOT_OK then - EREMOTEIO else 0)
    else (u, status) in
  e ← get_ep x ep;
  x1 ← match xhci_dma_to_transfer_ring e (buffer event) with
       | Some r => set_ep_ring x ep (set_td_list (list_del td (td_list r)) r)
       | None => Some x
       end;
  let t1 := mk_td (td_urb t) (td_start_seg t) (td_first_trb t) (td_last_trb t) false in
  let u2 := set_td_cnt (wrap32 (td_cnt u1 + 1)) u1 in
  let x2 := set_urbs (<[td_urb t := u2]> (urbs x1)) (set_tds (<[td := t1]> (tds x1)) x1) in
  Some (if td_cnt u2 =? priv_length u2 then 1 else 0, status, x2).

(** [finish_td]: the return value, [*status] and the controller state. *)
Definition finish_td (x : xhci_hcd) (td : nat) (event_trb : trb_ptr)
    (event : xhci_transfer_event) (ep : ep_ptr) (status : Z) (skip : bool)
    : option (Z * Z * xhci_hcd) :=
  let slot_id := TRB_TO_SLOT_ID (tev_flags event) in
  xdev ← get_dev x slot_id;
  let ep_index := TRB_TO_EP_ID (tev_flags event) - 1 in
  e ← get_ep x ep;
  let ep_ring := xhci_dma_to_transfer_ring e (buffer event) in
  let trb_comp_code := GET_COMP_CODE (transfer_len event) in
  if skip then td_cleanup x td event ep status
  else if (trb_comp_code =? COMP_STOP_INVAL) || (trb_comp_code =? COMP_STOP) then
    x1 ← set_ep x ep (mk_ep (vep_ring e) (vep_state e) (Some td) (Some event_trb)
                        (stopped_stream e));
    Some (0, status, x1)
  else
    x1 ← (if trb_comp_code =? COMP_STALL then
            r ← ep_ring;
            set_ep x ep (mk_ep (vep_ring e) (vep_state e) (Some td) (Some event_trb)
                           (stream_id r))
          else
            ep_info ← at_index (out_ctx xdev) ep_index;
            if xhci_requires_manual_halt_cleanup ep_info trb_comp_code then
              r ← ep_ring;
              xhci_cleanup_halted_endpoint x slot_id ep_index (stream_id r) td event_trb
            else
              r ← ep_ring;
              t ← tds x !! td;
              r1 ← deq_to_last_trb (S (length (segs r) * S TRBS_PER_SEGMENT)) r
                     (td_last_trb t);
              r2 ← inc_deq false r1 false;
              set_ep_ring x ep r2);
    td_cleanup x1 td event ep status.

(** The [switch (trb_comp_code)] of [handle_tx_event] on the URB [u] of the
    TD: the state to go on with, or the value the function returns at once.
    The vendor-code case writes through [urb], which is NULL there. *)
Definition tx_event_switch (x : xhci_hcd) (event : xhci_transfer_event) (ep : ep_ptr)
    (e : xhci_virt_ep) (urb_id : nat) (u : urb) : option (xhci_hcd + Z) :=
  let trb_comp_code := GET_COMP_CODE (transfer_len event) in
  let isoc := Z.land (bmAttributes u) USB_ENDPOINT_XFERTYPE_MASK =? USB_ENDPOINT_XFER_ISOC in
  let upd (u' : urb) : option (xhci_hcd + Z) :=
    Some (inl (set_urbs (<[urb_id := u']> (urbs x)) x)) in
  if (trb_comp_code =? COMP_SUCCESS) || (trb_comp_code =? COMP_SHORT_TX) then
    if isoc then Some (inl x)
    else upd (set_urb_status 0
                (set_actual_length
                   (wrap32 (transfer_buffer_length u
                            - GET_TRANSFER_LENGTH (transfer_len event))) u))
  else if (trb_comp_code =? COMP_STOP) || (trb_comp_code =? COMP_STOP_INVAL)
          || (trb_comp_code =? COMP_BW_OVER) || (trb_comp_code =? COMP_BUFF_OVER)
          || (trb_comp_code =? COMP_UNDERRUN) || (trb_comp_code =? COMP_OVERRUN)
          || (trb_comp_code =? COMP_MISSED_INT) then Some (inl x)
  else if trb_comp_code =? COMP_STALL then
    x' ← set_ep x ep (mk_ep (vep_ring e) (Z.lor (vep_state e) EP_HALTED)
                        (stopped_td e) (stopped_trb e) (stopped_stream e));
    Some (inl (set_urbs (<[urb_id := set_urb_status (- EPIPE) u]> (urbs x')) x'))
  else if trb_comp_code =? COMP_TRB_ERR then upd (set_urb_status (- EILSEQ) u)
  else if (trb_comp_code =? COMP_SPLIT_ERR) || (trb_comp_code =? COMP_TX_ERR)
  then upd (set_urb_status (- EPROTO) u)
  else if trb_comp_code =? COMP_BABBLE then upd (set_urb_status (- EOVERFLOW) u)
  else if trb_comp_code =? COMP_DB_ERR then upd (set_urb_status (- ENOSR) u)
  else if xhci_is_vendor_info_code trb_comp_code then None
  else Some (inr (- ENODEV)).

(** [handle_tx_event]: the return value and the controller state. *)
Definition handle_tx_event (x : xhci_hcd) (event : xhci_transfer_event)
    : option (Z * xhci_hcd) :=
  let cleanup (x : xhci_hcd) :=
    r ← inc_deq true (event_ring x) true;
    x1 ← xhci_set_hc_event_deq (set_event_ring r x);
    Some (0, x1) in
  let trb_comp_code := GET_COMP_CODE (transfer_len event) in
  if (trb_comp_code =? COMP_UNDERRUN) || (trb_comp_code =? COMP_OVERRUN) then cleanup x
  else
    let slot_id := TRB_TO_SLOT_ID (tev_flags event) in
    match get_dev x slot_id with
    | None => Some (- ENODEV, x)
    | Some xdev =>
        let ep_index := TRB_TO_EP_ID (tev_flags event) - 1 in
        let ep := (slot_id, ep_index) in
        e ← at_index (eps xdev) ep_index;
        match xhci_dma_to_transfer_ring e (buffer event) with
        | None => Some (- ENODEV, x)
        | Some ep_ring =>
            ep_info ← at_index (out_ctx xdev) ep_index;
            if Z.land ep_info EP_STATE_MASK =? EP_STATE_DISABLED then Some (- ENODEV, x)
            else
              let event_dma := buffer event in
              match td_list ep_ring with
              | [] => cleanup x
              | td :: _ =>
                  t ← tds x !! td;
                  event_seg ← trb_in_td ep_ring (deq_seg ep_ring) (dequeue ep_ring)
                                (td_last_trb t) event_dma;
                  match event_seg with
                  | None => Some (- ESHUTDOWN, x)
                  | Some event_seg =>
                      sg ← segs ep_ring !! event_seg;
                      let event_trb : trb_ptr :=
                        (event_seg, Z.to_nat ((event_dma - dma sg) / SIZEOF_TRB)) in
                      u ← urbs x !! td_urb t;
                      sw ← tx_event_switch x event ep e (td_urb t) u;
                      match sw with
                      | inr ret => Some (ret, x)
                      | inl x1 =>
                          let ty := Z.land (bmAttributes u) USB_ENDPOINT_XFERTYPE_MASK in
                          '(_, _, x2) ←
                            (if ty =? USB_ENDPOINT_XFER_CONTROL
                             then process_ctrl_td x1 td event_trb event ep (- EINPROGRESS)
                             else if ty =? USB_ENDPOINT_XFER_ISOC
                             then process_isoc_td x1 td event_trb event ep (- EINPROGRESS)
                             else process_bulk_intr_td x1 td event_trb event ep (- EINPROGRESS));
                          cleanup x2
                      end
                  end
              end
        end
    end.

(** ** Reference points for the statements *)

(** The ring after the dequeue (enqueue) cursor has been set to [p] in
    segment [s] by one [inc_deq] ([inc_enq]). *)
Definition deq_moved (r : xhci_ring) (s : nat) (p : trb_ptr) : xhci_ring :=
  set_dequeue s p (set_deq_updates (wrap32 (deq_updates r + 1)) r).
Definition enq_moved (r : xhci_ring) (s : nat) (p : trb_ptr) : xhci_ring :=
  set_enqueue s p (set_enq_updates (wrap32 (enq_updates r + 1)) r).

(** ** Predicates and measures of the statements *)

(** The control word [inc_enq] leaves in a link TRB it hands over. *)
Definition enq_link_control (c chain : Z) : Z :=
  Z.lxor (if xhci_link_trb_quirk then c
          else Z.lor (Z.land c (Z.lnot TRB_CHAIN)) chain) TRB_CYCLE.

(** The control word [prepare_ring] leaves in a link TRB it hands over. *)
Definition prep_link_control (c : Z) : Z :=
  Z.lxor (if xhci_link_trb_quirk then Z.lor c TRB_CHAIN
          else Z.land c (Z.lnot TRB_CHAIN)) TRB_CYCLE.

Definition ep_state_ok (ep_state : Z) : Prop :=
  ep_state = EP_STATE_RUNNING \/ ep_state = EP_STATE_HALTED \/ ep_state = EP_STATE_STOPPED.

(** [enq++] followed by the link-skipping loop: the next slot a TRB can go
    to. *)
Definition ring_advance (ev : bool) (r : xhci_ring) (c : nat * trb_ptr)
    : option (nat * trb_ptr) :=
  skip_link_trbs (ring_fuel r) ev r c.1 (ptr_succ c.2).

(** The slot [k] advances after [c]. *)
Fixpoint nth_slot (k : nat) (ev : bool) (r : xhci_ring) (c : nat * trb_ptr)
    : option (nat * trb_ptr) :=
  match k with
  | O => Some c
  | S k' => c' ← ring_advance ev r c; nth_slot k' ev r c'
  end.

(** The segments are linked into one cycle in the order of the store. *)
Definition ring_linked (r : xhci_ring) : Prop :=
  forall i sg, segs r !! i = Some sg -> next sg = (S i mod length (segs r))%nat.

(** A segment of a transfer or command ring: [TRBS_PER_SEGMENT] TRBs, the
    last one a link TRB, no other. *)
Definition seg_ok (n : nat) (sg : xhci_segment) : Prop :=
  length (trbs sg) = TRBS_PER_SEGMENT /\ (next sg < n)%nat /\
  Forall (fun t => is_link_trb t = false) (take (TRBS_PER_SEGMENT - 1) (trbs sg)) /\
  Forall (fun t => is_link_trb t = true) (drop (TRBS_PER_SEGMENT - 1) (trbs sg)).

Definition mem_ok (r : xhci_ring) : Prop :=
  (2 <= TRBS_PER_SEGMENT)%nat /\ Forall (seg_ok (length (segs r))) (segs r) /\
  (cycle_state r = 0 \/ cycle_state r = 1).

(** A ring whose enqueue cursor points into its enqueue segment. *)
Definition ring_ok (r : xhci_ring) : Prop :=
  mem_ok r /\ (enqueue r).1 = enq_seg r /\ (enq_seg r < length (segs r))%nat /\
  ((enqueue r).2 < TRBS_PER_SEGMENT)%nat.

(** The enqueue cursor is not on the link TRB. *)
Definition enq_ready (r : xhci_ring) : Prop := (S (enqueue r).2 < TRBS_PER_SEGMENT)%nat.

(** The type field of a TRB. *)
Definition trb_type (t : xhci_trb) : Z :=
  Z.shiftr (Z.land (field3 t) TRB_TYPE_BITMASK) 10.

(** The command types [handle_cmd_completion] has a [case] for. *)
Definition cmd_type_known (ty : Z) : bool :=
  existsb (Z.eqb ty)
    (TRB_TYPE <$> [TRB_CMD_NOOP; TRB_ENABLE_SLOT; TRB_DISABLE_SLOT; TRB_ADDR_DEV;
                   TRB_CONFIG_EP; TRB_RESET_DEV; TRB_STOP_RING; TRB_EVAL_CONTEXT;
                   TRB_SET_DEQ; TRB_RESET_EP]).

(** What a queued Normal TRB says: its buffer address, its length and its
    TD size (the "remainder", bits 21:17 of the length word). *)
Definition trb_buf_addr (t : xhci_trb) : Z := field0 t + 2 ^ 32 * field1 t.

Definition trb_buf_len (t : xhci_trb) : Z := TRB_LEN (field2 t).

Definition trb_td_size (t : xhci_trb) : Z := Z.land (Z.shiftr (field2 t) 17) 31.

(** The bytes a list of TRBs carries. *)
Fixpoint td_bytes (l : list xhci_trb) : Z :=
  match l with
  | [] => 0
  | t :: l' => trb_buf_len t + td_bytes l'
  end.

(** The packets of a transfer of [len] bytes that are not yet accounted for
    when [running_total] bytes have been queued, capped to the five bits of
    the field. *)
Definition packets_left (len maxp running_total : Z) : Z :=
  Z.min 31 ((len + maxp - 1) / maxp - running_total / maxp).

(** The 64KB chunks a buffer of [len] bytes needs after its first [b]
    bytes. *)
Definition chunks_after (b len : Z) : Z :=
  if b <? len then (len - b + 65535) / 65536 else 0.

(** The TRBs of a TD as [xhci_queue_bulk_tx] lays them out from
    [running_total] bytes into a transfer of [len] bytes, at [addr] in the
    buffer: each TRB stays below [len], ends in the 64KB block it starts in
    and, where TRBs carry addresses, holds [addr]; its TD size is zero if it
    completes the length and the packets left before it otherwise; the next
    one goes on where it ends; the list ends with the length complete. *)
Fixpoint td_layout (len maxp : Z) (with_addr : bool) (running_total addr : Z)
    (l : list xhci_trb) : Prop :=
  match l with
  | [] => running_total = len
  | t :: l' =>
      0 <= trb_buf_len t /\ running_total + trb_buf_len t <= len
      /\ addr mod 65536 + trb_buf_len t <= 65536
      /\ (with_addr = true -> trb_buf_addr t = addr)
      /\ trb_td_size t = (if running_total + trb_buf_len t =? len then 0
                          else packets_left len maxp running_total)
      /\ td_layout len maxp with_addr (running_total + trb_buf_len t)
           (addr + trb_buf_len t) l'
  end.

(** The TRBs [xhci_queue_bulk_tx] reserves: one up to the first 64KB
    boundary, one per 64KB chunk begun after it, one for a zero-length
    packet. *)
Definition bulk_trbs_needed (u : urb) (zlp : bool) : Z :=
  1 + chunks_after (to_boundary (transfer_dma u)) (transfer_buffer_length u)
  + (if zlp then 1 else 0).

(** A scatterlist entry the builders can work on: its length fits an [int]
    and its buffer does not wrap around the address space. *)
Definition sg_ok (s : scatterlist) : Prop :=
  0 <= sg_dma_address s /\ 0 <= sg_dma_len s < 2 ^ 31
  /\ sg_dma_address s + sg_dma_len s < 2 ^ 64.

Fixpoint sg_bytes (l : list scatterlist) : Z :=
  match l with
  | [] => 0
  | s :: l' => sg_dma_len s + sg_bytes l'
  end.

(** The TRBs [count_sg_trbs_needed] counts for one entry, and for the
    entries up to the one where the [temp] bytes of the transfer end. *)
Definition entry_trbs (addr len : Z) : Z := 1 + chunks_after (to_boundary addr) len.

Fixpoint sg_trbs_needed (sgs : list scatterlist) (temp : Z) : Z :=
  match sgs with
  | [] => 0
  | s :: rest =>
      entry_trbs (sg_dma_address s) (sg_dma_len s)
      + (if temp <=? sg_dma_len s then 0 else sg_trbs_needed rest (temp - sg_dma_len s))
  end.

(** The TRBs still reserved for the transfer when the builder is inside an
    entry with [this_len] bytes left from [addr], and [rem] bytes of the
    transfer are to go. *)
Definition sg_need (addr this_len : Z) (rest : list scatterlist) (rem : Z) : Z :=
  entry_trbs addr this_len
  + (if rem <=? this_len then 0 else sg_trbs_needed rest (rem - this_len)).

(** The TRBs the bulk builder reserves for a URB. *)
Definition urb_trbs_needed (u : urb) (zlp : bool) : Z :=
  match sg u with
  | [] => bulk_trbs_needed u zlp
  | _ :: _ => sg_trbs_needed (sg u) (transfer_buffer_length u)
  end.

(** The buffer of a URB: the DMA address, or a scatterlist of well-formed
    entries that holds the transfer length. *)
Definition urb_buffer_ok (u : urb) : Prop :=
  match sg u with
  | [] => 0 <= transfer_dma u /\ transfer_dma u + transfer_buffer_length u < 2 ^ 64
  | _ :: _ =>
      Forall sg_ok (sg u) /\ transfer_buffer_length u <= sg_bytes (sg u)
      /\ sg_trbs_needed (sg u) (transfer_buffer_length u) < 2 ^ 31
  end.

(** The first two words of the TRBs are a buffer address (not immediate
    data). *)
Definition carries_address (u : urb) : bool :=
  match sg u with
  | [] => negb (g_idt_transfer && negb (ep_dir_in u))
  | _ :: _ => true
  end.

(** The bytes of a TRB lie in one 64KB-aligned block. *)
Definition in_64k_block (t : xhci_trb) : Prop :=
  exists k, 65536 * k <= trb_buf_addr t
            /\ trb_buf_addr t + trb_buf_len t <= 65536 * (k + 1).

(** ** Concrete rings, requests and controller states

    Segments of four TRBs; [ex_ring] is an empty one-segment ring whose
    cursors stand in front of the link TRB.  They are what the evaluations
    after the proofs run on. *)

Definition link_trb (ctl : Z) : xhci_trb := mk_trb 0 0 0 (Z.lor (TRB_TYPE TRB_LINK) ctl).

Definition ex_seg : xhci_segment :=
  mk_seg [zero_trb; zero_trb; zero_trb; link_trb LINK_TOGGLE] 0 4096 32768.

Definition ex_ring : xhci_ring :=
  mk_ring [ex_seg] 0 (0, 2)%nat 0 0 (0, 2)%nat 0 0 1 0 [].

(** The same ring with one free slot left. *)
Definition ex_ring_full : xhci_ring :=
  mk_ring [ex_seg] 0 (0, 1)%nat 0 0 (0, 2)%nat 0 0 1 0 [].

(** The same ring, empty, with the dequeue pointer on the link TRB. *)
Definition ex_ring_deq_link : xhci_ring :=
  mk_ring [ex_seg] 0 (0, 0)%nat 0 0 (0, 3)%nat 0 0 1 0 [].

(** Segments of sixteen TRBs for the TD builders. *)
Definition ex_seg16 : xhci_segment :=
  mk_seg (replicate 15 zero_trb ++ [link_trb LINK_TOGGLE]) 0 4096 32768.
Definition ex_ring16 : xhci_ring :=
  mk_ring [ex_seg16] 0 (0, 2)%nat 0 0 (0, 2)%nat 0 0 1 0 [].

(** A SuperSpeed bulk OUT URB with 512-byte packets, and a control URB
    without data stage. *)
Definition ex_bulk_urb (dma_addr len flags : Z) (sgs : list scatterlist) : urb :=
  mk_urb len 0 0 flags dma_addr sgs 0 USB_SPEED_SUPER 512 false 2 None (0, 0) 0 1.
Definition ex_setup : usb_ctrlrequest := mk_setup 0 5 1 0 0.
Definition ex_ctrl_urb (flags : Z) : urb :=
  mk_urb 0 0 0 flags 0 [] 0 USB_SPEED_SUPER 512 false 0 (Some ex_setup) (0, 0) 0 1.

(** A command ring with an Enable Slot command at the dequeue pointer, an
    event ring, and controller states around them. *)
Definition ex_cmd_seg : xhci_segment :=
  mk_seg [zero_trb; zero_trb; mk_trb 0 0 0 (Z.lor (TRB_TYPE TRB_ENABLE_SLOT) 1);
          link_trb LINK_TOGGLE] 0 4096 32768.
Definition ex_cmd_ring : xhci_ring :=
  mk_ring [ex_cmd_seg] 0 (0, 2)%nat 0 0 (0, 2)%nat 0 0 1 0 [].
Definition ex_ev_seg : xhci_segment :=
  mk_seg [zero_trb; zero_trb; zero_trb; zero_trb] 0 8192 36864.
Definition ex_ev_ring : xhci_ring :=
  mk_ring [ex_ev_seg] 0 (0, 0)%nat 0 0 (0, 0)%nat 0 0 1 0 [].
Definition ex_xhci (cmd : xhci_ring) : xhci_hcd :=
  mk_xhci cmd ex_ev_ring [] [] [] 0 0 0 0.
Definition ex_stop_event : xhci_event_cmd := mk_cev 4128 (Z.shiftl COMP_CMD_STOP 24) 0.
Definition ex_done_event : xhci_event_cmd :=
  mk_cev 4128 (Z.shiftl COMP_SUCCESS 24) (Z.shiftl 1 24).

(** Slot 1 with one endpoint whose ring has the TDs [tdl] pending; TD 0 runs
    from the first to the second TRB of the segment and belongs to URB 0,
    which reports [actual] bytes of its eight. *)
Definition ex_ep_ring (tdl : list nat) : xhci_ring :=
  mk_ring [ex_seg] 0 (0, 2)%nat 0 0 (0, 0)%nat 0 0 1 0 tdl.
Definition ex_dev (tdl : list nat) : xhci_virt_device :=
  mk_dev [mk_ep (Some (ex_ep_ring tdl)) 0 None None 0] [EP_STATE_RUNNING].
Definition ex_td : xhci_td := mk_td 0 0 (0, 0)%nat (Some (0, 1)%nat) false.
Definition ex_tx_urb (actual flags : Z) : urb :=
  mk_urb 8 actual 0 flags 65536 [] 0 USB_SPEED_SUPER 512 false 2 None (0, 0) 0 1.
Definition ex_tx_xhci (tdl : list nat) (actual flags : Z) : xhci_hcd :=
  mk_xhci ex_ring ex_ev_ring [None; Some (ex_dev tdl)] [ex_tx_urb actual flags] [ex_td]
    0 0 0 0.
Definition ex_tx_event (buf : Z) : xhci_transfer_event :=
  mk_tev buf (Z.shiftl COMP_SUCCESS 24) (Z.lor (Z.shiftl 1 24) (Z.shiftl 1 16)).
(** A ring underrun event for the same endpoint, naming the fourth TRB of
    the segment. *)
Definition ex_underrun_event : xhci_transfer_event :=
  mk_tev 4144 (Z.shiftl COMP_UNDERRUN 24) (Z.lor (Z.shiftl 1 24) (Z.shiftl 1 16)).

(** Stand-ins for the callees the model leaves open. *)
Definition ex_transfer_length (p : Z) : Z := Z.land p 16777215.
Definition ex_no_cleanup (x : xhci_hcd) (slot ep stream : Z) (td : nat) (trb : trb_ptr)
    : option xhci_hcd := None.
Definition ex_process_td (x : xhci_hcd) (td : nat) (trb : trb_ptr)
    (event : xhci_transfer_event) (ep : ep_ptr) (status : Z)
    : option (Z * Z * xhci_hcd) := Some (0, status, x).

(** ** Relations between a ring before and after an operation *)

(** [r'] holds the TRBs of [r] except for the control words of link TRBs:
    every TRB keeps its first three words and its being a link TRB or not,
    and a TRB that is no link TRB is the same. *)
Definition same_but_links (r r' : xhci_ring) : Prop :=
  forall p t, read_trb r p = Some t ->
    exists t', read_trb r' p = Some t'
               /\ field0 t' = field0 t /\ field1 t' = field1 t /\ field2 t' = field2 t
               /\ is_link_trb t' = is_link_trb t
               /\ (is_link_trb t = false -> t' = t).

(** ** The event loop *)

(** Event TRB types, the completion code of a full event ring and the
    dying flag; as the constants above, the values are those of the xHCI
    specification and of [xhc_state]'s first bit. *)
Definition TRB_TRANSFER : Z := 32.
Definition TRB_COMPLETION : Z := 33.
Definition TRB_PORT_STATUS : Z := 34.
Definition COMP_ER_FULL : Z := 21.
Definition XHCI_STATE_DYING : Z := 1.

(** The views [event->event_cmd] and [event->trans_event] of an event TRB:
    the first two words are one 64-bit address. *)
Definition as_event_cmd (t : xhci_trb) : xhci_event_cmd :=
  mk_cev (field0 t + 2 ^ 32 * field1 t) (field2 t) (field3 t).
Definition as_trans_event (t : xhci_trb) : xhci_transfer_event :=
  mk_tev (field0 t + 2 ^ 32 * field1 t) (field2 t) (field3 t).

(** The test driver's switch for the event-ring-full test, and the port
    status handler, which reads port registers the model does not hold. *)
Variable g_event_full : bool.
Variable handle_port_status : xhci_hcd -> xhci_trb -> option xhci_hcd.

(** [xhci_handle_event]: the return value and the controller state.
    [xhc_state] is [xhci->xhc_state], which no handler of this file writes.
    The event ring and its dequeue pointer are values of the model, so the
    first test (either of them NULL) cannot hit; the counters
    [g_got_event_full], [g_mfindex_event], [g_dev_notification] and
    [g_dev_not_value], which the ring engine never reads, have no place in
    the state. *)
Definition xhci_handle_event (xhc_state : Z) (x : xhci_hcd) : option (Z * xhci_hcd) :=
  event ← read_trb (event_ring x) (dequeue (event_ring x));
  if negb (Z.land (field3 event) TRB_CYCLE =? cycle_state (event_ring x)) then
    Some (0, set_error_bitmask (Z.lor (error_bitmask x) (Z.shiftl 1 2)) x)
  else if g_event_full && negb (GET_COMP_CODE (field2 event) =? COMP_ER_FULL) then
    r ← inc_deq true (event_ring x) true; Some (0, set_event_ring r x)
  else
    let ty := Z.land (field3 event) TRB_TYPE_BITMASK in
    '(x1, update_ptrs) ←
      (if ty =? TRB_TYPE TRB_COMPLETION then
         x1 ← handle_cmd_completion x (as_event_cmd event); Some (x1, true)
       else if ty =? TRB_TYPE TRB_PORT_STATUS then
         x1 ← handle_port_status x event; Some (x1, false)
       else if ty =? TRB_TYPE TRB_TRANSFER then
         '(ret, x1) ← handle_tx_event x (as_trans_event event);
         if ret <? 0
         then Some (set_error_bitmask (Z.lor (error_bitmask x1) (Z.shiftl 1 9)) x1, true)
         else Some (x1, false)
       else Some (x, true));
    if tst xhc_state XHCI_STATE_DYING then Some (0, x1)
    else if update_ptrs : bool then
      r ← inc_deq true (event_ring x1) true; Some (1, set_event_ring r x1)
    else Some (1, x1).

(** A handler of transfer events that leaves the event ring to its caller. *)
Definition keeps_event_ring
    (h : xhci_hcd -> nat -> trb_ptr -> xhci_transfer_event -> ep_ptr -> Z
         -> option (Z * Z * xhci_hcd)) : Prop :=
  forall x td trb event ep status ret status' x',
    h x td trb event ep status = Some (ret, status', x') -> event_ring x' = event_ring x.

(** An event ring whose first TRB is [t], a controller state with an Enable
    Slot command pending in front of it, and a stand-in for the port status
    handler. *)
Definition ex_event_ring (t : xhci_trb) : xhci_ring :=
  mk_ring [mk_seg [t; zero_trb; zero_trb; zero_trb] 0 8192 36864] 0 (0, 0)%nat 0 0 (0, 0)%nat
    0 0 1 0 [].
Definition ex_event_xhci (t : xhci_trb) : xhci_hcd :=
  mk_xhci ex_cmd_ring (ex_event_ring t) [] [] [] 0 0 0 0.
Definition ex_completion_event : xhci_trb :=
  mk_trb 4128 0 (Z.shiftl COMP_SUCCESS 24)
    (Z.lor (Z.lor (TRB_TYPE TRB_COMPLETION) (Z.shiftl 1 24)) TRB_CYCLE).
Definition ex_port_status (x : xhci_hcd) (t : xhci_trb) : option xhci_hcd := None.

(** ** Commands *)

(** [queue_command]: the return value and the controller state; [reserved]
    is [xhci->cmd_ring_reserved_trbs], an [int] that [prepare_ring] takes
    as [unsigned int]. *)
Definition queue_command (reserved : Z) (x : xhci_hcd) (field1 field2 field3 field4 : Z)
    (command_must_succeed : bool) : option (Z * xhci_hcd) :=
  let reserved_trbs := if command_must_succeed then reserved else to_int (reserved + 1) in
  '(ret, r) ← prepare_ring false (cmd_ring x) EP_STATE_RUNNING (wrap32 reserved_trbs);
  if ret <? 0 then Some (ret, set_cmd_ring r x)
  else
    r1 ← queue_trb false r false false field1 field2 field3
           (Z.lor field4 (cycle_state r));
    Some (0, set_cmd_ring r1 x).

(** [queue_cmd_noop] *)
Definition queue_cmd_noop (reserved : Z) (x : xhci_hcd) : option (Z * xhci_hcd) :=
  queue_command reserved x 0 0 0 (TRB_TYPE TRB_CMD_NOOP) false.

(** [xhci_queue_vendor_command] *)
Definition xhci_queue_vendor_command (reserved : Z) (x : xhci_hcd)
    (field1 field2 field3 field4 : Z) : option (Z * xhci_hcd) :=
  queue_command reserved x field1 field2 field3 field4 false.

(** ** Cancelled TDs *)

(** What [td_to_noop] leaves of a TRB that is no link TRB: a no-op TRB with
    the cycle bit of the old one. *)
Definition noop_of (t : xhci_trb) : xhci_trb :=
  mk_trb 0 0 0 (Z.lor (Z.land (field3 t) TRB_CYCLE) (TRB_TYPE TRB_TR_NOOP)).

(** ** Completed bulk and interrupt TDs *)

(** The [for] loop of the slow path of [process_bulk_intr_td]: the bytes of
    the TRBs from the dequeue pointer up to the TRB of the event, no-op and
    link TRBs left out.  [urb->actual_length] is a [u32]. *)
Fixpoint sum_trb_lengths (fuel : nat) (r : xhci_ring) (cur_seg : nat)
    (cur_trb event_trb : trb_ptr) (actual_length : Z) : option Z :=
  match fuel with
  | O => None
  | S fuel' =>
      if ptr_eqb cur_trb event_trb then Some actual_length
      else
        t ← read_trb r cur_trb;
        let ty := Z.land (field3 t) TRB_TYPE_BITMASK in
        let actual_length :=
          if negb (ty =? TRB_TYPE TRB_TR_NOOP) && negb (ty =? TRB_TYPE TRB_LINK)
          then wrap32 (actual_length + TRB_LEN (field2 t)) else actual_length in
        '(seg', trb') ← next_trb false r cur_seg cur_trb;
        sum_trb_lengths fuel' r seg' trb' event_trb actual_length
  end.

(** [*status] of a transfer that came up short. *)
Definition short_status (u : urb) : Z :=
  if tst (transfer_flags u) URB_SHORT_NOT_OK then - EREMOTEIO else 0.

(** [process_bulk_intr_td], the function that stands behind the handler
    [process_bulk_intr_td] of the dispatcher above: the return value,
    [*status] and the controller state. *)
Definition process_bulk_intr_td_body (x : xhci_hcd) (td : nat) (event_trb : trb_ptr)
    (event : xhci_transfer_event) (ep : ep_ptr) (status : Z)
    : option (Z * Z * xhci_hcd) :=
  e ← get_ep x ep;
  let ep_ring := xhci_dma_to_transfer_ring e (buffer event) in
  let trb_comp_code := GET_COMP_CODE (transfer_len event) in
  t ← tds x !! td;
  u ← urbs x !! td_urb t;
  let on_last :=
    match td_last_trb t with Some p => ptr_eqb event_trb p | None => false end in
  let status :=
    if trb_comp_code =? COMP_SUCCESS then (if negb on_last then short_status u else 0)
    else if trb_comp_code =? COMP_SHORT_TX then short_status u
    else status in
  '(u1, status) ←
    (if on_last then
       if negb (TRB_LEN (transfer_len event) =? 0) then
         let al := wrap32 (transfer_buffer_length u - TRB_LEN (transfer_len event)) in
         let '(al, status) :=
           if transfer_buffer_length u <? al then (0, short_status u) else (al, status) in
         Some (set_actual_length al u,
               if status =? - EINPROGRESS then short_status u else status)
       else
         Some (set_actual_length (transfer_buffer_length u) u,
               if status =? - EREMOTEIO then 0 else status)
     else
       r ← ep_ring;
       al ← sum_trb_lengths (S (length (segs r) * S TRBS_PER_SEGMENT)) r (deq_seg r)
              (dequeue r) event_trb 0;
       if negb (trb_comp_code =? COMP_STOP_INVAL) then
         t1 ← read_trb r event_trb;
         Some (set_actual_length
                 (wrap32 (al + (TRB_LEN (field2 t1) - TRB_LEN (transfer_len event)))) u,
               status)
       else Some (set_actual_length al u, status));
  finish_td (set_urbs (<[td_urb t := u1]> (urbs x)) x) td event_trb event ep status false.

(** A short-packet event for the last TRB of TD 0 with three bytes left. *)
Definition ex_short_event : xhci_transfer_event :=
  mk_tev 4112 (Z.lor (Z.shiftl COMP_SHORT_TX 24) 3) (Z.lor (Z.shiftl 1 24) (Z.shiftl 1 16)).

(** ** Finding the segment of a TRB *)

(** The [while] loop of [find_trb_seg].  A TRB pointer is outside the
    segment [cur_seg] ([cur_seg->trbs > trb] or
    [&cur_seg->trbs[TRBS_PER_SEGMENT - 1] < trb]) when it points into
    another segment or behind the last TRB of this one; a segment without
    TRBs has no last TRB to look at. *)
Fixpoint find_trb_seg_loop (fuel : nat) (r : xhci_ring) (start_seg cur_seg : nat)
    (trb : trb_ptr) (cycle_state : Z) : option (option nat * Z) :=
  match fuel with
  | O => None
  | S fuel' =>
      if negb (trb.1 =? cur_seg)%nat || (TRBS_PER_SEGMENT <=? trb.2)%nat then
        if (TRBS_PER_SEGMENT =? 0)%nat then None
        else
          t ← read_trb r (cur_seg, (TRBS_PER_SEGMENT - 1)%nat);
          let cycle_state :=
            if is_link_trb t && tst (field3 t) LINK_TOGGLE
            then Z.land (Z.lnot cycle_state) 1 else cycle_state in
          sg ← segs r !! cur_seg;
          if (next sg =? start_seg)%nat then Some (None, cycle_state)
          else find_trb_seg_loop fuel' r start_seg (next sg) trb cycle_state
      else Some (Some cur_seg, cycle_state)
  end.

(** [find_trb_seg]: the segment that holds [trb], or NULL, and the value
    left in [*cycle_state]. *)
Definition find_trb_seg (r : xhci_ring) (start_seg : nat) (trb : trb_ptr)
    (cycle_state : Z) : option (option nat * Z) :=
  find_trb_seg_loop (S (length (segs r))) r start_seg start_seg trb cycle_state.

(** A ring of two segments; the link TRB of the second carries the toggle
    flag. *)
Definition ex_ring2 : xhci_ring :=
  mk_ring [mk_seg [zero_trb; zero_trb; zero_trb; link_trb 0] 1 4096 32768;
           mk_seg [zero_trb; zero_trb; zero_trb; link_trb LINK_TOGGLE] 0 8192 36864]
    0 (0, 0)%nat 0 0 (0, 0)%nat 0 0 1 0 [].

(** The same two segments with the array of the second directly behind the
    array of the first, and their bus addresses apart. *)
Definition ex_ring_adj : xhci_ring :=
  mk_ring [mk_seg [zero_trb; zero_trb; zero_trb; link_trb 0] 1 4096 32768;
           mk_seg [zero_trb; zero_trb; zero_trb; link_trb LINK_TOGGLE] 0 8192 32832]
    0 (0, 2)%nat 0 0 (0, 0)%nat 0 0 1 0 [0%nat].

(** ** Completed control TDs *)

(** [event_trb == td->last_trb]. *)
Definition is_last_trb (t : xhci_td) (event_trb : trb_ptr) : bool :=
  match td_last_trb t with Some p => ptr_eqb event_trb p | None => false end.

(** [td->urb->actual_length = len], with [len] read off the URB. *)
Definition set_td_actual_length (x : xhci_hcd) (t : xhci_td) (len : urb -> Z)
    : option xhci_hcd :=
  u ← urbs x !! td_urb t;
  Some (set_urbs (<[td_urb t := set_actual_length (len u) u]> (urbs x)) x).

(** [process_ctrl_td], the function that stands behind the handler
    [process_ctrl_td] of the dispatcher above: the return value, [*status]
    and the controller state.  [halted] is the part under [case COMP_STALL],
    which the [default] case falls into when the endpoint needs a manual
    halt cleanup; [after_switch] is the code behind the [switch]. *)
Definition process_ctrl_td_body (x : xhci_hcd) (td : nat) (event_trb : trb_ptr)
    (event : xhci_transfer_event) (ep : ep_ptr) (status : Z)
    : option (Z * Z * xhci_hcd) :=
  let slot_id := TRB_TO_SLOT_ID (tev_flags event) in
  xdev ← get_dev x slot_id;
  let ep_index := TRB_TO_EP_ID (tev_flags event) - 1 in
  e ← get_ep x ep;
  let ep_ring := xhci_dma_to_transfer_ring e (buffer event) in
  let trb_comp_code := GET_COMP_CODE (transfer_len event) in
  let data_length (u : urb) :=
    wrap32 (transfer_buffer_length u - TRB_LEN (transfer_len event)) in
  let halted :=
    r ← ep_ring;
    t ← tds x !! td;
    x1 ← set_td_actual_length x t
           (if negb (ptr_eqb event_trb (dequeue r)) && negb (is_last_trb t event_trb)
            then data_length else fun _ => 0);
    x2 ← xhci_cleanup_halted_endpoint x1 slot_id ep_index 0 td event_trb;
    finish_td x2 td event_trb event ep status true in
  let after_switch (status : Z) :=
    r ← ep_ring;
    if negb (ptr_eqb event_trb (dequeue r)) then
      t ← tds x !! td;
      if is_last_trb t event_trb then
        u ← urbs x !! td_urb t;
        if negb (actual_length u =? 0) then
          finish_td x td event_trb event ep
            (if ((status =? - EINPROGRESS) || (status =? 0))
                && tst (transfer_flags u) URB_SHORT_NOT_OK
             then - EREMOTEIO else status) false
        else
          x1 ← set_td_actual_length x t transfer_buffer_length;
          finish_td x1 td event_trb event ep status false
      else if negb (trb_comp_code =? COMP_STOP_INVAL) then
        x1 ← set_td_actual_length x t data_length;
        Some (0, status, x1)
      else finish_td x td event_trb event ep status false
    else finish_td x td event_trb event ep status false in
  if trb_comp_code =? COMP_SUCCESS then
    r ← ep_ring;
    if ptr_eqb event_trb (dequeue r) then after_switch (- ESHUTDOWN)
    else
      t ← tds x !! td;
      after_switch (if is_last_trb t event_trb then 0 else - ESHUTDOWN)
  else if trb_comp_code =? COMP_SHORT_TX then after_switch 0
  else if (trb_comp_code =? COMP_STOP_INVAL) || (trb_comp_code =? COMP_STOP) then
    finish_td x td event_trb event ep status false
  else if trb_comp_code =? COMP_STALL then halted
  else
    ep_info ← at_index (out_ctx xdev) ep_index;
    if xhci_requires_manual_halt_cleanup ep_info trb_comp_code then halted
    else after_switch status.


(** ** The slots of a ring *)

(** A TRB slot of a ring of [n] segments: a place in one of the segments
    that is not the segment's last, where the link TRB is. *)
Definition trb_slot (n : nat) (p : trb_ptr) : Prop :=
  (p.1 < n)%nat /\ (S p.2 < TRBS_PER_SEGMENT)%nat.

(** The slot after [p] when the segments are linked in store order: the
    next place of the segment, or the first of the next segment when the
    next place holds the link TRB. *)
Definition slot_succ (n : nat) (p : trb_ptr) : trb_ptr :=
  if (S (S p.2) =? TRBS_PER_SEGMENT)%nat then (S p.1 mod n, 0)%nat else (p.1, S p.2).

(** The slot [k] slots after [p]. *)
Definition slot_at (n : nat) (p : trb_ptr) (k : nat) : trb_ptr :=
  Nat.iter k (slot_succ n) p.

(** The number of TRB slots of a ring, and the place of a slot among them. *)
Definition ring_slots (r : xhci_ring) : nat :=
  (length (segs r) * (TRBS_PER_SEGMENT - 1))%nat.

Definition slot_index (p : trb_ptr) : nat := (p.1 * (TRBS_PER_SEGMENT - 1) + p.2)%nat.

(** A ring whose dequeue cursor points to a TRB slot of its dequeue
    segment. *)
Definition deq_ok (r : xhci_ring) : Prop :=
  (dequeue r).1 = deq_seg r /\ trb_slot (length (segs r)) (dequeue r).

(** The TRBs of a TD as the ring holds them: the walk of [td_to_noop] from
    [first_trb] to [last_trb] along [next_trb], link TRBs left out. *)
Fixpoint td_trbs_loop (fuel : nat) (r : xhci_ring) (cur_seg : nat)
    (cur_trb last : trb_ptr) : option (list xhci_trb) :=
  match fuel with
  | O => None
  | S fuel' =>
      t ← read_trb r cur_trb;
      let here := if is_link_trb t then [] else [t] in
      if ptr_eqb cur_trb last then Some here
      else
        '(seg', trb') ← next_trb false r cur_seg cur_trb;
        rest ← td_trbs_loop fuel' r seg' trb' last;
        Some (here ++ rest)
  end.

Definition td_trbs (r : xhci_ring) (td : xhci_td) : option (list xhci_trb) :=
  last ← td_last_trb td;
  td_trbs_loop (S (2 * length (segs r) * TRBS_PER_SEGMENT)) r (td_start_seg td)
    (td_first_trb td) last.

(** An event ring as the driver sets it up: its segments hold TRBs and
    lead to segments of the ring, and the dequeue segment is one of them. *)
Definition event_ring_ok (r : xhci_ring) : Prop :=
  (0 < TRBS_PER_SEGMENT)%nat /\ (deq_seg r < length (segs r))%nat
  /\ Forall (fun sg => (next sg < length (segs r))%nat) (segs r).

(** The TRBs [l] lie in the slots of the ring from [p] on. *)
Definition in_slots (r : xhci_ring) (p : trb_ptr) (l : list xhci_trb) : Prop :=
  forall j t, l !! j = Some t -> read_trb r (slot_at (length (segs r)) p j) = Some t.

(** The control word [giveback_first_trb] leaves in the first TRB of a TD,
    and the TRBs of a TD with the first one handed over. *)
Definition giveback_control (c start_cycle : Z) : Z :=
  if negb (start_cycle =? 0) then Z.lor c start_cycle else Z.land c (Z.lnot 1).

Definition given_back (start_cycle : Z) (l : list xhci_trb) : list xhci_trb :=
  match l with
  | [] => []
  | t :: l' => set_control t (giveback_control (field3 t) start_cycle) :: l'
  end.

(** The TD sizes along a TD: each TRB stays below the transfer length
    [len]; its TD size is zero if it completes the length and the packets
    left before it otherwise; the list ends with the length complete. *)
Fixpoint td_sizes (len maxp running_total : Z) (l : list xhci_trb) : Prop :=
  match l with
  | [] => running_total = len
  | t :: l' =>
      0 <= trb_buf_len t /\ running_total + trb_buf_len t <= len
      /\ trb_td_size t = (if running_total + trb_buf_len t =? len then 0
                          else packets_left len maxp running_total)
      /\ td_sizes len maxp (running_total + trb_buf_len t) l'
  end.

(** * Proofs *)

(** ** Bit masks *)

Lemma land_lxor_mask a b m : Z.land b m = 0 -> Z.land (Z.lxor a b) m = Z.land a m.
Proof.
  intros H. apply Z.bits_inj'. intros n Hn.
  rewrite !Z.land_spec, Z.lxor_spec.
  assert (Hb : Z.testbit b n && Z.testbit m n = false)
    by (rewrite <- Z.land_spec, H; apply Z.bits_0).
  destruct (Z.testbit a n), (Z.testbit b n), (Z.testbit m n); simpl in *; congruence.
Qed.

Lemma land_lor_mask a b m : Z.land b m = 0 -> Z.land (Z.lor a b) m = Z.land a m.
Proof.
  intros H. apply Z.bits_inj'. intros n Hn.
  rewrite !Z.land_spec, Z.lor_spec.
  assert (Hb : Z.testbit b n && Z.testbit m n = false)
    by (rewrite <- Z.land_spec, H; apply Z.bits_0).
  destruct (Z.testbit a n), (Z.testbit b n), (Z.testbit m n); simpl in *; congruence.
Qed.

Lemma land_clear_mask a k m : Z.land k m = 0 -> Z.land (Z.land a (Z.lnot k)) m = Z.land a m.
Proof.
  intros H. apply Z.bits_inj'. intros n Hn.
  rewrite !Z.land_spec, Z.lnot_spec by lia.
  assert (Hb : Z.testbit k n && Z.testbit m n = false)
    by (rewrite <- Z.land_spec, H; apply Z.bits_0).
  destruct (Z.testbit a n), (Z.testbit k n), (Z.testbit m n); simpl in *; congruence.
Qed.

Lemma land_sub_mask x k m : Z.land k m = 0 -> Z.land (Z.land x k) m = 0.
Proof. intros H. rewrite <- Z.land_assoc, H. apply Z.land_0_r. Qed.


Lemma enq_link_control_mask c x m :
  Z.land TRB_CHAIN m = 0 -> Z.land TRB_CYCLE m = 0 ->
  Z.land (enq_link_control c (Z.land x TRB_CHAIN)) m = Z.land c m.
Proof.
  intros H16 H1. unfold enq_link_control.
  rewrite land_lxor_mask by done.
  destruct xhci_link_trb_quirk; [done|].
  rewrite land_lor_mask by (by apply land_sub_mask).
  by apply land_clear_mask.
Qed.

Lemma prep_link_control_mask c m :
  Z.land TRB_CHAIN m = 0 -> Z.land TRB_CYCLE m = 0 ->
  Z.land (prep_link_control c) m = Z.land c m.
Proof.
  intros H16 H1. unfold prep_link_control.
  rewrite land_lxor_mask by done.
  destruct xhci_link_trb_quirk.
  - by apply land_lor_mask.
  - by apply land_clear_mask.
Qed.

Lemma tst_lxor_cycle c : tst (Z.lxor c TRB_CYCLE) TRB_CYCLE = negb (tst c TRB_CYCLE).
Proof.
  unfold tst, TRB_CYCLE.
  assert (H : forall a, Z.land a 1 = Z.b2z (Z.testbit a 0)).
  { intros a. change 1 with (Z.ones 1). rewrite Z.land_ones by lia.
    change (2 ^ 1) with 2. by rewrite <- Z.bit0_mod. }
  rewrite !H, Z.lxor_spec. change (Z.testbit (Z.ones 1) 0) with true.
  by destruct (Z.testbit c 0).
Qed.

(** ** Ring memory *)

Lemma read_write_same r p t r' :
  write_trb r p t = Some r' -> read_trb r' p = Some t.
Proof.
  unfold write_trb, read_trb. intros H.
  destruct (segs r !! p.1) as [sg|] eqn:Hs; simpl in H; [|done].
  case_decide; [|done]. inversion H; subst; clear H. simpl.
  rewrite list_lookup_insert_eq by (by eapply lookup_lt_Some). simpl.
  by rewrite list_lookup_insert_eq.
Qed.

Lemma read_write_other r p q t r' :
  write_trb r p t = Some r' -> p <> q -> read_trb r' q = read_trb r q.
Proof.
  unfold write_trb, read_trb. intros H Hne.
  destruct (segs r !! p.1) as [sg|] eqn:Hs; simpl in H; [|done].
  case_decide; [|done]. inversion H; subst; clear H. simpl.
  destruct (decide (p.1 = q.1)) as [E|E].
  - rewrite <- E, list_lookup_insert_eq by (by eapply lookup_lt_Some).
    rewrite Hs. simpl. apply list_lookup_insert_ne.
    intros E2. apply Hne. destruct p, q; simpl in *; congruence.
  - by rewrite list_lookup_insert_ne.
Qed.

Lemma write_trb_is_Some r p t0 t :
  read_trb r p = Some t0 -> exists r', write_trb r p t = Some r'.
Proof.
  unfold write_trb, read_trb. intros H.
  destruct (segs r !! p.1) as [sg|] eqn:Hs; simpl in *; [|done].
  apply lookup_lt_Some in H. case_decide; [eauto|lia].
Qed.

Lemma write_trb_next r p t r' s :
  write_trb r p t = Some r' -> next <$> (segs r' !! s) = next <$> (segs r !! s).
Proof.
  unfold write_trb. intros H.
  destruct (segs r !! p.1) as [sg|] eqn:Hs; simpl in H; [|done].
  case_decide; [|done]. inversion H; subst; clear H. simpl.
  destruct (decide (p.1 = s)) as [<-|E].
  - rewrite list_lookup_insert_eq by (by eapply lookup_lt_Some). by rewrite Hs.
  - by rewrite list_lookup_insert_ne.
Qed.

Lemma write_trb_fields r p t r' :
  write_trb r p t = Some r' ->
  r' = set_segs (segs r') r /\ length (segs r') = length (segs r).
Proof.
  unfold write_trb. intros H.
  destruct (segs r !! p.1) as [sg|] eqn:Hs; simpl in H; [|done].
  case_decide; [|done]. inversion H; subst; clear H. simpl.
  split; [done|]. apply length_insert.
Qed.

(** ** Cursor advance *)

Lemma ring_eta r : r = mk_ring (segs r) (first_seg r) (enqueue r) (enq_seg r) (enq_updates r)
    (dequeue r) (deq_seg r) (deq_updates r) (cycle_state r) (stream_id r) (td_list r).
Proof. by destruct r. Qed.

Lemma ptr_eqb_eq p q : ptr_eqb p q = true <-> p = q.
Proof.
  unfold ptr_eqb. destruct p, q; simpl.
  rewrite andb_true_iff, !Nat.eqb_eq. split; [intros []|intros [=]]; by subst.
Qed.

Lemma ptr_eqb_refl p : ptr_eqb p p = true.
Proof. by apply ptr_eqb_eq. Qed.

Lemma ptr_eqb_neq p q : p <> q -> ptr_eqb p q = false.
Proof. intros H. apply not_true_is_false. by rewrite ptr_eqb_eq. Qed.

Arguments read_trb : simpl never.
Arguments write_trb : simpl never.
Arguments ptr_succ : simpl never.
Arguments ptr_eqb : simpl never.

(** Reading through a ring that differs from [r] in its cursors only. *)
Ltac read_in r :=
  repeat match goal with
  | |- context [read_trb ?r' ?p] =>
      lazymatch r' with r => fail | _ => change (read_trb r' p) with (read_trb r p) end
  end.

(** One [inc_deq] on a transfer or command ring whose next slot is no link
    TRB. *)
Lemma inc_deq_plain r consumer t :
  read_trb r (ptr_succ (dequeue r)) = Some t -> is_link_trb t = false ->
  inc_deq false r consumer = Some (deq_moved r (deq_seg r) (ptr_succ (dequeue r))).
Proof.
  intros Hr Hl. unfold inc_deq, ring_fuel. simpl.
  read_in r. rewrite Hr. simpl. by rewrite Hl.
Qed.

(** One [inc_deq] across a link TRB. *)
Lemma inc_deq_link r consumer t sg t0 :
  read_trb r (ptr_succ (dequeue r)) = Some t -> is_link_trb t = true ->
  segs r !! deq_seg r = Some sg ->
  read_trb r (next sg, 0%nat) = Some t0 -> is_link_trb t0 = false ->
  inc_deq false r consumer =
    Some (let r' := deq_moved r (next sg) (next sg, 0%nat) in
          if consumer && tst (field3 t) LINK_TOGGLE then toggle_cycle r' else r').
Proof.
  intros Hr Hl Hs Hr0 Hl0. unfold inc_deq, ring_fuel. simpl.
  read_in r. rewrite Hr. simpl. rewrite Hl.
  destruct consumer, (tst (field3 t) LINK_TOGGLE); simpl;
    rewrite Hs; simpl; read_in r; rewrite Hr0; simpl; by rewrite Hl0.
Qed.

(** One [inc_deq] on the event ring. *)
Lemma inc_deq_event_plain r consumer :
  ptr_succ (dequeue r) <> (deq_seg r, TRBS_PER_SEGMENT) ->
  inc_deq true r consumer = Some (deq_moved r (deq_seg r) (ptr_succ (dequeue r))).
Proof.
  intros Hne. unfold inc_deq, ring_fuel. simpl.
  by rewrite ptr_eqb_neq.
Qed.

Lemma inc_deq_event_wrap r consumer sg :
  (0 < TRBS_PER_SEGMENT)%nat ->
  ptr_succ (dequeue r) = (deq_seg r, TRBS_PER_SEGMENT) ->
  segs r !! deq_seg r = Some sg ->
  inc_deq true r consumer =
    Some (let r' := deq_moved r (next sg) (next sg, 0%nat) in
          if consumer && (next sg =? first_seg r)%nat then toggle_cycle r' else r').
Proof.
  intros Hpos He Hs. unfold inc_deq, ring_fuel. simpl.
  rewrite He, ptr_eqb_refl. simpl.
  assert (Hn : forall s, ptr_eqb (s, 0%nat) (s, TRBS_PER_SEGMENT) = false).
  { intros s. apply ptr_eqb_neq. intros [=]. lia. }
  destruct consumer; simpl; rewrite Hs; simpl; rewrite ?ptr_eqb_refl; simpl.
  - destruct (next sg =? first_seg r)%nat; simpl; rewrite Hs; simpl; by rewrite Hn.
  - by rewrite Hn.
Qed.

(** [inc_deq] on a well-formed event ring returns. *)
Lemma inc_deq_event_total r consumer :
  event_ring_ok r ->
  exists r',
    inc_deq true r consumer = Some r' /\ segs r' = segs r
    /\ is_Some (segs r' !! deq_seg r')
    /\ deq_updates r' = wrap32 (deq_updates r + 1).
Proof.
  intros (HT & Hd & Hn).
  destruct (decide (ptr_succ (dequeue r) = (deq_seg r, TRBS_PER_SEGMENT))) as [E|E].
  - destruct (lookup_lt_is_Some_2 _ _ Hd) as [sg Hsg].
    rewrite (inc_deq_event_wrap r consumer sg HT E Hsg).
    eexists. split; [reflexivity|].
    assert (Hnx : (next sg < length (segs r))%nat)
      by (rewrite Forall_lookup in Hn; exact (Hn _ _ Hsg)).
    destruct (consumer && _); cbn; (split; [done|]);
      (split; [by apply lookup_lt_is_Some_2|done]).
  - rewrite inc_deq_event_plain by done.
    eexists. split; [reflexivity|]. cbn. split; [done|].
    split; [by apply lookup_lt_is_Some_2|done].
Qed.


(** Writing a TRB commutes with moving the cursors. *)
Lemma write_trb_set_enqueue s q r p t :
  write_trb (set_enqueue s q r) p t = set_enqueue s q <$> write_trb r p t.
Proof.
  unfold write_trb. simpl. destruct (segs r !! p.1); simpl; [|done]. by case_decide.
Qed.

Lemma write_trb_set_enq_updates v r p t :
  write_trb (set_enq_updates v r) p t = set_enq_updates v <$> write_trb r p t.
Proof.
  unfold write_trb. simpl. destruct (segs r !! p.1); simpl; [|done]. by case_decide.
Qed.

Lemma write_trb_cursors r p t r' :
  write_trb r p t = Some r' ->
  enqueue r' = enqueue r /\ enq_seg r' = enq_seg r /\ dequeue r' = dequeue r
  /\ deq_seg r' = deq_seg r /\ cycle_state r' = cycle_state r
  /\ first_seg r' = first_seg r /\ td_list r' = td_list r.
Proof.
  unfold write_trb. intros H.
  destruct (segs r !! p.1) as [sg|]; simpl in H; [|done].
  case_decide; [|done]. by inversion H.
Qed.

Lemma is_link_enq_link_control t x :
  is_link_trb (set_control t (enq_link_control (field3 t) (Z.land x TRB_CHAIN)))
  = is_link_trb t.
Proof. unfold is_link_trb. simpl. by rewrite enq_link_control_mask. Qed.

Lemma toggle_enq_link_control c x :
  tst (enq_link_control c (Z.land x TRB_CHAIN)) LINK_TOGGLE = tst c LINK_TOGGLE.
Proof. unfold tst. by rewrite enq_link_control_mask. Qed.

Lemma is_link_prep_link_control t :
  is_link_trb (set_control t (prep_link_control (field3 t))) = is_link_trb t.
Proof. unfold is_link_trb. simpl. by rewrite prep_link_control_mask. Qed.

Lemma toggle_prep_link_control c :
  tst (prep_link_control c) LINK_TOGGLE = tst c LINK_TOGGLE.
Proof. unfold tst. by rewrite prep_link_control_mask. Qed.

(** The loop of [inc_enq] on a transfer or command ring, as producer. *)
Lemma inc_enq_loop_stop fuel more chain r t :
  read_trb r (enqueue r) = Some t -> is_link_trb t = false ->
  inc_enq_loop (S fuel) false false more chain r = Some r.
Proof. intros Hr Hl. simpl. rewrite Hr. simpl. by rewrite Hl. Qed.

Lemma inc_enq_loop_defer fuel r t :
  read_trb r (enqueue r) = Some t -> is_link_trb t = true ->
  inc_enq_loop (S fuel) false false false 0 r = Some r.
Proof. intros Hr Hl. simpl. rewrite Hr. simpl. by rewrite Hl. Qed.

Lemma inc_enq_loop_cross fuel more x r t r1 sg :
  read_trb r (enqueue r) = Some t -> is_link_trb t = true ->
  (Z.land x TRB_CHAIN =? 0) && negb more = false ->
  write_trb r (enqueue r)
    (set_control t (enq_link_control (field3 t) (Z.land x TRB_CHAIN))) = Some r1 ->
  segs r !! enq_seg r = Some sg ->
  inc_enq_loop (S fuel) false false more (Z.land x TRB_CHAIN) r =
  inc_enq_loop fuel false false more (Z.land x TRB_CHAIN)
    (set_enqueue (next sg) (next sg, 0%nat)
       (if tst (field3 t) LINK_TOGGLE then toggle_cycle r1 else r1)).
Proof.
  intros Hr Hl Hc Hw Hs. simpl. rewrite Hr. simpl. rewrite Hl, Hc.
  fold (enq_link_control (field3 t) (Z.land x TRB_CHAIN)). rewrite Hw. simpl.
  destruct (write_trb_cursors _ _ _ _ Hw) as (He & Hes & _).
  rewrite He, (read_write_same _ _ _ _ Hw). simpl.
  rewrite toggle_enq_link_control.
  pose proof (write_trb_next _ _ _ _ (enq_seg r) Hw) as Hn. rewrite Hs in Hn.
  destruct (segs r1 !! enq_seg r) as [sg1|] eqn:Hs1; [|done].
  injection Hn as Hn.
  destruct (tst (field3 t) LINK_TOGGLE); simpl; rewrite Hes, Hs1; simpl; by rewrite Hn.
Qed.

Arguments inc_enq_loop : simpl never.

(** One [inc_enq] as producer, next slot no link TRB. *)
Lemma inc_enq_plain r more tc t :
  read_trb r (enqueue r) = Some tc ->
  read_trb r (ptr_succ (enqueue r)) = Some t -> is_link_trb t = false ->
  inc_enq false r false more = Some (enq_moved r (enq_seg r) (ptr_succ (enqueue r))).
Proof.
  intros Hc Hr Hl. unfold inc_enq. rewrite Hc. simpl.
  unfold ring_fuel. by erewrite inc_enq_loop_stop.
Qed.

(** One [inc_enq] as producer that ends a TD in front of a link TRB. *)
Lemma inc_enq_defer r tc t :
  read_trb r (enqueue r) = Some tc -> Z.land (field3 tc) TRB_CHAIN = 0 ->
  read_trb r (ptr_succ (enqueue r)) = Some t -> is_link_trb t = true ->
  inc_enq false r false false = Some (enq_moved r (enq_seg r) (ptr_succ (enqueue r))).
Proof.
  intros Hc Hch Hr Hl. unfold inc_enq. rewrite Hc. simpl. rewrite Hch.
  unfold ring_fuel. by erewrite inc_enq_loop_defer.
Qed.

(** One [inc_enq] as producer across a link TRB. *)
Lemma inc_enq_link r more tc t sg t0 :
  read_trb r (enqueue r) = Some tc ->
  (Z.land (field3 tc) TRB_CHAIN =? 0) && negb more = false ->
  read_trb r (ptr_succ (enqueue r)) = Some t -> is_link_trb t = true ->
  segs r !! enq_seg r = Some sg ->
  read_trb r (next sg, 0%nat) = Some t0 -> is_link_trb t0 = false ->
  exists r1,
    write_trb r (ptr_succ (enqueue r))
      (set_control t (enq_link_control (field3 t) (Z.land (field3 tc) TRB_CHAIN)))
      = Some r1 /\
    inc_enq false r false more =
      Some (let r' := enq_moved r1 (next sg) (next sg, 0%nat) in
            if tst (field3 t) LINK_TOGGLE then toggle_cycle r' else r').
Proof.
  intros Hc Hch Hr Hl Hs Hr0 Hl0.
  destruct (write_trb_is_Some r (ptr_succ (enqueue r)) t
              (set_control t (enq_link_control (field3 t) (Z.land (field3 tc) TRB_CHAIN))) Hr)
    as [r1 Hw].
  exists r1. split; [done|].
  unfold inc_enq. rewrite Hc. simpl. unfold ring_fuel.
  set (r2 := set_enq_updates _ _).
  assert (Hw2 : write_trb r2 (enqueue r2)
                  (set_control t (enq_link_control (field3 t) (Z.land (field3 tc) TRB_CHAIN)))
                = Some (set_enq_updates (wrap32 (enq_updates r + 1))
                          (set_enqueue (enq_seg r) (ptr_succ (enqueue r)) r1))).
  { unfold r2. rewrite write_trb_set_enq_updates, write_trb_set_enqueue. simpl.
    by rewrite Hw. }
  erewrite inc_enq_loop_cross; [|exact Hr|exact Hl|exact Hch|exact Hw2|exact Hs].
  assert (Hne : ptr_succ (enqueue r) <> (next sg, 0%nat)) by congruence.
  assert (Hr1 : read_trb r1 (next sg, 0%nat) = Some t0)
    by (by rewrite (read_write_other _ _ _ _ _ Hw Hne)).
  destruct (tst (field3 t) LINK_TOGGLE).
  - erewrite inc_enq_loop_stop; [| |exact Hl0].
    + simpl. f_equal. destruct (write_trb_fields _ _ _ _ Hw) as [Heq _].
      by rewrite Heq.
    + simpl. by read_in r1.
  - erewrite inc_enq_loop_stop; [| |exact Hl0].
    + simpl. f_equal. destruct (write_trb_fields _ _ _ _ Hw) as [Heq _].
      by rewrite Heq.
    + simpl. by read_in r1.
Qed.


Lemma cycle_enq_link_control c x :
  tst (enq_link_control c (Z.land x TRB_CHAIN)) TRB_CYCLE = negb (tst c TRB_CYCLE).
Proof.
  unfold enq_link_control. rewrite tst_lxor_cycle. f_equal. unfold tst. f_equal. f_equal.
  destruct xhci_link_trb_quirk; [done|].
  rewrite land_lor_mask by (by apply land_sub_mask). by apply land_clear_mask.
Qed.

Lemma cycle_prep_link_control c :
  tst (prep_link_control c) TRB_CYCLE = negb (tst c TRB_CYCLE).
Proof.
  unfold prep_link_control. rewrite tst_lxor_cycle. f_equal. unfold tst. f_equal. f_equal.
  destruct xhci_link_trb_quirk; [by apply land_lor_mask|by apply land_clear_mask].
Qed.

(** The loop of [prepare_ring] on a transfer or command ring. *)
Lemma prepare_ring_loop_stop fuel r t :
  read_trb r (enqueue r) = Some t -> is_link_trb t = false ->
  prepare_ring_loop (S fuel) false r = Some r.
Proof. intros Hr Hl. simpl. rewrite Hr. simpl. by rewrite Hl. Qed.

Lemma prepare_ring_loop_cross fuel r t r1 sg :
  read_trb r (enqueue r) = Some t -> is_link_trb t = true ->
  write_trb r (enqueue r) (set_control t (prep_link_control (field3 t))) = Some r1 ->
  segs r !! enq_seg r = Some sg ->
  prepare_ring_loop (S fuel) false r =
  prepare_ring_loop fuel false
    (set_enqueue (next sg) (next sg, 0%nat)
       (if tst (field3 t) LINK_TOGGLE then toggle_cycle r1 else r1)).
Proof.
  intros Hr Hl Hw Hs. simpl. rewrite Hr. simpl. rewrite Hl.
  fold (prep_link_control (field3 t)). rewrite Hw. simpl.
  destruct (write_trb_cursors _ _ _ _ Hw) as (He & Hes & _).
  rewrite He, (read_write_same _ _ _ _ Hw). simpl.
  rewrite toggle_prep_link_control.
  pose proof (write_trb_next _ _ _ _ (enq_seg r) Hw) as Hn. rewrite Hs in Hn.
  destruct (segs r1 !! enq_seg r) as [sg1|] eqn:Hs1; [|done].
  injection Hn as Hn.
  destruct (tst (field3 t) LINK_TOGGLE); simpl; rewrite Hes, Hs1; simpl; by rewrite Hn.
Qed.

Arguments prepare_ring_loop : simpl never.
Arguments inc_deq_loop : simpl never.
Arguments skip_link_trbs : simpl never.


(** [prepare_ring] once the endpoint state has passed its [switch]. *)
Lemma prepare_ring_checked r ep_state n :
  ep_state_ok ep_state ->
  prepare_ring false r ep_state n =
    (room ← room_on_ring false r n;
     if negb room then Some (- ENOMEM, r)
     else
       l ← enqueue_is_link_trb r;
       if l : bool then r' ← prepare_ring_loop (ring_fuel r) false r; Some (0, r')
       else Some (0, r)).
Proof. by intros [->|[->| ->]]. Qed.

(** [prepare_ring] with the enqueue cursor left on a link TRB. *)
Lemma prepare_ring_on_link r ep_state n t sg t0 :
  ep_state_ok ep_state -> room_on_ring false r n = Some true ->
  read_trb r (enqueue r) = Some t -> is_link_trb t = true ->
  segs r !! enq_seg r = Some sg ->
  read_trb r (next sg, 0%nat) = Some t0 -> is_link_trb t0 = false ->
  exists r1,
    write_trb r (enqueue r) (set_control t (prep_link_control (field3 t))) = Some r1 /\
    prepare_ring false r ep_state n =
      Some (0, set_enqueue (next sg) (next sg, 0%nat)
                 (if tst (field3 t) LINK_TOGGLE then toggle_cycle r1 else r1)).
Proof.
  intros Hst Hroom Hr Hl Hs Hr0 Hl0.
  destruct (write_trb_is_Some r (enqueue r) t
              (set_control t (prep_link_control (field3 t))) Hr) as [r1 Hw].
  exists r1. split; [done|].
  rewrite prepare_ring_checked by done. rewrite Hroom. simpl.
  unfold enqueue_is_link_trb. rewrite Hr. simpl. rewrite Hl. unfold ring_fuel.
  erewrite prepare_ring_loop_cross; [|exact Hr|exact Hl|exact Hw|exact Hs].
  assert (Hne : enqueue r <> (next sg, 0%nat)) by congruence.
  assert (Hr1 : read_trb r1 (next sg, 0%nat) = Some t0)
    by (by rewrite (read_write_other _ _ _ _ _ Hw Hne)).
  erewrite prepare_ring_loop_stop; [done| |exact Hl0].
  destruct (tst (field3 t) LINK_TOGGLE); simpl; by read_in r1.
Qed.


(** ** The room check *)


Lemma room_loop_S n ev r seg enq :
  room_loop (S n) ev r seg enq =
    if ptr_eqb enq (dequeue r) then Some false
    else c ← ring_advance ev r (seg, enq); room_loop n ev r c.1 c.2.
Proof.
  unfold ring_advance. simpl. destruct (ptr_eqb enq (dequeue r)); [done|].
  destruct (skip_link_trbs _ _ _ _ _) as [[]|]; done.
Qed.

(** The loop fails as soon as the dequeue cursor is among the next slots. *)
Lemma room_loop_false n ev r : forall c j cj,
  (j <= n)%nat -> nth_slot j ev r c = Some cj -> cj.2 = dequeue r ->
  room_loop (S n) ev r c.1 c.2 = Some false.
Proof.
  induction n as [|n IH]; intros c j cj Hj Hn Hd; rewrite room_loop_S.
  - assert (j = 0%nat) as -> by lia. simpl in Hn. injection Hn as <-.
    by rewrite Hd, ptr_eqb_refl.
  - destruct (ptr_eqb c.2 (dequeue r)) eqn:He; [done|].
    destruct j as [|j].
    { simpl in Hn. injection Hn as <-. by rewrite Hd, ptr_eqb_refl in He. }
    simpl in Hn. destruct c as [s e]. simpl in *.
    destruct (ring_advance ev r (s, e)) as [c'|]; [|done]. simpl in *.
    eapply IH; [|exact Hn|exact Hd]. lia.
Qed.

(** The loop succeeds when none of the next slots is the dequeue cursor. *)
Lemma room_loop_true n ev r : forall c,
  (forall j, (j <= n)%nat -> exists cj, nth_slot j ev r c = Some cj /\ cj.2 <> dequeue r) ->
  is_Some (nth_slot (S n) ev r c) ->
  room_loop (S n) ev r c.1 c.2 = Some true.
Proof.
  induction n as [|n IH]; intros c H Hs; rewrite room_loop_S.
  - destruct (H 0%nat) as (cj & Hn & Hd); [lia|]. injection Hn as <-.
    rewrite ptr_eqb_neq by done. destruct c as [s e]. simpl in *.
    destruct (ring_advance ev r (s, e)); [done|]. by destruct Hs.
  - destruct (H 0%nat) as (cj & Hn & Hd); [lia|]. injection Hn as <-.
    rewrite ptr_eqb_neq by done. destruct c as [s e]. simpl in Hs |- *.
    destruct (ring_advance ev r (s, e)) as [c'|] eqn:Ha; [|by destruct Hs].
    simpl. apply IH; [|done].
    intros j Hj. destruct (H (S j)) as (cj & Hn & Hd'); [lia|].
    simpl in Hn. rewrite Ha in Hn. eauto.
Qed.


Lemma mod_shift s k len : (s < len -> 0 < k < len -> (s + k) mod len <> s)%nat.
Proof.
  intros Hs Hk H.
  destruct (le_lt_dec len (s + k)) as [Hge|Hlt].
  - assert (E : (s + k = (s + k - len) + 1 * len)%nat) by lia.
    rewrite E, Nat.Div0.mod_add in H. rewrite Nat.mod_small in H by lia. lia.
  - rewrite Nat.mod_small in H by lia. lia.
Qed.

Lemma wrap32_range x : 0 <= wrap32 x < 2 ^ 32.
Proof. unfold wrap32. apply Z.mod_pos_bound. lia. Qed.

Lemma wrap32_small x : 0 <= x < 2 ^ 32 -> wrap32 x = x.
Proof. intros H. unfold wrap32. by apply Z.mod_small. Qed.

(** On a ring linked in store order the segment count of [room_on_ring]
    visits every other segment once. *)
Lemma count_other_segs_linked r s :
  ring_linked r -> (s < length (segs r))%nat ->
  forall d cur left fuel,
    (d < fuel)%nat -> (cur < length (segs r))%nat ->
    ((cur + d) mod length (segs r) = s)%nat ->
    (forall d', (d' < d)%nat -> ((cur + d') mod length (segs r))%nat <> s) ->
    0 <= left < 2 ^ 32 ->
    count_other_segs fuel r s cur left
    = Some (wrap32 (left + Z.of_nat d * (Z.of_nat TRBS_PER_SEGMENT - 1))).
Proof.
  intros Hlink Hs. induction d as [|d IH]; intros cur left fuel Hf Hcur Hd Hmin Hleft;
    destruct fuel as [|fuel]; try lia; simpl.
  - rewrite Nat.add_0_r, Nat.mod_small in Hd by done. subst cur.
    rewrite Nat.eqb_refl. f_equal. rewrite wrap32_small; lia.
  - assert (Hne : cur <> s).
    { intros ->. apply (Hmin 0%nat); [lia|]. rewrite Nat.add_0_r. by apply Nat.mod_small. }
    apply Nat.eqb_neq in Hne. rewrite Hne.
    destruct (lookup_lt_is_Some_2 (segs r) cur Hcur) as [sg Hsg].
    rewrite Hsg. simpl. rewrite (Hlink _ _ Hsg).
    rewrite IH.
    + f_equal. unfold wrap32. rewrite Zplus_mod_idemp_l. f_equal. lia.
    + lia.
    + apply Nat.mod_upper_bound. lia.
    + rewrite Nat.Div0.add_mod_idemp_l. by replace (S cur + d)%nat with (cur + S d)%nat by lia.
    + intros d' Hd'. rewrite Nat.Div0.add_mod_idemp_l.
      replace (S cur + d')%nat with (cur + S d')%nat by lia. apply Hmin. lia.
    + apply wrap32_range.
Qed.

Arguments count_other_segs : simpl never.

(** The room check on an empty ring linked in store order. *)
Lemma room_on_ring_empty r n s0 e0 :
  ring_linked r -> (s0 < length (segs r))%nat ->
  skip_link_trbs (ring_fuel r) false r (enq_seg r) (enqueue r) = Some (s0, e0) ->
  e0 = dequeue r ->
  (2 <= TRBS_PER_SEGMENT)%nat ->
  Z.of_nat (length (segs r)) * (Z.of_nat TRBS_PER_SEGMENT - 1) < 2 ^ 32 ->
  room_on_ring false r n
  = Some (n + 1 <=? Z.of_nat (length (segs r)) * (Z.of_nat TRBS_PER_SEGMENT - 1)).
Proof.
  intros Hlink Hs Hskip He Htps Hsmall. unfold room_on_ring. rewrite Hskip. simpl.
  rewrite He, ptr_eqb_refl.
  destruct (lookup_lt_is_Some_2 (segs r) s0 Hs) as [sg Hsg]. rewrite Hsg. simpl.
  rewrite (Hlink _ _ Hsg).
  rewrite (count_other_segs_linked r s0 Hlink Hs (length (segs r) - 1)).
  - simpl. f_equal. unfold wrap32. rewrite Zplus_mod_idemp_l, Zminus_mod_idemp_l.
    assert (E : Z.of_nat TRBS_PER_SEGMENT - 1
                + Z.of_nat (length (segs r) - 1) * (Z.of_nat TRBS_PER_SEGMENT - 1)
                = Z.of_nat (length (segs r)) * (Z.of_nat TRBS_PER_SEGMENT - 1)).
    { rewrite Nat2Z.inj_sub by lia. ring. }
    rewrite E. rewrite Z.mod_small by nia.
    destruct (_ <? n) eqn:E1; destruct (n + 1 <=? _) eqn:E2; simpl; try done; lia.
  - lia.
  - apply Nat.mod_upper_bound. lia.
  - rewrite Nat.Div0.add_mod_idemp_l.
    replace (S s0 + (length (segs r) - 1))%nat with (s0 + 1 * length (segs r))%nat by lia.
    rewrite Nat.Div0.mod_add. by apply Nat.mod_small.
  - intros d' Hd'. rewrite Nat.Div0.add_mod_idemp_l.
    replace (S s0 + d')%nat with (s0 + S d')%nat by lia. apply mod_shift; lia.
  - apply wrap32_range.
Qed.

(** The room check on a ring that holds TRBs. *)
Lemma room_on_ring_nonempty r n s0 e0 :
  skip_link_trbs (ring_fuel r) false r (enq_seg r) (enqueue r) = Some (s0, e0) ->
  e0 <> dequeue r ->
  room_on_ring false r n = room_loop (S (Z.to_nat n)) false r s0 e0.
Proof.
  intros Hskip He. unfold room_on_ring. rewrite Hskip. simpl.
  by rewrite ptr_eqb_neq.
Qed.


(** ** The ring cursors: advance, link TRBs, room, endpoint state *)

(** C1 (amended).  [inc_deq] and [inc_enq] move their cursor one slot and
    step over link TRBs, with these limits.  On a transfer or command ring
    [inc_deq] jumps to the first slot of the linked segment when the new slot
    is a link TRB, and flips [cycle_state] at a link TRB with the toggle flag
    only when it is called as consumer (its callers pass [false] for these
    rings).  [inc_enq] as producer leaves the enqueue cursor on the link TRB,
    with [cycle_state] as it was, when the TRB just queued has no chain bit and
    no more TRBs are coming; otherwise it crosses the link TRB and flips
    [cycle_state] exactly when the link TRB carries the toggle flag.  On the
    event ring the consumer's [inc_deq] leaves a segment at its end and flips
    [cycle_state] exactly when the next segment is the ring's first. *)
Theorem ring_cursor_advance (r : xhci_ring) :
  (0 < TRBS_PER_SEGMENT)%nat ->
  (forall consumer t,
     read_trb r (ptr_succ (dequeue r)) = Some t -> is_link_trb t = false ->
     inc_deq false r consumer = Some (deq_moved r (deq_seg r) (ptr_succ (dequeue r))))
  /\ (forall consumer t sg t0,
     read_trb r (ptr_succ (dequeue r)) = Some t -> is_link_trb t = true ->
     segs r !! deq_seg r = Some sg ->
     read_trb r (next sg, 0%nat) = Some t0 -> is_link_trb t0 = false ->
     inc_deq false r consumer =
       Some (let r' := deq_moved r (next sg) (next sg, 0%nat) in
             if consumer && tst (field3 t) LINK_TOGGLE then toggle_cycle r' else r'))
  /\ (forall more tc t,
     read_trb r (enqueue r) = Some tc ->
     read_trb r (ptr_succ (enqueue r)) = Some t -> is_link_trb t = false ->
     inc_enq false r false more = Some (enq_moved r (enq_seg r) (ptr_succ (enqueue r))))
  /\ (forall tc t,
     read_trb r (enqueue r) = Some tc -> Z.land (field3 tc) TRB_CHAIN = 0 ->
     read_trb r (ptr_succ (enqueue r)) = Some t -> is_link_trb t = true ->
     inc_enq false r false false = Some (enq_moved r (enq_seg r) (ptr_succ (enqueue r))))
  /\ (forall more tc t sg t0,
     read_trb r (enqueue r) = Some tc ->
     (Z.land (field3 tc) TRB_CHAIN =? 0) && negb more = false ->
     read_trb r (ptr_succ (enqueue r)) = Some t -> is_link_trb t = true ->
     segs r !! enq_seg r = Some sg ->
     read_trb r (next sg, 0%nat) = Some t0 -> is_link_trb t0 = false ->
     exists r1 r2,
       inc_enq false r false more = Some r2 /\
       segs r2 = segs r1 /\ enq_seg r2 = next sg /\ enqueue r2 = (next sg, 0%nat) /\
       dequeue r2 = dequeue r /\
       cycle_state r2 = cycle_state (if tst (field3 t) LINK_TOGGLE then toggle_cycle r else r) /\
       write_trb r (ptr_succ (enqueue r))
         (set_control t (enq_link_control (field3 t) (Z.land (field3 tc) TRB_CHAIN)))
       = Some r1)
  /\ (forall consumer,
     ptr_succ (dequeue r) <> (deq_seg r, TRBS_PER_SEGMENT) ->
     inc_deq true r consumer = Some (deq_moved r (deq_seg r) (ptr_succ (dequeue r))))
  /\ (forall consumer sg,
     ptr_succ (dequeue r) = (deq_seg r, TRBS_PER_SEGMENT) ->
     segs r !! deq_seg r = Some sg ->
     inc_deq true r consumer =
       Some (let r' := deq_moved r (next sg) (next sg, 0%nat) in
             if consumer && (next sg =? first_seg r)%nat then toggle_cycle r' else r')).
Proof.
  intros Hpos. repeat split.
  - intros. by eapply inc_deq_plain.
  - intros. by eapply inc_deq_link.
  - intros. by eapply inc_enq_plain.
  - intros. by eapply inc_enq_defer.
  - intros more tc t sg t0 Hc Hch Hr Hl Hs Hr0 Hl0.
    destruct (inc_enq_link r more tc t sg t0 Hc Hch Hr Hl Hs Hr0 Hl0) as (r1 & Hw & Hi).
    destruct (write_trb_cursors _ _ _ _ Hw) as (? & ? & Hd & ? & Hcs & ? & ?).
    exists r1. eexists. split; [exact Hi|].
    destruct (tst (field3 t) LINK_TOGGLE); simpl; rewrite ?Hcs; by repeat split.
  - intros. by apply inc_deq_event_plain.
  - intros. by apply inc_deq_event_wrap.
Qed.

(** C2 (amended).  When a producer advance on a transfer or command ring lands
    on a link TRB, the link TRB is kept from the hardware exactly when the
    TRB just queued has no chain bit and the caller announces no more TRBs
    ([more_trbs_coming = false]): [inc_enq] then leaves the link TRB as it is
    and the enqueue cursor on it, and the [prepare_ring] of the next
    submission flips the link TRB's cycle bit and steps over it.  With the
    chain bit set or more TRBs coming, [inc_enq] flips the link TRB's cycle
    bit at once. *)
Theorem link_trb_handover (r : xhci_ring) (tc t t0 : xhci_trb) (sg : xhci_segment) :
  read_trb r (enqueue r) = Some tc ->
  read_trb r (ptr_succ (enqueue r)) = Some t -> is_link_trb t = true ->
  segs r !! enq_seg r = Some sg ->
  read_trb r (next sg, 0%nat) = Some t0 -> is_link_trb t0 = false ->
  (Z.land (field3 tc) TRB_CHAIN = 0 ->
   exists r1,
     inc_enq false r false false = Some r1 /\
     segs r1 = segs r /\ enqueue r1 = ptr_succ (enqueue r) /\
     cycle_state r1 = cycle_state r /\
     forall ep_state n,
       ep_state_ok ep_state -> room_on_ring false r1 n = Some true ->
       exists r2 t',
         prepare_ring false r1 ep_state n = Some (0, r2) /\
         read_trb r2 (ptr_succ (enqueue r)) = Some t' /\
         tst (field3 t') TRB_CYCLE = negb (tst (field3 t) TRB_CYCLE) /\
         enqueue r2 = (next sg, 0%nat) /\
         cycle_state r2 =
           cycle_state (if tst (field3 t) LINK_TOGGLE then toggle_cycle r else r))
  /\ (forall more,
      (Z.land (field3 tc) TRB_CHAIN =? 0) && negb more = false ->
      exists r1 t',
        inc_enq false r false more = Some r1 /\
        read_trb r1 (ptr_succ (enqueue r)) = Some t' /\
        tst (field3 t') TRB_CYCLE = negb (tst (field3 t) TRB_CYCLE) /\
        enqueue r1 = (next sg, 0%nat)).
Proof.
  intros Hc Hr Hl Hs Hr0 Hl0. split.
  - intros Hch. eexists. split; [by eapply inc_enq_defer|].
    repeat split.
    intros ep_state n Hst Hroom.
    set (r1 := enq_moved r (enq_seg r) (ptr_succ (enqueue r))) in *.
    destruct (prepare_ring_on_link r1 ep_state n t sg t0 Hst Hroom) as (r' & Hw & Hp);
      try done.
    eexists. exists (set_control t (prep_link_control (field3 t))).
    split; [exact Hp|].
    destruct (write_trb_cursors _ _ _ _ Hw) as (? & ? & ? & ? & Hcs & ? & ?).
    assert (Hrd : read_trb r' (ptr_succ (enqueue r))
                  = Some (set_control t (prep_link_control (field3 t))))
      by apply (read_write_same _ _ _ _ Hw).
    split; [by destruct (tst (field3 t) LINK_TOGGLE)|].
    split; [apply cycle_prep_link_control|].
    split; [done|].
    destruct (tst (field3 t) LINK_TOGGLE); simpl; by rewrite Hcs.
  - intros more Hch.
    destruct (inc_enq_link r more tc t sg t0 Hc Hch Hr Hl Hs Hr0 Hl0) as (r1 & Hw & Hi).
    eexists. exists (set_control t (enq_link_control (field3 t) (Z.land (field3 tc) TRB_CHAIN))).
    split; [exact Hi|].
    pose proof (read_write_same _ _ _ _ Hw) as Hrd.
    split; [by destruct (tst (field3 t) LINK_TOGGLE)|].
    split; [apply cycle_enq_link_control|].
    by destruct (tst (field3 t) LINK_TOGGLE).
Qed.


(** C9 (amended).  The submission path looks at the endpoint context state
    only: [prepare_ring] rejects a disabled endpoint with [-ENOENT] and an
    endpoint in the error state or in an unknown state with [-EINVAL], the
    ring untouched; a halted endpoint is treated as a running one, its TRBs
    are queued anyway.  What is held back for an endpoint with
    [EP_HALT_PENDING], [SET_DEQ_PENDING] or [EP_HALTED] set is the doorbell:
    [ring_ep_doorbell] leaves the doorbell register as it is. *)
Theorem submission_state_gate (r : xhci_ring) (n ep_state flags db ep_index stream : Z) :
  prepare_ring false r EP_STATE_DISABLED n = Some (- ENOENT, r)
  /\ prepare_ring false r EP_STATE_ERROR n = Some (- EINVAL, r)
  /\ (ep_state < 0 \/ 4 < ep_state -> prepare_ring false r ep_state n = Some (- EINVAL, r))
  /\ prepare_ring false r EP_STATE_HALTED n = prepare_ring false r EP_STATE_RUNNING n
  /\ prepare_ring false r EP_STATE_STOPPED n = prepare_ring false r EP_STATE_RUNNING n
  /\ (tst flags EP_HALT_PENDING || tst flags SET_DEQ_PENDING || tst flags EP_HALTED = true ->
      ring_ep_doorbell flags db ep_index stream = db)
  /\ (tst flags EP_HALT_PENDING || tst flags SET_DEQ_PENDING || tst flags EP_HALTED = false ->
      ring_ep_doorbell flags db ep_index stream
      = Z.lor (Z.land db DB_MASK) (Z.lor (EPI_TO_DB ep_index) (STREAM_ID_TO_DB stream))).
Proof.
  repeat split.
  - intros H. unfold prepare_ring.
    unfold EP_STATE_DISABLED, EP_STATE_ERROR, EP_STATE_HALTED, EP_STATE_STOPPED,
      EP_STATE_RUNNING.
    destruct (ep_state =? 0) eqn:E0; [lia|]. destruct (ep_state =? 4) eqn:E4; [lia|].
    destruct (ep_state =? 2) eqn:E2; [lia|]. destruct (ep_state =? 3) eqn:E3; [lia|].
    destruct (ep_state =? 1) eqn:E1; [lia|]. done.
  - unfold ring_ep_doorbell. intros H.
    destruct (tst flags EP_HALT_PENDING), (tst flags SET_DEQ_PENDING), (tst flags EP_HALTED);
      simpl in *; congruence.
  - unfold ring_ep_doorbell. intros H.
    destruct (tst flags EP_HALT_PENDING), (tst flags SET_DEQ_PENDING), (tst flags EP_HALTED);
      simpl in *; congruence.
Qed.


(** [Some a ≫= f] without unfolding anything else. *)
Ltac bind_some :=
  repeat match goal with
  | |- context [Some ?a ≫= ?f] => change (Some a ≫= f) with (f a); cbv beta iota zeta
  end.

(** ** Well-formed rings *)


Lemma seg_ok_lookup n sg i t :
  seg_ok n sg -> (2 <= TRBS_PER_SEGMENT)%nat -> trbs sg !! i = Some t ->
  is_link_trb t = bool_decide (S i = TRBS_PER_SEGMENT).
Proof.
  intros (Hlen & _ & Hbody & Hlast) Htps Hi.
  pose proof (lookup_lt_Some _ _ _ Hi) as Hlt. rewrite Hlen in Hlt.
  destruct (decide (S i = TRBS_PER_SEGMENT)) as [E|E].
  - rewrite bool_decide_eq_true_2 by done.
    rewrite Forall_lookup in Hlast. apply (Hlast 0%nat).
    rewrite lookup_drop. rewrite <- Hi. f_equal. lia.
  - rewrite bool_decide_eq_false_2 by done.
    rewrite Forall_lookup in Hbody. apply (Hbody i).
    rewrite lookup_take_lt by lia. done.
Qed.

Lemma mem_ok_read r s i :
  mem_ok r -> (s < length (segs r))%nat -> (i < TRBS_PER_SEGMENT)%nat ->
  exists sg t, segs r !! s = Some sg /\ (next sg < length (segs r))%nat /\
    read_trb r (s, i) = Some t /\ is_link_trb t = bool_decide (S i = TRBS_PER_SEGMENT).
Proof.
  intros (Htps & Hsegs & _) Hs Hi.
  destruct (lookup_lt_is_Some_2 _ _ Hs) as [sg Hsg].
  rewrite Forall_lookup in Hsegs. pose proof (Hsegs _ _ Hsg) as Hok.
  destruct Hok as (Hlen & Hnext & ?).
  destruct (lookup_lt_is_Some_2 (trbs sg) i) as [t Ht]; [lia|].
  exists sg, t. repeat split; try done.
  - unfold read_trb. simpl. rewrite Hsg. done.
  - by eapply seg_ok_lookup.
Qed.

Lemma seg_ok_insert n sg i t :
  seg_ok n sg -> (i < TRBS_PER_SEGMENT)%nat ->
  is_link_trb t = bool_decide (S i = TRBS_PER_SEGMENT) ->
  seg_ok n (mk_seg (<[i := t]> (trbs sg)) (next sg) (dma sg) (trbs_va sg)).
Proof.
  intros (Hlen & Hnext & Hbody & Hlast) Hi Ht. unfold seg_ok. simpl.
  rewrite length_insert. repeat split; try done.
  - destruct (decide (S i = TRBS_PER_SEGMENT)) as [E|E].
    + rewrite take_insert_ge by lia. done.
    + rewrite take_insert_lt by lia. apply Forall_insert; [done|].
      by rewrite Ht, bool_decide_eq_false_2.
  - destruct (decide (S i = TRBS_PER_SEGMENT)) as [E|E].
    + rewrite drop_insert_ge by lia. apply Forall_insert; [done|].
      by rewrite Ht, bool_decide_eq_true_2.
    + rewrite drop_insert_lt by lia. done.
Qed.

(** Writing a TRB of the kind its slot holds keeps the memory well formed. *)
Lemma write_trb_mem_ok r p t r' :
  mem_ok r -> write_trb r p t = Some r' ->
  is_link_trb t = bool_decide (S p.2 = TRBS_PER_SEGMENT) -> mem_ok r'.
Proof.
  intros (Htps & Hsegs & Hcyc) Hw Ht.
  destruct (write_trb_cursors _ _ _ _ Hw) as (_ & _ & _ & _ & Hcs & _).
  unfold write_trb in Hw.
  destruct (segs r !! p.1) as [sg|] eqn:Hsg; simpl in Hw; [|done].
  case_decide as Hlt; [|done]. inversion Hw; subst; clear Hw.
  repeat split; simpl; try done.
  rewrite length_insert. apply Forall_insert; [done|].
  rewrite Forall_lookup in Hsegs. pose proof (Hsegs _ _ Hsg) as Hok.
  apply seg_ok_insert; try done. destruct Hok as (Hlen & _). lia.
Qed.

Lemma mem_ok_cursor_indep r r' :
  mem_ok r -> segs r' = segs r -> (cycle_state r' = 0 \/ cycle_state r' = 1) -> mem_ok r'.
Proof. intros (? & ? & ?) Hs Hc. unfold mem_ok. by rewrite Hs. Qed.

Lemma mem_ok_toggle r : mem_ok r -> mem_ok (toggle_cycle r).
Proof.
  intros H. apply (mem_ok_cursor_indep r); [done|done|].
  simpl. destruct (cycle_state r =? 0); auto.
Qed.

Lemma mem_ok_set_enqueue r s p : mem_ok r -> mem_ok (set_enqueue s p r).
Proof. intros H. by apply (mem_ok_cursor_indep r); [| |destruct H as (? & ? & ?)]. Qed.

Lemma mem_ok_set_enq_updates r v : mem_ok r -> mem_ok (set_enq_updates v r).
Proof. intros H. by apply (mem_ok_cursor_indep r); [| |destruct H as (? & ? & ?)]. Qed.

Lemma mem_ok_enq_moved r s p : mem_ok r -> mem_ok (enq_moved r s p).
Proof. intros H. by apply mem_ok_set_enqueue, mem_ok_set_enq_updates. Qed.

(** [queue_trb] of a TRB that is no link TRB, on a well-formed ring whose
    enqueue cursor is ready: it succeeds, the ring stays well formed, and the
    cursor is ready again unless the TD ends in front of a link TRB. *)
Lemma queue_trb_ok r more f1 f2 f3 f4 :
  ring_ok r -> enq_ready r -> is_link_trb (mk_trb f1 f2 f3 f4) = false ->
  exists r',
    queue_trb false r false more f1 f2 f3 f4 = Some r' /\ ring_ok r' /\
    ((Z.land f4 TRB_CHAIN =? 0) && negb more = false -> enq_ready r') /\
    length (segs r') = length (segs r).
Proof.
  intros (Hmem & He1 & Hes & He2) Hready Hnl. unfold enq_ready in Hready.
  destruct (enqueue r) as [s i] eqn:Henq. simpl in *. subst s.
  destruct (mem_ok_read r (enq_seg r) i Hmem Hes He2) as (sg & t0 & Hsg & Hnx & Hrd & _).
  destruct (write_trb_is_Some r (enq_seg r, i) t0 (mk_trb f1 f2 f3 f4) Hrd) as [r1 Hw].
  assert (Hmem1 : mem_ok r1).
  { eapply write_trb_mem_ok; [done|exact Hw|]. simpl.
    rewrite Hnl. symmetry. apply bool_decide_eq_false_2. lia. }
  destruct (write_trb_cursors _ _ _ _ Hw) as (Heq & Hesq & _).
  destruct (write_trb_fields _ _ _ _ Hw) as [_ Hlen].
  pose proof (read_write_same _ _ _ _ Hw) as Hrd1.
  unfold queue_trb. rewrite Henq, Hw. simpl.
  assert (Hes1 : (enq_seg r1 < length (segs r1))%nat) by (rewrite Hesq, Hlen; done).
  destruct (mem_ok_read r1 (enq_seg r1) (S i) Hmem1 Hes1 ltac:(lia))
    as (sg1 & t1 & Hsg1 & Hnx1 & Hrd2 & Hl2).
  rewrite Henq, Hesq in *.
  destruct (decide (S (S i) = TRBS_PER_SEGMENT)) as [E|E].
  - rewrite bool_decide_eq_true_2 in Hl2 by done.
    destruct ((Z.land f4 TRB_CHAIN =? 0) && negb more) eqn:Hch.
    + apply andb_prop in Hch as [Hc Hm]. apply Z.eqb_eq in Hc.
      destruct more; [done|].
      eexists. split; [|split; [|split; [done|]]].
      * eapply inc_enq_defer; rewrite ?Heq; [exact Hrd1|exact Hc|exact Hrd2|exact Hl2].
      * rewrite Heq, Hesq. split; [by apply mem_ok_enq_moved|].
        simpl. repeat split; try done; try lia.
      * done.
    + destruct (mem_ok_read r1 (next sg1) 0%nat Hmem1 Hnx1 ltac:(lia))
        as (sg2 & t2 & Hsg2 & Hnx2 & Hrd3 & Hl3).
      rewrite bool_decide_eq_false_2 in Hl3 by lia.
      destruct (inc_enq_link r1 more (mk_trb f1 f2 f3 f4) t1 sg1 t2) as (r2 & Hw2 & Hi);
        rewrite ?Heq, ?Hesq; try done.
      rewrite Heq in Hw2.
      eexists. split; [exact Hi|].
      assert (Hmem2 : mem_ok r2).
      { eapply write_trb_mem_ok; [exact Hmem1|exact Hw2|].
        rewrite is_link_enq_link_control, Hl2. symmetry. by apply bool_decide_eq_true_2. }
      destruct (write_trb_fields _ _ _ _ Hw2) as [_ Hlen2].
      split.
      * destruct (tst (field3 t1) LINK_TOGGLE); simpl.
        -- split; [by apply mem_ok_toggle, mem_ok_enq_moved|].
           simpl. repeat split; try done; try lia; by rewrite Hlen2.
        -- split; [by apply mem_ok_enq_moved|].
           simpl. repeat split; try done; try lia; by rewrite Hlen2.
      * split.
        -- intros _. unfold enq_ready.
           destruct (tst (field3 t1) LINK_TOGGLE); simpl; lia.
        -- destruct (tst (field3 t1) LINK_TOGGLE); simpl; by rewrite Hlen2.
  - rewrite bool_decide_eq_false_2 in Hl2 by done.
    eexists. split; [|split; [|split]].
    + eapply inc_enq_plain; rewrite ?Heq; [exact Hrd1|exact Hrd2|exact Hl2].
    + rewrite Heq, Hesq. split; [by apply mem_ok_enq_moved|].
      simpl. repeat split; try done; try lia.
    + intros _. unfold enq_ready. rewrite Heq. simpl. unfold ptr_succ. simpl. lia.
    + done.
Qed.


(** [prepare_ring] with room on a well-formed ring: it succeeds and leaves
    the enqueue cursor ready. *)
Lemma prepare_ring_ok r ep_state n :
  ring_ok r -> ep_state_ok ep_state -> room_on_ring false r n = Some true ->
  exists r', prepare_ring false r ep_state n = Some (0, r') /\ ring_ok r' /\ enq_ready r'
             /\ td_list r' = td_list r.
Proof.
  intros (Hmem & He1 & Hes & He2) Hst Hroom.
  destruct (enqueue r) as [s i] eqn:Henq. simpl in *. subst s.
  destruct (mem_ok_read r (enq_seg r) i Hmem Hes He2) as (sg & t & Hsg & Hnx & Hrd & Hl).
  destruct (decide (S i = TRBS_PER_SEGMENT)) as [E|E].
  - rewrite bool_decide_eq_true_2 in Hl by done.
    assert (Htps : (2 <= TRBS_PER_SEGMENT)%nat) by (by destruct Hmem).
    destruct (mem_ok_read r (next sg) 0%nat Hmem Hnx ltac:(lia))
      as (sg2 & t2 & Hsg2 & Hnx2 & Hrd2 & Hl2).
    rewrite bool_decide_eq_false_2 in Hl2 by lia.
    destruct (prepare_ring_on_link r ep_state n t sg t2) as (r1 & Hw & Hp);
      rewrite ?Henq; try done.
    rewrite Henq in Hw.
    assert (Hmem1 : mem_ok r1).
    { eapply write_trb_mem_ok; [exact Hmem|exact Hw|].
      rewrite is_link_prep_link_control, Hl. symmetry. by apply bool_decide_eq_true_2. }
    destruct (write_trb_fields _ _ _ _ Hw) as [_ Hlen].
    destruct (write_trb_cursors _ _ _ _ Hw) as (_ & _ & _ & _ & _ & _ & Htd).
    eexists. split; [exact Hp|].
    destruct (tst (field3 t) LINK_TOGGLE); simpl.
    + split; [|split; [unfold enq_ready; simpl; lia|done]].
      split; [by apply mem_ok_set_enqueue, mem_ok_toggle|].
      simpl. repeat split; try done; try lia; by rewrite Hlen.
    + split; [|split; [unfold enq_ready; simpl; lia|done]].
      split; [by apply mem_ok_set_enqueue|].
      simpl. repeat split; try done; try lia; by rewrite Hlen.
  - rewrite bool_decide_eq_false_2 in Hl by done.
    exists r. rewrite prepare_ring_checked by done. rewrite Hroom. simpl.
    unfold enqueue_is_link_trb. rewrite Henq, Hrd. simpl. rewrite Hl.
    split; [done|]. split; [|split; [|done]].
    + unfold ring_ok. rewrite Henq. simpl. done.
    + unfold enq_ready. rewrite Henq. simpl. lia.
Qed.

Lemma ring_ok_set_td_list r l : ring_ok r -> ring_ok (set_td_list l r).
Proof.
  intros (Hmem & ? & ? & ?). split; [|done].
  by apply (mem_ok_cursor_indep r); [| |destruct Hmem as (? & ? & ?)].
Qed.

(** [prepare_transfer] with room on a well-formed ring. *)
Lemma prepare_transfer_ok r ep_info n urb_id td :
  ring_ok r -> ep_state_ok (Z.land ep_info EP_STATE_MASK) ->
  room_on_ring false r n = Some true ->
  exists r' t,
    prepare_transfer (Some r) ep_info n urb_id td = Some (0, Some r', Some t)
    /\ ring_ok r' /\ enq_ready r'.
Proof.
  intros Hok Hst Hroom.
  destruct (prepare_ring_ok r _ n Hok Hst Hroom) as (r' & Hp & Hok' & Hrdy & Htd).
  unfold prepare_transfer. rewrite Hp. simpl.
  eexists. eexists. split; [done|]. split; [by apply ring_ok_set_td_list|done].
Qed.

(** [giveback_first_trb] fixes the cycle bit of the TD's first TRB, which
    is no link TRB. *)
Lemma giveback_start_trb_ok r p cyc :
  ring_ok r -> (p.1 < length (segs r))%nat -> (S p.2 < TRBS_PER_SEGMENT)%nat ->
  is_Some (giveback_start_trb r p cyc).
Proof.
  intros (Hmem & _) Hs Hi. destruct p as [s i]. simpl in *.
  destruct (mem_ok_read r s i Hmem Hs ltac:(lia)) as (sg & t & _ & _ & Hrd & _).
  unfold giveback_start_trb. rewrite Hrd. simpl.
  destruct (write_trb_is_Some r (s, i) t
              (set_control t (if negb (cyc =? 0) then Z.lor (field3 t) cyc
                              else Z.land (field3 t) (Z.lnot 1))) Hrd) as [r' Hw].
  by rewrite Hw.
Qed.


(** ** Control transfers *)


Lemma ring_ok_cycle r : ring_ok r -> cycle_state r = 0 \/ cycle_state r = 1.
Proof. by intros ((_ & _ & H) & _). Qed.

Lemma ring_ok_enqueue_lt r : ring_ok r -> ((enqueue r).1 < length (segs r))%nat.
Proof. intros (_ & -> & ? & _). done. Qed.

(** One [queue_trb] of a builder, of a TRB that is no link TRB. *)
Ltac queue_step Hok Hrdy r' Hq Hok' Hrdy' Hlen :=
  match goal with
  | |- context [queue_trb false ?r false ?more ?f1 ?f2 ?f3 ?f4] =>
      let Hnl := fresh "Hnl" in
      assert (Hnl : is_link_trb (mk_trb f1 f2 f3 f4) = false);
      [ destruct (ring_ok_cycle r Hok) as [-> | ->];
        repeat match goal with |- context [if ?b then _ else _] => destruct b end;
        reflexivity
      | destruct (queue_trb_ok r more f1 f2 f3 f4 Hok Hrdy Hnl)
          as (r' & Hq & Hok' & Hrdy' & Hlen);
        rewrite Hq; clear Hnl ]
  end.

Ltac queue_auto :=
  match goal with
  | Hok : ring_ok ?r, Hrdy : enq_ready ?r
    |- context [queue_trb false ?r false _ _ _ _ _] =>
      let r' := fresh "r" in
      let Hq := fresh "Hq" in
      let Hok' := fresh "Hok" in
      let Hrdy' := fresh "Hrdy" in
      let Hlen := fresh "Hlen" in
      queue_step Hok Hrdy r' Hq Hok' Hrdy' Hlen; simpl;
      try specialize (Hrdy' (andb_false_r _))
  end.

(** Case analysis on the cycle state of every ring a builder went through. *)
Ltac cycles :=
  repeat match goal with
  | Hok : ring_ok ?r |- context [cycle_state ?r] =>
      destruct (ring_ok_cycle r Hok) as [-> | ->]
  end.

(** ** Command completions *)


Lemma clear_ep_flag_frame x ep flag x' :
  clear_ep_flag x ep flag = Some x' ->
  cmd_ring x' = cmd_ring x /\ event_ring x' = event_ring x.
Proof.
  unfold clear_ep_flag, set_ep. intros H.
  destruct (get_ep x ep); simpl in H; [|done].
  destruct (get_dev x ep.1); simpl in H; [|done].
  destruct (at_index _ _); simpl in H; [|done].
  by inversion H.
Qed.


Lemma set_ep_frame x ep v x' :
  set_ep x ep v = Some x' -> urbs x' = urbs x /\ tds x' = tds x.
Proof.
  unfold set_ep. destruct (get_dev x ep.1) as [d|]; [|done]. bind_some.
  destruct (at_index (eps d) ep.2); [|done]. bind_some. by intros [= <-].
Qed.

Lemma set_ep_total x ep v e : get_ep x ep = Some e -> is_Some (set_ep x ep v).
Proof.
  unfold get_ep, set_ep. destruct (get_dev x ep.1) as [d|]; [|done]. bind_some.
  intros ->. bind_some. done.
Qed.

(** The cases of the [switch] that clear a flag of the endpoint the command
    TRB names: with the endpoint there the flag is cleared. *)
Lemma clear_ep_flag_total x ep flag e :
  get_ep x ep = Some e ->
  exists x1,
    set_ep x ep (mk_ep (vep_ring e) (Z.land (vep_state e) (Z.lnot flag)) (stopped_td e)
                   (stopped_trb e) (stopped_stream e)) = Some x1
    /\ clear_ep_flag x ep flag = Some x1 /\ cmd_ring x1 = cmd_ring x.
Proof.
  intros He. unfold clear_ep_flag. rewrite He. bind_some.
  destruct (set_ep_total x ep (mk_ep (vep_ring e) (Z.land (vep_state e) (Z.lnot flag))
                                 (stopped_td e) (stopped_trb e) (stopped_stream e)) e He)
    as [x1 Hs].
  exists x1. split; [done|]. split; [done|].
  unfold set_ep in Hs. destruct (get_dev x ep.1); [|done]. revert Hs. bind_some.
  destruct (at_index _ _); [|done]. bind_some. by intros [= <-].
Qed.

(** [handle_cmd_completion] by the checks on the command-TRB address and by
    the type of the command TRB at the dequeue pointer. *)
Lemma cmd_completion_dispatch_spec (x : xhci_hcd) (event : xhci_event_cmd) (dq : Z) :
  xhci_trb_virt_to_dma (cmd_ring x) (Some (deq_seg (cmd_ring x)))
    (Some (dequeue (cmd_ring x))) = Some dq ->
  (dq = 0 ->
   handle_cmd_completion x event
   = Some (set_error_bitmask (Z.lor (error_bitmask x) (Z.shiftl 1 4)) x))
  /\ (dq <> 0 -> cmd_trb event <> dq ->
      handle_cmd_completion x event
      = Some (set_error_bitmask (Z.lor (error_bitmask x) (Z.shiftl 1 5)) x))
  /\ (dq <> 0 -> cmd_trb event = dq ->
      forall trb r,
        read_trb (cmd_ring x) (dequeue (cmd_ring x)) = Some trb ->
        inc_deq false (cmd_ring x) false = Some r ->
        let ty := Z.land (field3 trb) TRB_TYPE_BITMASK in
        let comp := GET_COMP_CODE (cev_status event) in
        let slot_id := TRB_TO_SLOT_ID (cev_flags event) in
        let ep := (slot_id, TRB_TO_EP_INDEX (field3 trb)) in
        let status := if comp =? COMP_SUCCESS then CMD_DONE else CMD_FAIL in
        let advanced (x1 : xhci_hcd) :=
          handle_cmd_completion x event = Some (set_cmd_ring r x1) in
        let flag_cleared (flag : Z) :=
          forall e, get_ep x ep = Some e ->
            exists x1,
              set_ep x ep (mk_ep (vep_ring e) (Z.land (vep_state e) (Z.lnot flag))
                             (stopped_td e) (stopped_trb e) (stopped_stream e)) = Some x1
              /\ advanced (set_g_cmd_status CMD_DONE x1) in
        (ty = TRB_TYPE TRB_CMD_NOOP -> advanced x)
        /\ (ty = TRB_TYPE TRB_ENABLE_SLOT ->
            advanced (set_g_cmd_status status
                        (set_g_slot_id (if comp =? COMP_SUCCESS then slot_id else 0) x)))
        /\ (ty = TRB_TYPE TRB_DISABLE_SLOT ->
            advanced (if comp =? COMP_SUCCESS
                      then set_g_cmd_status CMD_DONE (set_g_slot_id slot_id x) else x))
        /\ (ty = TRB_TYPE TRB_ADDR_DEV ->
            advanced (set_g_cmd_status
                        (if (comp =? COMP_SUCCESS) || (comp =? COMP_CMD_ABORT)
                         then CMD_DONE else CMD_FAIL) x))
        /\ (ty = TRB_TYPE TRB_CONFIG_EP \/ ty = TRB_TYPE TRB_RESET_DEV
            \/ ty = TRB_TYPE TRB_STOP_RING \/ ty = TRB_TYPE TRB_EVAL_CONTEXT ->
            advanced (set_g_cmd_status status x))
        /\ (ty = TRB_TYPE TRB_SET_DEQ -> comp <> COMP_SUCCESS ->
            advanced (set_g_cmd_status CMD_FAIL x))
        /\ (ty = TRB_TYPE TRB_SET_DEQ -> comp = COMP_SUCCESS ->
            flag_cleared SET_DEQ_PENDING)
        /\ (ty = TRB_TYPE TRB_RESET_EP -> flag_cleared EP_HALTED)
        /\ (cmd_type_known ty = false -> comp = COMP_CMD_STOP ->
            handle_cmd_completion x event = Some (set_g_cmd_status CMD_DONE x))
        /\ (cmd_type_known ty = false -> comp <> COMP_CMD_STOP ->
            advanced (set_g_cmd_status CMD_FAIL
                        (set_error_bitmask (Z.lor (error_bitmask x) (Z.shiftl 1 6)) x)))).
Proof.
  intros Hdma.
  assert (Heq : handle_cmd_completion x event =
    if dq =? 0 then Some (set_error_bitmask (Z.lor (error_bitmask x) (Z.shiftl 1 4)) x)
    else if negb (cmd_trb event =? dq) then
      Some (set_error_bitmask (Z.lor (error_bitmask x) (Z.shiftl 1 5)) x)
    else
      trb ← read_trb (cmd_ring x) (dequeue (cmd_ring x));
      '(x1, go_on) ← cmd_completion_switch x event trb;
      if go_on : bool then
        r ← inc_deq false (cmd_ring x1) false; Some (set_cmd_ring r x1)
      else Some x1).
  { unfold handle_cmd_completion. rewrite Hdma. reflexivity. }
  split; [|split].
  - intros ->. by rewrite Heq.
  - intros Hnz Hne. apply Z.eqb_neq in Hnz, Hne. by rewrite Heq, Hnz, Hne.
  - intros Hnz <-. apply Z.eqb_neq in Hnz.
    intros trb r Hrd Hr ty comp slot_id ep status advanced flag_cleared.
    assert (Hgo : forall x1,
              cmd_completion_switch x event trb = Some (x1, true) ->
              cmd_ring x1 = cmd_ring x -> advanced x1).
    { intros x1 Hsw Hc. unfold advanced. rewrite Heq, Hnz, Z.eqb_refl, Hrd. cbn [negb].
      bind_some. rewrite Hsw. bind_some. rewrite Hc, Hr. reflexivity. }
    assert (Hsw : cmd_completion_switch x event trb =
      if ty =? TRB_TYPE TRB_CMD_NOOP then Some (x, true)
      else if ty =? TRB_TYPE TRB_ENABLE_SLOT then
        Some (if comp =? COMP_SUCCESS
              then set_g_cmd_status CMD_DONE (set_g_slot_id slot_id x)
              else set_g_cmd_status CMD_FAIL (set_g_slot_id 0 x), true)
      else if ty =? TRB_TYPE TRB_DISABLE_SLOT then
        Some (if comp =? COMP_SUCCESS
              then set_g_cmd_status CMD_DONE (set_g_slot_id slot_id x) else x, true)
      else if ty =? TRB_TYPE TRB_ADDR_DEV then
        Some (set_g_cmd_status
                (if (comp =? COMP_SUCCESS) || (comp =? COMP_CMD_ABORT)
                 then CMD_DONE else CMD_FAIL) x, true)
      else if (ty =? TRB_TYPE TRB_CONFIG_EP) || (ty =? TRB_TYPE TRB_RESET_DEV)
              || (ty =? TRB_TYPE TRB_STOP_RING) || (ty =? TRB_TYPE TRB_EVAL_CONTEXT) then
        Some (set_g_cmd_status status x, true)
      else if ty =? TRB_TYPE TRB_SET_DEQ then
        if comp =? COMP_SUCCESS then
          x' ← clear_ep_flag x ep SET_DEQ_PENDING;
          Some (set_g_cmd_status CMD_DONE x', true)
        else Some (set_g_cmd_status CMD_FAIL x, true)
      else if ty =? TRB_TYPE TRB_RESET_EP then
        x' ← clear_ep_flag x ep EP_HALTED;
        Some (set_g_cmd_status CMD_DONE x', true)
      else if comp =? COMP_CMD_STOP then Some (set_g_cmd_status CMD_DONE x, false)
      else
        Some (set_g_cmd_status CMD_FAIL
                (set_error_bitmask (Z.lor (error_bitmask x) (Z.shiftl 1 6)) x), true))
      by reflexivity.
    assert (Hflag : forall flag,
              cmd_completion_switch x event trb
              = (x' ← clear_ep_flag x ep flag; Some (set_g_cmd_status CMD_DONE x', true)) ->
              flag_cleared flag).
    { intros flag Hs e He.
      destruct (clear_ep_flag_total x ep flag e He) as (x1 & Hset & Hcl & Hc).
      exists x1. split; [done|]. apply Hgo; [|done]. by rewrite Hs, Hcl. }
    clearbody ty comp. repeat split.
    + intros ->. apply Hgo; [|done]. by rewrite Hsw.
    + intros ->. apply Hgo; [|by destruct (comp =? COMP_SUCCESS)].
      rewrite Hsw. unfold status. by destruct (comp =? COMP_SUCCESS).
    + intros ->. apply Hgo; [|by destruct (comp =? COMP_SUCCESS)]. by rewrite Hsw.
    + intros ->. apply Hgo; [|done]. by rewrite Hsw.
    + intros [-> | [-> | [-> | ->]]]; (apply Hgo; [|done]); by rewrite Hsw.
    + intros -> Hc. apply Z.eqb_neq in Hc. apply Hgo; [|done]. by rewrite Hsw, Hc.
    + intros -> ->. apply Hflag. by rewrite Hsw.
    + intros ->. apply Hflag. by rewrite Hsw.
    + intros Hk ->. unfold cmd_type_known in Hk. cbn [existsb fmap list_fmap] in Hk.
      rewrite !orb_false_iff in Hk.
      destruct Hk as (E1 & E2 & E3 & E4 & E5 & E6 & E7 & E8 & E9 & E10 & _).
      rewrite Heq, Hnz, Z.eqb_refl, Hrd. cbn [negb]. bind_some.
      rewrite Hsw, E1, E2, E3, E4, E5, E6, E7, E8, E9, E10. reflexivity.
    + intros Hk Hc. apply Z.eqb_neq in Hc.
      unfold cmd_type_known in Hk. cbn [existsb fmap list_fmap] in Hk.
      rewrite !orb_false_iff in Hk.
      destruct Hk as (E1 & E2 & E3 & E4 & E5 & E6 & E7 & E8 & E9 & E10 & _).
      apply Hgo; [|done].
      rewrite Hsw, E1, E2, E3, E4, E5, E6, E7, E8, E9, E10, Hc. reflexivity.
Qed.


(** ** Transfer events *)

Lemma xhci_trb_virt_to_dma_total r s p :
  is_Some (segs r !! s) -> is_Some (xhci_trb_virt_to_dma r (Some s) (Some p)).
Proof.
  intros [sg Hsg]. unfold xhci_trb_virt_to_dma. rewrite Hsg. bind_some.
  destruct (segs r !! p.1); [|done]. cbv zeta.
  destruct (_ <? trbs_va sg); [done|]. by destruct (_ <? _).
Qed.

(** The bus address of a TRB of the segment itself, or of the place just
    past its last TRB. *)
Lemma xhci_trb_virt_to_dma_in r s i sg :
  segs r !! s = Some sg -> (i <= TRBS_PER_SEGMENT)%nat ->
  0 <= dma sg -> dma sg + Z.of_nat TRBS_PER_SEGMENT * SIZEOF_TRB < 2 ^ 64 ->
  xhci_trb_virt_to_dma r (Some s) (Some (s, i)) = Some (dma sg + Z.of_nat i * SIZEOF_TRB).
Proof.
  intros Hs Hi H0 Hw. unfold xhci_trb_virt_to_dma. rewrite Hs. bind_some. cbn [fst snd].
  rewrite Hs. cbv zeta. unfold SIZEOF_TRB in *.
  assert (E1 : (trbs_va sg + Z.of_nat i * 16 <? trbs_va sg) = false)
    by (apply Z.ltb_ge; lia).
  rewrite E1. replace (trbs_va sg + Z.of_nat i * 16 - trbs_va sg) with (Z.of_nat i * 16) by lia.
  rewrite Z.div_mul by lia.
  assert (E2 : (Z.of_nat TRBS_PER_SEGMENT <? Z.of_nat i) = false) by (apply Z.ltb_ge; lia).
  rewrite E2. f_equal. unfold wrap64. apply Z.mod_small. lia.
Qed.

Lemma xhci_set_hc_event_deq_total x :
  is_Some (segs (event_ring x) !! deq_seg (event_ring x)) ->
  exists v, xhci_set_hc_event_deq x = Some (set_erst_dequeue v x).
Proof.
  intros H. unfold xhci_set_hc_event_deq.
  destruct (xhci_trb_virt_to_dma_total _ _ (dequeue (event_ring x)) H) as [deq ->].
  bind_some. eexists. reflexivity.
Qed.

(** [trb_in_td] for a TD that lies in the dequeue segment, from slot [i] to
    slot [j]: the event address is looked for between the DMA addresses of
    the two slots. *)
Lemma trb_in_td_same_seg r s sg i j suspect :
  segs r !! s = Some sg -> (i <= j < TRBS_PER_SEGMENT)%nat ->
  0 < dma sg -> dma sg + Z.of_nat TRBS_PER_SEGMENT * SIZEOF_TRB < 2 ^ 64 ->
  trb_in_td r s (s, i) (Some (s, j)) suspect
  = Some (if (dma sg + Z.of_nat i * SIZEOF_TRB <=? suspect)
             && (suspect <=? dma sg + Z.of_nat j * SIZEOF_TRB)
          then Some s else None).
Proof.
  intros Hsg Hij Hdma Hmax. unfold SIZEOF_TRB in *.
  assert (Hv : forall k, (k < TRBS_PER_SEGMENT)%nat ->
             xhci_trb_virt_to_dma r (Some s) (Some (s, k)) = Some (dma sg + Z.of_nat k * 16)).
  { intros k Hk. rewrite (xhci_trb_virt_to_dma_in r s k sg); unfold SIZEOF_TRB; (done || lia). }
  unfold trb_in_td, trb_ptr. rewrite (Hv i) by lia. bind_some.
  cbn [trb_in_td_loop].
  assert (E0 : (dma sg + Z.of_nat i * 16 =? 0) = false) by (apply Z.eqb_neq; lia).
  rewrite E0. unfold seg_end_dma.
  assert (E1 : (TRBS_PER_SEGMENT =? 0)%nat = false) by (apply Nat.eqb_neq; lia).
  rewrite E1, (Hv (TRBS_PER_SEGMENT - 1)%nat) by lia. bind_some.
  rewrite (Hv j) by lia. bind_some.
  assert (E2 : (0 <? dma sg + Z.of_nat j * 16) = true) by (apply Z.ltb_lt; lia).
  assert (E3 : (dma sg + Z.of_nat i * 16 <=? dma sg + Z.of_nat j * 16) = true)
    by (apply Z.leb_le; lia).
  rewrite E2, E3. by destruct (_ && _).
Qed.

(** C8 (amended).  [handle_tx_event] has three gates in front of its look at
    the TD list.  An event with code ring underrun or ring overrun goes to
    [cleanup] at once: on a well-formed event ring it returns 0 with the
    event ring's dequeue cursor advanced, whatever the endpoint's TD list
    holds.  An event for a slot without device, for an endpoint without ring
    or for an endpoint whose context says disabled returns [-ENODEV] and
    changes nothing, the event ring's dequeue cursor included.  Behind the
    gates: with no pending TD the
    event is dropped without an error, [handle_tx_event] returns 0 and has
    only advanced the event ring's dequeue cursor (and republished it); with
    TDs pending, an event whose TRB address [trb_in_td] does not find between
    the ring's dequeue pointer and the last TRB of the head TD is an error,
    [handle_tx_event] returns [-ESHUTDOWN] and leaves the whole controller
    state, the transfer ring's dequeue pointer included, as it was. *)
Theorem tx_event_unmatched (x : xhci_hcd) (event : xhci_transfer_event) :
  let slot_id := TRB_TO_SLOT_ID (tev_flags event) in
  let ep_index := TRB_TO_EP_ID (tev_flags event) - 1 in
  let comp := GET_COMP_CODE (transfer_len event) in
  let discarded :=
    event_ring_ok (event_ring x) ->
    exists r v,
      inc_deq true (event_ring x) true = Some r
      /\ handle_tx_event x event = Some (0, set_erst_dequeue v (set_event_ring r x)) in
  (comp = COMP_UNDERRUN \/ comp = COMP_OVERRUN -> discarded)
  /\ (comp <> COMP_UNDERRUN -> comp <> COMP_OVERRUN ->
      (get_dev x slot_id = None -> handle_tx_event x event = Some (- ENODEV, x))
      /\ forall xdev e,
           get_dev x slot_id = Some xdev -> at_index (eps xdev) ep_index = Some e ->
           (vep_ring e = None -> handle_tx_event x event = Some (- ENODEV, x))
           /\ forall ep_ring ep_info,
                vep_ring e = Some ep_ring ->
                at_index (out_ctx xdev) ep_index = Some ep_info ->
                (Z.land ep_info EP_STATE_MASK = EP_STATE_DISABLED ->
                 handle_tx_event x event = Some (- ENODEV, x))
                /\ (Z.land ep_info EP_STATE_MASK <> EP_STATE_DISABLED ->
                    (td_list ep_ring = [] -> discarded)
                    /\ (forall td rest t,
                          td_list ep_ring = td :: rest -> tds x !! td = Some t ->
                          trb_in_td ep_ring (deq_seg ep_ring) (dequeue ep_ring)
                            (td_last_trb t) (buffer event) = Some None ->
                          handle_tx_event x event = Some (- ESHUTDOWN, x))
                    /\ (forall td rest t sg i j,
                          td_list ep_ring = td :: rest -> tds x !! td = Some t ->
                          segs ep_ring !! deq_seg ep_ring = Some sg ->
                          dequeue ep_ring = (deq_seg ep_ring, i) ->
                          td_last_trb t = Some (deq_seg ep_ring, j) ->
                          (i <= j < TRBS_PER_SEGMENT)%nat ->
                          0 < dma sg ->
                          dma sg + Z.of_nat TRBS_PER_SEGMENT * SIZEOF_TRB < 2 ^ 64 ->
                          buffer event < dma sg + Z.of_nat i * SIZEOF_TRB
                          \/ dma sg + Z.of_nat j * SIZEOF_TRB < buffer event ->
                          handle_tx_event x event = Some (- ESHUTDOWN, x)))).
Proof.
  intros slot_id ep_index comp discarded.
  assert (Hclean : event_ring_ok (event_ring x) ->
            exists r v,
              inc_deq true (event_ring x) true = Some r
              /\ (r ← inc_deq true (event_ring x) true;
                  x1 ← xhci_set_hc_event_deq (set_event_ring r x); Some (0, x1))
                 = Some (0, set_erst_dequeue v (set_event_ring r x))).
  { intros Hev.
    destruct (inc_deq_event_total (event_ring x) true Hev) as (r & Hinc & _ & Hseg & _).
    exists r. rewrite Hinc. bind_some.
    destruct (xhci_set_hc_event_deq_total (set_event_ring r x) Hseg) as [v ->].
    bind_some. by exists v. }
  split.
  { intros Hc Hev. unfold handle_tx_event. cbv zeta. fold comp.
    assert (E : (comp =? COMP_UNDERRUN) || (comp =? COMP_OVERRUN) = true)
      by (destruct Hc as [-> | ->]; reflexivity).
    rewrite E. by apply Hclean. }
  intros Hu Ho. apply Z.eqb_neq in Hu, Ho.
  split.
  { intros Hdev. unfold handle_tx_event. cbv zeta. fold comp slot_id ep_index.
    rewrite Hu, Ho. cbn [orb]. by rewrite Hdev. }
  intros xdev e Hdev He. split.
  { intros Hring. unfold handle_tx_event. cbv zeta. fold comp slot_id ep_index.
    rewrite Hu, Ho. cbn [orb]. rewrite Hdev, He. bind_some.
    unfold xhci_dma_to_transfer_ring. by rewrite Hring. }
  intros ep_ring ep_info Hring Hinfo. split.
  { intros Hdis. unfold handle_tx_event. cbv zeta. fold comp slot_id ep_index.
    rewrite Hu, Ho. cbn [orb]. rewrite Hdev, He. bind_some.
    unfold xhci_dma_to_transfer_ring. rewrite Hring, Hinfo. bind_some.
    by rewrite Hdis. }
  intros Hen. apply Z.eqb_neq in Hen.
  assert (Hhead : handle_tx_event x event =
    match td_list ep_ring with
    | [] =>
        r ← inc_deq true (event_ring x) true;
        x1 ← xhci_set_hc_event_deq (set_event_ring r x);
        Some (0, x1)
    | td :: _ =>
        t ← tds x !! td;
        event_seg ← trb_in_td ep_ring (deq_seg ep_ring) (dequeue ep_ring)
                      (td_last_trb t) (buffer event);
        match event_seg with
        | None => Some (- ESHUTDOWN, x)
        | Some _ => handle_tx_event x event
        end
    end).
  { unfold handle_tx_event. cbv zeta. fold comp slot_id ep_index.
    rewrite Hu, Ho. cbn [orb].
    rewrite Hdev, He. bind_some. unfold xhci_dma_to_transfer_ring. rewrite Hring, Hinfo.
    bind_some. rewrite Hen.
    destruct (td_list ep_ring) as [|td rest]; [reflexivity|].
    destruct (tds x !! td) as [t|]; [|reflexivity]. bind_some.
    destruct (trb_in_td _ _ _ _ _) as [[sg|]|]; reflexivity. }
  assert (Hmiss : forall td rest t,
            td_list ep_ring = td :: rest -> tds x !! td = Some t ->
            trb_in_td ep_ring (deq_seg ep_ring) (dequeue ep_ring) (td_last_trb t)
              (buffer event) = Some None ->
            handle_tx_event x event = Some (- ESHUTDOWN, x)).
  { intros td rest t Htd Ht Hin. rewrite Hhead, Htd, Ht. bind_some. rewrite Hin. reflexivity. }
  split; [|split].
  - intros Htd Hev. rewrite Hhead, Htd. by apply Hclean.
  - exact Hmiss.
  - intros td rest t sg i j Htd Ht Hsg Hdq Hlast Hij Hdma Hmax Hout.
    apply (Hmiss td rest t Htd Ht).
    rewrite Hdq, Hlast, (trb_in_td_same_seg _ _ sg) by done.
    f_equal. destruct (_ <=? _) eqn:E1; [|done]. destruct (buffer event <=? _) eqn:E2; [|done].
    apply Z.leb_le in E1, E2. lia.
Qed.


(** ** Giving a TD back *)

Lemma set_ep_ring_frame x ep r x' :
  set_ep_ring x ep r = Some x' -> urbs x' = urbs x /\ tds x' = tds x.
Proof.
  unfold set_ep_ring. destruct (get_ep x ep) as [e|]; [|done]. bind_some.
  apply set_ep_frame.
Qed.

Lemma set_ep_ring_total x ep r e : get_ep x ep = Some e -> is_Some (set_ep_ring x ep r).
Proof.
  intros He. unfold set_ep_ring. rewrite He. bind_some. by eapply set_ep_total.
Qed.

(** What [td_cleanup] does to the URB of the TD and to [*status]. *)
Lemma td_cleanup_spec x td event ep status ret st x' :
  td_cleanup x td event ep status = Some (ret, st, x') ->
  exists t u u',
    tds x !! td = Some t /\ urbs x !! td_urb t = Some u
    /\ urbs x' !! td_urb t = Some u'
    /\ transfer_buffer_length u' = transfer_buffer_length u
    /\ actual_length u'
       = (if transfer_buffer_length u <? actual_length u then 0 else actual_length u)
    /\ st = (if transfer_buffer_length u <? actual_length u
             then if tst (transfer_flags u) URB_SHORT_NOT_OK then - EREMOTEIO else 0
             else status).
Proof.
  unfold td_cleanup.
  destruct (tds x !! td) as [t|] eqn:Ht; [|done]. bind_some.
  destruct (urbs x !! td_urb t) as [u|] eqn:Hu; [|done]. bind_some.
  destruct (get_ep x ep) as [e|] eqn:He;
    [|by destruct (transfer_buffer_length u <? actual_length u)].
  assert (Hx1 : forall x1,
            match xhci_dma_to_transfer_ring e (buffer event) with
            | Some r => set_ep_ring x ep (set_td_list (list_del td (td_list r)) r)
            | None => Some x
            end = Some x1 -> urbs x1 = urbs x /\ tds x1 = tds x).
  { intros x1. destruct (xhci_dma_to_transfer_ring _ _).
    - apply set_ep_ring_frame.
    - by intros [= <-]. }
  pose proof (lookup_lt_Some _ _ _ Hu) as Hlt.
  destruct (transfer_buffer_length u <? actual_length u) eqn:E; bind_some;
    (destruct (match xhci_dma_to_transfer_ring e (buffer event) with
               | Some r => _ | None => _ end) as [x1|]; [|done]);
    destruct (Hx1 x1 eq_refl) as [Hurbs Htds]; bind_some;
    intros [= <- <- <-]; exists t, u; eexists;
    (split; [done|]); (split; [done|]);
    (split; [cbn [urbs set_urbs]; apply list_lookup_insert_eq; by rewrite Hurbs|]);
    rewrite E; done.
Qed.

Lemma td_cleanup_total x td event ep status t u e :
  tds x !! td = Some t -> urbs x !! td_urb t = Some u -> get_ep x ep = Some e ->
  is_Some (td_cleanup x td event ep status).
Proof.
  intros Ht Hu He. unfold td_cleanup. rewrite Ht. bind_some. rewrite Hu. bind_some.
  rewrite He.
  assert (Hx1 : is_Some
            match xhci_dma_to_transfer_ring e (buffer event) with
            | Some r => set_ep_ring x ep (set_td_list (list_del td (td_list r)) r)
            | None => Some x
            end).
  { destruct (xhci_dma_to_transfer_ring _ _); [by eapply set_ep_ring_total|done]. }
  destruct Hx1 as [x1 Hx1].
  destruct (transfer_buffer_length u <? actual_length u); bind_some;
    rewrite Hx1; bind_some; done.
Qed.



(** ** Bulk transfers *)


Lemma to_int_small x : 0 <= x < 2 ^ 31 -> to_int x = x.
Proof.
  intros H. unfold to_int, wrap32. rewrite Z.mod_small by lia.
  cbv zeta. destruct (x <? 2 ^ 31) eqn:E; [done|]. apply Z.ltb_ge in E. lia.
Qed.

Lemma wrap32_to_int x : wrap32 (to_int x) = wrap32 x.
Proof.
  unfold to_int. cbv zeta. destruct (wrap32 x <? 2 ^ 31).
  - unfold wrap32. apply Z.mod_mod. lia.
  - unfold wrap32. rewrite <- (Z.mod_mod x (2 ^ 32)) at 2 by lia.
    change (x mod 2 ^ 32 - 2 ^ 32) with (x mod 2 ^ 32 + (- 1) * 2 ^ 32).
    apply Z.mod_add. lia.
Qed.

Lemma wrap64_small x : 0 <= x < 2 ^ 64 -> wrap64 x = x.
Proof. intros H. unfold wrap64. apply Z.mod_small. lia. Qed.

Lemma to_boundary_mod addr : to_boundary addr = 65536 - addr mod 65536.
Proof.
  unfold to_boundary.
  change (Z.shiftl 1 TRB_MAX_BUFF_SHIFT - 1) with (Z.ones 16).
  rewrite Z.land_ones by lia. reflexivity.
Qed.

Lemma to_boundary_range addr : 1 <= to_boundary addr <= 65536.
Proof.
  rewrite to_boundary_mod. pose proof (Z.mod_pos_bound addr 65536). lia.
Qed.

(** The length word of a TRB: the length in the low 17 bits, the TD size
    above. *)
Lemma length_field_split len k :
  0 <= len < 2 ^ 17 -> 0 <= k ->
  Z.lor (Z.lor (TRB_LEN len) (Z.shiftl k 17)) (TRB_INTR_TARGET 0) = len + k * 2 ^ 17.
Proof.
  intros Hlen Hk.
  change (TRB_INTR_TARGET 0) with 0. rewrite Z.lor_0_r.
  unfold TRB_LEN. change 131071 with (Z.ones 17).
  rewrite Z.land_ones, Z.mod_small by lia.
  assert (Hd : Z.land len (Z.shiftl k 17) = 0).
  { apply Z.bits_inj'. intros n Hn. rewrite Z.land_spec, Z.bits_0.
    destruct (Z.lt_ge_cases n 17) as [Hlt|Hge].
    - rewrite Z.shiftl_spec_low by done. apply andb_false_r.
    - rewrite <- (Z.mod_small len (2 ^ 17)) by lia.
      rewrite Z.mod_pow2_bits_high by lia. done. }
  pose proof (Z.add_lor_land len (Z.shiftl k 17)) as Hs.
  rewrite Hd, Z.add_0_r in Hs. rewrite Z.shiftl_mul_pow2 in * by lia. lia.
Qed.

Lemma length_field_len len k :
  0 <= len < 2 ^ 17 -> TRB_LEN (len + k * 2 ^ 17) = len.
Proof.
  intros Hlen. unfold TRB_LEN. change 131071 with (Z.ones 17).
  rewrite Z.land_ones, Z.mod_add, Z.mod_small by lia. done.
Qed.

Lemma length_field_td_size len k :
  0 <= len < 2 ^ 17 -> 0 <= k <= 31 ->
  Z.land (Z.shiftr (len + k * 2 ^ 17) 17) 31 = k.
Proof.
  intros Hlen Hk. rewrite Z.shiftr_div_pow2, Z.div_add, Z.div_small by lia.
  change 31 with (Z.ones 5). rewrite Z.land_ones, Z.mod_small by lia. lia.
Qed.

(** [xhci_td_remainder] within a transfer that fits an [int]. *)
Lemma xhci_td_remainder_spec len maxp running_total trb_len :
  0 <= len < 2 ^ 31 -> 0 < maxp < 65536 ->
  0 <= running_total -> 0 <= trb_len -> running_total + trb_len <= len ->
  xhci_td_remainder len (wrap32 running_total) maxp (wrap32 trb_len)
  = Some (Z.shiftl (if running_total + trb_len =? len then 0
                    else packets_left len maxp running_total) 17).
Proof.
  intros Hlen Hmaxp Hrt Htl Hsum. unfold xhci_td_remainder.
  rewrite (wrap32_small running_total), (wrap32_small trb_len) by lia.
  rewrite (wrap32_small (running_total + trb_len)) by lia.
  destruct (running_total + trb_len =? len) eqn:E; [done|].
  apply Z.eqb_neq in E.
  assert (E0 : (maxp =? 0) = false) by (apply Z.eqb_neq; lia). rewrite E0.
  cbv zeta.
  assert (Hq : 0 <= running_total / maxp <= running_total).
  { split; [apply Z.div_pos; lia|]. apply Z.div_le_upper_bound; nia. }
  assert (Hc : 0 <= (len + maxp - 1) / maxp <= len).
  { split; [apply Z.div_pos; lia|]. apply Z.div_le_upper_bound; nia. }
  assert (Hle : running_total / maxp <= (len + maxp - 1) / maxp).
  { apply Z.div_le_mono; lia. }
  rewrite (to_int_small (running_total / maxp)) by lia.
  rewrite (wrap32_small (len + maxp - 1)) by lia.
  rewrite (to_int_small ((len + maxp - 1) / maxp)) by lia.
  rewrite to_int_small by lia.
  rewrite (wrap32_small (_ - _)) by lia.
  unfold packets_left.
  destruct (31 <? _) eqn:E1.
  - apply Z.ltb_lt in E1. rewrite Z.min_l by lia. done.
  - apply Z.ltb_ge in E1. rewrite Z.min_r by lia.
    rewrite wrap32_small; [done|]. rewrite Z.shiftl_mul_pow2 by lia. lia.
Qed.

Lemma packets_left_range len maxp running_total :
  0 < maxp -> 0 <= running_total <= len -> 0 <= packets_left len maxp running_total <= 31.
Proof.
  intros Hm Hrt. unfold packets_left.
  assert (running_total / maxp <= (len + maxp - 1) / maxp) by (apply Z.div_le_mono; lia).
  lia.
Qed.


Lemma chunks_after_range b len :
  0 <= b -> 0 <= len -> 0 <= chunks_after b len <= len / 65536 + 1.
Proof.
  intros Hb Hlen. unfold chunks_after.
  assert (H0 : 0 <= len / 65536) by (apply Z.div_pos; lia).
  destruct (b <? len) eqn:E; [|lia].
  apply Z.ltb_lt in E. split; [apply Z.div_pos; lia|].
  assert (Hd : (len + 1 * 65536) / 65536 = len / 65536 + 1) by (apply Z.div_add; lia).
  rewrite <- Hd. apply Z.div_le_mono; lia.
Qed.

Lemma chunks_after_step b len :
  b < len -> chunks_after b len = 1 + chunks_after (b + 65536) len.
Proof.
  intros Hlt. unfold chunks_after.
  assert (E : (b <? len) = true) by (apply Z.ltb_lt; lia). rewrite E.
  destruct (b + 65536 <? len) eqn:E1.
  - replace (len - b + 65535) with (len - (b + 65536) + 65535 + 1 * 65536) by lia.
    rewrite Z.div_add by lia. lia.
  - apply Z.ltb_ge in E1.
    replace (len - b + 65535) with (len - b - 1 + 1 * 65536) by lia.
    rewrite Z.div_add, Z.div_small by lia. lia.
Qed.

Lemma count_trbs_loop_eq fuel rt len n :
  count_trbs_loop fuel rt len n
  = if wrap32 rt <? len then
      match fuel with
      | O => None
      | S fuel' =>
          count_trbs_loop fuel' (to_int (rt + TRB_MAX_BUFF_SIZE)) len (to_int (n + 1))
      end
    else Some n.
Proof. destruct fuel; reflexivity. Qed.

(** The counting loop, for a length that fits an [int]. *)
Lemma count_trbs_loop_spec len : forall fuel rt n,
  0 <= len < 2 ^ 31 -> 0 <= n -> n + chunks_after (wrap32 rt) len < 2 ^ 31 ->
  chunks_after (wrap32 rt) len <= Z.of_nat fuel ->
  count_trbs_loop fuel rt len n = Some (n + chunks_after (wrap32 rt) len).
Proof.
  induction fuel as [|fuel IH]; intros rt n Hlen Hn Hmax Hfuel;
    rewrite count_trbs_loop_eq; destruct (wrap32 rt <? len) eqn:E.
  - apply Z.ltb_lt in E. rewrite chunks_after_step in Hfuel by done.
    pose proof (wrap32_range rt).
    pose proof (chunks_after_range (wrap32 rt + 65536) len). lia.
  - unfold chunks_after. rewrite E. f_equal. lia.
  - apply Z.ltb_lt in E. pose proof (wrap32_range rt) as Hr.
    assert (Hw : wrap32 (to_int (rt + TRB_MAX_BUFF_SIZE)) = wrap32 rt + 65536).
    { rewrite wrap32_to_int. unfold wrap32 in *. change TRB_MAX_BUFF_SIZE with 65536.
      rewrite <- Zplus_mod_idemp_l. apply Z.mod_small. lia. }
    rewrite chunks_after_step in Hmax, Hfuel |- * by done.
    pose proof (chunks_after_range (wrap32 rt + 65536) len ltac:(lia) ltac:(lia)).
    rewrite (to_int_small (n + 1)) by lia.
    rewrite IH; rewrite ?Hw; try lia. f_equal. lia.
  - unfold chunks_after. rewrite E. f_equal. lia.
Qed.


Lemma trb_buf_addr_split addr f2 f3 :
  0 <= addr < 2 ^ 64 ->
  trb_buf_addr (mk_trb (lower_32_bits addr) (upper_32_bits addr) f2 f3) = addr.
Proof.
  intros H. unfold trb_buf_addr, lower_32_bits, upper_32_bits. cbn [field0 field1].
  rewrite (Z.mod_small (addr / 2 ^ 32)).
  - pose proof (Z.div_mod addr (2 ^ 32)). lia.
  - split; [apply Z.div_pos; lia|]. apply Z.div_lt_upper_bound; lia.
Qed.

(** A TRB as the builders fill it in: what its length word says. *)
Lemma length_word_layout f0 f1 f3 len k :
  0 <= len < 2 ^ 17 -> 0 <= k <= 31 ->
  trb_buf_len (mk_trb f0 f1 (len + k * 2 ^ 17) f3) = len
  /\ trb_td_size (mk_trb f0 f1 (len + k * 2 ^ 17) f3) = k.
Proof.
  intros Hlen Hk. unfold trb_buf_len, trb_td_size. cbn [field2].
  by rewrite length_field_len, length_field_td_size.
Qed.

(** The [do ... while] of [xhci_queue_bulk_tx], entered with [num_trbs] TRBs
    to go that are enough for what is left of the buffer, the next TRB inside
    a 64KB block and ending on a block boundary unless it is the last with
    data. *)
Lemma bulk_tx_loop_layout u max_packet start_cycle :
  0 <= transfer_buffer_length u < 2 ^ 31 -> 0 < wrap32 max_packet < 65536 ->
  forall fuel first_trb num_trbs running_total trb_buff_len addr r td out,
    ring_ok r -> enq_ready r ->
    1 <= num_trbs -> num_trbs - 1 <= Z.of_nat fuel ->
    0 <= running_total -> 0 <= trb_buff_len ->
    running_total + trb_buff_len <= transfer_buffer_length u ->
    0 <= addr -> addr + (transfer_buffer_length u - running_total) < 2 ^ 64 ->
    addr mod 65536 + trb_buff_len <= 65536 ->
    (running_total + trb_buff_len < transfer_buffer_length u ->
     (addr + trb_buff_len) mod 65536 = 0) ->
    transfer_buffer_length u - running_total - trb_buff_len <= 65536 * (num_trbs - 1) ->
    exists bs new,
      bulk_tx_loop fuel u max_packet start_cycle first_trb num_trbs running_total
        trb_buff_len addr r td out = Some bs
      /\ ring_ok (bs_ring bs) /\ length (segs (bs_ring bs)) = length (segs r)
      /\ bs_trbs bs = out ++ new /\ length new = Z.to_nat num_trbs
      /\ td_layout (transfer_buffer_length u) (wrap32 max_packet)
           (negb (g_idt_transfer && negb (ep_dir_in u))) running_total addr new
      /\ (65536 * (num_trbs - 2) < transfer_buffer_length u - running_total - trb_buff_len ->
          Forall (fun t => 0 < trb_buf_len t) (tail new)
          /\ (0 < trb_buff_len -> Forall (fun t => 0 < trb_buf_len t) new)).
Proof.
  intros HL Hmp.
  induction fuel as [|fuel IH];
    intros first num rt len addr r td out Hok Hrdy Hnum Hfuel Hrt Hlen Hsum Haddr Hend
      Hblk Halign Hleft.
  all: pose proof (packets_left_range (transfer_buffer_length u) (wrap32 max_packet) rt
                     ltac:(lia) ltac:(lia)) as Hpl.
  all: assert (Hk : 0 <= (if rt + len =? transfer_buffer_length u then 0
                          else packets_left (transfer_buffer_length u)
                                 (wrap32 max_packet) rt) <= 31)
         by (destruct (_ =? _); lia).
  all: pose proof (Z.mod_pos_bound addr 65536 ltac:(lia)) as Hmod.
  all: assert (Hcase : num = 1 \/ 2 <= num) by lia; destruct Hcase as [->|Hn2]; [|try lia].
  all: cbn [bulk_tx_loop]; rewrite xhci_td_remainder_spec by lia; bind_some.
  all: rewrite length_field_split by lia.
  all: queue_step Hok Hrdy r1 Hq Hok1 Hrdy1 Hlen1; bind_some.
  all: match goal with |- context [_ ++ [?t]] => set (t0 := t) in * end.
  all: assert (Ht0 : trb_buf_len t0 = len
                     /\ trb_td_size t0
                        = (if rt + len =? transfer_buffer_length u then 0
                           else packets_left (transfer_buffer_length u)
                                  (wrap32 max_packet) rt))
         by (apply length_word_layout; lia);
       destruct Ht0 as [Ht0len Ht0size].
  all: assert (Ht0addr : negb (g_idt_transfer && negb (ep_dir_in u)) = true ->
                         trb_buf_addr t0 = addr)
         by (unfold t0; destruct (g_idt_transfer && negb (ep_dir_in u)); [done|];
             intros _; apply trb_buf_addr_split; lia).
  all: clearbody t0.
  1, 2: change (0 <? 1 - 1) with false; cbv iota;
        eexists; exists [t0]; split; [reflexivity|]; cbn [bs_ring bs_trbs];
        repeat (split; [done|]);
        (split; [cbn [td_layout]; rewrite Ht0len, Ht0size;
                 repeat (split; [auto with lia|]); lia|]);
        intros _; (split; [constructor|]); intros Hpos; repeat constructor;
        by rewrite Ht0len.
  assert (En : (0 <? num - 1) = true) by (apply Z.ltb_lt; lia).
  assert (Em : (1 <? num) = true) by (apply Z.ltb_lt; lia).
  rewrite En. rewrite Em in Hrdy1 |- *. cbn [negb] in Hrdy1 |- *.
  specialize (Hrdy1 (andb_false_r _)).
  change TRB_MAX_BUFF_SIZE with 65536.
  rewrite (to_int_small (rt + len)), (wrap64_small (addr + len)) by lia.
  rewrite (to_int_small (transfer_buffer_length u - (rt + len))) by lia.
  set (len' := if 65536 <? transfer_buffer_length u - (rt + len) then 65536
               else transfer_buffer_length u - (rt + len)).
  assert (Hlen' : (len' = 65536 /\ rt + len + 65536 < transfer_buffer_length u)
                  \/ (len' = transfer_buffer_length u - (rt + len)
                      /\ transfer_buffer_length u - (rt + len) <= 65536)).
  { unfold len'. destruct (65536 <? _) eqn:E;
      [apply Z.ltb_lt in E|apply Z.ltb_ge in E]; lia. }
  clearbody len'.
  pose proof (Z.mod_pos_bound (addr + len) 65536 ltac:(lia)) as Hmod'.
  assert (P10 : (addr + len) mod 65536 + len' <= 65536).
  { destruct (Z.eq_dec (rt + len) (transfer_buffer_length u)); [lia|].
    rewrite Halign by lia. lia. }
  assert (P11 : rt + len + len' < transfer_buffer_length u ->
                (addr + len + len') mod 65536 = 0).
  { intros Hmore. destruct Hlen' as [[-> _]|[-> _]]; [|lia].
    replace (addr + len + 65536) with (addr + len + 1 * 65536) by lia.
    rewrite Z_mod_plus_full. apply Halign. lia. }
  destruct (IH false (num - 1) (rt + len) len' (addr + len) r1 td (out ++ [t0])
              Hok1 Hrdy1 ltac:(lia) ltac:(lia) ltac:(lia) ltac:(lia) ltac:(lia)
              ltac:(lia) ltac:(lia) P10 P11 ltac:(lia))
    as (bs & new & Hloop & Hokb & Hlenb & Htrbs & Hcount & Hlay & Htight).
  exists bs, (t0 :: new). rewrite Hloop. split; [done|]. split; [done|].
  split; [by rewrite Hlenb|]. split; [by rewrite Htrbs, <- app_assoc|].
  split; [cbn [length]; rewrite Hcount; lia|].
  split.
  - cbn [td_layout]. rewrite Ht0len, Ht0size.
    repeat (split; [auto with lia|]). done.
  - intros Ht. destruct Htight as [_ Hnew]; [lia|].
    specialize (Hnew ltac:(lia)). split; [done|].
    intros Hpos. constructor; [by rewrite Ht0len|done].
Qed.


(** *** What a laid-out TD says, TRB by TRB *)

Lemma td_bytes_app l1 l2 : td_bytes (l1 ++ l2) = td_bytes l1 + td_bytes l2.
Proof. induction l1 as [|t l1 IH]; cbn [app td_bytes] in *; lia. Qed.

Lemma td_bytes_take_S l i t :
  l !! i = Some t -> td_bytes (take (S i) l) = td_bytes (take i l) + trb_buf_len t.
Proof.
  intros H. rewrite (take_S_r _ _ _ H), td_bytes_app. cbn [td_bytes]. lia.
Qed.

Lemma td_bytes_nonneg l : Forall (fun t => 0 <= trb_buf_len t) l -> 0 <= td_bytes l.
Proof. induction 1; cbn [td_bytes] in *; lia. Qed.

Lemma td_bytes_take_mono l i j :
  Forall (fun t => 0 <= trb_buf_len t) l -> (i <= j)%nat ->
  td_bytes (take i l) <= td_bytes (take j l).
Proof.
  intros Hl Hij. replace j with (i + (j - i))%nat by lia.
  rewrite <- take_take_drop, td_bytes_app.
  assert (Hf : Forall (fun t => 0 <= trb_buf_len t) (take (j - i) (drop i l)))
    by (by apply Forall_take, Forall_drop).
  pose proof (td_bytes_nonneg _ Hf). lia.
Qed.

Lemma td_layout_nonneg len maxp wa : forall l rt addr,
  td_layout len maxp wa rt addr l -> Forall (fun t => 0 <= trb_buf_len t) l.
Proof.
  induction l as [|t l IH]; intros rt addr H; [constructor|].
  destruct H as (H0 & _ & _ & _ & _ & Hl). constructor; [done|]. by eapply IH.
Qed.

Lemma td_layout_bytes len maxp wa : forall l rt addr,
  td_layout len maxp wa rt addr l -> rt + td_bytes l = len.
Proof.
  induction l as [|t l IH]; intros rt addr H; cbn [td_layout td_bytes] in *; [lia|].
  destruct H as (_ & _ & _ & _ & _ & Hl). apply IH in Hl. lia.
Qed.

Lemma td_layout_lookup len maxp wa : forall l rt addr i t,
  td_layout len maxp wa rt addr l -> l !! i = Some t ->
  rt + td_bytes (take i l) + trb_buf_len t <= len
  /\ (addr + td_bytes (take i l)) mod 65536 + trb_buf_len t <= 65536
  /\ (wa = true -> trb_buf_addr t = addr + td_bytes (take i l))
  /\ trb_td_size t = (if rt + td_bytes (take i l) + trb_buf_len t =? len then 0
                      else packets_left len maxp (rt + td_bytes (take i l))).
Proof.
  induction l as [|a l IH]; intros rt addr i t H Hi; [done|].
  destruct H as (H0 & Hle & Hblk & Ha & Hsz & Hl). destruct i as [|i].
  - injection Hi as <-. cbn [take td_bytes]. rewrite !Z.add_0_r. done.
  - destruct (IH _ _ i t Hl Hi) as (Hle' & Hblk' & Ha' & Hsz').
    cbn [take td_bytes]. rewrite !Z.add_assoc. done.
Qed.

Lemma packets_left_mono len maxp a b :
  0 < maxp -> a <= b -> packets_left len maxp b <= packets_left len maxp a.
Proof.
  intros Hm Hab. unfold packets_left.
  assert (a / maxp <= b / maxp) by (apply Z.div_le_mono; lia). lia.
Qed.

Lemma packets_left_pos len maxp rt :
  0 < maxp -> rt < len -> 0 < packets_left len maxp rt.
Proof.
  intros Hm Hlt. unfold packets_left.
  replace (len + maxp - 1) with (len - 1 + 1 * maxp) by lia.
  rewrite Z.div_add by lia.
  assert (rt / maxp <= (len - 1) / maxp) by (apply Z.div_le_mono; lia). lia.
Qed.

(** *** [xhci_queue_bulk_tx] on a buffer without scatterlist *)


Lemma chunks_after_bounds b len :
  b < len ->
  65536 * (chunks_after b len - 1) < len - b <= 65536 * chunks_after b len.
Proof.
  intros Hlt. unfold chunks_after.
  assert (E : (b <? len) = true) by (apply Z.ltb_lt; lia). rewrite E.
  pose proof (Z.div_mod (len - b + 65535) 65536 ltac:(lia)).
  pose proof (Z.mod_pos_bound (len - b + 65535) 65536 ltac:(lia)). lia.
Qed.

Lemma chunks_after_none b len : len <= b -> chunks_after b len = 0.
Proof.
  intros Hle. unfold chunks_after.
  assert (E : (b <? len) = false) by (apply Z.ltb_ge; lia). by rewrite E.
Qed.


(** *** [queue_bulk_sg_tx] *)


Lemma entry_trbs_pos addr len : 0 <= len -> 1 <= entry_trbs addr len.
Proof.
  intros Hlen. unfold entry_trbs. pose proof (to_boundary_range addr).
  pose proof (chunks_after_range (to_boundary addr) len ltac:(lia) Hlen). lia.
Qed.

Lemma sg_trbs_needed_nonneg sgs : forall temp,
  Forall sg_ok sgs -> 0 <= sg_trbs_needed sgs temp.
Proof.
  induction sgs as [|s rest IH]; intros temp Hok; cbn [sg_trbs_needed]; [lia|].
  inversion Hok as [|? ? (? & ? & ?) Hrest]; subst.
  pose proof (entry_trbs_pos (sg_dma_address s) (sg_dma_len s) ltac:(lia)).
  destruct (temp <=? sg_dma_len s); [lia|]. specialize (IH (temp - sg_dma_len s) Hrest). lia.
Qed.

Lemma sg_bytes_nonneg sgs : Forall sg_ok sgs -> 0 <= sg_bytes sgs.
Proof. induction 1 as [|s rest (? & ? & ?) _ IH]; cbn [sg_bytes]; lia. Qed.

Lemma min_int_small a b : 0 <= a < 2 ^ 31 -> 0 <= b < 2 ^ 31 -> min_int a b = Z.min a b.
Proof.
  intros Ha Hb. unfold min_int. rewrite !to_int_small by lia.
  destruct (a <? b) eqn:E; [apply Z.ltb_lt in E|apply Z.ltb_ge in E]; lia.
Qed.

(** The length of the next TRB of the scatterlist builder: up to the 64KB
    boundary, the end of the entry and the end of the transfer. *)
Lemma sg_trb_len_spec len rt addr this_len :
  0 <= rt <= len -> len < 2 ^ 31 -> 0 <= this_len < 2 ^ 31 ->
  (if len <? wrap32 (rt + min_int (to_boundary addr) this_len)
   then to_int (len - rt) else min_int (to_boundary addr) this_len)
  = Z.min (Z.min (to_boundary addr) this_len) (len - rt).
Proof.
  intros Hrt Hlen Htl. pose proof (to_boundary_range addr).
  rewrite min_int_small by lia. rewrite wrap32_small by lia.
  destruct (len <? _) eqn:E; [apply Z.ltb_lt in E|apply Z.ltb_ge in E].
  - rewrite to_int_small by lia. lia.
  - lia.
Qed.

Lemma to_boundary_aligned addr : to_boundary (addr + to_boundary addr) = 65536.
Proof.
  rewrite (to_boundary_mod (addr + _)), (to_boundary_mod addr).
  pose proof (Z.div_mod addr 65536 ltac:(lia)).
  replace (addr + (65536 - addr mod 65536)) with ((addr / 65536 + 1) * 65536) by lia.
  rewrite Z_mod_mult. lia.
Qed.

Lemma chunks_after_shift b len c : chunks_after (b + c) (len + c) = chunks_after b len.
Proof.
  unfold chunks_after.
  destruct (b <? len) eqn:E; [apply Z.ltb_lt in E|apply Z.ltb_ge in E].
  - assert (E' : (b + c <? len + c) = true) by (apply Z.ltb_lt; lia). rewrite E'.
    f_equal. lia.
  - assert (E' : (b + c <? len + c) = false) by (apply Z.ltb_ge; lia). by rewrite E'.
Qed.

(** After a TRB that runs up to the 64KB boundary inside an entry, the rest
    of the entry needs one TRB less. *)
Lemma entry_trbs_step addr len :
  to_boundary addr < len ->
  entry_trbs (addr + to_boundary addr) (len - to_boundary addr) = entry_trbs addr len - 1.
Proof.
  intros Hlt. unfold entry_trbs. rewrite to_boundary_aligned.
  rewrite (chunks_after_step (to_boundary addr) len) by done.
  rewrite <- (chunks_after_shift 65536 (len - to_boundary addr) (to_boundary addr)).
  replace (len - to_boundary addr + to_boundary addr) with len by lia.
  replace (65536 + to_boundary addr) with (to_boundary addr + 65536) by lia. lia.
Qed.

(** [count_sg_trbs_needed] on a scatterlist of well-formed entries. *)
Lemma count_sg_loop_spec : forall sgs temp n,
  Forall sg_ok sgs -> 0 <= temp < 2 ^ 31 -> 0 <= n ->
  n + sg_trbs_needed sgs temp < 2 ^ 31 ->
  count_sg_loop sgs temp n = Some (n + sg_trbs_needed sgs temp).
Proof.
  induction sgs as [|s rest IH]; intros temp n Hok Htemp Hn Hmax;
    cbn [count_sg_loop sg_trbs_needed] in *; [f_equal; lia|].
  inversion Hok as [|? ? (Ha & Hl & He) Hrest]; subst.
  pose proof (to_boundary_range (sg_dma_address s)) as Hb.
  pose proof (chunks_after_range (to_boundary (sg_dma_address s)) (sg_dma_len s)
                ltac:(lia) ltac:(lia)) as Hch.
  assert (Hdiv : sg_dma_len s / 65536 < 32768) by (apply Z.div_lt_upper_bound; lia).
  assert (Eb : (to_boundary (sg_dma_address s) =? 0) = false) by (apply Z.eqb_neq; lia).
  rewrite Eb. cbn [negb].
  assert (Htail : 0 <= (if temp <=? sg_dma_len s then 0
                        else sg_trbs_needed rest (temp - sg_dma_len s))).
  { destruct (_ <=? _); [lia|]. by apply sg_trbs_needed_nonneg. }
  unfold entry_trbs in *.
  rewrite count_trbs_loop_spec; rewrite ?wrap32_small by lia; try lia.
  2: { unfold count_fuel. change TRB_MAX_BUFF_SIZE with 65536. lia. }
  bind_some. rewrite (wrap32_small (to_boundary _)) by lia.
  rewrite min_int_small by lia.
  destruct (temp <=? sg_dma_len s) eqn:E; [apply Z.leb_le in E|apply Z.leb_gt in E].
  - rewrite Z.min_r, wrap32_small by lia.
    replace (temp - temp) with 0 by lia. change (to_int 0 =? 0) with true.
    cbv iota. f_equal. lia.
  - rewrite Z.min_l, wrap32_small, to_int_small by lia.
    assert (E0 : (temp - sg_dma_len s =? 0) = false) by (apply Z.eqb_neq; lia).
    rewrite E0, IH by (done || lia). f_equal. lia.
Qed.


Lemma sg_need_two addr this_len rest rem len :
  len = Z.min (Z.min (to_boundary addr) this_len) rem ->
  0 <= this_len -> Forall sg_ok rest -> rem <= this_len + sg_bytes rest ->
  0 < rem - len -> 2 <= sg_need addr this_len rest rem.
Proof.
  intros Hlen Htl Hrest Hcov Hmore. unfold sg_need.
  pose proof (entry_trbs_pos addr this_len Htl) as He.
  destruct (Z.lt_ge_cases (to_boundary addr) this_len) as [Hlt|Hge].
  - unfold entry_trbs in *. rewrite chunks_after_step by done.
    pose proof (to_boundary_range addr).
    pose proof (chunks_after_range (to_boundary addr + 65536) this_len ltac:(lia) Htl).
    assert (0 <= (if rem <=? this_len then 0
                  else sg_trbs_needed rest (rem - this_len))); [|lia].
    destruct (rem <=? this_len); [lia|]. by apply sg_trbs_needed_nonneg.
  - assert (E : (rem <=? this_len) = false) by (apply Z.leb_gt; lia). rewrite E.
    destruct Hrest as [|s rest (? & ? & ?) Hrest]; cbn [sg_bytes] in Hcov; [lia|].
    cbn [sg_trbs_needed].
    pose proof (entry_trbs_pos (sg_dma_address s) (sg_dma_len s) ltac:(lia)).
    assert (0 <= (if rem - this_len <=? sg_dma_len s then 0
                  else sg_trbs_needed rest (rem - this_len - sg_dma_len s))); [|lia].
    destruct (rem - this_len <=? sg_dma_len s); [lia|]. by apply sg_trbs_needed_nonneg.
Qed.

Lemma sg_need_same addr this_len rest rem :
  to_boundary addr < this_len ->
  sg_need (addr + to_boundary addr) (this_len - to_boundary addr) rest
    (rem - to_boundary addr)
  = sg_need addr this_len rest rem - 1.
Proof.
  intros Hlt. unfold sg_need. rewrite entry_trbs_step by done.
  replace (rem - to_boundary addr - (this_len - to_boundary addr))
    with (rem - this_len) by lia.
  destruct (rem <=? this_len) eqn:E; [apply Z.leb_le in E|apply Z.leb_gt in E].
  - assert (E' : (rem - to_boundary addr <=? this_len - to_boundary addr) = true)
      by (apply Z.leb_le; lia).
    rewrite E'. lia.
  - assert (E' : (rem - to_boundary addr <=? this_len - to_boundary addr) = false)
      by (apply Z.leb_gt; lia).
    rewrite E'. lia.
Qed.

Lemma sg_need_next addr this_len s rest rem :
  0 <= this_len -> this_len < rem ->
  sg_need (sg_dma_address s) (sg_dma_len s) rest (rem - this_len)
  <= sg_need addr this_len (s :: rest) rem - 1.
Proof.
  intros Htl Hlt. unfold sg_need at 2.
  assert (E : (rem <=? this_len) = false) by (apply Z.leb_gt; lia). rewrite E.
  cbn [sg_trbs_needed]. fold (sg_need (sg_dma_address s) (sg_dma_len s) rest (rem - this_len)).
  pose proof (entry_trbs_pos addr this_len Htl). lia.
Qed.

Lemma bulk_max_packet_known u max_packet init :
  bulk_max_packet None u = Some max_packet -> bulk_max_packet init u = Some max_packet.
Proof. unfold bulk_max_packet. by destruct (speed u). Qed.


(** *** The split of a bulk buffer into TRBs *)


Lemma in_64k_block_mod t :
  trb_buf_addr t mod 65536 + trb_buf_len t <= 65536 -> in_64k_block t.
Proof.
  intros H. exists (trb_buf_addr t / 65536).
  pose proof (Z.div_mod (trb_buf_addr t) 65536 ltac:(lia)).
  pose proof (Z.mod_pos_bound (trb_buf_addr t) 65536 ltac:(lia)). lia.
Qed.


(** * Further properties of the ring engine *)

(** ** What the cursor moves leave alone *)

Lemma same_but_links_refl r : same_but_links r r.
Proof. intros p t H. exists t. by repeat split. Qed.

Lemma same_but_links_trans r1 r2 r3 :
  same_but_links r1 r2 -> same_but_links r2 r3 -> same_but_links r1 r3.
Proof.
  intros H12 H23 p t H.
  destruct (H12 p t H) as (t2 & H2 & Ha2 & Hb2 & Hc2 & Hl2 & He2).
  destruct (H23 p t2 H2) as (t3 & H3 & Ha3 & Hb3 & Hc3 & Hl3 & He3).
  exists t3. repeat split; try congruence.
  intros Hnl. rewrite He3 by congruence. by apply He2.
Qed.

Lemma same_but_links_segs r r' : segs r' = segs r -> same_but_links r r'.
Proof.
  intros Hs p t H. exists t. unfold read_trb in *. rewrite Hs. by repeat split.
Qed.

Lemma same_but_links_write r p t c r' :
  read_trb r p = Some t -> is_link_trb t = true ->
  is_link_trb (set_control t c) = true ->
  write_trb r p (set_control t c) = Some r' -> same_but_links r r'.
Proof.
  intros Hr Hl Hl' Hw q tq Hq.
  destruct (decide (p = q)) as [<-|Hne].
  - rewrite Hr in Hq. injection Hq as <-.
    exists (set_control t c). rewrite (read_write_same _ _ _ _ Hw).
    repeat split; try done; congruence.
  - exists tq. rewrite (read_write_other _ _ _ _ _ Hw Hne). by repeat split.
Qed.

(** The loop of [inc_deq] moves the dequeue cursor and may flip the cycle
    state; nothing else. *)
Lemma inc_deq_loop_frame ev consumer : forall fuel r r',
  inc_deq_loop fuel ev consumer r = Some r' ->
  segs r' = segs r /\ enqueue r' = enqueue r /\ enq_seg r' = enq_seg r
  /\ enq_updates r' = enq_updates r /\ deq_updates r' = deq_updates r
  /\ first_seg r' = first_seg r /\ td_list r' = td_list r
  /\ (consumer = false -> cycle_state r' = cycle_state r).
Proof.
  induction fuel as [|fuel IH]; intros r r' H; [done|].
  unfold inc_deq_loop in H; fold inc_deq_loop in H.
  destruct (last_trb ev r (deq_seg r) (dequeue r)) as [[|]|]; [| |done].
  - revert H. bind_some.
    destruct (if consumer then _ else _) as [tog|] eqn:Htog; [|done]. bind_some.
    destruct (segs _ !! _) as [sg|]; [|done]. bind_some.
    intros H. apply IH in H.
    destruct H as (H1 & H2 & H3 & H4 & H5 & H6 & H7 & H8).
    destruct tog; cbn in *; repeat split; try done.
    intros ->. done.
  - revert H. bind_some. intros [= <-]. by repeat split.
Qed.


(** [inc_deq] never writes a TRB and never touches the producer's side of the
    ring: the segments, the enqueue cursor, its counter and the TD list are
    as before, [deq_updates] has counted one step, and a caller that is no
    consumer leaves [cycle_state] alone. *)
Theorem inc_deq_keeps_ring (ev : bool) (r : xhci_ring) (consumer : bool) (r' : xhci_ring) :
  inc_deq ev r consumer = Some r' ->
  segs r' = segs r /\ enqueue r' = enqueue r /\ enq_seg r' = enq_seg r
  /\ enq_updates r' = enq_updates r /\ td_list r' = td_list r
  /\ first_seg r' = first_seg r
  /\ deq_updates r' = wrap32 (deq_updates r + 1)
  /\ (consumer = false -> cycle_state r' = cycle_state r).
Proof.
  unfold inc_deq. cbv zeta. intros H.
  apply inc_deq_loop_frame in H.
  destruct H as (H1 & H2 & H3 & H4 & H5 & H6 & H7 & H8). by repeat split.
Qed.

(** The loop of [inc_enq] writes the control word of link TRBs only. *)
Lemma inc_enq_loop_frame ev consumer more x : forall fuel r r',
  inc_enq_loop fuel ev consumer more (Z.land x TRB_CHAIN) r = Some r' ->
  same_but_links r r' /\ length (segs r') = length (segs r)
  /\ dequeue r' = dequeue r /\ deq_seg r' = deq_seg r
  /\ deq_updates r' = deq_updates r /\ enq_updates r' = enq_updates r
  /\ first_seg r' = first_seg r /\ td_list r' = td_list r.
Proof.
  assert (Hmove : forall fuel,
    (forall r r', inc_enq_loop fuel ev consumer more (Z.land x TRB_CHAIN) r = Some r' ->
       same_but_links r r' /\ length (segs r') = length (segs r)
       /\ dequeue r' = dequeue r /\ deq_seg r' = deq_seg r
       /\ deq_updates r' = deq_updates r /\ enq_updates r' = enq_updates r
       /\ first_seg r' = first_seg r /\ td_list r' = td_list r) ->
    forall r0 r r',
      same_but_links r0 r -> length (segs r) = length (segs r0) ->
      dequeue r = dequeue r0 -> deq_seg r = deq_seg r0 ->
      deq_updates r = deq_updates r0 -> enq_updates r = enq_updates r0 ->
      first_seg r = first_seg r0 -> td_list r = td_list r0 ->
      (sg ← segs r !! enq_seg r;
       inc_enq_loop fuel ev consumer more (Z.land x TRB_CHAIN)
         (set_enqueue (next sg) (next sg, 0%nat) r)) = Some r' ->
      same_but_links r0 r' /\ length (segs r') = length (segs r0)
      /\ dequeue r' = dequeue r0 /\ deq_seg r' = deq_seg r0
      /\ deq_updates r' = deq_updates r0 /\ enq_updates r' = enq_updates r0
      /\ first_seg r' = first_seg r0 /\ td_list r' = td_list r0).
  { intros fuel IH r0 r r' Hs Hl Hd Hds Hdu Heu Hf Ht H.
    destruct (segs r !! enq_seg r) as [sg|]; [|done]. revert H. bind_some. intros H.
    apply IH in H. destruct H as (Hs' & Hl' & Hd' & Hds' & Hdu' & Heu' & Hf' & Ht').
    cbn in *. split; [|repeat split; congruence].
    eapply same_but_links_trans; [exact Hs|].
    eapply same_but_links_trans; [|exact Hs']. by apply same_but_links_segs. }
  induction fuel as [|fuel IH]; intros r r' H; [done|].
  unfold inc_enq_loop in H; fold inc_enq_loop in H.
  destruct (last_trb ev r (enq_seg r) (enqueue r)) as [[|]|] eqn:Hlast; [| |done].
  2: { revert H. bind_some. intros [= <-]. split; [apply same_but_links_refl|done]. }
  revert H. bind_some. cbv zeta.
  destruct consumer.
  { intros H. eapply (Hmove fuel IH r r); try done. apply same_but_links_refl. }
  destruct ev.
  { destruct (last_trb_on_last_seg true r (enq_seg r) (enqueue r)) as [tog|]; [|done].
    bind_some. intros H.
    destruct tog; (eapply (Hmove fuel IH r _); [..|exact H]; try done;
      first [apply same_but_links_refl | by apply same_but_links_segs]). }
  destruct ((Z.land x TRB_CHAIN =? 0) && negb more).
  { intros [= <-]. split; [apply same_but_links_refl|done]. }
  destruct (read_trb r (enqueue r)) as [t|] eqn:Hrd; [|done]. bind_some.
  unfold last_trb in Hlast. rewrite Hrd in Hlast. revert Hlast. bind_some.
  intros [= Hlink].
  fold (enq_link_control (field3 t) (Z.land x TRB_CHAIN)).
  destruct (write_trb r (enqueue r) _) as [r1|] eqn:Hw; [|done]. bind_some.
  destruct (last_trb_on_last_seg false r1 (enq_seg r1) (enqueue r1)) as [tog|]; [|done].
  bind_some. intros H.
  pose proof (same_but_links_write _ _ _ _ _ Hrd Hlink
                ltac:(by rewrite is_link_enq_link_control) Hw) as Hs1.
  destruct (write_trb_cursors _ _ _ _ Hw) as (_ & _ & Hd1 & Hds1 & _ & Hf1 & Ht1).
  destruct (write_trb_fields _ _ _ _ Hw) as [Heq1 Hl1].
  assert (Hu1 : deq_updates r1 = deq_updates r /\ enq_updates r1 = enq_updates r)
    by (rewrite Heq1; done).
  destruct Hu1 as [Hdu1 Heu1].
  destruct tog; (eapply (Hmove fuel IH r _); [..|exact H]; try done;
    try (cbn; congruence)).
  all: eapply same_but_links_trans; [exact Hs1|];
    first [apply same_but_links_refl | by apply same_but_links_segs].
Qed.

(** [inc_enq] leaves the consumer's side of the ring alone and writes
    nothing but the control word of link TRBs: the dequeue cursor, its
    counter and the TD list are as before, [enq_updates] has counted one
    step, no segment is added or dropped, every TRB keeps its first three
    words and its type, and a TRB that is no link TRB is unchanged. *)
Theorem inc_enq_keeps_trbs (ev : bool) (r : xhci_ring) (consumer more : bool)
    (r' : xhci_ring) :
  inc_enq ev r consumer more = Some r' ->
  same_but_links r r' /\ length (segs r') = length (segs r)
  /\ dequeue r' = dequeue r /\ deq_seg r' = deq_seg r
  /\ deq_updates r' = deq_updates r /\ td_list r' = td_list r
  /\ enq_updates r' = wrap32 (enq_updates r + 1).
Proof.
  unfold inc_enq. destruct (read_trb r (enqueue r)) as [t|]; [|done]. bind_some.
  intros H. apply inc_enq_loop_frame in H.
  destruct H as (Hs & Hl & Hd & Hds & Hdu & Heu & Hf & Ht). cbn in *.
  split; [|by repeat split].
  eapply same_but_links_trans; [|exact Hs]. by apply same_but_links_segs.
Qed.

(** ** What the producer's operations leave alone *)

Lemma prepare_ring_loop_frame : forall fuel r r',
  prepare_ring_loop fuel false r = Some r' ->
  same_but_links r r' /\ length (segs r') = length (segs r)
  /\ dequeue r' = dequeue r /\ deq_seg r' = deq_seg r
  /\ deq_updates r' = deq_updates r /\ enq_updates r' = enq_updates r
  /\ first_seg r' = first_seg r /\ td_list r' = td_list r.
Proof.
  induction fuel as [|fuel IH]; intros r r' H; [done|].
  unfold prepare_ring_loop in H; fold prepare_ring_loop in H.
  unfold last_trb in H.
  destruct (read_trb r (enqueue r)) as [t|] eqn:Hrd; [|done]. revert H. bind_some.
  destruct (is_link_trb t) eqn:Hlink.
  2: { intros [= <-]. split; [apply same_but_links_refl|done]. }
  fold (prep_link_control (field3 t)).
  destruct (write_trb r (enqueue r) _) as [r1|] eqn:Hw; [|done]. bind_some.
  destruct (last_trb_on_last_seg false r1 (enq_seg r1) (enqueue r1)) as [tog|]; [|done].
  bind_some.
  pose proof (same_but_links_write _ _ _ _ _ Hrd Hlink
                ltac:(by rewrite is_link_prep_link_control) Hw) as Hs1.
  destruct (write_trb_cursors _ _ _ _ Hw) as (_ & _ & Hd1 & Hds1 & _ & Hf1 & Ht1).
  destruct (write_trb_fields _ _ _ _ Hw) as [Heq1 Hl1].
  assert (Hu1 : deq_updates r1 = deq_updates r /\ enq_updates r1 = enq_updates r)
    by (rewrite Heq1; done).
  destruct Hu1 as [Hdu1 Heu1].
  set (r2 := if tog then toggle_cycle r1 else r1).
  assert (H2 : segs r2 = segs r1 /\ dequeue r2 = dequeue r1 /\ deq_seg r2 = deq_seg r1
               /\ deq_updates r2 = deq_updates r1 /\ enq_updates r2 = enq_updates r1
               /\ first_seg r2 = first_seg r1 /\ td_list r2 = td_list r1)
    by (subst r2; by destruct tog).
  destruct H2 as (S2 & D2 & DS2 & DU2 & EU2 & F2 & T2).
  destruct (segs r2 !! enq_seg r2) as [sg|]; [|done]. bind_some. intros H.
  apply IH in H. destruct H as (Hs' & Hl' & Hd' & Hds' & Hdu' & Heu' & Hf' & Ht').
  cbn in *. split; [|repeat split; congruence].
  eapply same_but_links_trans; [exact Hs1|].
  eapply same_but_links_trans; [|exact Hs']. apply same_but_links_segs. by cbn.
Qed.

(** [prepare_ring] on a transfer or command ring returns 0, [-ENOENT],
    [-EINVAL] or [-ENOMEM]; a ring it refuses is left as it was; a ring it
    accepts keeps its dequeue cursor, its counters, its TD list and every TRB
    that is no link TRB, and link TRBs change in their control word only. *)
Theorem prepare_ring_keeps_trbs (r : xhci_ring) (ep_state n ret : Z) (r' : xhci_ring) :
  prepare_ring false r ep_state n = Some (ret, r') ->
  (ret = 0 \/ ret = - ENOENT \/ ret = - EINVAL \/ ret = - ENOMEM)
  /\ (ret <> 0 -> r' = r)
  /\ same_but_links r r' /\ length (segs r') = length (segs r)
  /\ dequeue r' = dequeue r /\ deq_seg r' = deq_seg r
  /\ deq_updates r' = deq_updates r /\ enq_updates r' = enq_updates r
  /\ td_list r' = td_list r.
Proof.
  unfold prepare_ring. intros H.
  assert (Hsame : forall c, (c = 0 \/ c = - ENOENT \/ c = - EINVAL \/ c = - ENOMEM) ->
            Some (c, r) = Some (ret, r') ->
            (ret = 0 \/ ret = - ENOENT \/ ret = - EINVAL \/ ret = - ENOMEM)
            /\ (ret <> 0 -> r' = r)
            /\ same_but_links r r' /\ length (segs r') = length (segs r)
            /\ dequeue r' = dequeue r /\ deq_seg r' = deq_seg r
            /\ deq_updates r' = deq_updates r /\ enq_updates r' = enq_updates r
            /\ td_list r' = td_list r).
  { intros c Hc [= <- <-]. split; [done|]. split; [done|].
    split; [apply same_but_links_refl|done]. }
  destruct (ep_state =? EP_STATE_DISABLED); [(eapply Hsame; [|exact H]; auto)|].
  destruct (ep_state =? EP_STATE_ERROR); [(eapply Hsame; [|exact H]; auto)|].
  destruct ((ep_state =? EP_STATE_HALTED) || (ep_state =? EP_STATE_STOPPED)
            || (ep_state =? EP_STATE_RUNNING)); [|(eapply Hsame; [|exact H]; auto)].
  destruct (room_on_ring false r n) as [[|]|]; [| |done]; revert H; bind_some;
    [|intros H; (eapply Hsame; [|exact H]; auto)].
  destruct (enqueue_is_link_trb r) as [[|]|]; [| |done]; bind_some;
    [|intros H; (eapply Hsame; [|exact H]; auto)].
  destruct (prepare_ring_loop (ring_fuel r) false r) as [r1|] eqn:Hl; [|done].
  bind_some. intros [= <- <-].
  apply prepare_ring_loop_frame in Hl.
  destruct Hl as (Hs' & Hl' & Hd' & Hds' & Hdu' & Heu' & Hf' & Ht').
  split; [by left|]. by repeat split.
Qed.

(** A TRB that [queue_trb] has queued can be read back at the place of the
    enqueue cursor, word for word, whatever [inc_enq] does afterwards; every
    other TRB that is no link TRB is as before, and so are the dequeue
    cursor and the TD list. *)
Theorem queue_trb_read_back (ev : bool) (r : xhci_ring) (consumer more : bool)
    (f1 f2 f3 f4 : Z) (r' : xhci_ring) :
  queue_trb ev r consumer more f1 f2 f3 f4 = Some r' ->
  is_link_trb (mk_trb f1 f2 f3 f4) = false ->
  read_trb r' (enqueue r) = Some (mk_trb f1 f2 f3 f4)
  /\ (forall q t, q <> enqueue r -> read_trb r q = Some t -> is_link_trb t = false ->
        read_trb r' q = Some t)
  /\ length (segs r') = length (segs r)
  /\ dequeue r' = dequeue r /\ deq_seg r' = deq_seg r
  /\ deq_updates r' = deq_updates r /\ td_list r' = td_list r
  /\ enq_updates r' = wrap32 (enq_updates r + 1).
Proof.
  unfold queue_trb. intros H Hnl.
  destruct (write_trb r (enqueue r) (mk_trb f1 f2 f3 f4)) as [r1|] eqn:Hw; [|done].
  revert H. bind_some. intros H.
  unfold inc_enq in H. destruct (read_trb r1 (enqueue r1)) as [tq|]; [|done].
  revert H. bind_some. intros H. apply inc_enq_loop_frame in H.
  destruct H as (Hs0 & Hl & Hd & Hds & Hdu & Heu & _ & Ht). cbn in *.
  assert (Hs : same_but_links r1 r')
    by (eapply same_but_links_trans; [|exact Hs0]; by apply same_but_links_segs).
  destruct (write_trb_cursors _ _ _ _ Hw) as (_ & _ & Hd1 & Hds1 & _ & Hf1 & Ht1).
  destruct (write_trb_fields _ _ _ _ Hw) as [Heq1 Hl1].
  assert (Hu1 : deq_updates r1 = deq_updates r /\ enq_updates r1 = enq_updates r)
    by (rewrite Heq1; done).
  destruct Hu1 as [Hdu1 Heu1].
  split.
  { destruct (Hs _ _ (read_write_same _ _ _ _ Hw)) as (t' & Hr' & _ & _ & _ & _ & He).
    by rewrite Hr', (He Hnl). }
  split.
  { intros q t Hne Hq Hlq.
    assert (Hq1 : read_trb r1 q = Some t)
      by (rewrite (read_write_other _ _ _ _ _ Hw); [done|congruence]).
    destruct (Hs _ _ Hq1) as (t' & Hr' & _ & _ & _ & _ & He).
    by rewrite Hr', (He Hlq). }
  repeat split; congruence.
Qed.

(** ** The TD size field *)

Lemma to_int_range x : - 2 ^ 31 <= to_int x < 2 ^ 31.
Proof.
  unfold to_int. cbv zeta. pose proof (wrap32_range x).
  destruct (wrap32 x <? 2 ^ 31) eqn:E; [apply Z.ltb_lt in E|apply Z.ltb_ge in E]; lia.
Qed.

Lemma xhci_td_remainder_range size rt maxp len v :
  xhci_td_remainder size rt maxp len = Some v ->
  exists k, 0 <= k <= 31 /\ v = Z.shiftl k 17.
Proof.
  unfold xhci_td_remainder.
  destruct (wrap32 (rt + len) =? size); [intros [= <-]; exists 0; split; [lia|done]|].
  destruct (maxp =? 0); [done|]. cbv zeta.
  set (rem := to_int _).
  destruct (31 <? wrap32 rem) eqn:E; intros [= <-].
  - exists 31. split; [lia|done].
  - apply Z.ltb_ge in E. pose proof (to_int_range
      (to_int (wrap32 (size + maxp - 1) / maxp) - to_int (rt / maxp))) as Hr.
    fold rem in Hr.
    assert (Hrem : 0 <= rem <= 31).
    { unfold wrap32 in E. destruct (Z.lt_ge_cases rem 0) as [Hneg|Hpos].
      - rewrite <- (Z.mod_add rem 1) in E by lia.
        rewrite Z.mod_small in E by lia. lia.
      - rewrite Z.mod_small in E by lia. lia. }
    exists rem. split; [done|]. apply wrap32_small.
    rewrite Z.shiftl_mul_pow2 by lia. lia.
Qed.

(** Whatever its arguments, [xhci_td_remainder] returns a value of the five
    bits 21:17: put into a length word beside [TRB_LEN(n)] and the
    interrupter target, it leaves the length as it is and reads back as the
    TD size. *)
Theorem xhci_td_remainder_fits (size rt maxp len v : Z) :
  xhci_td_remainder size rt maxp len = Some v ->
  exists k, 0 <= k <= 31 /\ v = Z.shiftl k 17
    /\ forall n f0 f1 f3,
         let t := mk_trb f0 f1 (Z.lor (Z.lor (TRB_LEN n) v) (TRB_INTR_TARGET 0)) f3 in
         trb_buf_len t = TRB_LEN n /\ trb_td_size t = k.
Proof.
  intros H. destruct (xhci_td_remainder_range _ _ _ _ _ H) as (k & Hk & ->).
  exists k. split; [done|]. split; [done|]. intros n f0 f1 f3 t. subst t.
  unfold trb_buf_len, trb_td_size. cbn [field2].
  assert (Hn : 0 <= TRB_LEN n < 2 ^ 17).
  { unfold TRB_LEN. change 131071 with (Z.ones 17). rewrite Z.land_ones by lia.
    apply Z.mod_pos_bound. lia. }
  assert (Hw : Z.lor (Z.lor (TRB_LEN n) (Z.shiftl k 17)) (TRB_INTR_TARGET 0)
               = TRB_LEN n + k * 2 ^ 17).
  { rewrite <- (length_field_split (TRB_LEN n) k) by lia.
    do 2 f_equal. unfold TRB_LEN at 2. change 131071 with (Z.ones 17).
    rewrite Z.land_ones, Z.mod_small by lia. done. }
  rewrite Hw. split; [by apply length_field_len|by apply length_field_td_size].
Qed.

(** ** Addresses of TRBs *)

Lemma xhci_trb_virt_to_dma_cases r s p d :
  (forall sg, segs r !! s = Some sg ->
     0 <= dma sg /\ dma sg + Z.of_nat TRBS_PER_SEGMENT * SIZEOF_TRB < 2 ^ 64) ->
  xhci_trb_virt_to_dma r (Some s) p = Some d ->
  d = 0 \/ exists sg, segs r !! s = Some sg
             /\ dma sg <= d <= dma sg + Z.of_nat TRBS_PER_SEGMENT * SIZEOF_TRB.
Proof.
  intros Hseg. unfold xhci_trb_virt_to_dma.
  destruct p as [p|]; [|intros [= <-]; by left].
  destruct (segs r !! s) as [sg|] eqn:Hs; [|done]. bind_some.
  destruct (Hseg sg eq_refl) as [H0 Hw].
  destruct (segs r !! p.1) as [psg|]; [|intros [= <-]; by left]. cbv zeta.
  set (a := trbs_va psg + Z.of_nat p.2 * SIZEOF_TRB).
  destruct (a <? trbs_va sg) eqn:E1; [intros [= <-]; by left|]. apply Z.ltb_ge in E1.
  destruct (Z.of_nat TRBS_PER_SEGMENT <? _) eqn:E; [intros [= <-]; by left|].
  apply Z.ltb_ge in E. intros [= <-]. right. exists sg. split; [done|].
  unfold SIZEOF_TRB in *.
  assert (0 <= (a - trbs_va sg) / 16) by (apply Z.div_pos; lia).
  rewrite wrap64_small; lia.
Qed.

Lemma seg_end_dma_cases r s d :
  (forall sg, segs r !! s = Some sg ->
     0 <= dma sg /\ dma sg + Z.of_nat TRBS_PER_SEGMENT * SIZEOF_TRB < 2 ^ 64) ->
  seg_end_dma r s = Some d ->
  d = 0 \/ exists sg, segs r !! s = Some sg
             /\ dma sg <= d <= dma sg + Z.of_nat TRBS_PER_SEGMENT * SIZEOF_TRB.
Proof.
  intros Hseg. unfold seg_end_dma.
  destruct (TRBS_PER_SEGMENT =? 0)%nat; [intros [= <-]; by left|].
  by apply xhci_trb_virt_to_dma_cases.
Qed.

Lemma trb_in_td_loop_sound r start_seg end_trb suspect s :
  (forall i sg, segs r !! i = Some sg ->
     0 <= dma sg /\ dma sg + Z.of_nat TRBS_PER_SEGMENT * SIZEOF_TRB < 2 ^ 64) ->
  forall fuel cur start_dma,
    (start_dma = 0 \/ exists sg, segs r !! cur = Some sg
        /\ dma sg <= start_dma <= dma sg + Z.of_nat TRBS_PER_SEGMENT * SIZEOF_TRB) ->
    trb_in_td_loop fuel r start_seg cur start_dma end_trb suspect = Some (Some s) ->
    exists sg, segs r !! s = Some sg
      /\ dma sg <= suspect <= dma sg + Z.of_nat TRBS_PER_SEGMENT * SIZEOF_TRB.
Proof.
  intros Hseg. induction fuel as [|fuel IH]; intros cur start_dma Hst H; [done|].
  unfold trb_in_td_loop in H; fold trb_in_td_loop in H.
  destruct (start_dma =? 0) eqn:E0; [done|]. apply Z.eqb_neq in E0.
  destruct Hst as [?|(sgc & Hc & Hst)]; [done|].
  destruct (seg_end_dma r cur) as [end_seg_dma|] eqn:He; [|done].
  apply seg_end_dma_cases in He; [|by apply Hseg].
  revert H. bind_some.
  destruct (xhci_trb_virt_to_dma r (Some cur) end_trb) as [end_trb_dma|] eqn:Ht; [|done].
  apply xhci_trb_virt_to_dma_cases in Ht; [|by apply Hseg].
  bind_some. rewrite Hc. bind_some.
  destruct (Hseg _ _ Hc) as [Hd0 Hdw].
  assert (Hend : end_seg_dma <= dma sgc + Z.of_nat TRBS_PER_SEGMENT * SIZEOF_TRB).
  { destruct He as [->|(sg' & Hs' & He)]; [unfold SIZEOF_TRB; lia|].
    rewrite Hc in Hs'. injection Hs' as <-. lia. }
  destruct (0 <? end_trb_dma) eqn:Epos.
  - apply Z.ltb_lt in Epos. destruct Ht as [->|(sg' & Hs' & Ht)]; [lia|].
    rewrite Hc in Hs'. injection Hs' as <-.
    destruct (start_dma <=? end_trb_dma).
    + destruct ((start_dma <=? suspect) && (suspect <=? end_trb_dma)) eqn:Hin; [|done].
      intros [= <-]. exists sgc. split; [done|].
      apply andb_prop in Hin. destruct Hin as [H1 H2].
      apply Z.leb_le in H1. apply Z.leb_le in H2. lia.
    + destruct (((start_dma <=? suspect) && (suspect <=? end_seg_dma))
                || ((dma sgc <=? suspect) && (suspect <=? end_trb_dma))) eqn:Hin; [|done].
      intros [= <-]. exists sgc. split; [done|].
      apply orb_prop in Hin. destruct Hin as [Hin|Hin];
        apply andb_prop in Hin; destruct Hin as [H1 H2];
        apply Z.leb_le in H1; apply Z.leb_le in H2; lia.
  - destruct ((start_dma <=? suspect) && (suspect <=? end_seg_dma)) eqn:Hin.
    + intros [= <-]. exists sgc. split; [done|].
      apply andb_prop in Hin. destruct Hin as [H1 H2].
      apply Z.leb_le in H1. apply Z.leb_le in H2. lia.
    + destruct (xhci_trb_virt_to_dma r (Some (next sgc)) (Some (next sgc, 0%nat)))
        as [d'|] eqn:Hn; [|done].
      bind_some. destruct (next sgc =? start_seg)%nat; [done|].
      apply IH. apply xhci_trb_virt_to_dma_cases in Hn; [done|by apply Hseg].
Qed.

(** The segment [trb_in_td] returns holds the suspect address or ends just
    in front of it: on a ring whose segments lie in the 64-bit address space,
    the address is between the segment's first TRB and the place just past
    its last TRB, both included, so the index that [handle_tx_event] derives
    from it is at most [TRBS_PER_SEGMENT].  The bound is reached: for a TD
    that ends on the first TRB of a segment whose array lies directly behind
    the array of the segment searched, [xhci_trb_virt_to_dma] gives the
    address just past the end, and [trb_in_td] accepts it. *)
Theorem trb_in_td_sound (r : xhci_ring) (start_seg : nat) (start_trb : trb_ptr)
    (end_trb : option trb_ptr) (suspect : Z) (s : nat) :
  (forall i sg, segs r !! i = Some sg ->
     0 <= dma sg /\ dma sg + Z.of_nat TRBS_PER_SEGMENT * SIZEOF_TRB < 2 ^ 64) ->
  trb_in_td r start_seg start_trb end_trb suspect = Some (Some s) ->
  exists sg, segs r !! s = Some sg
    /\ dma sg <= suspect <= dma sg + Z.of_nat TRBS_PER_SEGMENT * SIZEOF_TRB
    /\ (Z.to_nat ((suspect - dma sg) / SIZEOF_TRB) <= TRBS_PER_SEGMENT)%nat.
Proof.
  intros Hseg. unfold trb_in_td.
  destruct (xhci_trb_virt_to_dma r (Some start_seg) (Some start_trb)) as [d|] eqn:Hd; [|done].
  bind_some. intros H.
  apply xhci_trb_virt_to_dma_cases in Hd; [|by apply Hseg].
  destruct (trb_in_td_loop_sound _ _ _ _ _ Hseg _ _ _ Hd H) as (sg & Hs & Hr).
  exists sg. split; [done|]. split; [done|].
  unfold SIZEOF_TRB in *.
  assert ((suspect - dma sg) / 16 <= Z.of_nat TRBS_PER_SEGMENT)
    by (apply Z.div_le_upper_bound; lia).
  assert (0 <= (suspect - dma sg) / 16) by (apply Z.div_pos; lia). lia.
Qed.

Lemma lor_aligned_low a c k :
  0 <= k -> a mod 2 ^ k = 0 -> 0 <= c < 2 ^ k -> Z.lor a c = a + c.
Proof.
  intros Hk Ha Hc.
  assert (Hd : Z.land a c = 0).
  { apply Z.bits_inj'. intros n Hn. rewrite Z.land_spec, Z.bits_0.
    destruct (Z.lt_ge_cases n k) as [Hlt|Hge].
    - rewrite <- (Z.mod_pow2_bits_low a k n) by lia. rewrite Ha, Z.bits_0. done.
    - rewrite <- (Z.mod_small c (2 ^ k)) by lia.
      rewrite Z.mod_pow2_bits_high by lia. apply andb_false_r. }
  pose proof (Z.add_lor_land a c) as Hs. lia.
Qed.

Lemma land_aligned_high a :
  0 <= a < 2 ^ 64 -> a mod 16 = 0 -> Z.land a (wrap64 (Z.lnot ERST_PTR_MASK)) = a.
Proof.
  intros Ha Hm. change (wrap64 (Z.lnot ERST_PTR_MASK)) with (Z.shiftl (Z.ones 60) 4).
  apply Z.bits_inj'. intros n Hn. rewrite Z.land_spec.
  destruct (Z.lt_ge_cases n 4) as [Hlt|Hge].
  - rewrite Z.shiftl_spec_low, andb_false_r by done.
    rewrite <- (Z.mod_pow2_bits_low a 4 n) by lia.
    change (2 ^ 4) with 16. by rewrite Hm, Z.bits_0.
  - rewrite Z.shiftl_spec by lia.
    destruct (Z.lt_ge_cases n 64) as [Hlt|Hge64].
    + rewrite Z.ones_spec_low by lia. apply andb_true_r.
    + rewrite Z.ones_spec_high, andb_false_r by lia.
      rewrite <- (Z.mod_small a (2 ^ 64)) by lia.
      by rewrite Z.mod_pow2_bits_high by lia.
Qed.

(** [xhci_set_hc_event_deq] writes the bus address of the event ring's
    dequeue TRB into the dequeue-pointer register: with the segment aligned
    to a TRB, the register holds that address, the three low bits it had
    before, and a zero in the event-handler-busy bit; nothing else of the
    controller state changes. *)
Theorem event_deq_register (x : xhci_hcd) (sg : xhci_segment) (i : nat) :
  segs (event_ring x) !! deq_seg (event_ring x) = Some sg ->
  dequeue (event_ring x) = (deq_seg (event_ring x), i) ->
  (i <= TRBS_PER_SEGMENT)%nat ->
  0 <= dma sg -> dma sg + Z.of_nat TRBS_PER_SEGMENT * SIZEOF_TRB < 2 ^ 64 ->
  dma sg mod SIZEOF_TRB = 0 ->
  xhci_set_hc_event_deq x
  = Some (set_erst_dequeue
            (dma sg + Z.of_nat i * SIZEOF_TRB + Z.land (erst_dequeue x) 7) x)
  /\ Z.land (dma sg + Z.of_nat i * SIZEOF_TRB + Z.land (erst_dequeue x) 7) ERST_EHB = 0.
Proof.
  intros Hs Hd Hi H0 Hw Ha. unfold xhci_set_hc_event_deq.
  pose proof (xhci_trb_virt_to_dma_in _ _ _ _ Hs Hi H0 Hw) as Hv.
  rewrite Hd. unfold trb_ptr in *. rewrite Hv. bind_some.
  set (a := dma sg + Z.of_nat i * SIZEOF_TRB).
  assert (Ha16 : a mod 16 = 0).
  { subst a. unfold SIZEOF_TRB in *. rewrite Z.mod_add by lia. done. }
  assert (Har : 0 <= a < 2 ^ 64) by (subst a; unfold SIZEOF_TRB in *; lia).
  assert (Hlow : Z.land (Z.land (erst_dequeue x) ERST_PTR_MASK) (Z.lnot ERST_EHB)
                 = Z.land (erst_dequeue x) 7).
  { rewrite <- Z.land_assoc. done. }
  assert (Hc : 0 <= Z.land (erst_dequeue x) 7 < 2 ^ 3).
  { change 7 with (Z.ones 3). rewrite Z.land_ones by lia. apply Z.mod_pos_bound. lia. }
  rewrite Hlow, land_aligned_high by done.
  rewrite (lor_aligned_low a _ 4) by (done || lia).
  split; [done|].
  rewrite <- (lor_aligned_low a _ 4) by (done || lia).
  apply Z.bits_inj'. intros n Hn.
  rewrite Z.land_spec, Z.lor_spec, Z.land_spec, Z.bits_0.
  change ERST_EHB with (2 ^ 3). rewrite Z.pow2_bits_eqb by lia.
  destruct (Z.eqb_spec 3 n) as [<-|Hne]; [|apply andb_false_r].
  rewrite andb_true_r. change (Z.testbit 7 3) with false. rewrite andb_false_r, orb_false_r.
  rewrite <- (Z.mod_pow2_bits_low a 4 3) by lia. change (2 ^ 4) with 16.
  by rewrite Ha16, Z.bits_0.
Qed.

(** ** The event handlers and the rings *)

Lemma set_ep_devs x ep v x' : set_ep x ep v = Some x' -> x' = set_devs (devs x') x.
Proof.
  unfold set_ep. destruct (get_dev x ep.1) as [d|]; [|done]. bind_some.
  destruct (at_index (eps d) ep.2); [|done]. bind_some. by intros [= <-].
Qed.

Lemma clear_ep_flag_devs x ep flag x' :
  clear_ep_flag x ep flag = Some x' -> x' = set_devs (devs x') x.
Proof.
  unfold clear_ep_flag. destruct (get_ep x ep); [|done]. bind_some. apply set_ep_devs.
Qed.

(** The [switch] of [handle_cmd_completion] writes the driver's status
    words and endpoint flags; no ring, URB or TD. *)
Lemma cmd_completion_switch_frame x event trb x1 go_on :
  cmd_completion_switch x event trb = Some (x1, go_on) ->
  cmd_ring x1 = cmd_ring x /\ event_ring x1 = event_ring x /\ urbs x1 = urbs x
  /\ tds x1 = tds x /\ erst_dequeue x1 = erst_dequeue x.
Proof.
  unfold cmd_completion_switch. cbv zeta.
  repeat match goal with
         | |- context [if ?b then _ else _] => destruct b
         | |- context [clear_ep_flag ?a ?b ?c] =>
             let E := fresh "E" in
             destruct (clear_ep_flag a b c) as [?x'|] eqn:E;
             [apply clear_ep_flag_devs in E; rewrite E|]
         end;
    bind_some; try done; by intros [= <- <-].
Qed.

Lemma tx_event_switch_frame x event ep e urb_id u x1 :
  tx_event_switch x event ep e urb_id u = Some (inl x1) ->
  cmd_ring x1 = cmd_ring x /\ event_ring x1 = event_ring x /\ tds x1 = tds x
  /\ erst_dequeue x1 = erst_dequeue x /\ error_bitmask x1 = error_bitmask x.
Proof.
  unfold tx_event_switch. cbv zeta.
  repeat match goal with
         | |- context [if ?b then _ else _] => destruct b
         | |- context [set_ep ?a ?b ?c] =>
             let E := fresh "E" in
             destruct (set_ep a b c) as [?x'|] eqn:E;
             [apply set_ep_devs in E; rewrite E|]
         end;
    bind_some; try done; by intros [= <-].
Qed.

(** [handle_tx_event] either refuses the event and changes nothing, or ends
    in its [cleanup:] part. *)
Lemma handle_tx_event_cases x event ret x' :
  keeps_event_ring process_ctrl_td -> keeps_event_ring process_isoc_td ->
  keeps_event_ring process_bulk_intr_td ->
  handle_tx_event x event = Some (ret, x') ->
  ((ret = - ENODEV \/ ret = - ESHUTDOWN) /\ x' = x)
  \/ (ret = 0 /\ exists x2 r,
        event_ring x2 = event_ring x
        /\ inc_deq true (event_ring x2) true = Some r
        /\ xhci_set_hc_event_deq (set_event_ring r x2) = Some x').
Proof.
  intros Hc Hi Hb.
  assert (Hcl : forall x2, event_ring x2 = event_ring x ->
            (r ← inc_deq true (event_ring x2) true;
             x1 ← xhci_set_hc_event_deq (set_event_ring r x2); Some (0, x1))
            = Some (ret, x') ->
            ((ret = - ENODEV \/ ret = - ESHUTDOWN) /\ x' = x)
            \/ (ret = 0 /\ exists x2 r,
                  event_ring x2 = event_ring x
                  /\ inc_deq true (event_ring x2) true = Some r
                  /\ xhci_set_hc_event_deq (set_event_ring r x2) = Some x')).
  { intros x2 He H.
    destruct (inc_deq true (event_ring x2) true) as [r|] eqn:Hd; [|done].
    revert H. bind_some.
    destruct (xhci_set_hc_event_deq (set_event_ring r x2)) as [x3|] eqn:Hs; [|done].
    bind_some. intros [= <- <-]. right. split; [done|]. by exists x2, r. }
  assert (Hno : forall c, c = - ENODEV \/ c = - ESHUTDOWN ->
            Some (c, x) = Some (ret, x') ->
            ((ret = - ENODEV \/ ret = - ESHUTDOWN) /\ x' = x)
            \/ (ret = 0 /\ exists x2 r,
                  event_ring x2 = event_ring x
                  /\ inc_deq true (event_ring x2) true = Some r
                  /\ xhci_set_hc_event_deq (set_event_ring r x2) = Some x')).
  { intros c Hcode [= <- <-]. by left. }
  unfold handle_tx_event. cbv zeta.
  destruct ((GET_COMP_CODE (transfer_len event) =? COMP_UNDERRUN)
            || (GET_COMP_CODE (transfer_len event) =? COMP_OVERRUN)); [by apply Hcl|].
  destruct (get_dev x (TRB_TO_SLOT_ID (tev_flags event))) as [xdev|];
    [|intros H; eapply Hno; [|exact H]; auto].
  destruct (at_index (eps xdev) (TRB_TO_EP_ID (tev_flags event) - 1)) as [e|]; [|done].
  bind_some.
  destruct (xhci_dma_to_transfer_ring e (buffer event)) as [ep_ring|];
    [|intros H; eapply Hno; [|exact H]; auto].
  destruct (at_index (out_ctx xdev) (TRB_TO_EP_ID (tev_flags event) - 1)) as [ep_info|];
    [|done].
  bind_some.
  destruct (Z.land ep_info EP_STATE_MASK =? EP_STATE_DISABLED);
    [intros H; eapply Hno; [|exact H]; auto|].
  destruct (td_list ep_ring) as [|td rest]; [by apply Hcl|].
  destruct (tds x !! td) as [t|]; [|done]. bind_some.
  destruct (trb_in_td ep_ring (deq_seg ep_ring) (dequeue ep_ring) (td_last_trb t)
              (buffer event)) as [[event_seg|]|]; [| |done]; bind_some;
    [|intros H; eapply Hno; [|exact H]; auto].
  destruct (segs ep_ring !! event_seg) as [sg|]; [|done]. bind_some.
  destruct (urbs x !! td_urb t) as [u|]; [|done]. bind_some.
  destruct (tx_event_switch x event _ e (td_urb t) u) as [[x1|c]|] eqn:Hsw; [| |done];
    bind_some; [|intros H; eapply Hno; [|exact H]].
  2: { revert Hsw. unfold tx_event_switch. cbv zeta.
       repeat match goal with
              | |- context [if ?b then _ else _] => destruct b
              | |- context [set_ep ?a ?b ?c] => destruct (set_ep a b c)
              end; bind_some; try done. intros [= <-]. by left. }
  apply tx_event_switch_frame in Hsw. destruct Hsw as (_ & Hev & _).
  match goal with
  | |- context [(if ?b then ?h1 else if ?c then ?h2 else ?h3) ≫= _] =>
      destruct (if b then h1 else if c then h2 else h3) as [[[ret0 st0] x2]|] eqn:Hp;
      [|done]
  end.
  bind_some. apply Hcl.
  revert Hp.
  repeat match goal with |- context [if ?b then _ else _] => destruct b end;
    intros Hp; [apply Hc in Hp|apply Hi in Hp|apply Hb in Hp]; congruence.
Qed.

Lemma xhci_set_hc_event_deq_frame x x' :
  xhci_set_hc_event_deq x = Some x' -> x' = set_erst_dequeue (erst_dequeue x') x.
Proof.
  unfold xhci_set_hc_event_deq.
  destruct (xhci_trb_virt_to_dma _ _ _); [|done]. bind_some. by intros [= <-].
Qed.

(** [handle_cmd_completion] reads the command ring and at most moves its
    dequeue cursor by one step: no TRB of the command ring is written, its
    enqueue cursor and cycle state stay, and the event ring, the
    dequeue-pointer register, the URBs and the TDs are not touched. *)
Theorem cmd_completion_keeps_rings (x : xhci_hcd) (event : xhci_event_cmd) (x' : xhci_hcd) :
  handle_cmd_completion x event = Some x' ->
  event_ring x' = event_ring x /\ erst_dequeue x' = erst_dequeue x
  /\ urbs x' = urbs x /\ tds x' = tds x
  /\ segs (cmd_ring x') = segs (cmd_ring x)
  /\ enqueue (cmd_ring x') = enqueue (cmd_ring x)
  /\ cycle_state (cmd_ring x') = cycle_state (cmd_ring x)
  /\ (cmd_ring x' = cmd_ring x
      \/ deq_updates (cmd_ring x') = wrap32 (deq_updates (cmd_ring x) + 1)).
Proof.
  unfold handle_cmd_completion. cbv zeta.
  destruct (xhci_trb_virt_to_dma _ _ _) as [d|]; [|done]. bind_some.
  destruct (d =? 0); [intros [= <-]; repeat split; by left|].
  destruct (negb (cmd_trb event =? d)); [intros [= <-]; repeat split; by left|].
  destruct (read_trb (cmd_ring x) (dequeue (cmd_ring x))) as [trb|]; [|done]. bind_some.
  destruct (cmd_completion_switch x event trb) as [[x1 go_on]|] eqn:Hsw; [|done].
  bind_some. apply cmd_completion_switch_frame in Hsw.
  destruct Hsw as (Hc & He & Hu & Ht & Hr).
  destruct go_on.
  - destruct (inc_deq false (cmd_ring x1) false) as [r|] eqn:Hd; [|done].
    bind_some. intros [= <-]. cbn.
    unfold inc_deq in Hd. cbv zeta in Hd. apply inc_deq_loop_frame in Hd.
    destruct Hd as (H1 & H2 & _ & _ & H5 & _ & _ & H8). cbn in *.
    rewrite <- Hc. repeat split; try done; [by apply H8|by right].
  - intros [= <-]. rewrite Hc. repeat split; try done. by left.
Qed.

(** [handle_tx_event] is all or nothing on the event ring: when it refuses
    an event ([-ENODEV], [-ESHUTDOWN]) the controller state is as before,
    the event ring's dequeue cursor included; when it returns 0 the cursor
    has moved by exactly one step and no TRB of the event ring was written.
    The handlers of the three transfer types are taken to leave the event
    ring to their caller. *)
Theorem tx_event_all_or_nothing (x : xhci_hcd) (event : xhci_transfer_event) (ret : Z)
    (x' : xhci_hcd) :
  keeps_event_ring process_ctrl_td -> keeps_event_ring process_isoc_td ->
  keeps_event_ring process_bulk_intr_td ->
  handle_tx_event x event = Some (ret, x') ->
  ((ret = - ENODEV \/ ret = - ESHUTDOWN) /\ x' = x)
  \/ (ret = 0
      /\ segs (event_ring x') = segs (event_ring x)
      /\ enqueue (event_ring x') = enqueue (event_ring x)
      /\ deq_updates (event_ring x') = wrap32 (deq_updates (event_ring x) + 1)).
Proof.
  intros Hc Hi Hb H.
  destruct (handle_tx_event_cases _ _ _ _ Hc Hi Hb H)
    as [Hno|(-> & x2 & r & He & Hd & Hs)]; [by left|].
  right. split; [done|].
  apply xhci_set_hc_event_deq_frame in Hs. rewrite Hs. cbn.
  unfold inc_deq in Hd. cbv zeta in Hd. apply inc_deq_loop_frame in Hd.
  destruct Hd as (H1 & H2 & _ & _ & H5 & _). cbn in *.
  rewrite <- He. by repeat split.
Qed.

(** [xhci_handle_event] takes an event off the event ring exactly once, or
    not at all.  An event TRB whose cycle bit is not the ring's cycle state
    still belongs to the controller: the function returns 0, sets bit 2 of
    the error mask and leaves the ring alone.  An event that is the
    driver's, of any type but a port status change, on a host that is not
    dying, moves the dequeue cursor by exactly one step, whether the
    handler of the event advanced the ring itself (a transfer event that
    [handle_tx_event] accepted) or left it to [xhci_handle_event]. *)
Theorem handle_event_consumes_once (xhc_state : Z) (x : xhci_hcd) (event : xhci_trb)
    (ret : Z) (x' : xhci_hcd) :
  keeps_event_ring process_ctrl_td -> keeps_event_ring process_isoc_td ->
  keeps_event_ring process_bulk_intr_td ->
  read_trb (event_ring x) (dequeue (event_ring x)) = Some event ->
  xhci_handle_event xhc_state x = Some (ret, x') ->
  (Z.land (field3 event) TRB_CYCLE <> cycle_state (event_ring x) ->
   ret = 0 /\ x' = set_error_bitmask (Z.lor (error_bitmask x) (Z.shiftl 1 2)) x)
  /\ (Z.land (field3 event) TRB_CYCLE = cycle_state (event_ring x) ->
      Z.land (field3 event) TRB_TYPE_BITMASK <> TRB_TYPE TRB_PORT_STATUS ->
      tst xhc_state XHCI_STATE_DYING = false ->
      segs (event_ring x') = segs (event_ring x)
      /\ enqueue (event_ring x') = enqueue (event_ring x)
      /\ deq_updates (event_ring x') = wrap32 (deq_updates (event_ring x) + 1)
      /\ (g_event_full = false -> ret = 1)).
Proof.
  intros Hc Hi Hb Hrd. unfold xhci_handle_event. rewrite Hrd. bind_some.
  assert (Hinc : forall c x1, event_ring x1 = event_ring x ->
            (r ← inc_deq true (event_ring x1) true; Some (c, set_event_ring r x1))
            = Some (ret, x') ->
            ret = c /\ segs (event_ring x') = segs (event_ring x)
            /\ enqueue (event_ring x') = enqueue (event_ring x)
            /\ deq_updates (event_ring x') = wrap32 (deq_updates (event_ring x) + 1)).
  { intros c x1 He H.
    destruct (inc_deq true (event_ring x1) true) as [r|] eqn:Hd; [|done].
    revert H. bind_some. intros [= <- <-]. cbn.
    unfold inc_deq in Hd. cbv zeta in Hd. apply inc_deq_loop_frame in Hd.
    destruct Hd as (H1 & H2 & _ & _ & H5 & _). cbn in *.
    rewrite <- He. by repeat split. }
  destruct (Z.land (field3 event) TRB_CYCLE =? cycle_state (event_ring x)) eqn:Eown;
    [apply Z.eqb_eq in Eown|apply Z.eqb_neq in Eown]; cbn [negb].
  2: { intros [= <- <-]. split; [done|]. intros Hown. done. }
  intros H. split; [done|]. intros _ Hport Hdying. revert H.
  destruct (g_event_full && negb (GET_COMP_CODE (field2 event) =? COMP_ER_FULL)) eqn:Efull.
  { intros H. destruct (Hinc 0 x eq_refl H) as (_ & H1 & H2 & H3).
    repeat split; try done. intros Hg. by rewrite Hg in Efull. }
  cbv zeta.
  destruct (Z.land (field3 event) TRB_TYPE_BITMASK =? TRB_TYPE TRB_COMPLETION).
  { destruct (handle_cmd_completion x (as_event_cmd event)) as [x1|] eqn:Hcmd; [|done].
    bind_some. rewrite Hdying.
    assert (He : event_ring x1 = event_ring x).
    { revert Hcmd. unfold handle_cmd_completion. cbv zeta.
      destruct (xhci_trb_virt_to_dma _ _ _) as [d|]; [|done]. bind_some.
      destruct (d =? 0); [by intros [= <-]|].
      destruct (negb (cmd_trb (as_event_cmd event) =? d)); [by intros [= <-]|].
      destruct (read_trb (cmd_ring x) (dequeue (cmd_ring x))) as [trb|]; [|done].
      bind_some.
      destruct (cmd_completion_switch x (as_event_cmd event) trb) as [[x2 go_on]|] eqn:Hsw;
        [|done].
      bind_some. apply cmd_completion_switch_frame in Hsw. destruct Hsw as (_ & He & _).
      destruct go_on; [|by intros [= <-]].
      destruct (inc_deq false (cmd_ring x2) false); [|done]. bind_some.
      by intros [= <-]. }
    intros H. destruct (Hinc 1 x1 He H) as (-> & H1 & H2 & H3). by repeat split. }
  destruct (Z.land (field3 event) TRB_TYPE_BITMASK =? TRB_TYPE TRB_PORT_STATUS) eqn:Ep;
    [by apply Z.eqb_eq in Ep|].
  destruct (Z.land (field3 event) TRB_TYPE_BITMASK =? TRB_TYPE TRB_TRANSFER).
  2: { bind_some. rewrite Hdying. intros H.
       destruct (Hinc 1 x eq_refl H) as (-> & H1 & H2 & H3). by repeat split. }
  destruct (handle_tx_event x (as_trans_event event)) as [[ret1 x1]|] eqn:Htx; [|done].
  bind_some.
  destruct (handle_tx_event_cases _ _ _ _ Hc Hi Hb Htx)
    as [[Hcode ->]|(-> & x2 & r & He & Hd & Hs)].
  - assert (Hneg : (ret1 <? 0) = true)
      by (apply Z.ltb_lt; destruct Hcode as [-> | ->]; done).
    rewrite Hneg. bind_some. rewrite Hdying. intros H.
    destruct (Hinc 1 (set_error_bitmask (Z.lor (error_bitmask x) (Z.shiftl 1 9)) x)
                eq_refl H) as (-> & H1 & H2 & H3).
    by repeat split.
  - change (0 <? 0) with false. bind_some. rewrite Hdying. intros [= <- <-].
    apply xhci_set_hc_event_deq_frame in Hs. rewrite Hs. cbn.
    unfold inc_deq in Hd. cbv zeta in Hd. apply inc_deq_loop_frame in Hd.
    destruct Hd as (H1 & H2 & _ & _ & H5 & _). cbn in *.
    rewrite <- He. by repeat split.
Qed.

(** ** Commands *)

Lemma set_cmd_ring_same x : set_cmd_ring (cmd_ring x) x = x.
Proof. by destruct x. Qed.

(** [queue_command] returns 0 or [-ENOMEM].  Refused, it leaves the
    controller state as it was.  Accepted, it has changed the command ring
    only, and of the command ring neither the dequeue cursor nor the number
    of segments; the enqueue cursor has made one step. *)
Theorem queue_command_result (reserved : Z) (x : xhci_hcd) (f1 f2 f3 f4 : Z)
    (must_succeed : bool) (ret : Z) (x' : xhci_hcd) :
  queue_command reserved x f1 f2 f3 f4 must_succeed = Some (ret, x') ->
  (ret = - ENOMEM /\ x' = x)
  \/ (ret = 0 /\ x' = set_cmd_ring (cmd_ring x') x
      /\ dequeue (cmd_ring x') = dequeue (cmd_ring x)
      /\ deq_updates (cmd_ring x') = deq_updates (cmd_ring x)
      /\ length (segs (cmd_ring x')) = length (segs (cmd_ring x))
      /\ enq_updates (cmd_ring x') = wrap32 (enq_updates (cmd_ring x) + 1)).
Proof.
  unfold queue_command. cbv zeta.
  rewrite prepare_ring_checked by (by left).
  destruct (room_on_ring false (cmd_ring x) _) as [[|]|]; [| |done]; bind_some.
  2: { intros [= <- <-]. left. by rewrite set_cmd_ring_same. }
  assert (Hq : forall r,
            same_but_links (cmd_ring x) r -> length (segs r) = length (segs (cmd_ring x)) ->
            dequeue r = dequeue (cmd_ring x) -> deq_updates r = deq_updates (cmd_ring x) ->
            enq_updates r = enq_updates (cmd_ring x) ->
            (r1 ← queue_trb false r false false f1 f2 f3 (Z.lor f4 (cycle_state r));
             Some (0, set_cmd_ring r1 x)) = Some (ret, x') ->
            (ret = - ENOMEM /\ x' = x)
            \/ (ret = 0 /\ x' = set_cmd_ring (cmd_ring x') x
                /\ dequeue (cmd_ring x') = dequeue (cmd_ring x)
                /\ deq_updates (cmd_ring x') = deq_updates (cmd_ring x)
                /\ length (segs (cmd_ring x')) = length (segs (cmd_ring x))
                /\ enq_updates (cmd_ring x') = wrap32 (enq_updates (cmd_ring x) + 1))).
  { intros r _ Hl Hd Hdu Heu. unfold queue_trb.
    destruct (write_trb r (enqueue r) _) as [r1|] eqn:Hw; [|done]. bind_some.
    destruct (inc_enq false r1 false false) as [r2|] eqn:Hi; [|done]. bind_some.
    intros [= <- <-]. right. cbn.
    destruct (write_trb_cursors _ _ _ _ Hw) as (_ & _ & Hd1 & _).
    destruct (write_trb_fields _ _ _ _ Hw) as [Heq1 Hl1].
    assert (Hu1 : deq_updates r1 = deq_updates r /\ enq_updates r1 = enq_updates r)
      by (rewrite Heq1; done).
    destruct Hu1 as [Hdu1 Heu1].
    unfold inc_enq in Hi. destruct (read_trb r1 (enqueue r1)) as [tq|]; [|done].
    revert Hi. bind_some. intros Hi. apply inc_enq_loop_frame in Hi.
    destruct Hi as (_ & Hl2 & Hd2 & _ & Hdu2 & Heu2 & _). cbn in *.
    repeat split; congruence. }
  destruct (enqueue_is_link_trb (cmd_ring x)) as [[|]|]; [| |done]; bind_some.
  2: { change (0 <? 0) with false. cbv iota. apply Hq; try done.
       apply same_but_links_refl. }
  destruct (prepare_ring_loop (ring_fuel (cmd_ring x)) false (cmd_ring x)) as [r|] eqn:Hl;
    [|done].
  bind_some. change (0 <? 0) with false. cbv iota.
  apply prepare_ring_loop_frame in Hl.
  destruct Hl as (Hs & Hl & Hd & _ & Hdu & Heu & _). by apply Hq.
Qed.

Lemma write_trb_dma r p t r' s :
  write_trb r p t = Some r' -> dma <$> (segs r' !! s) = dma <$> (segs r !! s).
Proof.
  unfold write_trb. intros H.
  destruct (segs r !! p.1) as [sg|] eqn:Hs; simpl in H; [|done].
  case_decide; [|done]. inversion H; subst; clear H. simpl.
  destruct (decide (p.1 = s)) as [<-|E].
  - rewrite list_lookup_insert_eq by (by eapply lookup_lt_Some). by rewrite Hs.
  - by rewrite list_lookup_insert_ne.
Qed.

Lemma noop_type c :
  c = 0 \/ c = 1 ->
  Z.land (Z.lor (TRB_TYPE TRB_CMD_NOOP) c) TRB_TYPE_BITMASK = TRB_TYPE TRB_CMD_NOOP.
Proof. by intros [-> | ->]. Qed.

(** A no-op command on an idle command ring, queued by [queue_cmd_noop] and
    completed by the controller with the address of its TRB, leaves the ring
    idle again one slot further: [handle_cmd_completion] finds the command
    at the dequeue pointer, raises no error bit, leaves the command status
    alone and moves the dequeue cursor up to the enqueue cursor. *)
Theorem noop_round_trip (reserved : Z) (x : xhci_hcd) (sg : xhci_segment) (i : nat)
    (status flags : Z) :
  ring_ok (cmd_ring x) ->
  enqueue (cmd_ring x) = (enq_seg (cmd_ring x), i) ->
  dequeue (cmd_ring x) = enqueue (cmd_ring x) ->
  deq_seg (cmd_ring x) = enq_seg (cmd_ring x) ->
  (S (S i) < TRBS_PER_SEGMENT)%nat ->
  segs (cmd_ring x) !! enq_seg (cmd_ring x) = Some sg ->
  0 < dma sg -> dma sg + Z.of_nat TRBS_PER_SEGMENT * SIZEOF_TRB < 2 ^ 64 ->
  room_on_ring false (cmd_ring x) (wrap32 (to_int (reserved + 1))) = Some true ->
  exists x1 x2,
    queue_cmd_noop reserved x = Some (0, x1)
    /\ read_trb (cmd_ring x1) (enqueue (cmd_ring x))
       = Some (mk_trb 0 0 0 (Z.lor (TRB_TYPE TRB_CMD_NOOP) (cycle_state (cmd_ring x))))
    /\ handle_cmd_completion x1
         (mk_cev (dma sg + Z.of_nat i * SIZEOF_TRB) status flags) = Some x2
    /\ enqueue (cmd_ring x2) = ptr_succ (enqueue (cmd_ring x))
    /\ dequeue (cmd_ring x2) = enqueue (cmd_ring x2)
    /\ segs (cmd_ring x2) = segs (cmd_ring x1)
    /\ error_bitmask x2 = error_bitmask x /\ g_cmd_status x2 = g_cmd_status x
    /\ event_ring x2 = event_ring x.
Proof.
  intros Hok He Hd Hds Hi Hsg Hdma Hwrap Hroom.
  pose proof (ring_ok_cycle _ Hok) as Hcyc.
  destruct Hok as (Hmem & He1 & Hes & He2).
  set (r := cmd_ring x) in *. set (s := enq_seg r) in *.
  destruct (mem_ok_read r s i Hmem Hes ltac:(lia)) as (sg0 & t0 & Hsg0 & _ & Hrd0 & Hl0).
  rewrite bool_decide_eq_false_2 in Hl0 by lia.
  destruct (mem_ok_read r s (S i) Hmem Hes ltac:(lia)) as (sg1 & t1 & _ & _ & Hrd1 & Hl1).
  rewrite bool_decide_eq_false_2 in Hl1 by lia.
  set (tn := mk_trb 0 0 0 (Z.lor (TRB_TYPE TRB_CMD_NOOP) (cycle_state r))).
  destruct (write_trb_is_Some r (s, i) t0 tn Hrd0) as [r1 Hw].
  destruct (write_trb_cursors _ _ _ _ Hw) as (He' & Hes' & Hd' & Hds' & Hc' & _).
  pose proof (read_write_same _ _ _ _ Hw) as Hrn.
  assert (Hrn1 : read_trb r1 (s, S i) = Some t1).
  { rewrite (read_write_other _ _ _ _ _ Hw); [done|]. intros [= E]. lia. }
  assert (Hinc : inc_enq false r1 false false = Some (enq_moved r1 s (s, S i))).
  { rewrite (inc_enq_plain r1 false tn t1); rewrite ?He', ?Hes', ?He; done. }
  set (r2 := enq_moved r1 s (s, S i)) in *.
  assert (Hdeq : inc_deq false r2 false = Some (deq_moved r2 s (s, S i))).
  { rewrite (inc_deq_plain r2 false t1); subst r2; cbn; rewrite ?Hd', ?Hds', ?Hd, ?He, ?Hds;
      done. }
  assert (Hsg2 : exists sg2, segs r2 !! s = Some sg2 /\ dma sg2 = dma sg).
  { pose proof (write_trb_dma _ _ _ _ s Hw) as Hdm. rewrite Hsg in Hdm.
    subst r2. cbn. destruct (segs r1 !! s) as [sg2|]; [|done].
    exists sg2. split; [done|]. by injection Hdm. }
  destruct Hsg2 as (sg2 & Hsg2 & Hdma2).
  exists (set_cmd_ring r2 x), (set_cmd_ring (deq_moved r2 s (s, S i)) (set_cmd_ring r2 x)).
  split.
  { unfold queue_cmd_noop, queue_command. cbv zeta.
    rewrite prepare_ring_checked by (by left).
    fold r. rewrite Hroom. bind_some. cbn [negb].
    unfold enqueue_is_link_trb. rewrite He, Hrd0. bind_some. rewrite Hl0. bind_some.
    change (0 <? 0) with false. cbv iota.
    unfold queue_trb. rewrite He. fold tn. rewrite Hw. bind_some. by rewrite Hinc. }
  split; [by rewrite He|].
  split.
  { unfold handle_cmd_completion. cbv zeta. cbn [cmd_ring set_cmd_ring cmd_trb].
    assert (Hdq : dequeue r2 = (s, i)) by (subst r2; cbn; by rewrite Hd', Hd, He).
    assert (Hdqs : deq_seg r2 = s) by (subst r2; cbn; by rewrite Hds', Hds).
    rewrite Hdq, Hdqs.
    pose proof (xhci_trb_virt_to_dma_in r2 s i sg2 Hsg2 ltac:(lia) ltac:(lia)
                  ltac:(rewrite Hdma2; done)) as Hv.
    unfold trb_ptr in *. rewrite Hv, Hdma2. bind_some.
    assert (Hnz : (dma sg + Z.of_nat i * SIZEOF_TRB =? 0) = false)
      by (apply Z.eqb_neq; unfold SIZEOF_TRB; lia).
    rewrite Hnz, Z.eqb_refl. cbn [negb].
    assert (Hrd2 : read_trb r2 (s, i) = Some tn) by (by subst r2).
    rewrite Hrd2. bind_some.
    unfold cmd_completion_switch. cbv zeta. subst tn. cbn [field3].
    rewrite noop_type by done. rewrite Z.eqb_refl. bind_some.
    cbn [cmd_ring set_cmd_ring]. by rewrite Hdeq. }
  cbn. rewrite He. by repeat split.
Qed.

(** ** Cancelled TDs *)

Arguments td_to_noop_loop : simpl never.

Lemma cycle_bit_cases c : Z.land c TRB_CYCLE = 0 \/ Z.land c TRB_CYCLE = 1.
Proof.
  change TRB_CYCLE with (Z.ones 1). rewrite Z.land_ones by lia.
  pose proof (Z.mod_pos_bound c (2 ^ 1) ltac:(lia)). lia.
Qed.

Lemma noop_not_link t : is_link_trb (noop_of t) = false.
Proof.
  unfold noop_of, is_link_trb. cbn [field3].
  by destruct (cycle_bit_cases (field3 t)) as [-> | ->].
Qed.

Lemma td_to_noop_loop_segment s j : forall d fuel r i,
  (i + d = j)%nat -> (d < fuel)%nat ->
  (forall k, (i <= k <= j)%nat -> exists t, read_trb r (s, k) = Some t
                                           /\ is_link_trb t = false) ->
  exists r',
    td_to_noop_loop fuel r s (s, i) (s, j) = Some r'
    /\ (forall k t, (i <= k <= j)%nat -> read_trb r (s, k) = Some t ->
          read_trb r' (s, k) = Some (noop_of t))
    /\ (forall p, ~ (p.1 = s /\ (i <= p.2 <= j)%nat) -> read_trb r' p = read_trb r p)
    /\ r' = set_segs (segs r') r.
Proof.
  induction d as [|d IH]; intros fuel r i Hij Hfuel Hin;
    (destruct fuel as [|fuel]; [lia|]);
    unfold td_to_noop_loop; fold td_to_noop_loop;
    destruct (Hin i ltac:(lia)) as (t & Hrd & Hl);
    rewrite Hrd; bind_some; rewrite Hl; fold (noop_of t);
    destruct (write_trb_is_Some r (s, i) t (noop_of t) Hrd) as [r1 Hw];
    rewrite Hw; bind_some;
    pose proof (read_write_same _ _ _ _ Hw) as Hsame;
    assert (Hother : forall q, q <> (s, i) -> read_trb r1 q = read_trb r q)
      by (intros q Hq; apply (read_write_other _ _ _ _ _ Hw); congruence);
    destruct (write_trb_fields _ _ _ _ Hw) as [Heq1 _].
  - assert (E : j = i) by lia. clear Hij. subst j. rewrite ptr_eqb_refl.
    exists r1. split; [done|]. split.
    { intros k t' Hk Hrk. assert (k = i) by lia. subst k.
      rewrite Hrd in Hrk. injection Hrk as <-. done. }
    split; [|done].
    intros p Hp. apply Hother. intros ->. apply Hp. cbn. lia.
  - rewrite ptr_eqb_neq by (intros [= E]; lia).
    unfold next_trb, last_trb. rewrite Hsame. bind_some.
    rewrite noop_not_link. bind_some.
    change (ptr_succ (s, i)) with (s, S i).
    destruct (IH fuel r1 (S i) ltac:(lia) ltac:(lia)) as (r' & Hloop & Hin' & Hout' & Heq').
    { intros k Hk. rewrite Hother by (intros [= E]; lia). apply Hin. lia. }
    exists r'. split; [done|]. split.
    { intros k t' Hk Hrk. destruct (decide (k = i)) as [->|Hne].
      - rewrite Hrd in Hrk. injection Hrk as <-.
        rewrite Hout' by (cbn; lia). done.
      - apply Hin'; [lia|]. rewrite Hother by (intros [= E]; lia). done. }
    split.
    { intros p Hp. rewrite Hout' by (intros [E1 E2]; apply Hp; split; [done|lia]).
      apply Hother. intros ->. apply Hp. cbn. lia. }
    clear -Heq' Heq1. destruct r, r1, r'. unfold set_segs in *. cbn in *. congruence.
Qed.

(** [td_to_noop] on a TD that lies in one segment and holds no link TRB
    turns every TRB from the first to the last of the TD into a no-op TRB
    that keeps the cycle bit it had, and nothing else: every other TRB of
    the ring and both cursors are as before. *)
Theorem td_to_noop_segment (r : xhci_ring) (td : xhci_td) (s i j : nat) :
  td_start_seg td = s -> td_first_trb td = (s, i) -> td_last_trb td = Some (s, j) ->
  (i <= j < TRBS_PER_SEGMENT)%nat -> (s < length (segs r))%nat ->
  (forall k, (i <= k <= j)%nat -> exists t, read_trb r (s, k) = Some t
                                           /\ is_link_trb t = false) ->
  exists r',
    td_to_noop r td = Some r'
    /\ (forall k t, (i <= k <= j)%nat -> read_trb r (s, k) = Some t ->
          read_trb r' (s, k) = Some (noop_of t)
          /\ Z.land (field3 (noop_of t)) TRB_CYCLE = Z.land (field3 t) TRB_CYCLE
          /\ trb_type (noop_of t) = TRB_TR_NOOP)
    /\ (forall p, ~ (p.1 = s /\ (i <= p.2 <= j)%nat) -> read_trb r' p = read_trb r p)
    /\ enqueue r' = enqueue r /\ dequeue r' = dequeue r
    /\ cycle_state r' = cycle_state r /\ td_list r' = td_list r.
Proof.
  intros Hs Hf Hlast Hij Hlen Hin. unfold td_to_noop. rewrite Hlast, Hs, Hf. bind_some.
  destruct (td_to_noop_loop_segment s j (j - i) (S (length (segs r) * S TRBS_PER_SEGMENT))
              r i ltac:(lia) ltac:(nia) Hin) as (r' & Hloop & Hin' & Hout' & Heq').
  exists r'. split; [done|]. split.
  { intros k t Hk Hrk. split; [by apply Hin'|].
    unfold noop_of, trb_type. cbn [field3].
    by destruct (cycle_bit_cases (field3 t)) as [-> | ->]. }
  split; [done|]. rewrite Heq'. done.
Qed.

(** ** Completed bulk and interrupt TDs *)

(** [finish_td] for a transfer that completed, in full or short: the TD is
    cleaned up from a state with the same URBs and TDs. *)
Lemma finish_td_completed x td event_trb event ep status ret st x' :
  GET_COMP_CODE (transfer_len event) = COMP_SUCCESS
  \/ GET_COMP_CODE (transfer_len event) = COMP_SHORT_TX ->
  finish_td x td event_trb event ep status false = Some (ret, st, x') ->
  exists x1, td_cleanup x1 td event ep status = Some (ret, st, x')
             /\ urbs x1 = urbs x /\ tds x1 = tds x
             /\ cmd_ring x1 = cmd_ring x /\ event_ring x1 = event_ring x.
Proof.
  intros Hcode. unfold finish_td. cbv zeta.
  set (comp := GET_COMP_CODE (transfer_len event)) in *.
  destruct (get_dev x _) as [xdev|]; [|done]. bind_some.
  destruct (get_ep x ep) as [e|] eqn:He; [|done]. bind_some.
  assert (Hc : (comp =? COMP_STOP_INVAL) || (comp =? COMP_STOP) = false
               /\ (comp =? COMP_STALL) = false
               /\ forall i, xhci_requires_manual_halt_cleanup i comp = false)
    by (destruct Hcode as [-> | ->]; done).
  destruct Hc as (-> & -> & Hm).
  destruct (at_index (out_ctx xdev) _) as [ep_info|]; [|done]. bind_some. rewrite Hm.
  destruct (xhci_dma_to_transfer_ring e (buffer event)) as [r|]; [|done]. bind_some.
  destruct (tds x !! td) as [t|]; [|done]. bind_some.
  destruct (deq_to_last_trb _ r (td_last_trb t)) as [r1|]; [|done]. bind_some.
  destruct (inc_deq false r1 false) as [r2|]; [|done]. bind_some.
  destruct (set_ep_ring x ep r2) as [x1|] eqn:Hs; [|done]. bind_some.
  intros H. exists x1. split; [done|].
  destruct (set_ep_ring_frame _ _ _ _ Hs) as [Hu Ht].
  unfold set_ep_ring in Hs. rewrite He in Hs. revert Hs. bind_some. intros Hs.
  apply set_ep_devs in Hs. rewrite Hs. by repeat split.
Qed.

(** What [process_bulk_intr_td] hands to [finish_td] when the last TRB of
    the TD completed, in full or short. *)
Lemma bulk_td_fast_path x td event_trb event ep status t u :
  tds x !! td = Some t -> urbs x !! td_urb t = Some u ->
  td_last_trb t = Some event_trb ->
  GET_COMP_CODE (transfer_len event) = COMP_SUCCESS
  \/ GET_COMP_CODE (transfer_len event) = COMP_SHORT_TX ->
  0 <= transfer_buffer_length u < 2 ^ 32 ->
  let residue := TRB_LEN (transfer_len event) in
  process_bulk_intr_td_body x td event_trb event ep status
  = (_ ← get_ep x ep;
     finish_td
       (set_urbs (<[td_urb t := set_actual_length
                                  (if residue <=? transfer_buffer_length u
                                   then transfer_buffer_length u - residue else 0) u]>
                    (urbs x)) x)
       td event_trb event ep
       (if residue =? 0 then 0
        else if (GET_COMP_CODE (transfer_len event) =? COMP_SUCCESS)
                && (residue <=? transfer_buffer_length u)
        then 0 else short_status u)
       false).
Proof.
  intros Ht Hu Hlast Hcode Htbl residue.
  assert (Hres : 0 <= residue < 2 ^ 17).
  { subst residue. unfold TRB_LEN. change 131071 with (Z.ones 17).
    rewrite Z.land_ones by lia. apply Z.mod_pos_bound. lia. }
  unfold process_bulk_intr_td_body. cbv zeta.
  destruct (get_ep x ep) as [e|]; [|done]. bind_some.
  rewrite Ht. bind_some. rewrite Hu. bind_some. rewrite Hlast, ptr_eqb_refl.
  cbn [negb]. fold residue.
  set (comp := GET_COMP_CODE (transfer_len event)) in *.
  assert (Hshort : short_status u = - EREMOTEIO \/ short_status u = 0)
    by (unfold short_status; destruct (tst _ _); auto).
  destruct (residue =? 0) eqn:E0; cbn [negb].
  - apply Z.eqb_eq in E0. bind_some.
    assert (Hle : (residue <=? transfer_buffer_length u) = true) by (apply Z.leb_le; lia).
    rewrite Hle, E0, Z.sub_0_r. f_equal.
    destruct Hcode as [-> | ->]; cbn; [done|].
    by destruct Hshort as [-> | ->].
  - apply Z.eqb_neq in E0.
    destruct (residue <=? transfer_buffer_length u) eqn:Hle;
      [apply Z.leb_le in Hle|apply Z.leb_gt in Hle].
    + rewrite wrap32_small by lia.
      assert (E : (transfer_buffer_length u <? transfer_buffer_length u - residue) = false)
        by (apply Z.ltb_ge; lia).
      rewrite E. bind_some. f_equal.
      destruct Hcode as [-> | ->]; cbn; [done|].
      by destruct Hshort as [-> | ->].
    + assert (Hw : wrap32 (transfer_buffer_length u - residue)
                   = transfer_buffer_length u - residue + 2 ^ 32).
      { unfold wrap32. rewrite <- (Z.mod_add _ 1) by lia. apply Z.mod_small. lia. }
      rewrite Hw.
      assert (E : (transfer_buffer_length u
                   <? transfer_buffer_length u - residue + 2 ^ 32) = true)
        by (apply Z.ltb_lt; lia).
      rewrite E. bind_some. f_equal.
      rewrite andb_false_r. by destruct Hshort as [-> | ->].
Qed.


(** What [process_bulk_intr_td] leaves behind when it returns from a TD
    whose last TRB completed, in full or short. *)
Lemma bulk_td_completed_spec (x : xhci_hcd) (td : nat) (event_trb : trb_ptr)
    (event : xhci_transfer_event) (ep : ep_ptr) (status : Z) (t : xhci_td) (u : urb)
    (ret st : Z) (x' : xhci_hcd) :
  tds x !! td = Some t -> urbs x !! td_urb t = Some u ->
  td_last_trb t = Some event_trb ->
  GET_COMP_CODE (transfer_len event) = COMP_SUCCESS
  \/ GET_COMP_CODE (transfer_len event) = COMP_SHORT_TX ->
  0 <= transfer_buffer_length u < 2 ^ 32 ->
  process_bulk_intr_td_body x td event_trb event ep status = Some (ret, st, x') ->
  let residue := TRB_LEN (transfer_len event) in
  exists u',
    urbs x' !! td_urb t = Some u'
    /\ transfer_buffer_length u' = transfer_buffer_length u
    /\ actual_length u'
       = (if residue <=? transfer_buffer_length u
          then transfer_buffer_length u - residue else 0)
    /\ 0 <= actual_length u' <= transfer_buffer_length u'
    /\ st = (if residue =? 0 then 0
             else if (GET_COMP_CODE (transfer_len event) =? COMP_SUCCESS)
                     && (residue <=? transfer_buffer_length u)
             then 0 else short_status u).
Proof.
  intros Ht Hu Hlast Hcode Htbl H residue.
  assert (Hres : 0 <= residue < 2 ^ 17).
  { subst residue. unfold TRB_LEN. change 131071 with (Z.ones 17).
    rewrite Z.land_ones by lia. apply Z.mod_pos_bound. lia. }
  rewrite (bulk_td_fast_path _ _ _ _ _ _ _ _ Ht Hu Hlast Hcode Htbl) in H.
  fold residue in H.
  destruct (get_ep x ep) as [e|]; [|done]. revert H. bind_some. intros Hf.
  set (al := if residue <=? transfer_buffer_length u
             then transfer_buffer_length u - residue else 0) in *.
  assert (Hal : 0 <= al <= transfer_buffer_length u).
  { subst al. destruct (residue <=? transfer_buffer_length u) eqn:Hle; [|lia].
    apply Z.leb_le in Hle. lia. }
  pose proof (lookup_lt_Some _ _ _ Hu) as Hlt.
  destruct (finish_td_completed _ _ _ _ _ _ _ _ _ Hcode Hf) as (x1 & Hcl & Hu1 & Ht1 & _).
  destruct (td_cleanup_spec _ _ _ _ _ _ _ _ Hcl)
    as (t' & u0 & u' & Ht' & Hu0 & Hu' & Hl & Ha & Hs).
  rewrite Ht1 in Ht'. cbn in Ht'. rewrite Ht in Ht'. injection Ht' as <-.
  rewrite Hu1 in Hu0. cbn in Hu0. rewrite list_lookup_insert_eq in Hu0 by done.
  injection Hu0 as <-. cbn in *.
  assert (E : (transfer_buffer_length u <? al) = false) by (apply Z.ltb_ge; lia).
  rewrite E in Ha, Hs. exists u'. rewrite Hl, Ha. by repeat split; try lia.
Qed.

(** ** Refused submissions *)

Lemma prepare_ring_refused ev r ep_state n ret r' :
  prepare_ring ev r ep_state n = Some (ret, r') ->
  ret = 0 \/ ((ret = - ENOENT \/ ret = - EINVAL \/ ret = - ENOMEM) /\ r' = r).
Proof.
  unfold prepare_ring.
  destruct (ep_state =? EP_STATE_DISABLED); [intros [= <- <-]; right; auto|].
  destruct (ep_state =? EP_STATE_ERROR); [intros [= <- <-]; right; auto|].
  destruct ((ep_state =? EP_STATE_HALTED) || (ep_state =? EP_STATE_STOPPED)
            || (ep_state =? EP_STATE_RUNNING)); [|intros [= <- <-]; right; auto].
  destruct (room_on_ring ev r n) as [[|]|]; [| |done]; bind_some;
    [|intros [= <- <-]; right; auto].
  destruct (enqueue_is_link_trb r) as [[|]|]; [| |done]; bind_some;
    [|intros [= <- <-]; by left].
  destruct (prepare_ring_loop (ring_fuel r) ev r); [|done]. bind_some.
  intros [= <- <-]. by left.
Qed.

Lemma prepare_transfer_refused r ep_info n urb_id td ret r' td' :
  prepare_transfer (Some r) ep_info n urb_id td = Some (ret, r', td') ->
  (ret = 0 /\ exists r1 t, r' = Some r1 /\ td' = Some t)
  \/ ((ret = - ENOENT \/ ret = - EINVAL \/ ret = - ENOMEM) /\ r' = Some r /\ td' = None).
Proof.
  unfold prepare_transfer.
  destruct (prepare_ring false r (Z.land ep_info EP_STATE_MASK) n) as [[ret1 r1]|] eqn:Hp;
    [|done].
  bind_some. apply prepare_ring_refused in Hp.
  destruct Hp as [->|[Hcode ->]].
  - change (negb (0 =? 0)) with false. cbv iota. intros [= <- <- <-]. left. eauto.
  - assert (Hnz : negb (ret1 =? 0) = true)
      by (destruct Hcode as [->|[->| ->]]; done).
    rewrite Hnz. intros [= <- <- <-]. right. auto.
Qed.

(** Walking through the binds of a builder that has passed
    [prepare_transfer]: every way out returns 0. *)
Ltac tx_accepted :=
  repeat match goal with
         | |- Some _ = Some _ -> _ => intros [= <-]; left; reflexivity
         | |- None = Some _ -> _ => discriminate
         | |- (None ≫= _) = Some _ -> _ => discriminate
         | |- (Some ?a ≫= ?f) = Some _ -> _ =>
             change (Some a ≫= f) with (f a); cbv beta iota zeta
         | |- (?o ≫= _) = Some _ -> _ => destruct o as [?|]
         | |- (match ?p with (_, _) => _ end) = Some _ -> _ => destruct p
         | |- (if ?b then _ else _) = Some _ -> _ => destruct b
         | |- (match ?l with _ => _ end) = Some _ -> _ => destruct l
         end.

(** A submission that a builder refuses leaves no trace: when
    [xhci_queue_ctrl_tx] or [xhci_queue_bulk_tx] (with or without a
    scatterlist) does not return 0 it returns [-EINVAL], [-ENOENT] or
    [-ENOMEM], has queued no TRB and linked no TD, hands the ring back as
    it got it and has not rung the doorbell. *)
Theorem tx_refused_cleanly (r0 : xhci_ring) (ep_info ep_state db ep_index : Z)
    (urb_id td_id : nat) (u : urb) (res : tx_result) :
  xhci_queue_ctrl_tx (Some r0) ep_info ep_state db ep_index urb_id td_id u = Some res
  \/ xhci_queue_bulk_tx (Some r0) ep_info ep_state db ep_index urb_id td_id u = Some res ->
  tx_ret res = 0
  \/ ((tx_ret res = - ENOENT \/ tx_ret res = - EINVAL \/ tx_ret res = - ENOMEM)
      /\ (forall r, tx_ring res = Some r -> r = r0)
      /\ tx_td res = None /\ tx_trbs res = [] /\ tx_db res = db).
Proof.
  assert (Hprep : forall n (k : xhci_ring -> xhci_td -> option tx_result),
            (forall r td res, k r td = Some res -> tx_ret res = 0) ->
            ('(ret, r, td) ← prepare_transfer (Some r0) ep_info n urb_id td_id;
             match r, td with
             | Some r, Some td => k r td
             | _, _ => Some (mk_tx ret r None [] db)
             end) = Some res ->
            tx_ret res = 0
            \/ ((tx_ret res = - ENOENT \/ tx_ret res = - EINVAL \/ tx_ret res = - ENOMEM)
                /\ (forall r, tx_ring res = Some r -> r = r0)
                /\ tx_td res = None /\ tx_trbs res = [] /\ tx_db res = db)).
  { intros n k Hk.
    destruct (prepare_transfer (Some r0) ep_info n urb_id td_id) as [[[ret r'] td']|] eqn:Hp;
      [|done].
    bind_some. apply prepare_transfer_refused in Hp.
    destruct Hp as [(-> & r1 & t & -> & ->)|(Hcode & -> & ->)].
    - intros H. left. by eapply Hk.
    - intros [= <-]. right. cbn. repeat split; try done. by intros r [= <-]. }
  intros [H|H]; revert H.
  - unfold xhci_queue_ctrl_tx.
    destruct (setup_packet u) as [setup|].
    2: { intros [= <-]. right. cbn. repeat split; auto. done. }
    cbv zeta. apply Hprep. intros r td res0.
    assert (Hgoal : forall o : option tx_result,
              (o = Some res0 -> tx_ret res0 = 0 \/ False) ->
              o = Some res0 -> tx_ret res0 = 0)
      by (intros o Ho E; by destruct (Ho E)).
    apply Hgoal. tx_accepted.
  - unfold xhci_queue_bulk_tx.
    destruct (negb (length (sg u) =? 0)%nat).
    + unfold queue_bulk_sg_tx.
      destruct (count_sg_trbs_needed u) as [n|]; [|done]. bind_some.
      apply Hprep. intros r td res0.
      assert (Hgoal : forall o : option tx_result,
                (o = Some res0 -> tx_ret res0 = 0 \/ False) ->
                o = Some res0 -> tx_ret res0 = 0)
        by (intros o Ho E; by destruct (Ho E)).
      apply Hgoal. tx_accepted.
    + cbv zeta.
      destruct (count_trbs_loop _ _ _ _) as [n|]; [|done]. bind_some.
      destruct (bulk_max_packet (Some 0) u) as [mp|]; [|done]. bind_some.
      destruct (wants_zlp u (wrap32 mp)) as [zlp|]; [|done]. bind_some.
      apply Hprep. intros r td res0.
      assert (Hgoal : forall o : option tx_result,
                (o = Some res0 -> tx_ret res0 = 0 \/ False) ->
                o = Some res0 -> tx_ret res0 = 0)
        by (intros o Ho E; by destruct (Ho E)).
      apply Hgoal. tx_accepted.
Qed.

(** ** The dequeue pointer after a completed TD *)

Lemma get_ep_set_ep x ep v x' : set_ep x ep v = Some x' -> get_ep x' ep = Some v.
Proof.
  unfold set_ep, get_ep, get_dev, at_index.
  destruct (ep.1 <? 0); [done|].
  destruct (devs x !! Z.to_nat ep.1) as [[d|]|] eqn:Hd; [|done|done]. bind_some.
  destruct (ep.2 <? 0); [done|].
  destruct (eps d !! Z.to_nat ep.2) as [e|] eqn:He; [|done]. bind_some.
  intros [= <-]. cbn.
  rewrite list_lookup_insert_eq by (by eapply lookup_lt_Some). bind_some. cbn.
  apply list_lookup_insert_eq. by eapply lookup_lt_Some.
Qed.

Lemma deq_to_last_trb_spec last : forall fuel r r1,
  deq_to_last_trb fuel r (Some last) = Some r1 ->
  dequeue r1 = last /\ segs r1 = segs r /\ enqueue r1 = enqueue r
  /\ enq_seg r1 = enq_seg r /\ enq_updates r1 = enq_updates r
  /\ cycle_state r1 = cycle_state r /\ td_list r1 = td_list r.
Proof.
  induction fuel as [|fuel IH]; intros r r1 H; [done|].
  cbn [deq_to_last_trb] in H.
  destruct (ptr_eqb (dequeue r) last) eqn:E.
  - injection H as <-. apply ptr_eqb_eq in E. by repeat split.
  - destruct (inc_deq false r false) as [r0|] eqn:Hd; [|done].
    revert H. bind_some. intros H. apply IH in H.
    unfold inc_deq in Hd. cbv zeta in Hd. apply inc_deq_loop_frame in Hd.
    destruct Hd as (H1 & H2 & H3 & H4 & _ & _ & H7 & H8). cbn in *.
    destruct H as (G1 & G2 & G3 & G4 & G5 & G6 & G7).
    repeat split; try congruence. rewrite G6. by apply H8.
Qed.

(** What [finish_td] leaves behind when it returns from a TD that
    completed, in full or short. *)
Lemma finish_td_advances_spec (x : xhci_hcd) (td : nat) (event_trb : trb_ptr)
    (event : xhci_transfer_event) (ep : ep_ptr) (status : Z) (e : xhci_virt_ep)
    (r : xhci_ring) (t : xhci_td) (last : trb_ptr) (ret st : Z) (x' : xhci_hcd) :
  GET_COMP_CODE (transfer_len event) = COMP_SUCCESS
  \/ GET_COMP_CODE (transfer_len event) = COMP_SHORT_TX ->
  get_ep x ep = Some e -> vep_ring e = Some r ->
  tds x !! td = Some t -> td_last_trb t = Some last ->
  finish_td x td event_trb event ep status false = Some (ret, st, x') ->
  exists e' r' r1 r2,
    get_ep x' ep = Some e' /\ vep_ring e' = Some r'
    /\ segs r' = segs r /\ enqueue r' = enqueue r /\ cycle_state r' = cycle_state r
    /\ td_list r' = list_del td (td_list r)
    /\ dequeue r1 = last /\ segs r1 = segs r
    /\ inc_deq false r1 false = Some r2
    /\ dequeue r' = dequeue r2 /\ deq_seg r' = deq_seg r2
    /\ deq_to_last_trb (S (length (segs r) * S TRBS_PER_SEGMENT)) r (Some last) = Some r1.
Proof.
  intros Hcode He Hr Ht Hlast. unfold finish_td. cbv zeta.
  set (comp := GET_COMP_CODE (transfer_len event)) in *.
  destruct (get_dev x _) as [xdev|]; [|done]. bind_some.
  rewrite He. bind_some.
  assert (Hc : (comp =? COMP_STOP_INVAL) || (comp =? COMP_STOP) = false
               /\ (comp =? COMP_STALL) = false
               /\ forall i, xhci_requires_manual_halt_cleanup i comp = false)
    by (destruct Hcode as [-> | ->]; done).
  destruct Hc as (-> & -> & Hm).
  destruct (at_index (out_ctx xdev) _) as [ep_info|]; [|done]. bind_some. rewrite Hm.
  unfold xhci_dma_to_transfer_ring at 1. rewrite Hr. bind_some. rewrite Ht. bind_some.
  rewrite Hlast.
  destruct (deq_to_last_trb _ r (Some last)) as [r1|] eqn:Hwalk; [|done]. bind_some.
  destruct (inc_deq false r1 false) as [r2|] eqn:Hinc; [|done]. bind_some.
  destruct (set_ep_ring x ep r2) as [x1|] eqn:Hs; [|done]. bind_some.
  pose proof Hwalk as Hwalk0. apply deq_to_last_trb_spec in Hwalk.
  destruct Hwalk as (W1 & W2 & W3 & _ & _ & W6 & W7).
  pose proof Hinc as Hinc'. unfold inc_deq in Hinc'. cbv zeta in Hinc'.
  apply inc_deq_loop_frame in Hinc'.
  destruct Hinc' as (I1 & I2 & _ & _ & _ & _ & I7 & I8). cbn in *.
  destruct (set_ep_ring_frame _ _ _ _ Hs) as [Hu1 Ht1].
  unfold set_ep_ring in Hs. rewrite He in Hs. revert Hs. bind_some. intros Hs.
  apply get_ep_set_ep in Hs.
  unfold td_cleanup. rewrite Ht1, Ht. bind_some. rewrite Hu1.
  destruct (urbs x !! td_urb t) as [u|]; [|done]. bind_some.
  set (e1 := mk_ep (Some r2) (vep_state e) (stopped_td e) (stopped_trb e) (stopped_stream e))
    in *.
  set (r3 := set_td_list (list_del td (td_list r2)) r2).
  assert (Hx2 : forall x2, set_ep_ring x1 ep r3 = Some x2 ->
            get_ep x2 ep = Some (mk_ep (Some r3) (vep_state e1) (stopped_td e1)
                                   (stopped_trb e1) (stopped_stream e1))).
  { intros x2. unfold set_ep_ring. rewrite Hs. bind_some. apply get_ep_set_ep. }
  assert (Hfin : forall u1 s1,
            (e0 ← get_ep x1 ep;
             x2 ← match xhci_dma_to_transfer_ring e0 (buffer event) with
                  | Some r0 => set_ep_ring x1 ep (set_td_list (list_del td (td_list r0)) r0)
                  | None => Some x1
                  end;
             Some (if td_cnt (set_td_cnt (wrap32 (td_cnt u1 + 1)) u1)
                      =? priv_length (set_td_cnt (wrap32 (td_cnt u1 + 1)) u1)
                   then 1 else 0, s1,
                   set_urbs (<[td_urb t := set_td_cnt (wrap32 (td_cnt u1 + 1)) u1]> (urbs x2))
                     (set_tds (<[td := mk_td (td_urb t) (td_start_seg t) (td_first_trb t)
                                         (td_last_trb t) false]> (tds x2)) x2)))
            = Some (ret, st, x') ->
            get_ep x' ep = Some (mk_ep (Some r3) (vep_state e1) (stopped_td e1)
                                   (stopped_trb e1) (stopped_stream e1))).
  { intros u1 s1. rewrite Hs. bind_some. unfold xhci_dma_to_transfer_ring. cbn [vep_ring e1].
    fold r3. destruct (set_ep_ring x1 ep r3) as [x2|] eqn:Hs2; [|done]. bind_some.
    intros [= _ _ <-]. exact (Hx2 x2 eq_refl). }
  intros H.
  assert (Hget : get_ep x' ep = Some (mk_ep (Some r3) (vep_state e1) (stopped_td e1)
                                        (stopped_trb e1) (stopped_stream e1))).
  { revert H. destruct (transfer_buffer_length u <? actual_length u); apply Hfin. }
  eexists _, r3, r1, r2. split; [exact Hget|]. split; [done|]. subst r3. cbn.
  rewrite I1, I2, W2, W3, I7, W7. repeat split; try done.
  rewrite I8 by done. done.
Qed.

(** ** Finding the segment of a TRB *)

Lemma find_trb_seg_loop_sound r start trb s : forall fuel cur c c',
  find_trb_seg_loop fuel r start cur trb c = Some (Some s, c') ->
  trb.1 = s /\ (trb.2 < TRBS_PER_SEGMENT)%nat.
Proof.
  induction fuel as [|fuel IH]; intros cur c c' H; [done|].
  cbn [find_trb_seg_loop] in H.
  destruct (negb (trb.1 =? cur)%nat || (TRBS_PER_SEGMENT <=? trb.2)%nat) eqn:E.
  - destruct (TRBS_PER_SEGMENT =? 0)%nat; [done|].
    destruct (read_trb r _) as [t|]; [|done]. revert H. bind_some.
    destruct (segs r !! cur) as [sg|]; [|done]. bind_some.
    destruct (next sg =? start)%nat; [done|]. apply IH.
  - injection H as <- <-. apply orb_false_elim in E. destruct E as [E1 E2].
    apply negb_false_iff, Nat.eqb_eq in E1. apply Nat.leb_gt in E2. done.
Qed.

Lemma toggled_cycle c : c = 0 \/ c = 1 -> Z.land (Z.lnot c) 1 = 0 \/ Z.land (Z.lnot c) 1 = 1.
Proof. intros [-> | ->]; [by right|by left]. Qed.

Lemma find_trb_seg_loop_linked r start trb :
  ring_linked r -> (0 < TRBS_PER_SEGMENT)%nat ->
  (forall s, (s < length (segs r))%nat ->
     is_Some (read_trb r (s, (TRBS_PER_SEGMENT - 1)%nat))) ->
  (start < length (segs r))%nat -> (trb.2 < TRBS_PER_SEGMENT)%nat ->
  forall d k fuel c,
    (d < fuel)%nat -> (k + d < length (segs r))%nat ->
    ((start + (k + d)) mod length (segs r) = trb.1)%nat ->
    (forall d', (d' < d)%nat -> ((start + (k + d')) mod length (segs r))%nat <> trb.1) ->
    exists c',
      find_trb_seg_loop fuel r start ((start + k) mod length (segs r)) trb c
      = Some (Some trb.1, c')
      /\ (d = 0%nat -> c' = c)
      /\ (c = 0 \/ c = 1 -> c' = 0 \/ c' = 1).
Proof.
  intros Hlink Htps Hrd Hstart Hslot.
  induction d as [|d IH]; intros k fuel c Hf Hk Hd Hmin;
    (destruct fuel as [|fuel]; [lia|]); cbn [find_trb_seg_loop].
  - rewrite Nat.add_0_r in Hd. rewrite Hd, Nat.eqb_refl. cbn [negb orb].
    assert (E : (TRBS_PER_SEGMENT <=? trb.2)%nat = false) by (apply Nat.leb_gt; lia).
    rewrite E. by exists c.
  - set (cur := ((start + k) mod length (segs r))%nat).
    assert (Hcur : (cur < length (segs r))%nat) by (apply Nat.mod_upper_bound; lia).
    assert (Hne : (trb.1 =? cur)%nat = false).
    { apply Nat.eqb_neq. intros E. apply (Hmin 0%nat); [lia|].
      rewrite Nat.add_0_r. done. }
    rewrite Hne. cbn [negb orb].
    assert (E0 : (TRBS_PER_SEGMENT =? 0)%nat = false) by (apply Nat.eqb_neq; lia).
    rewrite E0. destruct (Hrd cur Hcur) as [t Ht]. rewrite Ht. bind_some.
    destruct (lookup_lt_is_Some_2 (segs r) cur Hcur) as [sg Hsg]. rewrite Hsg. bind_some.
    rewrite (Hlink _ _ Hsg).
    assert (Hnext : (S cur mod length (segs r) = (start + S k) mod length (segs r))%nat).
    { subst cur. replace (S ((start + k) mod length (segs r)))
        with (((start + k) mod length (segs r)) + 1)%nat by lia.
      rewrite Nat.Div0.add_mod_idemp_l. f_equal. lia. }
    rewrite Hnext.
    assert (Hns : ((start + S k) mod length (segs r) =? start)%nat = false).
    { apply Nat.eqb_neq. apply mod_shift; lia. }
    rewrite Hns.
    destruct (IH (S k) fuel
                (if is_link_trb t && tst (field3 t) LINK_TOGGLE
                 then Z.land (Z.lnot c) 1 else c)) as (c' & Hloop & _ & Hbit).
    + lia.
    + lia.
    + rewrite <- Hd. f_equal. lia.
    + intros d' Hd'. replace (S k + d')%nat with (k + S d')%nat by lia. apply Hmin. lia.
    + exists c'. split; [done|]. split; [done|].
      intros Hc. apply Hbit.
      destruct (is_link_trb t && tst (field3 t) LINK_TOGGLE); [by apply toggled_cycle|done].
Qed.

(** [find_trb_seg] finds the segment of a TRB, and only that one.  The
    segment it returns is the one the TRB is in.  On a ring whose segments
    are linked into one cycle and have their last TRB, the search for a TRB
    of the ring ends with that segment before it comes round to the start;
    a TRB of the start segment is found at once with [*cycle_state]
    untouched, and a cycle state of 0 or 1 stays 0 or 1. *)
Theorem find_trb_seg_correct (r : xhci_ring) (start : nat) (trb : trb_ptr) (c : Z) :
  (forall s c', find_trb_seg r start trb c = Some (Some s, c') ->
     trb.1 = s /\ (trb.2 < TRBS_PER_SEGMENT)%nat)
  /\ (ring_linked r ->
      (forall s, (s < length (segs r))%nat ->
         is_Some (read_trb r (s, (TRBS_PER_SEGMENT - 1)%nat))) ->
      (start < length (segs r))%nat -> (trb.1 < length (segs r))%nat ->
      (trb.2 < TRBS_PER_SEGMENT)%nat ->
      exists c',
        find_trb_seg r start trb c = Some (Some trb.1, c')
        /\ (trb.1 = start -> c' = c)
        /\ (c = 0 \/ c = 1 -> c' = 0 \/ c' = 1)).
Proof.
  split; [intros s c'; apply find_trb_seg_loop_sound|].
  intros Hlink Hrd Hstart Htrb Hslot. unfold find_trb_seg.
  set (n := length (segs r)) in *.
  set (d := ((trb.1 + n - start) mod n)%nat).
  assert (Hdn : (d < n)%nat) by (apply Nat.mod_upper_bound; lia).
  assert (Hd : ((start + d) mod n = trb.1)%nat).
  { subst d. rewrite Nat.Div0.add_mod_idemp_r.
    replace (start + (trb.1 + n - start))%nat with (trb.1 + 1 * n)%nat by lia.
    rewrite Nat.Div0.mod_add. apply Nat.mod_small. lia. }
  assert (Hmin : forall d', (d' < d)%nat -> ((start + d') mod n)%nat <> trb.1).
  { intros d' Hd' E. rewrite <- Hd in E.
    destruct (le_lt_dec n (start + d')) as [Hge|Hlt];
      destruct (le_lt_dec n (start + d)) as [Hge2|Hlt2].
    - replace (start + d')%nat with ((start + d' - n) + 1 * n)%nat in E by lia.
      replace (start + d)%nat with ((start + d - n) + 1 * n)%nat in E by lia.
      rewrite !Nat.Div0.mod_add, !Nat.mod_small in E by lia. lia.
    - replace (start + d')%nat with ((start + d' - n) + 1 * n)%nat in E by lia.
      rewrite Nat.Div0.mod_add, !Nat.mod_small in E by lia. lia.
    - replace (start + d)%nat with ((start + d - n) + 1 * n)%nat in E by lia.
      rewrite Nat.Div0.mod_add, !Nat.mod_small in E by lia. lia.
    - rewrite !Nat.mod_small in E by lia. lia. }
  destruct (find_trb_seg_loop_linked r start trb Hlink ltac:(lia) Hrd Hstart Hslot
              d 0%nat (S n) c ltac:(lia) ltac:(lia) Hd Hmin) as (c' & Hloop & Hz & Hbit).
  rewrite Nat.add_0_r, Nat.mod_small in Hloop by done.
  exists c'. split; [done|]. split; [|done].
  intros E. apply Hz. subst d. rewrite E.
  replace (start + n - start)%nat with (0 + 1 * n)%nat by lia.
  rewrite Nat.Div0.mod_add. apply Nat.mod_small. lia.
Qed.

(** ** The search of [trb_in_td] comes to an end *)

Lemma seg_end_dma_total r s : is_Some (segs r !! s) -> is_Some (seg_end_dma r s).
Proof.
  intros Hs. unfold seg_end_dma. destruct (TRBS_PER_SEGMENT =? 0)%nat; [done|].
  by apply xhci_trb_virt_to_dma_total.
Qed.

Lemma xhci_trb_virt_to_dma_total_opt r s p :
  is_Some (segs r !! s) -> is_Some (xhci_trb_virt_to_dma r (Some s) p).
Proof.
  intros Hs. destruct p as [p|]; [by apply xhci_trb_virt_to_dma_total|done].
Qed.

Lemma trb_in_td_loop_total r start end_trb suspect :
  ring_linked r -> (start < length (segs r))%nat ->
  forall d k fuel start_dma,
    (d < fuel)%nat -> (S (k + d) = length (segs r))%nat ->
    is_Some (trb_in_td_loop fuel r start ((start + k) mod length (segs r)) start_dma
               end_trb suspect).
Proof.
  intros Hlink Hstart.
  induction d as [|d IH]; intros k fuel start_dma Hf Hk;
    (destruct fuel as [|fuel]; [lia|]);
    unfold trb_in_td_loop; fold trb_in_td_loop;
    set (cur := ((start + k) mod length (segs r))%nat);
    assert (Hcur : (cur < length (segs r))%nat) by (apply Nat.mod_upper_bound; lia);
    destruct (lookup_lt_is_Some_2 (segs r) cur Hcur) as [sg Hsg];
    (destruct (start_dma =? 0); [done|]);
    destruct (seg_end_dma_total r cur ltac:(by rewrite Hsg)) as [e1 He1];
    destruct (xhci_trb_virt_to_dma_total_opt r cur end_trb ltac:(by rewrite Hsg))
      as [e2 He2];
    rewrite He1, He2; bind_some; rewrite Hsg; bind_some;
    (destruct (0 <? e2);
     [destruct (start_dma <=? e2);
      [by destruct ((start_dma <=? suspect) && (suspect <=? e2))
      |by destruct (((start_dma <=? suspect) && (suspect <=? e1))
                    || ((dma sg <=? suspect) && (suspect <=? e2)))]|]);
    (destruct ((start_dma <=? suspect) && (suspect <=? e1)); [done|]);
    rewrite (Hlink _ _ Hsg);
    assert (Hnext : (S cur mod length (segs r) = (start + S k) mod length (segs r))%nat)
      by (subst cur; replace (S ((start + k) mod length (segs r)))
            with (((start + k) mod length (segs r)) + 1)%nat by lia;
          rewrite Nat.Div0.add_mod_idemp_l; f_equal; lia);
    rewrite Hnext;
    assert (Hn : ((start + S k) mod length (segs r) < length (segs r))%nat)
      by (apply Nat.mod_upper_bound; lia);
    destruct (xhci_trb_virt_to_dma_total r ((start + S k) mod length (segs r))%nat
                (((start + S k) mod length (segs r))%nat, 0%nat)
                (lookup_lt_is_Some_2 _ _ Hn)) as [d' Hd'];
    unfold trb_ptr in *; rewrite Hd'; bind_some.
  - replace (start + S k)%nat with (start + 1 * length (segs r))%nat by lia.
    rewrite Nat.Div0.mod_add, Nat.mod_small, Nat.eqb_refl by done. done.
  - destruct ((start + S k) mod length (segs r) =? start)%nat; [done|].
    apply IH; lia.
Qed.

(** On a ring whose segments are linked into one cycle, [trb_in_td] always
    comes back: the walk from the start segment either finds a segment for
    the suspect address or arrives at the start segment again and returns
    NULL, within one round. *)
Theorem trb_in_td_total (r : xhci_ring) (start_seg : nat) (start_trb : trb_ptr)
    (end_trb : option trb_ptr) (suspect : Z) :
  ring_linked r -> (start_seg < length (segs r))%nat ->
  is_Some (trb_in_td r start_seg start_trb end_trb suspect).
Proof.
  intros Hlink Hstart. unfold trb_in_td.
  destruct (xhci_trb_virt_to_dma_total r start_seg start_trb
              (lookup_lt_is_Some_2 _ _ Hstart)) as [d Hd].
  rewrite Hd. bind_some.
  pose proof (trb_in_td_loop_total r start_seg end_trb suspect Hlink Hstart
                (length (segs r) - 1) 0 (S (length (segs r))) d ltac:(lia) ltac:(lia)) as H.
  rewrite Nat.add_0_r, Nat.mod_small in H by done. done.
Qed.

(** ** The URB of a cleaned-up TD *)

(** The URB that [td_cleanup] leaves in the store. *)
Lemma td_cleanup_urb x td event ep status ret st x' t u :
  td_cleanup x td event ep status = Some (ret, st, x') ->
  tds x !! td = Some t -> urbs x !! td_urb t = Some u ->
  let u1 := if transfer_buffer_length u <? actual_length u
            then set_actual_length 0 u else u in
  urbs x' !! td_urb t = Some (set_td_cnt (wrap32 (td_cnt u1 + 1)) u1).
Proof.
  intros H Ht Hu. revert H. unfold td_cleanup. rewrite Ht. bind_some. rewrite Hu. bind_some.
  destruct (get_ep x ep) as [e|] eqn:He;
    [|by destruct (transfer_buffer_length u <? actual_length u)].
  assert (Hx1 : forall x1,
            match xhci_dma_to_transfer_ring e (buffer event) with
            | Some r => set_ep_ring x ep (set_td_list (list_del td (td_list r)) r)
            | None => Some x
            end = Some x1 -> urbs x1 = urbs x /\ tds x1 = tds x).
  { intros x1. destruct (xhci_dma_to_transfer_ring _ _).
    - apply set_ep_ring_frame.
    - by intros [= <-]. }
  pose proof (lookup_lt_Some _ _ _ Hu) as Hlt.
  destruct (transfer_buffer_length u <? actual_length u); bind_some;
    (destruct (match xhci_dma_to_transfer_ring e (buffer event) with
               | Some r => _ | None => _ end) as [x1|]; [|done]);
    destruct (Hx1 x1 eq_refl) as [Hurbs Htds]; bind_some;
    intros [= _ _ <-]; cbn [urbs set_urbs];
    apply list_lookup_insert_eq; by rewrite Hurbs.
Qed.


(** ** Room for fewer TRBs *)

(** The counting loop of [room_on_ring] that succeeds for some number of
    slots succeeds for every smaller number. *)
Lemma room_loop_shorter ev r : forall n m seg enq,
  (m <= n)%nat -> room_loop n ev r seg enq = Some true ->
  room_loop m ev r seg enq = Some true.
Proof.
  induction n as [|n IH]; intros m seg enq Hm H.
  - by assert (m = 0%nat) as -> by lia.
  - destruct m as [|m]; [done|]. revert H. simpl.
    destruct (ptr_eqb enq (dequeue r)); [done|].
    destruct (skip_link_trbs _ _ _ _ _) as [[seg' enq']|]; [|done]. bind_some.
    apply IH. lia.
Qed.

(** A ring with room for [n] TRBs has room for any smaller number: the
    answer of [room_on_ring] can only turn from yes to no as the request
    grows, on an empty ring (the free slots are counted) as on a ring in use
    (the slots are walked up to the dequeue cursor). *)
Theorem room_on_ring_monotone (ev : bool) (r : xhci_ring) (n m : Z) :
  m <= n -> room_on_ring ev r n = Some true -> room_on_ring ev r m = Some true.
Proof.
  intros Hm. unfold room_on_ring.
  destruct (skip_link_trbs _ _ _ _ _) as [[seg enq]|]; [|done]. bind_some.
  destruct (ptr_eqb enq (dequeue r)).
  - destruct (segs r !! seg) as [sg|]; [|done]. bind_some.
    destruct (count_other_segs _ _ _ _ _) as [left|]; [|done]. bind_some.
    intros [= H]. f_equal. apply negb_true_iff in H. apply negb_true_iff.
    apply Z.ltb_ge in H. apply Z.ltb_ge. lia.
  - apply room_loop_shorter. lia.
Qed.


(** ** Completed control TDs *)

(** What [process_ctrl_td] hands to [finish_td] for an event with code
    Success or Short Packet on the last TRB of the TD, the TRB of the status
    stage. *)
Lemma ctrl_td_last_trb x td event_trb event ep status e r t u :
  GET_COMP_CODE (transfer_len event) = COMP_SUCCESS
  \/ GET_COMP_CODE (transfer_len event) = COMP_SHORT_TX ->
  get_ep x ep = Some e -> xhci_dma_to_transfer_ring e (buffer event) = Some r ->
  event_trb <> dequeue r ->
  tds x !! td = Some t -> td_last_trb t = Some event_trb ->
  urbs x !! td_urb t = Some u ->
  process_ctrl_td_body x td event_trb event ep status
  = (_ ← get_dev x (TRB_TO_SLOT_ID (tev_flags event));
     if actual_length u =? 0 then
       finish_td
         (set_urbs (<[td_urb t := set_actual_length (transfer_buffer_length u) u]> (urbs x)) x)
         td event_trb event ep 0 false
     else finish_td x td event_trb event ep (short_status u) false).
Proof.
  intros Hcode He Hr Hne Ht Hlast Hu. unfold process_ctrl_td_body. cbv zeta.
  destruct (get_dev x _) as [xdev|]; [|done]. bind_some. rewrite He. bind_some.
  rewrite Hr. bind_some. rewrite ptr_eqb_neq by done. rewrite Ht. bind_some.
  assert (Hl : is_last_trb t event_trb = true)
    by (unfold is_last_trb; rewrite Hlast; apply ptr_eqb_refl).
  rewrite Hl. cbn [negb]. rewrite Hu. bind_some.
  unfold set_td_actual_length. rewrite Hu. bind_some. unfold short_status.
  destruct Hcode as [-> | ->].
  - change (COMP_SUCCESS =? COMP_SUCCESS) with true. cbv iota.
    rewrite ptr_eqb_neq by done. cbn [negb].
    change ((0 =? - EINPROGRESS) || (0 =? 0)) with true.
    by destruct (actual_length u =? 0).
  - change (COMP_SHORT_TX =? COMP_SUCCESS) with false.
    change (COMP_SHORT_TX =? COMP_SHORT_TX) with true. cbv iota.
    change ((0 =? - EINPROGRESS) || (0 =? 0)) with true.
    by destruct (actual_length u =? 0).
Qed.

(** What [process_ctrl_td] leaves behind when it returns from an event
    with code Success or Short Packet on the last TRB of the TD. *)
Lemma ctrl_td_status_stage_spec (x : xhci_hcd) (td : nat) (event_trb : trb_ptr)
    (event : xhci_transfer_event) (ep : ep_ptr) (status : Z) (e : xhci_virt_ep)
    (r : xhci_ring) (t : xhci_td) (u : urb) (ret st : Z) (x' : xhci_hcd) :
  GET_COMP_CODE (transfer_len event) = COMP_SUCCESS
  \/ GET_COMP_CODE (transfer_len event) = COMP_SHORT_TX ->
  get_ep x ep = Some e -> xhci_dma_to_transfer_ring e (buffer event) = Some r ->
  event_trb <> dequeue r ->
  tds x !! td = Some t -> td_last_trb t = Some event_trb ->
  urbs x !! td_urb t = Some u ->
  0 <= transfer_buffer_length u ->
  process_ctrl_td_body x td event_trb event ep status = Some (ret, st, x') ->
  exists u',
    urbs x' !! td_urb t = Some u'
    /\ transfer_buffer_length u' = transfer_buffer_length u
    /\ actual_length u'
       = (if actual_length u =? 0 then transfer_buffer_length u
          else if transfer_buffer_length u <? actual_length u then 0
          else actual_length u)
    /\ actual_length u' <= transfer_buffer_length u'
    /\ st = (if actual_length u =? 0 then 0 else short_status u).
Proof.
  intros Hcode He Hr Hne Ht Hlast Hu Htbl H.
  rewrite (ctrl_td_last_trb _ _ _ _ _ _ _ _ _ _ Hcode He Hr Hne Ht Hlast Hu) in H.
  destruct (get_dev x _) as [xdev|]; [|done]. revert H. bind_some.
  pose proof (lookup_lt_Some _ _ _ Hu) as Hlt.
  destruct (actual_length u =? 0) eqn:Hz; intros Hf;
    destruct (finish_td_completed _ _ _ _ _ _ _ _ _ Hcode Hf) as (x1 & Hcl & Hu1 & Ht1 & _);
    destruct (td_cleanup_spec _ _ _ _ _ _ _ _ Hcl)
      as (t' & u0 & u' & Ht' & Hu0 & Hu' & Hl & Ha & Hs);
    rewrite Ht1 in Ht'; cbn in Ht'; rewrite Ht in Ht'; injection Ht' as <-;
    rewrite Hu1 in Hu0; cbn in Hu0.
  - rewrite list_lookup_insert_eq in Hu0 by done. injection Hu0 as <-. cbn in *.
    rewrite Z.ltb_irrefl in Ha, Hs. exists u'. rewrite Hl, Ha. by repeat split; try lia.
  - rewrite Hu in Hu0. injection Hu0 as <-. exists u'. rewrite Hl, Ha.
    repeat split; try done.
    + destruct (transfer_buffer_length u <? actual_length u) eqn:Hgt; [lia|].
      by apply Z.ltb_ge in Hgt.
    + rewrite Hs. unfold short_status.
      by destruct (transfer_buffer_length u <? actual_length u).
Qed.




(** * The slots of a well-formed ring

    On a ring whose segments are linked in store order the TRB slots form
    one cycle: [slot_succ] is what the cursor moves of the code come to. *)

Lemma slot_at_S n p k : slot_at n p (S k) = slot_at n (slot_succ n p) k.
Proof. unfold slot_at. by rewrite Nat.iter_succ_r. Qed.

Lemma slot_at_add n p i k : slot_at n p (i + k) = slot_at n (slot_at n p i) k.
Proof.
  revert p. induction i as [|i IH]; intros p; [done|].
  change (S i + k)%nat with (S (i + k)). by rewrite !slot_at_S, IH.
Qed.

Lemma slot_succ_slot n p :
  (2 <= TRBS_PER_SEGMENT)%nat -> trb_slot n p -> trb_slot n (slot_succ n p).
Proof.
  intros HT [Hs Hi]. unfold slot_succ, trb_slot.
  destruct (S (S p.2) =? TRBS_PER_SEGMENT)%nat eqn:E; simpl.
  - split; [apply Nat.mod_upper_bound; lia|lia].
  - apply Nat.eqb_neq in E. split; [done|lia].
Qed.

Lemma slot_at_slot n p k :
  (2 <= TRBS_PER_SEGMENT)%nat -> trb_slot n p -> trb_slot n (slot_at n p k).
Proof.
  intros HT. revert p. induction k as [|k IH]; intros p Hp; [done|].
  rewrite slot_at_S. by apply IH, slot_succ_slot.
Qed.

Lemma slot_index_lt n p :
  trb_slot n p -> (slot_index p < n * (TRBS_PER_SEGMENT - 1))%nat.
Proof. intros [Hs Hi]. unfold slot_index. nia. Qed.

Lemma slot_index_inj n p q :
  trb_slot n p -> trb_slot n q -> slot_index p = slot_index q -> p = q.
Proof.
  intros [_ Hp] [_ Hq] H. unfold slot_index in H.
  destruct p as [s i], q as [s' i']; simpl in *.
  destruct (Nat.div_mod_unique (TRBS_PER_SEGMENT - 1) s s' i i') as [-> ->];
    [lia|lia|lia|done].
Qed.

Lemma slot_index_succ n p :
  (2 <= TRBS_PER_SEGMENT)%nat -> trb_slot n p ->
  slot_index (slot_succ n p) = (S (slot_index p) mod (n * (TRBS_PER_SEGMENT - 1)))%nat.
Proof.
  intros HT [Hs Hi]. unfold slot_succ, slot_index.
  destruct p as [s i]; cbn [fst snd] in *.
  destruct (S (S i) =? TRBS_PER_SEGMENT)%nat eqn:E; cbn [fst snd].
  - apply Nat.eqb_eq in E.
    destruct (decide (S s = n)) as [<-|Hne].
    + rewrite Nat.Div0.mod_same.
      replace (S (s * (TRBS_PER_SEGMENT - 1) + i)) with (S s * (TRBS_PER_SEGMENT - 1))%nat
        by lia.
      by rewrite Nat.Div0.mod_same.
    + rewrite (Nat.mod_small (S s)) by lia.
      rewrite Nat.mod_small by nia. lia.
  - apply Nat.eqb_neq in E. rewrite Nat.mod_small by nia. lia.
Qed.

Lemma slot_index_at n p k :
  (2 <= TRBS_PER_SEGMENT)%nat -> trb_slot n p ->
  slot_index (slot_at n p k) = ((slot_index p + k) mod (n * (TRBS_PER_SEGMENT - 1)))%nat.
Proof.
  intros HT Hp. induction k as [|k IH].
  - rewrite Nat.add_0_r, Nat.mod_small; [done|by apply slot_index_lt].
  - change (slot_at n p (S k)) with (slot_succ n (slot_at n p k)).
    rewrite slot_index_succ by (done || by apply slot_at_slot). rewrite IH.
    change (S ?x) with (1 + x)%nat. rewrite Nat.Div0.add_mod_idemp_r.
    f_equal. lia.
Qed.

(** A slot comes back to itself only after a whole round. *)
Lemma slot_at_neq n p k :
  (2 <= TRBS_PER_SEGMENT)%nat -> trb_slot n p ->
  (0 < k < n * (TRBS_PER_SEGMENT - 1))%nat -> slot_at n p k <> p.
Proof.
  intros HT Hp Hk H. apply (f_equal slot_index) in H.
  rewrite slot_index_at in H by done.
  eapply mod_shift; [|exact Hk|exact H]. by apply slot_index_lt.
Qed.

Lemma slot_at_distinct n p i j :
  (2 <= TRBS_PER_SEGMENT)%nat -> trb_slot n p ->
  (i < j < n * (TRBS_PER_SEGMENT - 1))%nat -> slot_at n p i <> slot_at n p j.
Proof.
  intros HT Hp Hij H.
  replace j with (i + (j - i))%nat in H by lia. rewrite slot_at_add in H.
  symmetry in H. revert H. apply slot_at_neq; [done|by apply slot_at_slot|lia].
Qed.

(** Every slot is met within one round. *)
Lemma slot_reach n p q :
  (2 <= TRBS_PER_SEGMENT)%nat -> trb_slot n p -> trb_slot n q ->
  exists k, (k < n * (TRBS_PER_SEGMENT - 1))%nat /\ slot_at n p k = q.
Proof.
  intros HT Hp Hq.
  pose proof (slot_index_lt n p Hp) as Hip. pose proof (slot_index_lt n q Hq) as Hiq.
  set (N := (n * (TRBS_PER_SEGMENT - 1))%nat) in *.
  exists ((slot_index q + N - slot_index p) mod N)%nat.
  split; [apply Nat.mod_upper_bound; lia|].
  apply (slot_index_inj n); [by apply slot_at_slot|done|].
  rewrite slot_index_at by done. fold N. rewrite Nat.Div0.add_mod_idemp_r.
  replace (slot_index p + (slot_index q + N - slot_index p))%nat
    with (slot_index q + 1 * N)%nat by lia.
  rewrite Nat.Div0.mod_add. by apply Nat.mod_small.
Qed.

Lemma skip_link_trbs_S fuel ev r seg enq :
  skip_link_trbs (S fuel) ev r seg enq
  = (b ← last_trb ev r seg enq;
     if b : bool then sg ← segs r !! seg; skip_link_trbs fuel ev r (next sg) (next sg, 0%nat)
     else Some (seg, enq)).
Proof. reflexivity. Qed.

(** What a segment of a well-formed ring linked in store order holds at a
    slot, behind it, and where it leads. *)
Lemma slot_read r p :
  mem_ok r -> ring_linked r -> trb_slot (length (segs r)) p ->
  exists sg t t1,
    segs r !! p.1 = Some sg /\ next sg = (S p.1 mod length (segs r))%nat
    /\ read_trb r p = Some t /\ is_link_trb t = false
    /\ read_trb r (ptr_succ p) = Some t1
    /\ is_link_trb t1 = bool_decide (S (S p.2) = TRBS_PER_SEGMENT).
Proof.
  intros Hmem Hlink [Hs Hi]. destruct p as [s i]; simpl in *.
  destruct (mem_ok_read r s i Hmem Hs ltac:(lia)) as (sg & t & Hsg & _ & Hrd & Hl).
  destruct (mem_ok_read r s (S i) Hmem Hs ltac:(lia)) as (sg' & t1 & Hsg' & _ & Hrd1 & Hl1).
  exists sg, t, t1. rewrite bool_decide_eq_false_2 in Hl by lia.
  repeat split; try done. by apply Hlink.
Qed.

Lemma slot_succ_link n p :
  S (S p.2) = TRBS_PER_SEGMENT -> slot_succ n p = (S p.1 mod n, 0)%nat.
Proof. intros E. unfold slot_succ. apply Nat.eqb_eq in E. by rewrite E. Qed.

Lemma slot_succ_plain n p :
  S (S p.2) <> TRBS_PER_SEGMENT -> slot_succ n p = ptr_succ p.
Proof. intros E. unfold slot_succ. apply Nat.eqb_neq in E. by rewrite E. Qed.

(** The cursor of [room_on_ring] moves from slot to slot. *)
Lemma ring_advance_slot r p :
  mem_ok r -> ring_linked r -> trb_slot (length (segs r)) p ->
  ring_advance false r (p.1, p)
  = Some ((slot_succ (length (segs r)) p).1, slot_succ (length (segs r)) p).
Proof.
  intros Hmem Hlink Hp.
  destruct (slot_read r p Hmem Hlink Hp) as (sg & t & t1 & Hsg & Hnx & _ & _ & Hrd1 & Hl1).
  assert (HT : (2 <= TRBS_PER_SEGMENT)%nat) by (by destruct Hmem).
  unfold ring_advance, ring_fuel. cbn [fst snd].
  rewrite skip_link_trbs_S. cbn [last_trb]. rewrite Hrd1. cbn. rewrite Hl1.
  destruct (decide (S (S p.2) = TRBS_PER_SEGMENT)) as [E|E].
  - rewrite bool_decide_eq_true_2 by done. rewrite Hsg. cbn. rewrite Hnx.
    rewrite slot_succ_link by done.
    assert (Hs' : (S p.1 mod length (segs r) < length (segs r))%nat)
      by (apply Nat.mod_upper_bound; destruct Hp; lia).
    destruct (mem_ok_read r _ 0%nat Hmem Hs' ltac:(lia)) as (sg0 & t0 & _ & _ & Hrd0 & Hl0).
    rewrite bool_decide_eq_false_2 in Hl0 by lia.
    rewrite skip_link_trbs_S. cbn [last_trb]. rewrite Hrd0. cbn. by rewrite Hl0.
  - rewrite bool_decide_eq_false_2 by done. by rewrite slot_succ_plain.
Qed.

Lemma nth_slot_at r : forall k p,
  mem_ok r -> ring_linked r -> trb_slot (length (segs r)) p ->
  nth_slot k false r (p.1, p)
  = Some ((slot_at (length (segs r)) p k).1, slot_at (length (segs r)) p k).
Proof.
  induction k as [|k IH]; intros p Hmem Hlink Hp; [done|].
  cbn [nth_slot]. rewrite ring_advance_slot by done. bind_some.
  rewrite slot_at_S. apply IH; try done. apply slot_succ_slot; [by destruct Hmem|done].
Qed.


(** ** The dequeue walk of [finish_td] comes to an end *)

Lemma ring_linked_segs r r' : segs r' = segs r -> ring_linked r -> ring_linked r'.
Proof. intros Hs H i sg. rewrite Hs. apply H. Qed.

(** One [inc_deq] of the driver on a transfer ring moves the dequeue cursor
    to the next slot. *)
Lemma inc_deq_slot r :
  mem_ok r -> ring_linked r -> deq_ok r ->
  exists r',
    inc_deq false r false = Some r'
    /\ dequeue r' = slot_succ (length (segs r)) (dequeue r)
    /\ segs r' = segs r /\ cycle_state r' = cycle_state r /\ deq_ok r'.
Proof.
  intros Hmem Hlink [Hds Hp].
  assert (HT : (2 <= TRBS_PER_SEGMENT)%nat) by (by destruct Hmem).
  destruct (slot_read r _ Hmem Hlink Hp) as (sg & t & t1 & Hsg & Hnx & _ & _ & Hrd1 & Hl1).
  rewrite Hds in Hsg.
  destruct (decide (S (S (dequeue r).2) = TRBS_PER_SEGMENT)) as [E|E].
  - rewrite bool_decide_eq_true_2 in Hl1 by done.
    assert (Hs' : (next sg < length (segs r))%nat)
      by (rewrite Hnx; apply Nat.mod_upper_bound; destruct Hp; lia).
    destruct (mem_ok_read r _ 0%nat Hmem Hs' ltac:(lia)) as (sg0 & t0 & _ & _ & Hrd0 & Hl0).
    rewrite bool_decide_eq_false_2 in Hl0 by lia.
    rewrite (inc_deq_link r false t1 sg t0) by done.
    eexists. split; [reflexivity|]. cbn.
    rewrite slot_succ_link, <- Hnx by done.
    repeat split; try done; cbn; lia.
  - rewrite bool_decide_eq_false_2 in Hl1 by done.
    rewrite (inc_deq_plain r false t1) by done.
    eexists. split; [reflexivity|]. cbn.
    rewrite slot_succ_plain by done.
    repeat split; try done; destruct Hp; unfold ptr_succ; cbn; lia.
Qed.

(** The [while] loop of [finish_td] reaches the last TRB of the TD when
    that is a slot of the ring. *)
Lemma deq_to_last_trb_total last : forall k fuel r,
  (k < fuel)%nat -> mem_ok r -> ring_linked r -> deq_ok r ->
  slot_at (length (segs r)) (dequeue r) k = last ->
  exists r1,
    deq_to_last_trb fuel r (Some last) = Some r1
    /\ mem_ok r1 /\ ring_linked r1 /\ deq_ok r1.
Proof.
  induction k as [|k IH]; intros fuel r Hf Hmem Hlink Hdeq Hk;
    (destruct fuel as [|fuel]; [lia|]); cbn [deq_to_last_trb].
  - cbn in Hk. rewrite Hk, ptr_eqb_refl. by exists r.
  - destruct (ptr_eqb (dequeue r) last); [by exists r|].
    destruct (inc_deq_slot r Hmem Hlink Hdeq) as (r' & Hinc & Hd & Hs & Hc & Hdeq').
    rewrite Hinc. bind_some.
    apply IH; try done; [lia| |by apply (ring_linked_segs r)|].
    + apply (mem_ok_cursor_indep r); [done|done|]. rewrite Hc. by destruct Hmem as (_ & _ & ?).
    + by rewrite Hs, Hd, <- slot_at_S.
Qed.

(** [finish_td] returns from a TD that completed, in full or short, on a
    well-formed ring: the dequeue walk ends at the last TRB of the TD. *)
Lemma finish_td_returns x td event_trb event ep status xdev ep_info e r t u last :
  GET_COMP_CODE (transfer_len event) = COMP_SUCCESS
  \/ GET_COMP_CODE (transfer_len event) = COMP_SHORT_TX ->
  get_dev x (TRB_TO_SLOT_ID (tev_flags event)) = Some xdev ->
  at_index (out_ctx xdev) (TRB_TO_EP_ID (tev_flags event) - 1) = Some ep_info ->
  get_ep x ep = Some e -> vep_ring e = Some r ->
  tds x !! td = Some t -> urbs x !! td_urb t = Some u -> td_last_trb t = Some last ->
  mem_ok r -> ring_linked r -> deq_ok r -> trb_slot (length (segs r)) last ->
  is_Some (finish_td x td event_trb event ep status false).
Proof.
  intros Hcode Hdev Hinfo He Hr Ht Hu Hlast Hmem Hlink Hdeq Hslot.
  assert (HT : (2 <= TRBS_PER_SEGMENT)%nat) by (by destruct Hmem).
  unfold finish_td. cbv zeta.
  set (comp := GET_COMP_CODE (transfer_len event)) in *.
  rewrite Hdev. bind_some. rewrite He. bind_some.
  assert (Hc : (comp =? COMP_STOP_INVAL) || (comp =? COMP_STOP) = false
               /\ (comp =? COMP_STALL) = false
               /\ forall i, xhci_requires_manual_halt_cleanup i comp = false)
    by (destruct Hcode as [-> | ->]; done).
  destruct Hc as (-> & -> & Hm).
  rewrite Hinfo. bind_some. rewrite Hm.
  unfold xhci_dma_to_transfer_ring at 1. rewrite Hr. bind_some. rewrite Ht. bind_some.
  rewrite Hlast.
  destruct Hdeq as [Hds Hp].
  destruct (slot_reach _ _ _ HT Hp Hslot) as (k & Hk & Hat).
  destruct (deq_to_last_trb_total last k (S (length (segs r) * S TRBS_PER_SEGMENT)) r)
    as (r1 & Hwalk & Hmem1 & Hlink1 & Hdeq1); try done; [nia|].
  rewrite Hwalk. bind_some.
  destruct (inc_deq_slot r1 Hmem1 Hlink1 Hdeq1) as (r2 & Hinc & _).
  rewrite Hinc. bind_some.
  destruct (set_ep_ring_total x ep r2 e He) as [x1 Hs]. rewrite Hs. bind_some.
  destruct (set_ep_ring_frame _ _ _ _ Hs) as [Hu1 Ht1].
  unfold set_ep_ring in Hs. rewrite He in Hs. revert Hs. bind_some. intros Hs.
  apply get_ep_set_ep in Hs.
  eapply td_cleanup_total; [by rewrite Ht1|by rewrite Hu1|exact Hs].
Qed.

(** A bulk or interrupt TD whose last TRB completed, in full or short, on
    a well-formed endpoint ring: [process_bulk_intr_td] returns, and it
    reports the bytes that were moved.  The URB's [actual_length] becomes
    the transfer length less the residue of the event, or 0 when the
    controller reports a residue beyond the transfer length, so it never
    exceeds [transfer_buffer_length].  [*status] is 0 when nothing is
    left; when bytes are left it is 0 for a completion code Success with a
    credible residue and otherwise follows [URB_SHORT_NOT_OK]. *)
Theorem bulk_td_completed (x : xhci_hcd) (td : nat) (event_trb : trb_ptr)
    (event : xhci_transfer_event) (ep : ep_ptr) (status : Z) (xdev : xhci_virt_device)
    (ep_info : Z) (e : xhci_virt_ep) (r : xhci_ring) (t : xhci_td) (u : urb) :
  tds x !! td = Some t -> urbs x !! td_urb t = Some u ->
  td_last_trb t = Some event_trb ->
  GET_COMP_CODE (transfer_len event) = COMP_SUCCESS
  \/ GET_COMP_CODE (transfer_len event) = COMP_SHORT_TX ->
  0 <= transfer_buffer_length u < 2 ^ 32 ->
  get_dev x (TRB_TO_SLOT_ID (tev_flags event)) = Some xdev ->
  at_index (out_ctx xdev) (TRB_TO_EP_ID (tev_flags event) - 1) = Some ep_info ->
  get_ep x ep = Some e -> vep_ring e = Some r ->
  mem_ok r -> ring_linked r -> deq_ok r -> trb_slot (length (segs r)) event_trb ->
  let residue := TRB_LEN (transfer_len event) in
  exists ret st x' u',
    process_bulk_intr_td_body x td event_trb event ep status = Some (ret, st, x')
    /\ urbs x' !! td_urb t = Some u'
    /\ transfer_buffer_length u' = transfer_buffer_length u
    /\ actual_length u'
       = (if residue <=? transfer_buffer_length u
          then transfer_buffer_length u - residue else 0)
    /\ 0 <= actual_length u' <= transfer_buffer_length u'
    /\ st = (if residue =? 0 then 0
             else if (GET_COMP_CODE (transfer_len event) =? COMP_SUCCESS)
                     && (residue <=? transfer_buffer_length u)
             then 0 else short_status u).
Proof.
  intros Ht Hu Hlast Hcode Htbl Hdev Hinfo He Hr Hmem Hlink Hdeq Hslot residue.
  pose proof (lookup_lt_Some _ _ _ Hu) as Hlt.
  destruct (process_bulk_intr_td_body x td event_trb event ep status)
    as [[[ret st] x']|] eqn:Hrun.
  - destruct (bulk_td_completed_spec x td event_trb event ep status t u ret st x'
                Ht Hu Hlast Hcode Htbl Hrun) as (u' & Hspec).
    by exists ret, st, x', u'.
  - exfalso.
    rewrite (bulk_td_fast_path _ _ _ _ _ _ _ _ Ht Hu Hlast Hcode Htbl) in Hrun.
    rewrite He in Hrun. revert Hrun. bind_some.
    match goal with
    | |- finish_td ?x1 _ _ _ _ ?s1 _ = None -> _ =>
        destruct (finish_td_returns x1 td event_trb event ep s1 xdev ep_info e r t
                    (set_actual_length
                       (if TRB_LEN (transfer_len event) <=? transfer_buffer_length u
                        then transfer_buffer_length u - TRB_LEN (transfer_len event)
                        else 0) u)
                    event_trb) as [res Hres]; try done
    end.
    + cbn. by apply list_lookup_insert_eq.
    + intros Hn. unfold residue in *. congruence.
Qed.

(** When a TD completes, in full or short, on a well-formed endpoint ring
    whose dequeue cursor and whose last TRB of the TD are TRB slots,
    [finish_td] returns and leaves the endpoint ring with its dequeue
    cursor one [inc_deq] past the last TRB of the TD, on the slot after it,
    and with the TD off its TD list; it writes no TRB of the ring and does
    not move the enqueue cursor or the cycle state. *)
Theorem finish_td_advances (x : xhci_hcd) (td : nat) (event_trb : trb_ptr)
    (event : xhci_transfer_event) (ep : ep_ptr) (status : Z) (xdev : xhci_virt_device)
    (ep_info : Z) (e : xhci_virt_ep) (r : xhci_ring) (t : xhci_td) (u : urb)
    (last : trb_ptr) :
  GET_COMP_CODE (transfer_len event) = COMP_SUCCESS
  \/ GET_COMP_CODE (transfer_len event) = COMP_SHORT_TX ->
  get_dev x (TRB_TO_SLOT_ID (tev_flags event)) = Some xdev ->
  at_index (out_ctx xdev) (TRB_TO_EP_ID (tev_flags event) - 1) = Some ep_info ->
  get_ep x ep = Some e -> vep_ring e = Some r ->
  tds x !! td = Some t -> urbs x !! td_urb t = Some u -> td_last_trb t = Some last ->
  mem_ok r -> ring_linked r -> deq_ok r -> trb_slot (length (segs r)) last ->
  exists ret st x' e' r' r1 r2,
    finish_td x td event_trb event ep status false = Some (ret, st, x')
    /\ get_ep x' ep = Some e' /\ vep_ring e' = Some r'
    /\ segs r' = segs r /\ enqueue r' = enqueue r /\ cycle_state r' = cycle_state r
    /\ td_list r' = list_del td (td_list r)
    /\ dequeue r1 = last /\ segs r1 = segs r
    /\ inc_deq false r1 false = Some r2
    /\ dequeue r' = dequeue r2 /\ deq_seg r' = deq_seg r2
    /\ dequeue r' = slot_succ (length (segs r)) last.
Proof.
  intros Hcode Hdev Hinfo He Hr Ht Hu Hlast Hmem Hlink Hdeq Hslot.
  destruct (finish_td_returns x td event_trb event ep status xdev ep_info e r t u last)
    as [[[ret st] x'] Hrun]; try done.
  destruct (finish_td_advances_spec x td event_trb event ep status e r t last ret st x'
              Hcode He Hr Ht Hlast Hrun)
    as (e' & r' & r1 & r2 & G1 & G2 & G3 & G4 & G5 & G6 & G7 & G8 & G9 & G10 & G11 & G12).
  exists ret, st, x', e', r', r1, r2. repeat (split; [done|]).
  assert (HT : (2 <= TRBS_PER_SEGMENT)%nat) by (by destruct Hmem).
  destruct Hdeq as [Hds Hp].
  destruct (slot_reach _ _ _ HT Hp Hslot) as (k & Hk & Hat).
  destruct (deq_to_last_trb_total last k (S (length (segs r) * S TRBS_PER_SEGMENT)) r)
    as (r1' & Hwalk & Hmem1 & Hlink1 & Hdeq1); try done; [nia|].
  rewrite Hwalk in G12. injection G12 as ->.
  destruct (inc_deq_slot r1 Hmem1 Hlink1 Hdeq1) as (r2' & Hinc & Hd2 & _).
  rewrite Hinc in G9. injection G9 as ->.
  by rewrite G10, Hd2, G8, G7.
Qed.


(** ** A completed bulk transfer, from the event to the URB *)



(** ** The status stage of a control transfer *)

(** The return value of [td_cleanup] and the TD count it leaves in the URB:
    1 when the TD was the last of its URB. *)
Lemma td_cleanup_ret x td event ep status ret st x' t u :
  td_cleanup x td event ep status = Some (ret, st, x') ->
  tds x !! td = Some t -> urbs x !! td_urb t = Some u ->
  ret = (if wrap32 (td_cnt u + 1) =? priv_length u then 1 else 0)
  /\ exists u', urbs x' !! td_urb t = Some u' /\ td_cnt u' = wrap32 (td_cnt u + 1).
Proof.
  intros H Ht Hu.
  pose proof (td_cleanup_urb _ _ _ _ _ _ _ _ _ _ H Ht Hu) as Hu'. cbv zeta in Hu'.
  split.
  - revert H. unfold td_cleanup. rewrite Ht. bind_some. rewrite Hu. bind_some.
    destruct (get_ep x ep) as [e|];
      [|by destruct (transfer_buffer_length u <? actual_length u)].
    destruct (transfer_buffer_length u <? actual_length u); bind_some;
      (destruct (match xhci_dma_to_transfer_ring e (buffer event) with
                 | Some r => _ | None => _ end) as [x1|]; [|done]);
      bind_some; by intros [= <- _ _].
  - eexists. split; [exact Hu'|].
    by destruct (transfer_buffer_length u <? actual_length u).
Qed.

(** The status stage of a control transfer: for an event with code Success
    or Short Packet on the last TRB of the TD, on a well-formed endpoint
    ring, [process_ctrl_td] returns and has finished the TD.  The URB
    counts one more TD done, and the return value is 1, which tells the
    caller to give the URB back, exactly when that makes all of its TDs.
    The URB reports the length that was recorded for it before, or the full
    transfer length when none was recorded; a recorded length beyond the
    transfer length is reported as 0, so the reported length never exceeds
    [transfer_buffer_length].  [*status] is 0 when no length was recorded
    and follows [URB_SHORT_NOT_OK] otherwise, also for a recorded length
    that is the full one. *)
Theorem ctrl_td_status_stage (x : xhci_hcd) (td : nat) (event_trb : trb_ptr)
    (event : xhci_transfer_event) (ep : ep_ptr) (status : Z) (xdev : xhci_virt_device)
    (ep_info : Z) (e : xhci_virt_ep) (r : xhci_ring) (t : xhci_td) (u : urb) :
  GET_COMP_CODE (transfer_len event) = COMP_SUCCESS
  \/ GET_COMP_CODE (transfer_len event) = COMP_SHORT_TX ->
  get_dev x (TRB_TO_SLOT_ID (tev_flags event)) = Some xdev ->
  at_index (out_ctx xdev) (TRB_TO_EP_ID (tev_flags event) - 1) = Some ep_info ->
  get_ep x ep = Some e -> xhci_dma_to_transfer_ring e (buffer event) = Some r ->
  event_trb <> dequeue r ->
  tds x !! td = Some t -> td_last_trb t = Some event_trb ->
  urbs x !! td_urb t = Some u ->
  0 <= transfer_buffer_length u ->
  mem_ok r -> ring_linked r -> deq_ok r -> trb_slot (length (segs r)) event_trb ->
  exists ret st x' u',
    process_ctrl_td_body x td event_trb event ep status = Some (ret, st, x')
    /\ ret = (if wrap32 (td_cnt u + 1) =? priv_length u then 1 else 0)
    /\ urbs x' !! td_urb t = Some u'
    /\ td_cnt u' = wrap32 (td_cnt u + 1)
    /\ transfer_buffer_length u' = transfer_buffer_length u
    /\ actual_length u'
       = (if actual_length u =? 0 then transfer_buffer_length u
          else if transfer_buffer_length u <? actual_length u then 0
          else actual_length u)
    /\ actual_length u' <= transfer_buffer_length u'
    /\ st = (if actual_length u =? 0 then 0 else short_status u).
Proof.
  intros Hcode Hdev Hinfo He Hr Hne Ht Hlast Hu Htbl Hmem Hlink Hdeq Hslot.
  pose proof (lookup_lt_Some _ _ _ Hu) as Hlt.
  assert (Hrun : is_Some (process_ctrl_td_body x td event_trb event ep status)).
  { rewrite (ctrl_td_last_trb _ _ _ _ _ _ _ _ _ _ Hcode He Hr Hne Ht Hlast Hu).
    rewrite Hdev. bind_some.
    destruct (actual_length u =? 0).
    - eapply (finish_td_returns _ td event_trb event ep 0 xdev ep_info e r t
                (set_actual_length (transfer_buffer_length u) u) event_trb); try done.
      cbn. by apply list_lookup_insert_eq.
    - by eapply (finish_td_returns x td event_trb event ep _ xdev ep_info e r t u
                   event_trb). }
  destruct Hrun as [[[ret st] x'] Hrun].
  destruct (ctrl_td_status_stage_spec x td event_trb event ep status e r t u ret st x'
              Hcode He Hr Hne Ht Hlast Hu Htbl Hrun) as (u' & Hu' & G1 & G2 & G3 & G4).
  exists ret, st, x', u'. split; [done|].
  assert (Hcnt : ret = (if wrap32 (td_cnt u + 1) =? priv_length u then 1 else 0)
                 /\ exists u2, urbs x' !! td_urb t = Some u2
                               /\ td_cnt u2 = wrap32 (td_cnt u + 1)).
  { rewrite (ctrl_td_last_trb _ _ _ _ _ _ _ _ _ _ Hcode He Hr Hne Ht Hlast Hu) in Hrun.
    rewrite Hdev in Hrun. revert Hrun. bind_some.
    destruct (actual_length u =? 0); intros Hf;
      destruct (finish_td_completed _ _ _ _ _ _ _ _ _ Hcode Hf)
        as (x1 & Hcl & Hu1 & Ht1 & _).
    - eapply (td_cleanup_ret x1 td event ep _ ret st x' t
                (set_actual_length (transfer_buffer_length u) u) Hcl);
        [by rewrite Ht1|].
      rewrite Hu1. cbn. by apply list_lookup_insert_eq.
    - eapply (td_cleanup_ret x1 td event ep _ ret st x' t u Hcl);
        [by rewrite Ht1|by rewrite Hu1]. }
  destruct Hcnt as (Hret & u2 & Hu2 & Hc2).
  rewrite Hu' in Hu2. injection Hu2 as <-. by repeat split.
Qed.


(** * The TRBs of a TD in the ring

    The builders write a TD slot by slot from the enqueue cursor on; with
    room on the ring no slot is written twice, so that the walk from the
    first TRB of the TD to its last finds the TRBs as they were queued, the
    first one with the cycle bit [giveback_first_trb] gave it. *)

Lemma write_trb_linked r p t r' :
  write_trb r p t = Some r' -> ring_linked r -> ring_linked r'.
Proof.
  intros Hw Hl i sg' Hi.
  pose proof (write_trb_next _ _ _ _ i Hw) as Hn. rewrite Hi in Hn. cbn in Hn.
  destruct (segs r !! i) as [sg|] eqn:Hs; [|done]. cbn in Hn. injection Hn as Hn.
  destruct (write_trb_fields _ _ _ _ Hw) as [_ ->]. rewrite Hn. by apply Hl.
Qed.

Lemma giveback_control_land c cyc m :
  cyc = 0 \/ cyc = 1 -> Z.land 1 m = 0 ->
  Z.land (giveback_control c cyc) m = Z.land c m.
Proof.
  intros [-> | ->] Hm; unfold giveback_control; cbn [Z.eqb negb].
  - by apply land_clear_mask.
  - by apply land_lor_mask.
Qed.

Lemma is_link_given_back t cyc :
  cyc = 0 \/ cyc = 1 ->
  is_link_trb (set_control t (giveback_control (field3 t) cyc)) = is_link_trb t.
Proof.
  intros Hc. unfold is_link_trb. cbn [field3 set_control].
  by rewrite giveback_control_land.
Qed.

(** A slot of a well-formed ring holds no link TRB. *)
Lemma in_slots_no_link r p l j t :
  mem_ok r -> ring_linked r -> trb_slot (length (segs r)) p -> in_slots r p l ->
  l !! j = Some t -> is_link_trb t = false.
Proof.
  intros Hmem Hlink Hp Hin Hj.
  assert (HT : (2 <= TRBS_PER_SEGMENT)%nat) by (by destruct Hmem).
  destruct (slot_read r (slot_at (length (segs r)) p j) Hmem Hlink)
    as (_ & t' & _ & _ & _ & Hrd & Hl & _); [by apply slot_at_slot|].
  rewrite (Hin j t Hj) in Hrd. by injection Hrd as ->.
Qed.

(** [queue_trb] of a TRB that is no link TRB, on a well-formed ring linked
    in store order whose enqueue cursor is on a slot: the TRB is in the
    slot, no other slot has changed, and the enqueue cursor is on the next
    slot unless the TD ends here. *)
Lemma queue_trb_slot r more f1 f2 f3 f4 :
  ring_ok r -> ring_linked r -> enq_ready r ->
  is_link_trb (mk_trb f1 f2 f3 f4) = false ->
  exists r',
    queue_trb false r false more f1 f2 f3 f4 = Some r'
    /\ ring_ok r' /\ ring_linked r' /\ length (segs r') = length (segs r)
    /\ read_trb r' (enqueue r) = Some (mk_trb f1 f2 f3 f4)
    /\ (forall q t, q <> enqueue r -> read_trb r q = Some t -> is_link_trb t = false ->
          read_trb r' q = Some t)
    /\ ((Z.land f4 TRB_CHAIN =? 0) && negb more = false ->
        enqueue r' = slot_succ (length (segs r)) (enqueue r) /\ enq_ready r').
Proof.
  intros (Hmem & He1 & Hes & He2) Hlink Hready Hnl. unfold enq_ready in Hready.
  destruct (enqueue r) as [s i] eqn:Henq. cbn [fst snd] in *. subst s.
  destruct (mem_ok_read r (enq_seg r) i Hmem Hes He2) as (sg & t0 & Hsg & Hnx & Hrd & _).
  destruct (write_trb_is_Some r (enq_seg r, i) t0 (mk_trb f1 f2 f3 f4) Hrd) as [r1 Hw].
  assert (Hmem1 : mem_ok r1).
  { eapply write_trb_mem_ok; [done|exact Hw|]. cbn [snd].
    rewrite Hnl. symmetry. apply bool_decide_eq_false_2. lia. }
  pose proof (write_trb_linked _ _ _ _ Hw Hlink) as Hlink1.
  destruct (write_trb_cursors _ _ _ _ Hw) as (Heq & Hesq & _).
  destruct (write_trb_fields _ _ _ _ Hw) as [_ Hlen].
  pose proof (read_write_same _ _ _ _ Hw) as Hrd1.
  assert (Hother1 : forall q, q <> (enq_seg r, i) -> read_trb r1 q = read_trb r q)
    by (intros q Hq; apply (read_write_other _ _ _ _ _ Hw); congruence).
  unfold queue_trb. rewrite Henq, Hw. bind_some.
  assert (Hes1 : (enq_seg r1 < length (segs r1))%nat) by (rewrite Hesq, Hlen; done).
  destruct (mem_ok_read r1 (enq_seg r1) (S i) Hmem1 Hes1 ltac:(lia))
    as (sg1 & t1 & Hsg1 & Hnx1 & Hrd2 & Hl2).
  rewrite Henq, Hesq in *.
  destruct (decide (S (S i) = TRBS_PER_SEGMENT)) as [E|E].
  - rewrite bool_decide_eq_true_2 in Hl2 by done.
    destruct ((Z.land f4 TRB_CHAIN =? 0) && negb more) eqn:Hch.
    + apply andb_prop in Hch as [Hc Hm]. apply Z.eqb_eq in Hc.
      destruct more; [done|].
      eexists. split.
      { eapply inc_enq_defer; rewrite ?Heq; [exact Hrd1|exact Hc|exact Hrd2|exact Hl2]. }
      rewrite Heq, Hesq.
      split; [split; [by apply mem_ok_enq_moved|cbn; repeat split; try done; lia]|].
      split; [by apply (ring_linked_segs r1)|]. split; [done|].
      split; [done|]. split; [|done].
      intros q t Hq Hrq _. change (read_trb r1 q = Some t). by rewrite Hother1.
    + destruct (mem_ok_read r1 (next sg1) 0%nat Hmem1 Hnx1 ltac:(lia))
        as (sg2 & t2 & Hsg2 & Hnx2 & Hrd3 & Hl3).
      rewrite bool_decide_eq_false_2 in Hl3 by lia.
      destruct (inc_enq_link r1 more (mk_trb f1 f2 f3 f4) t1 sg1 t2) as (r2 & Hw2 & Hi);
        rewrite ?Heq, ?Hesq; try done.
      rewrite Heq in Hw2.
      eexists. split; [exact Hi|].
      assert (Hmem2 : mem_ok r2).
      { eapply write_trb_mem_ok; [exact Hmem1|exact Hw2|].
        rewrite is_link_enq_link_control, Hl2. symmetry. by apply bool_decide_eq_true_2. }
      pose proof (write_trb_linked _ _ _ _ Hw2 Hlink1) as Hlink2.
      destruct (write_trb_fields _ _ _ _ Hw2) as [_ Hlen2].
      assert (Hnext : next sg1 = (S (enq_seg r) mod length (segs r))%nat)
        by (rewrite <- Hlen; by apply Hlink1).
      assert (Hread : forall q, q <> ptr_succ (enq_seg r, i) ->
                read_trb r2 q = read_trb r1 q)
        by (intros q Hq; apply (read_write_other _ _ _ _ _ Hw2); congruence).
      assert (Hgoal : forall r3,
                segs r3 = segs r2 -> enqueue r3 = (next sg1, 0%nat) ->
                enq_seg r3 = next sg1 -> mem_ok r3 ->
                ring_ok r3 /\ ring_linked r3 /\ length (segs r3) = length (segs r)
                /\ read_trb r3 (enq_seg r, i) = Some (mk_trb f1 f2 f3 f4)
                /\ (forall q t, q <> (enq_seg r, i) -> read_trb r q = Some t ->
                      is_link_trb t = false -> read_trb r3 q = Some t)
                /\ (false = false ->
                    enqueue r3 = slot_succ (length (segs r)) (enq_seg r, i)
                    /\ enq_ready r3)).
      { intros r3 Hs3 He3 Hes3 Hmem3.
        assert (Hrd3' : forall q, read_trb r3 q = read_trb r2 q)
          by (intros q; unfold read_trb; by rewrite Hs3).
        split.
        { split; [done|]. rewrite He3, Hes3, Hs3, Hlen2. cbn. repeat split; try done; lia. }
        split; [by apply (ring_linked_segs r2)|].
        split; [by rewrite Hs3, Hlen2|].
        split.
        { rewrite Hrd3', Hread; [done|]. unfold ptr_succ. cbn. intros [=]. lia. }
        split.
        { intros q t Hq Hrq Hlq. rewrite Hrd3', Hread, Hother1; try done.
          intros ->. rewrite <- Hother1 in Hrq by done.
          change (ptr_succ (enq_seg r, i)) with (enq_seg r, S i) in Hrq.
          rewrite Hrd2 in Hrq.
          injection Hrq as <-. congruence. }
        intros _. rewrite He3. split; [|unfold enq_ready; rewrite He3; cbn; lia].
        by rewrite slot_succ_link, Hnext. }
      destruct (tst (field3 t1) LINK_TOGGLE); apply Hgoal; try done;
        try apply mem_ok_toggle; by apply mem_ok_enq_moved.
  - rewrite bool_decide_eq_false_2 in Hl2 by done.
    eexists. split.
    { eapply inc_enq_plain; rewrite ?Heq; [exact Hrd1|exact Hrd2|exact Hl2]. }
    rewrite Heq, Hesq.
    split; [split; [by apply mem_ok_enq_moved|cbn; repeat split; try done; lia]|].
    split; [by apply (ring_linked_segs r1)|]. split; [done|].
    split; [done|]. split.
    + intros q t Hq Hrq _. change (read_trb r1 q = Some t). by rewrite Hother1.
    + intros _. cbn. rewrite slot_succ_plain by done.
      split; [done|]. unfold enq_ready, ptr_succ. cbn. lia.
Qed.


(** [prepare_ring] with room on a well-formed ring linked in store order
    leaves such a ring, with the enqueue cursor on a slot of its segment. *)
Lemma prepare_ring_slots r ep_state n :
  ring_ok r -> ring_linked r -> ep_state_ok ep_state ->
  room_on_ring false r n = Some true ->
  exists r',
    prepare_ring false r ep_state n = Some (0, r') /\ ring_ok r' /\ enq_ready r'
    /\ td_list r' = td_list r /\ ring_linked r' /\ length (segs r') = length (segs r).
Proof.
  intros (Hmem & He1 & Hes & He2) Hlink Hst Hroom.
  destruct (enqueue r) as [s i] eqn:Henq. cbn [fst snd] in *. subst s.
  destruct (mem_ok_read r (enq_seg r) i Hmem Hes He2) as (sg & t & Hsg & Hnx & Hrd & Hl).
  destruct (decide (S i = TRBS_PER_SEGMENT)) as [E|E].
  - rewrite bool_decide_eq_true_2 in Hl by done.
    assert (Htps : (2 <= TRBS_PER_SEGMENT)%nat) by (by destruct Hmem).
    destruct (mem_ok_read r (next sg) 0%nat Hmem Hnx ltac:(lia))
      as (sg2 & t2 & Hsg2 & Hnx2 & Hrd2 & Hl2).
    rewrite bool_decide_eq_false_2 in Hl2 by lia.
    destruct (prepare_ring_on_link r ep_state n t sg t2) as (r1 & Hw & Hp);
      rewrite ?Henq; try done.
    rewrite Henq in Hw.
    assert (Hmem1 : mem_ok r1).
    { eapply write_trb_mem_ok; [exact Hmem|exact Hw|].
      rewrite is_link_prep_link_control, Hl. symmetry. by apply bool_decide_eq_true_2. }
    pose proof (write_trb_linked _ _ _ _ Hw Hlink) as Hlink1.
    destruct (write_trb_fields _ _ _ _ Hw) as [_ Hlen].
    destruct (write_trb_cursors _ _ _ _ Hw) as (_ & _ & _ & _ & _ & _ & Htd).
    eexists. split; [exact Hp|].
    destruct (tst (field3 t) LINK_TOGGLE); cbn.
    + split; [|split; [unfold enq_ready; cbn; lia|]].
      { split; [by apply mem_ok_set_enqueue, mem_ok_toggle|].
        cbn. repeat split; try done; try lia; by rewrite Hlen. }
      split; [done|]. split; [by apply (ring_linked_segs r1)|done].
    + split; [|split; [unfold enq_ready; cbn; lia|]].
      { split; [by apply mem_ok_set_enqueue|].
        cbn. repeat split; try done; try lia; by rewrite Hlen. }
      split; [done|]. split; [by apply (ring_linked_segs r1)|done].
  - rewrite bool_decide_eq_false_2 in Hl by done.
    exists r. rewrite prepare_ring_checked by done. rewrite Hroom. cbn.
    unfold enqueue_is_link_trb. rewrite Henq, Hrd. cbn. rewrite Hl.
    split; [done|]. split; [|split; [|done]].
    + unfold ring_ok. rewrite Henq. cbn. done.
    + unfold enq_ready. rewrite Henq. cbn. lia.
Qed.

(** [prepare_transfer] with room: the TD starts at the enqueue cursor the
    ring is left with. *)
Lemma prepare_transfer_slots r ep_info n urb_id td :
  ring_ok r -> ring_linked r -> ep_state_ok (Z.land ep_info EP_STATE_MASK) ->
  room_on_ring false r n = Some true ->
  exists r' t,
    prepare_transfer (Some r) ep_info n urb_id td = Some (0, Some r', Some t)
    /\ ring_ok r' /\ enq_ready r' /\ ring_linked r'
    /\ length (segs r') = length (segs r)
    /\ td_first_trb t = enqueue r' /\ td_start_seg t = (enqueue r').1.
Proof.
  intros Hok Hlink Hst Hroom.
  destruct (prepare_ring_slots r _ n Hok Hlink Hst Hroom)
    as (r' & Hp & Hok' & Hrdy & Htd & Hlink' & Hlen).
  unfold prepare_transfer. rewrite Hp. cbn.
  eexists. eexists. split; [done|]. split; [by apply ring_ok_set_td_list|].
  split; [done|]. split; [by apply (ring_linked_segs r')|]. split; [done|].
  split; [done|]. cbn. by destruct Hok' as (_ & -> & _).
Qed.

(** The slot [room_on_ring] starts from. *)
Lemma skip_enqueue r :
  ring_ok r -> ring_linked r ->
  exists e0,
    skip_link_trbs (ring_fuel r) false r (enq_seg r) (enqueue r) = Some (e0.1, e0)
    /\ trb_slot (length (segs r)) e0.
Proof.
  intros (Hmem & He1 & Hes & He2) Hlink.
  assert (HT : (2 <= TRBS_PER_SEGMENT)%nat) by (by destruct Hmem).
  destruct (enqueue r) as [s i] eqn:Henq. cbn [fst snd] in *. subst s.
  destruct (mem_ok_read r (enq_seg r) i Hmem Hes He2) as (sg & t & Hsg & Hnx & Hrd & Hl).
  unfold ring_fuel. rewrite skip_link_trbs_S. cbn [last_trb]. rewrite Hrd. bind_some.
  rewrite Hl.
  destruct (decide (S i = TRBS_PER_SEGMENT)) as [E|E].
  - rewrite bool_decide_eq_true_2 by done. rewrite Hsg. bind_some.
    destruct (mem_ok_read r (next sg) 0%nat Hmem Hnx ltac:(lia))
      as (sg2 & t2 & _ & _ & Hrd2 & Hl2).
    rewrite bool_decide_eq_false_2 in Hl2 by lia.
    rewrite skip_link_trbs_S. cbn [last_trb]. rewrite Hrd2. bind_some. rewrite Hl2.
    exists (next sg, 0%nat). split; [done|]. split; cbn; lia.
  - rewrite bool_decide_eq_false_2 by done.
    exists (enq_seg r, i). split; [done|]. split; cbn; lia.
Qed.

(** A ring with room for [n] TRBs has more than [n] slots, when its
    dequeue cursor is on a slot. *)
Lemma room_on_ring_capacity r n :
  ring_ok r -> ring_linked r -> trb_slot (length (segs r)) (dequeue r) ->
  Z.of_nat (ring_slots r) < 2 ^ 32 -> 0 <= n ->
  room_on_ring false r n = Some true -> n + 1 <= Z.of_nat (ring_slots r).
Proof.
  intros Hok Hlink Hdeq Hsmall Hn Hroom.
  pose proof Hok as (Hmem & _).
  assert (HT : (2 <= TRBS_PER_SEGMENT)%nat) by (by destruct Hmem).
  assert (HN : Z.of_nat (ring_slots r)
               = Z.of_nat (length (segs r)) * (Z.of_nat TRBS_PER_SEGMENT - 1)).
  { unfold ring_slots. rewrite Nat2Z.inj_mul, Nat2Z.inj_sub by lia. done. }
  destruct (skip_enqueue r Hok Hlink) as (e0 & Hskip & He0).
  destruct (decide (e0 = dequeue r)) as [Heq|Hne].
  - rewrite (room_on_ring_empty r n e0.1 e0 Hlink) in Hroom; try done.
    + injection Hroom as Hroom. apply Z.leb_le in Hroom. lia.
    + by destruct He0.
    + lia.
  - rewrite (room_on_ring_nonempty r n e0.1 e0 Hskip Hne) in Hroom.
    destruct (slot_reach _ _ _ HT He0 Hdeq) as (k & Hk & Hat).
    destruct (le_lt_dec k (Z.to_nat n)) as [Hle|Hgt].
    + pose proof (room_loop_false (Z.to_nat n) false r (e0.1, e0) k
                    ((slot_at (length (segs r)) e0 k).1, slot_at (length (segs r)) e0 k)
                    Hle (nth_slot_at r k e0 Hmem Hlink He0) Hat) as Hfalse.
      cbn [fst snd] in Hfalse. congruence.
    + unfold ring_slots. lia.
Qed.


Lemma td_trbs_loop_S fuel r cur_seg cur_trb last :
  td_trbs_loop (S fuel) r cur_seg cur_trb last
  = (t ← read_trb r cur_trb;
     let here := if is_link_trb t then [] else [t] in
     if ptr_eqb cur_trb last then Some here
     else
       '(seg', trb') ← next_trb false r cur_seg cur_trb;
       rest ← td_trbs_loop fuel r seg' trb' last;
       Some (here ++ rest)).
Proof. reflexivity. Qed.

(** The walk over a TD whose TRBs lie in the slots from [p] on, without a
    slot taken twice, finds these TRBs. *)
Lemma td_trbs_loop_slots r last : forall l p fuel,
  mem_ok r -> ring_linked r -> trb_slot (length (segs r)) p ->
  (0 < length l <= ring_slots r)%nat -> (2 * length l <= fuel)%nat ->
  in_slots r p l -> last = slot_at (length (segs r)) p (length l - 1) ->
  td_trbs_loop fuel r p.1 p last = Some l.
Proof.
  intros l. induction l as [|t l IH]; intros p fuel Hmem Hlink Hp Hlen Hfuel Hin Hlast.
  { cbn in Hlen. lia. }
  assert (HT : (2 <= TRBS_PER_SEGMENT)%nat) by (by destruct Hmem).
  destruct fuel as [|fuel]; [cbn in Hfuel; lia|].
  rewrite td_trbs_loop_S.
  pose proof (Hin 0%nat t eq_refl) as Hrd. cbn in Hrd. rewrite Hrd. bind_some.
  assert (Hnl : is_link_trb t = false)
    by (by eapply (in_slots_no_link r p (t :: l) 0%nat)).
  rewrite Hnl.
  destruct l as [|t' l'].
  { cbn in Hlast. subst last. by rewrite ptr_eqb_refl. }
  cbn [length] in Hlen, Hfuel, Hlast. unfold ring_slots in Hlen.
  assert (Hne : p <> last).
  { subst last. intros H. symmetry in H. revert H. apply slot_at_neq; [done|done|lia]. }
  rewrite ptr_eqb_neq by done.
  destruct (slot_read r p Hmem Hlink Hp) as (sg & t0 & t1 & Hsg & Hnx & _ & _ & Hrd1 & Hl1).
  unfold next_trb at 1. cbn [last_trb]. rewrite Hrd. bind_some. rewrite Hnl. bind_some.
  assert (Hin' : in_slots r (slot_succ (length (segs r)) p) (t' :: l')).
  { intros j tj Hj. rewrite <- slot_at_S. by apply Hin. }
  assert (Hlast' : last = slot_at (length (segs r)) (slot_succ (length (segs r)) p)
                            (length (t' :: l') - 1)).
  { rewrite <- slot_at_S, Hlast. f_equal. cbn [length]. lia. }
  assert (Hp' : trb_slot (length (segs r)) (slot_succ (length (segs r)) p))
    by (by apply slot_succ_slot).
  destruct (decide (S (S p.2) = TRBS_PER_SEGMENT)) as [E|E].
  - rewrite bool_decide_eq_true_2 in Hl1 by done.
    destruct fuel as [|fuel]; [lia|].
    rewrite td_trbs_loop_S, Hrd1. bind_some. rewrite Hl1.
    assert (Hne1 : ptr_succ p <> last).
    { intros H.
      assert (Hs : trb_slot (length (segs r)) last)
        by (rewrite Hlast'; by apply slot_at_slot).
      rewrite <- H in Hs. destruct Hs as [_ Hs]. unfold ptr_succ in Hs. cbn in Hs. lia. }
    rewrite ptr_eqb_neq by done.
    unfold next_trb. cbn [last_trb]. rewrite Hrd1. bind_some. rewrite Hl1.
    change (ptr_succ p).1 with p.1. rewrite Hsg. bind_some. rewrite Hnx.
    pose proof (IH (slot_succ (length (segs r)) p) fuel Hmem Hlink Hp'
                  ltac:(cbn [length]; unfold ring_slots; lia) ltac:(cbn [length]; lia)
                  Hin' Hlast') as HIH.
    rewrite slot_succ_link in HIH by done. cbn [fst] in HIH. by rewrite HIH.
  - rewrite bool_decide_eq_false_2 in Hl1 by done.
    pose proof (IH (slot_succ (length (segs r)) p) fuel Hmem Hlink Hp'
                  ltac:(cbn [length]; unfold ring_slots; lia) ltac:(cbn [length]; lia)
                  Hin' Hlast') as HIH.
    rewrite slot_succ_plain in HIH by done.
    change (ptr_succ p).1 with p.1 in HIH. by rewrite HIH.
Qed.

Lemma length_given_back c l : length (given_back c l) = length l.
Proof. by destruct l. Qed.

(** The TRBs of a TD that has been built in the slots from [p] on and
    handed over by [giveback_first_trb], as the ring holds them. *)
Lemma td_trbs_given_back r p l c r2 td :
  mem_ok r -> ring_linked r -> trb_slot (length (segs r)) p ->
  (0 < length l <= ring_slots r)%nat -> in_slots r p l -> c = 0 \/ c = 1 ->
  giveback_start_trb r p c = Some r2 ->
  td_first_trb td = p -> td_start_seg td = p.1 ->
  td_last_trb td = Some (slot_at (length (segs r)) p (length l - 1)) ->
  td_trbs r2 td = Some (given_back c l).
Proof.
  intros Hmem Hlink Hp Hlen Hin Hc Hg Hfirst Hseg Hlast.
  assert (HT : (2 <= TRBS_PER_SEGMENT)%nat) by (by destruct Hmem).
  destruct l as [|t0 l]; [cbn in Hlen; lia|].
  pose proof (Hin 0%nat t0 eq_refl) as Hrd. cbn in Hrd.
  assert (Hnl : is_link_trb t0 = false)
    by (by eapply (in_slots_no_link r p (t0 :: l) 0%nat)).
  unfold giveback_start_trb in Hg. rewrite Hrd in Hg. revert Hg. bind_some.
  fold (giveback_control (field3 t0) c). intros Hw.
  destruct (write_trb_fields _ _ _ _ Hw) as [_ Hlen2].
  assert (Hmem2 : mem_ok r2).
  { eapply write_trb_mem_ok; [exact Hmem|exact Hw|].
    rewrite is_link_given_back, Hnl by done. symmetry. apply bool_decide_eq_false_2.
    destruct Hp. lia. }
  pose proof (write_trb_linked _ _ _ _ Hw Hlink) as Hlink2.
  assert (Hin2 : in_slots r2 p (given_back c (t0 :: l))).
  { intros j tj Hj. rewrite Hlen2. destruct j as [|j].
    - cbn in Hj. injection Hj as <-. exact (read_write_same _ _ _ _ Hw).
    - rewrite (read_write_other _ _ _ _ _ Hw).
      + by apply Hin.
      + intros H. symmetry in H. revert H. apply slot_at_neq; [done|done|].
        cbn in Hj. apply lookup_lt_Some in Hj. cbn [length] in Hlen.
        unfold ring_slots in Hlen. lia. }
  unfold td_trbs. rewrite Hlast. bind_some. rewrite Hfirst, Hseg.
  apply td_trbs_loop_slots; try done.
  - by rewrite Hlen2.
  - rewrite length_given_back. unfold ring_slots in *. by rewrite Hlen2.
  - rewrite length_given_back, Hlen2. unfold ring_slots in Hlen. nia.
  - by rewrite length_given_back, Hlen2.
Qed.


(** One [queue_trb] of a builder that has the TRBs [out] of its TD in the
    slots from [p] on and the enqueue cursor behind them. *)
Lemma queue_trb_in_slots n r p out more f1 f2 f3 f4 :
  ring_ok r -> ring_linked r -> length (segs r) = n -> trb_slot n p ->
  enqueue r = slot_at n p (length out) ->
  (length out < n * (TRBS_PER_SEGMENT - 1))%nat ->
  in_slots r p out -> is_link_trb (mk_trb f1 f2 f3 f4) = false ->
  exists r',
    queue_trb false r false more f1 f2 f3 f4 = Some r'
    /\ ring_ok r' /\ ring_linked r' /\ length (segs r') = n
    /\ in_slots r' p (out ++ [mk_trb f1 f2 f3 f4])
    /\ ((Z.land f4 TRB_CHAIN =? 0) && negb more = false ->
        enqueue r' = slot_at n p (S (length out))).
Proof.
  intros Hok Hlink Hn Hp He Hcap Hin Hnl.
  pose proof Hok as (Hmem & _).
  assert (HT : (2 <= TRBS_PER_SEGMENT)%nat) by (by destruct Hmem).
  assert (Hrdy : enq_ready r).
  { unfold enq_ready. rewrite He. by destruct (slot_at_slot n p (length out) HT Hp). }
  destruct (queue_trb_slot r more f1 f2 f3 f4 Hok Hlink Hrdy Hnl)
    as (r' & Hq & Hok' & Hlink' & Hlen' & Hrd & Hother & Hadv).
  exists r'. split; [done|]. split; [done|]. split; [done|]. split; [congruence|].
  split.
  - intros j t Hj. rewrite Hlen', Hn.
    destruct (decide (j < length out)%nat) as [Hlt|Hge].
    + rewrite lookup_app_l in Hj by done.
      apply Hother.
      * rewrite He. apply slot_at_distinct; [done|done|lia].
      * rewrite <- Hn. by apply Hin.
      * subst n. by eapply in_slots_no_link.
    + pose proof (lookup_lt_Some _ _ _ Hj) as Hlt. rewrite length_app in Hlt.
      cbn [length] in Hlt. assert (j = length out) as -> by lia.
      rewrite lookup_app_r, Nat.sub_diag in Hj by done. cbn in Hj.
      injection Hj as <-. by rewrite <- He.
  - intros Hc. destruct (Hadv Hc) as [-> _]. by rewrite He, Hn.
Qed.


(** ** Control transfers *)

(** One [queue_trb] of a builder, of a TRB that is no link TRB, with the
    TRBs of the TD so far in their slots. *)
Ltac queue_slot :=
  match goal with
  | Hok : ring_ok ?r, Hlk : ring_linked ?r, Hn : length (segs ?r) = ?n,
    Hin : in_slots ?r ?p ?out, He : enqueue ?r = slot_at ?n ?p _, Hp : trb_slot ?n ?p
    |- context [queue_trb false ?r false ?more ?f1 ?f2 ?f3 ?f4] =>
      let Hnl := fresh "Hnl" in
      assert (Hnl : is_link_trb (mk_trb f1 f2 f3 f4) = false);
      [ destruct (ring_ok_cycle r Hok) as [-> | ->];
        repeat match goal with |- context [if ?b then _ else _] => destruct b end;
        reflexivity
      | let r' := fresh "r" in
        let Hq := fresh "Hq" in
        let Hok' := fresh "Hok" in
        let Hlk' := fresh "Hlk" in
        let Hn' := fresh "Hn" in
        let Hin' := fresh "Hin" in
        let He' := fresh "He" in
        destruct (queue_trb_in_slots n r p out more f1 f2 f3 f4 Hok Hlk Hn Hp He
                    ltac:(cbn [length app]; lia) Hin Hnl)
          as (r' & Hq & Hok' & Hlk' & Hn' & Hin' & He');
        rewrite Hq; clear Hnl; bind_some;
        try specialize (He' (andb_false_r _)) ]
  end.

(** C6 (amended).  A control transfer on a well-formed ring with room, whose
    dequeue cursor is on a TRB slot: [xhci_queue_ctrl_tx] returns 0, and the
    TD it leaves in the ring, read from the TD's first TRB to its last, is
    one Setup TRB (immediate data, the request packed into the first two
    words, the transfer type from the request direction and the data
    length), one Data TRB if and only if the transfer length is positive,
    one more Data TRB of length zero if the URB asks for a zero-length
    packet and the length is a multiple of the endpoint's packet size, and
    one Status TRB with interrupt-on-completion, whose direction is OUT
    exactly when data came IN.  Without the zero-length packet a transfer
    with no data stage is two TRBs, Setup and Status. *)
Theorem ctrl_tx_trbs (r0 : xhci_ring) (ep_info ep_state db ep_index : Z)
    (urb_id td : nat) (u : urb) (setup : usb_ctrlrequest) (zlp : bool) :
  ring_ok r0 -> ring_linked r0 -> trb_slot (length (segs r0)) (dequeue r0) ->
  Z.of_nat (ring_slots r0) < 2 ^ 32 ->
  ep_state_ok (Z.land ep_info EP_STATE_MASK) ->
  room_on_ring false r0 (if 0 <? transfer_buffer_length u then 3 else 2) = Some true ->
  setup_packet u = Some setup ->
  wants_zlp u (wrap32 (wMaxPacketSize u)) = Some zlp ->
  exists res r t l,
    xhci_queue_ctrl_tx (Some r0) ep_info ep_state db ep_index urb_id td u = Some res
    /\ tx_ret res = 0
    /\ tx_ring res = Some r /\ tx_td res = Some t /\ td_trbs r t = Some l /\
    let has_data := 0 <? transfer_buffer_length u in
    let dir_in := tst (bRequestType setup) USB_DIR_IN in
    trb_type <$> l =
      [TRB_SETUP] ++ (if has_data then [TRB_DATA] else [])
      ++ (if zlp then [TRB_DATA] else []) ++ [TRB_STATUS]
    /\ (exists t, head l = Some t
          /\ tst (field3 t) TRB_IDT = true
          /\ Z.land (field3 t) (TRB_TRT 3) =
               TRB_TRT (if has_data then if dir_in then TRT_IN_DATA else TRT_OUT_DATA
                        else TRT_NO_DATA)
          /\ field0 t = wrap32 (Z.lor (Z.lor (bRequestType setup) (Z.shiftl (bRequest setup) 8))
                                  (Z.shiftl (wValue setup) 16))
          /\ field1 t = wrap32 (Z.lor (wIndex setup) (Z.shiftl (wLength setup) 16)))
    /\ (forall i t, l !! i = Some t -> trb_type t = TRB_DATA ->
          tst (field3 t) TRB_DIR_IN = dir_in)
    /\ (zlp = true ->
        exists t, l !! (if has_data then 2 else 1)%nat = Some t
                  /\ trb_type t = TRB_DATA /\ trb_buf_len t = 0)
    /\ (exists t, last l = Some t
          /\ tst (field3 t) TRB_IOC = true
          /\ tst (field3 t) TRB_DIR_IN = negb (has_data && dir_in)).
Proof.
  intros Hok0 Hlink0 Hdeq0 Hsmall Hst Hroom Hsetup Hzlp.
  assert (Hcap : (if 0 <? transfer_buffer_length u then 3 else 2) + 1
                 <= Z.of_nat (ring_slots r0))
    by (apply room_on_ring_capacity; try done; destruct (0 <? _); lia).
  unfold ring_slots in Hcap.
  destruct (prepare_transfer_slots r0 ep_info _ urb_id td Hok0 Hlink0 Hst Hroom)
    as (r & t & Hprep & Hok & Hrdy & Hlk & Hn & Hfirst & Hseg).
  unfold xhci_queue_ctrl_tx. rewrite Hsetup, Hprep. bind_some.
  pose proof (ring_ok_enqueue_lt r Hok) as Hstart.
  pose proof Hrdy as Hstart2. unfold enq_ready in Hstart2.
  assert (Hp : trb_slot (length (segs r0)) (enqueue r)) by (split; [by rewrite <- Hn|done]).
  assert (Hin : in_slots r (enqueue r) []) by (by intros j t' Hj).
  assert (He : enqueue r = slot_at (length (segs r0)) (enqueue r) (length (@nil xhci_trb)))
    by done.
  pose proof (ring_ok_cycle r Hok) as Hcyc.
  destruct (0 <? transfer_buffer_length u) eqn:Hd; cbv iota.
  all: queue_slot.
  all: try queue_slot.
  all: rewrite Hzlp; bind_some; destruct zlp; cbv iota; bind_some.
  all: repeat queue_slot.
  all: match goal with
       | Hk : ring_ok ?r4, Hlk4 : ring_linked ?r4, Hn4 : length (segs ?r4) = _,
         Hin4 : in_slots ?r4 _ ?out
         |- context [giveback_start_trb ?r4 ?p ?c] =>
           match goal with
           | He3 : enqueue ?r3 = slot_at _ _ _ |- context [set_last_trb (enqueue ?r3) _] =>
               destruct (giveback_start_trb_ok r4 p c Hk ltac:(lia) Hstart2) as [r5 Hg];
               rewrite Hg; bind_some;
               assert (Htrbs : td_trbs r5 (set_last_trb (enqueue r3) t)
                               = Some (given_back c out));
               [ apply (td_trbs_given_back r4 p out c r5);
                 [ by destruct Hk | exact Hlk4 | rewrite Hn4; exact Hp
                 | cbn [length app]; unfold ring_slots; rewrite Hn4; lia
                 | exact Hin4 | exact Hcyc | exact Hg | exact Hfirst | exact Hseg
                 | cbn [td_last_trb set_last_trb]; rewrite He3, Hn4; reflexivity ]
               | eexists _, r5, _, (given_back c out) ]
           end
       end.
  all: split; [reflexivity|]; split; [reflexivity|]; split; [reflexivity|].
  all: split; [reflexivity|]; split; [exact Htrbs|]; clear Htrbs.
  all: cbv zeta; cbn [given_back app set_control field0 field1 field2 field3].
  all: unfold giveback_control.
  all: split; [unfold trb_type; simpl; cycles;
               destruct (tst (bRequestType setup) USB_DIR_IN); reflexivity|].
  all: split; [eexists; split; [reflexivity|]; simpl; cycles;
               destruct (tst (bRequestType setup) USB_DIR_IN); repeat split|].
  all: split;
    [intros i t' Hi Hty;
     repeat (destruct i as [|i]; [injection Hi as <-|]); try done;
     unfold trb_type in Hty; simpl in Hty |- *; revert Hty; cycles;
     destruct (tst (bRequestType setup) USB_DIR_IN); vm_compute; congruence|].
  all: split;
    [intros Hz;
     first [discriminate Hz
           |eexists; split; [reflexivity|];
            split; [unfold trb_type; simpl; cycles;
                    destruct (tst (bRequestType setup) USB_DIR_IN); reflexivity
                   |reflexivity]]|].
  all: eexists; split; [reflexivity|]; simpl; cycles;
       destruct (tst (bRequestType setup) USB_DIR_IN); split; reflexivity.
Qed.


(** ** Bulk transfers *)

(** The [do ... while] of [xhci_queue_bulk_tx] puts its TRBs into the
    slots behind those of [out] and ends the TD at the last of them. *)
Lemma bulk_tx_loop_slots u max_packet start_cycle n p :
  forall fuel first num running_total trb_buff_len addr r td out bs,
    bulk_tx_loop fuel u max_packet start_cycle first num running_total trb_buff_len
      addr r td out = Some bs ->
    ring_ok r -> ring_linked r -> length (segs r) = n -> trb_slot n p ->
    enqueue r = slot_at n p (length out) ->
    1 <= num ->
    Z.of_nat (length out) + num <= Z.of_nat (n * (TRBS_PER_SEGMENT - 1)) ->
    in_slots r p out ->
    ring_ok (bs_ring bs) /\ ring_linked (bs_ring bs) /\ length (segs (bs_ring bs)) = n
    /\ in_slots (bs_ring bs) p (bs_trbs bs)
    /\ Z.of_nat (length (bs_trbs bs)) = Z.of_nat (length out) + num
    /\ td_last_trb (bs_td bs) = Some (slot_at n p (length (bs_trbs bs) - 1))
    /\ td_first_trb (bs_td bs) = td_first_trb td
    /\ td_start_seg (bs_td bs) = td_start_seg td.
Proof.
  induction fuel as [|fuel IH];
    intros first num rt len addr r td out bs H Hok Hlk Hn Hp He Hnum Hcap Hin.
  all: assert (Hcase : num = 1 \/ 2 <= num) by lia; destruct Hcase as [->|Hn2].
  all: revert H; cbn [bulk_tx_loop];
       (destruct (xhci_td_remainder _ _ _ _) as [rem|]; [|done]); bind_some.
  all: try (assert (Em : (1 <? num) = true) by (apply Z.ltb_lt; lia);
            assert (En : (0 <? num - 1) = true) by (apply Z.ltb_lt; lia);
            rewrite ?Em, ?En).
  all: try change (1 <? 1) with false; try change (0 <? 1 - 1) with false.
  all: cbn [negb]; cbv iota.
  all: queue_slot.
  2: done.
  1, 2: intros [= <-]; cbn [bs_ring bs_td bs_trbs];
        repeat (split; [done|]);
        (split; [rewrite length_app; cbn [length]; lia|]);
        (split; [cbn [td_last_trb set_last_trb]; rewrite He, length_app;
                 do 2 f_equal; cbn [length]; lia|done]).
  intros H.
  apply IH in H; try done.
  - destruct H as (G1 & G2 & G3 & G4 & G5 & G6 & G7 & G8).
    repeat (split; [done|]).
    split; [rewrite G5, length_app; cbn [length]; lia|done].
  - by rewrite length_app, Nat.add_1_r.
  - lia.
  - rewrite length_app. cbn [length]. lia.
Qed.


(** [xhci_queue_bulk_tx] for a buffer without scatterlist: the layout of
    the TD it queues, and the TD as the ring holds it. *)
Lemma xhci_queue_bulk_tx_layout (r0 : xhci_ring) (ep_info ep_state db ep_index : Z)
    (urb_id td_id : nat) (u : urb) (max_packet : Z) (zlp : bool) :
  ring_ok r0 -> ring_linked r0 -> trb_slot (length (segs r0)) (dequeue r0) ->
  Z.of_nat (ring_slots r0) < 2 ^ 32 ->
  ep_state_ok (Z.land ep_info EP_STATE_MASK) ->
  sg u = [] -> g_td_to_noop = false ->
  0 <= transfer_buffer_length u < 2 ^ 31 ->
  0 <= transfer_dma u -> transfer_dma u + transfer_buffer_length u < 2 ^ 64 ->
  bulk_max_packet (Some 0) u = Some max_packet -> 0 < wrap32 max_packet < 65536 ->
  wants_zlp u (wrap32 max_packet) = Some zlp ->
  room_on_ring false r0 (bulk_trbs_needed u zlp) = Some true ->
  exists res,
    xhci_queue_bulk_tx (Some r0) ep_info ep_state db ep_index urb_id td_id u = Some res
    /\ tx_ret res = 0
    /\ length (tx_trbs res) = Z.to_nat (bulk_trbs_needed u zlp)
    /\ td_layout (transfer_buffer_length u) (wrap32 max_packet)
         (negb (g_idt_transfer && negb (ep_dir_in u))) 0 (transfer_dma u) (tx_trbs res)
    /\ (zlp = false -> Forall (fun t => 0 < trb_buf_len t) (tail (tx_trbs res)))
    /\ exists r td c,
         tx_ring res = Some r /\ tx_td res = Some td /\ (c = 0 \/ c = 1)
         /\ td_trbs r td = Some (given_back c (tx_trbs res)).
Proof.
  intros Hok0 Hlink0 Hdeq0 Hsmall Hst Hsg Hnoop HL Hdma Hend Hmp Hmpr Hzlp Hroom.
  pose proof (to_boundary_range (transfer_dma u)) as Hb.
  pose proof (to_boundary_mod (transfer_dma u)) as Hbm.
  set (b := to_boundary (transfer_dma u)) in *.
  pose proof (chunks_after_range b (transfer_buffer_length u) ltac:(lia) ltac:(lia)) as Hch.
  assert (Hdiv : transfer_buffer_length u / 65536 < 32768)
    by (apply Z.div_lt_upper_bound; lia).
  assert (Hcount : count_trbs_loop (count_fuel (transfer_buffer_length u)) b
                     (transfer_buffer_length u) 1
                   = Some (1 + chunks_after b (transfer_buffer_length u))).
  { rewrite <- (wrap32_small b) at 2 by lia. apply count_trbs_loop_spec; try lia.
    - rewrite wrap32_small by lia. lia.
    - rewrite wrap32_small by lia. unfold count_fuel.
      change TRB_MAX_BUFF_SIZE with 65536. lia. }
  assert (Hnum : (if zlp then to_int (1 + chunks_after b (transfer_buffer_length u) + 1)
                  else 1 + chunks_after b (transfer_buffer_length u))
                 = bulk_trbs_needed u zlp).
  { unfold bulk_trbs_needed. fold b. destruct zlp; [rewrite to_int_small|]; lia. }
  assert (Hn : 1 <= bulk_trbs_needed u zlp < 2 ^ 31)
    by (unfold bulk_trbs_needed; fold b; destruct zlp; lia).
  assert (Hcap : bulk_trbs_needed u zlp + 1 <= Z.of_nat (ring_slots r0))
    by (apply room_on_ring_capacity; try done; lia).
  unfold ring_slots in Hcap.
  destruct (prepare_transfer_slots r0 ep_info _ urb_id td_id Hok0 Hlink0 Hst Hroom)
    as (r & t & Hprep & Hok & Hrdy & Hlk & Hn0 & Hfirst & Hseg).
  assert (Hp : trb_slot (length (segs r0)) (enqueue r)).
  { split; [rewrite <- Hn0; by apply ring_ok_enqueue_lt|exact Hrdy]. }
  unfold xhci_queue_bulk_tx. rewrite Hsg. cbn [length Nat.eqb negb]. cbv zeta.
  fold b.
  assert (Eb : (b =? 0) = false) by (apply Z.eqb_neq; lia). rewrite Eb. cbn [negb orb].
  rewrite Hcount. bind_some. rewrite Hmp. bind_some. rewrite Hzlp. bind_some.
  rewrite Hnum, (wrap32_small (bulk_trbs_needed u zlp)), Hprep by lia. bind_some.
  rewrite (wrap32_small b) by lia.
  set (len0 := if transfer_buffer_length u <? b then to_int (transfer_buffer_length u)
               else b).
  assert (Hlen0 : (len0 = transfer_buffer_length u /\ transfer_buffer_length u < b)
                  \/ (len0 = b /\ b <= transfer_buffer_length u)).
  { unfold len0. destruct (_ <? b) eqn:E; [apply Z.ltb_lt in E|apply Z.ltb_ge in E].
    - rewrite to_int_small by lia. lia.
    - lia. }
  clearbody len0.
  pose proof (Z.mod_pos_bound (transfer_dma u) 65536 ltac:(lia)) as Hmod.
  assert (Halign : 0 + len0 < transfer_buffer_length u ->
                   (transfer_dma u + len0) mod 65536 = 0).
  { intros Hmore. pose proof (Z.div_mod (transfer_dma u) 65536 ltac:(lia)) as Hdm.
    replace (transfer_dma u + len0) with ((transfer_dma u / 65536 + 1) * 65536) by lia.
    apply Z_mod_mult. }
  assert (Hleft : transfer_buffer_length u - 0 - len0
                  <= 65536 * (bulk_trbs_needed u zlp - 1)).
  { unfold bulk_trbs_needed. fold b. destruct Hlen0 as [[-> ?]|[-> ?]].
    - destruct zlp; lia.
    - destruct (Z.eq_dec b (transfer_buffer_length u)); [destruct zlp; lia|].
      pose proof (chunks_after_bounds b (transfer_buffer_length u) ltac:(lia)).
      destruct zlp; lia. }
  destruct (bulk_tx_loop_layout u max_packet (cycle_state r) HL Hmpr
              (Z.to_nat (bulk_trbs_needed u zlp)) true (bulk_trbs_needed u zlp) 0 len0
              (transfer_dma u) r t [] Hok Hrdy ltac:(lia) ltac:(lia) ltac:(lia)
              ltac:(lia) ltac:(lia) ltac:(lia) ltac:(lia) ltac:(lia) Halign Hleft)
    as (bs & new & Hloop & Hokb & Hlenb & Htrbs & Hcnt & Hlay & Htight).
  rewrite Hloop. bind_some.
  destruct (bulk_tx_loop_slots u max_packet (cycle_state r) (length (segs r0)) (enqueue r)
              _ _ _ _ _ _ r t [] bs Hloop Hok Hlk Hn0 Hp eq_refl ltac:(lia)
              ltac:(cbn [length]; lia) ltac:(by intros j t' Hj))
    as (_ & Hlkb & Hnb & Hinb & Hcntb & Hlastb & Hfirstb & Hsegb).
  destruct (giveback_start_trb_ok (bs_ring bs) (enqueue r) (cycle_state r) Hokb)
    as [r2 Hg].
  { rewrite Hlenb. by apply ring_ok_enqueue_lt. }
  { exact Hrdy. }
  rewrite Hg. bind_some. rewrite Hnoop.
  eexists. split; [reflexivity|]. cbn [tx_ret tx_trbs tx_ring tx_td].
  assert (Hwalk : td_trbs r2 (bs_td bs) = Some (given_back (cycle_state r) (bs_trbs bs))).
  { apply (td_trbs_given_back (bs_ring bs) (enqueue r)); try done.
    - by destruct Hokb.
    - by rewrite Hnb.
    - unfold ring_slots. rewrite Hnb. cbn [length] in Hcntb. lia.
    - by apply ring_ok_cycle.
    - by rewrite Hfirstb.
    - by rewrite Hsegb.
    - by rewrite Hnb. }
  rewrite Htrbs in Hwalk |- *. cbn [app] in Hwalk |- *.
  split; [done|]. split; [done|]. split; [done|].
  split; [|exists r2, (bs_td bs), (cycle_state r); repeat split; try done;
            by apply ring_ok_cycle].
  intros ->. apply Htight. unfold bulk_trbs_needed. fold b.
  destruct Hlen0 as [[-> ?]|[-> ?]].
  - rewrite chunks_after_none by lia. lia.
  - destruct (Z.eq_dec b (transfer_buffer_length u)).
    + rewrite chunks_after_none by lia. lia.
    + pose proof (chunks_after_bounds b (transfer_buffer_length u) ltac:(lia)). lia.
Qed.


Lemma slot_enq_ready n r p k :
  (2 <= TRBS_PER_SEGMENT)%nat -> trb_slot n p -> enqueue r = slot_at n p k -> enq_ready r.
Proof.
  intros HT Hp He. unfold enq_ready. rewrite He. by destruct (slot_at_slot n p k HT Hp).
Qed.

(** [queue_slot] with the names of what it leaves. *)
Ltac queue_slot_as r' Hq Hok' Hlk' Hn' Hin' He' :=
  match goal with
  | Hok : ring_ok ?r, Hlk : ring_linked ?r, Hn : length (segs ?r) = ?n,
    Hin : in_slots ?r ?p ?out, He : enqueue ?r = slot_at ?n ?p _, Hp : trb_slot ?n ?p
    |- context [queue_trb false ?r false ?more ?f1 ?f2 ?f3 ?f4] =>
      let Hnl := fresh "Hnl" in
      assert (Hnl : is_link_trb (mk_trb f1 f2 f3 f4) = false);
      [ destruct (ring_ok_cycle r Hok) as [-> | ->];
        repeat match goal with |- context [if ?b then _ else _] => destruct b end;
        reflexivity
      | destruct (queue_trb_in_slots n r p out more f1 f2 f3 f4 Hok Hlk Hn Hp He
                    ltac:(cbn [length app]; lia) Hin Hnl)
          as (r' & Hq & Hok' & Hlk' & Hn' & Hin' & He');
        rewrite Hq; clear Hnl ]
  end.

(** Inside the first 64KB block of an entry the TRBs the entry needs do
    not change. *)
Lemma to_boundary_inside addr c :
  0 <= c < to_boundary addr -> to_boundary (addr + c) = to_boundary addr - c.
Proof.
  intros Hc. rewrite !to_boundary_mod in *.
  pose proof (Z.mod_pos_bound addr 65536 ltac:(lia)) as Hm.
  assert (E : (addr + c) mod 65536 = addr mod 65536 + c); [|lia].
  rewrite (Z.div_mod addr 65536) at 1 by lia.
  replace (65536 * (addr / 65536) + addr mod 65536 + c)
    with (addr mod 65536 + c + (addr / 65536) * 65536) by lia.
  rewrite Z_mod_plus_full. apply Z.mod_small. lia.
Qed.

Lemma entry_trbs_inside addr len c :
  0 <= c < to_boundary addr -> entry_trbs (addr + c) (len - c) = entry_trbs addr len.
Proof.
  intros Hc. unfold entry_trbs. rewrite to_boundary_inside by done.
  rewrite <- (chunks_after_shift (to_boundary addr - c) (len - c) c).
  by replace (to_boundary addr - c + c) with (to_boundary addr)
    by lia; replace (len - c + c) with len by lia.
Qed.


(** The [do ... while] of [queue_bulk_sg_tx], entered inside an entry whose
    buffer and the entries after it hold what is left of the transfer, with
    exactly the TRBs reserved that the entries still take, and with the
    TRBs [out] of the TD in the slots from [p] on. *)
Lemma bulk_sg_loop_ok u max_packet start_cycle (zlp : bool) n p :
  0 <= transfer_buffer_length u < 2 ^ 31 -> 0 < wrap32 max_packet < 65536 ->
  forall fuel first_trb num_trbs running_total trb_buff_len this_sg_len addr rest r td out,
    ring_ok r -> enq_ready r ->
    1 <= num_trbs < 2 ^ 32 -> num_trbs - 1 <= Z.of_nat fuel ->
    0 <= running_total <= transfer_buffer_length u ->
    trb_buff_len = Z.min (Z.min (to_boundary addr) this_sg_len)
                     (transfer_buffer_length u - running_total) ->
    0 <= this_sg_len < 2 ^ 31 -> 0 <= addr -> addr + this_sg_len < 2 ^ 64 ->
    Forall sg_ok rest ->
    transfer_buffer_length u - running_total <= this_sg_len + sg_bytes rest ->
    (0 < transfer_buffer_length u - running_total - trb_buff_len ->
     sg_need addr this_sg_len rest (transfer_buffer_length u - running_total) <= num_trbs) ->
    ring_linked r -> length (segs r) = n -> trb_slot n p ->
    enqueue r = slot_at n p (length out) -> in_slots r p out ->
    Z.of_nat (length out) + num_trbs + (if zlp then 1 else 0)
    <= Z.of_nat (n * (TRBS_PER_SEGMENT - 1)) ->
    num_trbs <= sg_need addr this_sg_len rest (transfer_buffer_length u - running_total) ->
    exists bs addr' new,
      bulk_sg_loop fuel u max_packet start_cycle zlp first_trb num_trbs running_total
        trb_buff_len this_sg_len addr rest r td out = Some (bs, addr')
      /\ ring_ok (bs_ring bs) /\ length (segs (bs_ring bs)) = length (segs r)
      /\ (zlp = true -> enq_ready (bs_ring bs))
      /\ 0 <= addr' < 2 ^ 64
      /\ bs_trbs bs = out ++ new
      /\ running_total + td_bytes new = transfer_buffer_length u
      /\ Forall (fun t => 0 <= trb_buf_len t
                          /\ trb_buf_addr t mod 65536 + trb_buf_len t <= 65536) new
      /\ td_sizes (transfer_buffer_length u) (wrap32 max_packet) running_total new
      /\ ring_linked (bs_ring bs)
      /\ in_slots (bs_ring bs) p (bs_trbs bs)
      /\ 1 <= Z.of_nat (length new) <= num_trbs
      /\ (if zlp then enqueue (bs_ring bs) = slot_at n p (length (bs_trbs bs))
          else td_last_trb (bs_td bs) = Some (slot_at n p (length (bs_trbs bs) - 1)))
      /\ td_first_trb (bs_td bs) = td_first_trb td
      /\ td_start_seg (bs_td bs) = td_start_seg td.
Proof.
  intros HL Hmp.
  induction fuel as [|fuel IH];
    intros first num rt len tl addr rest r td out Hok Hrdy Hnum Hfuel Hrt Hlen Htl Haddr
      Hend Hrest Hcov Hneed Hlk Hn Hp He Hin Hcap Hub.
  all: assert (HT : (2 <= TRBS_PER_SEGMENT)%nat) by (by destruct Hok as ((? & _) & _)).
  all: assert (Hz : 0 <= (if zlp then 1 else 0) <= 1) by (destruct zlp; lia).
  all: pose proof (to_boundary_range addr) as Hb.
  all: pose proof (to_boundary_mod addr) as Hbm.
  all: pose proof (Z.mod_pos_bound addr 65536 ltac:(lia)) as Hmod.
  all: pose proof (packets_left_range (transfer_buffer_length u) (wrap32 max_packet) rt
                     ltac:(lia) ltac:(lia)) as Hpl.
  all: assert (Hk : 0 <= (if rt + len =? transfer_buffer_length u then 0
                          else packets_left (transfer_buffer_length u)
                                 (wrap32 max_packet) rt) <= 31)
         by (destruct (_ =? _); lia).
  all: assert (Hcase : num = 1 \/ 2 <= num) by lia; destruct Hcase as [->|Hn2]; [|try lia].
  all: cbn [bulk_sg_loop]; rewrite xhci_td_remainder_spec by lia; bind_some.
  all: rewrite length_field_split by lia.
  all: queue_slot_as r1 Hq Hok1 Hlk1 Hn1 Hin1 He1; bind_some.
  all: assert (Hlen1 : length (segs r1) = length (segs r)) by congruence.
  all: pose proof (fun Hc => slot_enq_ready n r1 p _ HT Hp (He1 Hc)) as Hrdy1.
  all: match goal with |- context [_ ++ [?t]] => set (t0 := t) in * end.
  all: assert (Ht0 : (trb_buf_len t0 = len
                      /\ trb_td_size t0
                         = (if rt + len =? transfer_buffer_length u then 0
                            else packets_left (transfer_buffer_length u)
                                   (wrap32 max_packet) rt))
                     /\ trb_buf_addr t0 = addr)
         by (split; [apply length_word_layout; lia|apply trb_buf_addr_split; lia]);
       destruct Ht0 as [[Ht0len Ht0size] Ht0addr].
  all: clearbody t0.
  all: rewrite (to_int_small (rt + len)), (to_int_small (tl - len)) by lia.
  all: assert (Ht0ok : 0 <= trb_buf_len t0
                       /\ trb_buf_addr t0 mod 65536 + trb_buf_len t0 <= 65536)
         by (rewrite Ht0len, Ht0addr; lia).
  all: assert (Hlast0 : Some (enqueue r)
                        = Some (slot_at n p (length (out ++ [t0]) - 1)))
         by (rewrite He, length_app; do 2 f_equal; cbn [length]; lia).
  all: assert (Hlen0 : length (out ++ [t0]) = S (length out))
         by (rewrite length_app; cbn [length]; lia).
  1, 2: assert (Hdone : rt + len = transfer_buffer_length u)
          by (destruct (Z.eq_dec (rt + len) (transfer_buffer_length u)); [done|];
              pose proof (sg_need_two addr tl rest (transfer_buffer_length u - rt) len
                            Hlen ltac:(lia) Hrest Hcov ltac:(lia)); lia).
  1, 2: change (0 <? wrap32 (1 - 1)) with false; cbv iota;
        change (1 <? 1) with false in *; cbn [orb] in *;
        assert (Hrdy' : zlp = true -> enq_ready r1)
          by (intros ->; apply Hrdy1, andb_false_r);
        assert (He1' : zlp = true -> enqueue r1 = slot_at n p (length (out ++ [t0])))
          by (intros ->; rewrite Hlen0; apply He1, andb_false_r);
        destruct (tl - len =? 0);
          [destruct Hrest as [|s rest (? & ? & ?) Hrest]|];
          eexists; eexists; exists [t0]; (split; [reflexivity|]);
          cbn [bs_ring bs_trbs bs_td td_bytes]; rewrite ?wrap64_small by lia;
          repeat (split; [done || lia|]);
          (split; [constructor; [exact Ht0ok|constructor]|]);
          (split; [cbn [td_sizes]; rewrite Ht0len, Ht0size; repeat split; lia|]);
          (split; [done|]); (split; [done|]); (split; [cbn [length]; lia|]);
          (split; [destruct zlp; [by apply He1'|exact Hlast0]|]);
          by destruct zlp.
  assert (En : (0 <? wrap32 (num - 1)) = true)
    by (rewrite wrap32_small by lia; apply Z.ltb_lt; lia).
  assert (Em : (1 <? num) = true) by (apply Z.ltb_lt; lia).
  rewrite En. rewrite Em in Hrdy1, He1 |- *. cbn [orb negb] in Hrdy1, He1 |- *.
  specialize (Hrdy1 (andb_false_r _)). specialize (He1 (andb_false_r _)).
  rewrite <- Hlen0 in He1.
  rewrite (wrap32_small (num - 1)) by lia.
  assert (Hcap1 : Z.of_nat (length (out ++ [t0])) + (num - 1) + (if zlp then 1 else 0)
                  <= Z.of_nat (n * (TRBS_PER_SEGMENT - 1))) by (rewrite Hlen0; lia).
  destruct (tl - len =? 0) eqn:Etl; [apply Z.eqb_eq in Etl|apply Z.eqb_neq in Etl].
  - assert (Hone : entry_trbs addr tl = 1)
      by (unfold entry_trbs; rewrite chunks_after_none by lia; lia).
    destruct Hrest as [|s rest (Hsa & Hsl & Hse) Hrest].
    + exfalso. unfold sg_need in Hub. rewrite Hone in Hub. cbn [sg_trbs_needed] in Hub.
      destruct (_ <=? tl); lia.
    + cbn [sg_bytes] in Hcov.
      rewrite (to_int_small (sg_dma_len s)) by lia.
      rewrite sg_trb_len_spec by lia.
      assert (Hneed1 : 0 < transfer_buffer_length u - (rt + len)
                           - Z.min (Z.min (to_boundary (sg_dma_address s)) (sg_dma_len s))
                               (transfer_buffer_length u - (rt + len)) ->
                sg_need (sg_dma_address s) (sg_dma_len s) rest
                  (transfer_buffer_length u - (rt + len)) <= num - 1).
      { intros Hmore.
        pose proof (to_boundary_range (sg_dma_address s)).
        pose proof (sg_need_next addr tl s rest (transfer_buffer_length u - rt)
                      ltac:(lia) ltac:(lia)) as Hnx.
        replace (transfer_buffer_length u - (rt + len))
          with (transfer_buffer_length u - rt - tl) by lia.
        specialize (Hneed ltac:(lia)). lia. }
      assert (Hub1 : num - 1 <= sg_need (sg_dma_address s) (sg_dma_len s) rest
                                  (transfer_buffer_length u - (rt + len))).
      { unfold sg_need in Hub. rewrite Hone in Hub. cbn [sg_trbs_needed] in Hub.
        unfold sg_need.
        replace (transfer_buffer_length u - (rt + len))
          with (transfer_buffer_length u - rt - tl) by lia.
        destruct (transfer_buffer_length u - rt <=? tl); lia. }
      destruct (IH false (num - 1) (rt + len) _ (sg_dma_len s) (sg_dma_address s) rest
                  r1 td (out ++ [t0]) Hok1 Hrdy1 ltac:(lia) ltac:(lia) ltac:(lia)
                  eq_refl ltac:(lia) Hsa Hse Hrest ltac:(lia) Hneed1 Hlk1 Hn1 Hp He1 Hin1
                  Hcap1 Hub1)
        as (bs & addr' & new & Hloop & Hokb & Hlenb & Hrdyb & Haddr' & Htrbs & Hsum & Hall
            & Hsz & Hlkb & Hinb & Hcnt & Hend' & Hfirst & Hseg).
      rewrite Hloop. exists bs, addr', (t0 :: new). split; [done|].
      split; [done|]. split; [by rewrite Hlenb|]. split; [done|]. split; [done|].
      split; [by rewrite Htrbs, <- app_assoc|].
      split; [cbn [td_bytes]; lia|]. split; [by constructor|].
      split; [cbn [td_sizes]; rewrite Ht0len, Ht0size; repeat split; try lia; exact Hsz|].
      split; [done|]. split; [done|]. split; [cbn [length]; lia|].
      split; [done|]. done.
  - rewrite (wrap64_small (addr + len)) by lia.
    rewrite sg_trb_len_spec by lia.
    assert (Hneed1 : 0 < transfer_buffer_length u - (rt + len)
                         - Z.min (Z.min (to_boundary (addr + len)) (tl - len))
                             (transfer_buffer_length u - (rt + len)) ->
              sg_need (addr + len) (tl - len) rest (transfer_buffer_length u - (rt + len))
              <= num - 1).
    { intros Hmore.
      pose proof (to_boundary_range (addr + len)).
      assert (Hlb : len = to_boundary addr) by lia.
      pose proof (sg_need_same addr tl rest (transfer_buffer_length u - rt) ltac:(lia))
        as Hsame.
      rewrite Hlb.
      replace (transfer_buffer_length u - (rt + to_boundary addr))
        with (transfer_buffer_length u - rt - to_boundary addr) by lia.
      rewrite Hsame. specialize (Hneed ltac:(lia)). lia. }
    assert (Hub1 : num - 1 <= sg_need (addr + len) (tl - len) rest
                                (transfer_buffer_length u - (rt + len))).
    { destruct (Z.eq_dec len (to_boundary addr)) as [Hlb|Hlb].
      - pose proof (sg_need_same addr tl rest (transfer_buffer_length u - rt) ltac:(lia))
          as Hsame.
        rewrite Hlb.
        replace (transfer_buffer_length u - (rt + to_boundary addr))
          with (transfer_buffer_length u - rt - to_boundary addr) by lia.
        rewrite Hsame. lia.
      - assert (Hrem : len = transfer_buffer_length u - rt) by lia.
        unfold sg_need in *. rewrite entry_trbs_inside by lia.
        assert (E1 : (transfer_buffer_length u - rt <=? tl) = true)
          by (apply Z.leb_le; lia).
        assert (E2 : (transfer_buffer_length u - (rt + len) <=? tl - len) = true)
          by (apply Z.leb_le; lia).
        rewrite E1 in Hub. rewrite E2. lia. }
    destruct (IH false (num - 1) (rt + len) _ (tl - len) (addr + len) rest
                r1 td (out ++ [t0]) Hok1 Hrdy1 ltac:(lia) ltac:(lia) ltac:(lia)
                eq_refl ltac:(lia) ltac:(lia) ltac:(lia) Hrest ltac:(lia) Hneed1 Hlk1 Hn1
                Hp He1 Hin1 Hcap1 Hub1)
      as (bs & addr' & new & Hloop & Hokb & Hlenb & Hrdyb & Haddr' & Htrbs & Hsum & Hall
          & Hsz & Hlkb & Hinb & Hcnt & Hend' & Hfirst & Hseg).
    rewrite Hloop. exists bs, addr', (t0 :: new). split; [done|].
    split; [done|]. split; [by rewrite Hlenb|]. split; [done|]. split; [done|].
    split; [by rewrite Htrbs, <- app_assoc|].
    split; [cbn [td_bytes]; lia|]. split; [by constructor|].
    split; [cbn [td_sizes]; rewrite Ht0len, Ht0size; repeat split; try lia; exact Hsz|].
    split; [done|]. split; [done|]. split; [cbn [length]; lia|].
    split; [done|]. done.
Qed.


(** A TRB without bytes behind a TD that is complete. *)
Lemma td_sizes_zlp len maxp tz :
  trb_buf_len tz = 0 -> trb_td_size tz = 0 ->
  forall l rt, td_sizes len maxp rt l -> td_sizes len maxp rt (l ++ [tz]).
Proof.
  intros Hl Hs. induction l as [|t l IH]; intros rt H; cbn [td_sizes app] in *.
  - rewrite Hl, Hs.
    assert (E : (rt + 0 =? len) = true) by (apply Z.eqb_eq; lia). rewrite E. lia.
  - destruct H as (H1 & H2 & H3 & H4). repeat split; try done. by apply IH.
Qed.

(** [queue_bulk_sg_tx] on a well-formed ring with room: the TD it queues,
    and the TD as the ring holds it. *)
Lemma queue_bulk_sg_tx_ok (r0 : xhci_ring) (ep_info ep_state db ep_index : Z)
    (urb_id td_id : nat) (u : urb) (max_packet : Z) (zlp : bool) :
  ring_ok r0 -> ring_linked r0 -> trb_slot (length (segs r0)) (dequeue r0) ->
  Z.of_nat (ring_slots r0) < 2 ^ 32 ->
  ep_state_ok (Z.land ep_info EP_STATE_MASK) ->
  sg u <> [] -> Forall sg_ok (sg u) ->
  0 <= transfer_buffer_length u < 2 ^ 31 ->
  transfer_buffer_length u <= sg_bytes (sg u) ->
  sg_trbs_needed (sg u) (transfer_buffer_length u) < 2 ^ 31 ->
  bulk_max_packet None u = Some max_packet -> 0 < wrap32 max_packet < 65536 ->
  wants_zlp u (wrap32 max_packet) = Some zlp ->
  room_on_ring false r0 (sg_trbs_needed (sg u) (transfer_buffer_length u)) = Some true ->
  exists res,
    queue_bulk_sg_tx (Some r0) ep_info ep_state db ep_index urb_id td_id u = Some res
    /\ tx_ret res = 0
    /\ td_bytes (tx_trbs res) = transfer_buffer_length u
    /\ Forall (fun t => 0 <= trb_buf_len t
                        /\ trb_buf_addr t mod 65536 + trb_buf_len t <= 65536)
         (tx_trbs res)
    /\ td_sizes (transfer_buffer_length u) (wrap32 max_packet) 0 (tx_trbs res)
    /\ tx_trbs res <> []
    /\ exists r td c,
         tx_ring res = Some r /\ tx_td res = Some td /\ (c = 0 \/ c = 1)
         /\ td_trbs r td = Some (given_back c (tx_trbs res)).
Proof.
  intros Hok0 Hlink0 Hdeq0 Hsmall Hst Hne Hsgs HL Hcov Hmax Hmp Hmpr Hzlp Hroom.
  destruct (sg u) as [|s rest] eqn:Hsg; [done|]. clear Hne.
  pose proof Hsgs as Hsgs'.
  inversion Hsgs' as [|? ? (Hsa & Hsl & Hse) Hrest]; subst.
  set (N := sg_trbs_needed (s :: rest) (transfer_buffer_length u)) in *.
  assert (HN : 1 <= N).
  { unfold N. cbn [sg_trbs_needed].
    pose proof (entry_trbs_pos (sg_dma_address s) (sg_dma_len s) ltac:(lia)).
    assert (0 <= (if transfer_buffer_length u <=? sg_dma_len s then 0
                  else sg_trbs_needed rest (transfer_buffer_length u - sg_dma_len s)));
      [|lia].
    destruct (transfer_buffer_length u <=? sg_dma_len s); [lia|].
    by apply sg_trbs_needed_nonneg. }
  assert (Hcap : N + 1 <= Z.of_nat (ring_slots r0))
    by (apply room_on_ring_capacity; try done; lia).
  unfold ring_slots in Hcap.
  destruct (prepare_transfer_slots r0 ep_info _ urb_id td_id Hok0 Hlink0 Hst Hroom)
    as (r & t & Hprep & Hok & Hrdy & Hlk & Hn0 & Hfirst & Hseg).
  assert (Hp : trb_slot (length (segs r0)) (enqueue r)).
  { split; [rewrite <- Hn0; by apply ring_ok_enqueue_lt|exact Hrdy]. }
  unfold queue_bulk_sg_tx, count_sg_trbs_needed. rewrite Hsg.
  rewrite (to_int_small (transfer_buffer_length u)) by lia.
  rewrite count_sg_loop_spec by (done || fold N; lia). bind_some.
  fold N. rewrite Z.add_0_l, (wrap32_small N) by lia.
  rewrite Hprep. bind_some. rewrite Hmp. bind_some. rewrite Hzlp. bind_some.
  rewrite (to_int_small (sg_dma_len s)) by lia.
  pose proof (sg_trb_len_spec (transfer_buffer_length u) 0 (sg_dma_address s)
                (sg_dma_len s) ltac:(lia) ltac:(lia) ltac:(lia)) as Hlen0.
  rewrite Z.add_0_l, Z.sub_0_r, (to_int_small (transfer_buffer_length u)) in Hlen0 by lia.
  rewrite Hlen0. clear Hlen0.
  cbn [sg_bytes] in Hcov.
  assert (Hz : 0 <= (if zlp then 1 else 0) <= 1) by (destruct zlp; lia).
  destruct (bulk_sg_loop_ok u max_packet (cycle_state r) zlp (length (segs r0)) (enqueue r)
              HL Hmpr (Z.to_nat N) true N 0
              (Z.min (Z.min (to_boundary (sg_dma_address s)) (sg_dma_len s))
                 (transfer_buffer_length u))
              (sg_dma_len s) (sg_dma_address s) rest r t [] Hok Hrdy ltac:(lia)
              ltac:(lia) ltac:(lia) ltac:(lia) ltac:(lia) Hsa Hse Hrest ltac:(lia))
    as (bs & addr' & new & Hloop & Hokb & Hlenb & Hrdyb & Haddr' & Htrbs & Hsum & Hall
        & Hsz & Hlkb & Hinb & Hcnt & Hend' & Hfirstb & Hsegb); try done.
  { intros _. rewrite Z.sub_0_r. unfold N. cbn [sg_trbs_needed]. unfold sg_need. lia. }
  { cbn [length]. lia. }
  { rewrite Z.sub_0_r. unfold N. cbn [sg_trbs_needed]. unfold sg_need. lia. }
  rewrite Hloop. bind_some. cbn [app] in Htrbs.
  pose proof (ring_ok_enqueue_lt r Hok) as Hstart.
  pose proof Hrdy as Hstart2. unfold enq_ready in Hstart2.
  assert (Hnb : length (segs (bs_ring bs)) = length (segs r0)) by congruence.
  pose proof (ring_ok_cycle r Hok) as Hcyc.
  destruct zlp.
  - specialize (Hrdyb eq_refl).
    assert (Hcapb : (length (bs_trbs bs) < length (segs r0) * (TRBS_PER_SEGMENT - 1))%nat)
      by (rewrite Htrbs; lia).
    queue_slot_as r1 Hq Hok1 Hlk1 Hn1 Hin1 He1. bind_some.
    destruct (giveback_start_trb_ok r1 (enqueue r) (cycle_state r) Hok1) as [r2 Hg];
      [lia|done|].
    rewrite Hg. bind_some. eexists. split; [reflexivity|].
    cbn [tx_ret tx_trbs tx_ring tx_td].
    match goal with |- context [bs_trbs bs ++ [?t]] => set (tz := t) in * end.
    assert (Hwalk : td_trbs r2 (set_last_trb (enqueue (bs_ring bs)) (bs_td bs))
                    = Some (given_back (cycle_state r) (bs_trbs bs ++ [tz]))).
    { apply (td_trbs_given_back r1 (enqueue r));
        [ by destruct Hok1 | exact Hlk1 | by rewrite Hn1
        | unfold ring_slots; rewrite Hn1, length_app; cbn [length]; lia
        | exact Hin1 | exact Hcyc | exact Hg
        | cbn [td_first_trb set_last_trb]; by rewrite Hfirstb
        | cbn [td_start_seg set_last_trb]; by rewrite Hsegb
        | cbn [td_last_trb set_last_trb]; rewrite Hend', Hn1, length_app;
          do 2 f_equal; cbn [length]; lia ]. }
    split; [done|]. rewrite Htrbs in Hwalk |- *. split.
    { rewrite td_bytes_app. cbn [td_bytes].
      change (trb_buf_len tz) with 0. lia. }
    split.
    { apply Forall_app. split; [done|]. constructor; [|constructor].
      unfold tz. rewrite trb_buf_addr_split by lia. change (trb_buf_len _) with 0.
      pose proof (Z.mod_pos_bound addr' 65536 ltac:(lia)). lia. }
    split.
    { by apply td_sizes_zlp. }
    split; [by destruct new|].
    exists r2, (set_last_trb (enqueue (bs_ring bs)) (bs_td bs)), (cycle_state r).
    by repeat split.
  - destruct (giveback_start_trb_ok (bs_ring bs) (enqueue r) (cycle_state r) Hokb)
      as [r2 Hg]; [lia|done|].
    cbv iota. bind_some. rewrite Hg. bind_some. eexists. split; [reflexivity|].
    cbn [tx_ret tx_trbs tx_ring tx_td].
    assert (Hwalk : td_trbs r2 (bs_td bs)
                    = Some (given_back (cycle_state r) (bs_trbs bs))).
    { apply (td_trbs_given_back (bs_ring bs) (enqueue r));
        [ by destruct Hokb | exact Hlkb | by rewrite Hnb
        | unfold ring_slots; rewrite Hnb, Htrbs; lia
        | exact Hinb | exact Hcyc | exact Hg
        | by rewrite Hfirstb | by rewrite Hsegb | by rewrite Hnb ]. }
    split; [done|]. rewrite Htrbs in Hwalk |- *. split; [lia|]. split; [done|].
    split; [done|].
    split; [intros ->; cbn [length] in Hcnt; lia|].
    exists r2, (bs_td bs), (cycle_state r). by repeat split.
Qed.


(** *** The TD of a bulk transfer as the ring holds it *)

(** Giving the first TRB back changes its control word only. *)
Lemma td_layout_given_back len maxp wa rt addr c l :
  td_layout len maxp wa rt addr l -> td_layout len maxp wa rt addr (given_back c l).
Proof. destruct l as [|t l]; [done|]. intros H. exact H. Qed.

Lemma td_sizes_given_back len maxp rt c l :
  td_sizes len maxp rt l -> td_sizes len maxp rt (given_back c l).
Proof. destruct l as [|t l]; [done|]. intros H. exact H. Qed.

Lemma tail_given_back c l : tail (given_back c l) = tail l.
Proof. by destruct l. Qed.

Lemma Forall_given_back (P : xhci_trb -> Prop) c l :
  (forall t x, P t -> P (set_control t x)) -> Forall P l -> Forall P (given_back c l).
Proof.
  intros HP Hl. destruct Hl as [|t l Ht Hl]; [constructor|].
  constructor; [by apply HP|done].
Qed.

Lemma td_layout_td_sizes len maxp wa : forall l rt addr,
  td_layout len maxp wa rt addr l -> td_sizes len maxp rt l.
Proof.
  induction l as [|t l IH]; intros rt addr H; [done|].
  destruct H as (H0 & Hle & _ & _ & Hsz & Hl). cbn [td_sizes].
  repeat split; try done. by eapply IH.
Qed.

Lemma td_sizes_nonneg len maxp : forall l rt,
  td_sizes len maxp rt l -> Forall (fun t => 0 <= trb_buf_len t) l.
Proof.
  induction l as [|t l IH]; intros rt H; [constructor|].
  destruct H as (H0 & _ & _ & Hl). constructor; [done|]. by eapply IH.
Qed.

Lemma td_sizes_bytes len maxp : forall l rt,
  td_sizes len maxp rt l -> rt + td_bytes l = len.
Proof.
  induction l as [|t l IH]; intros rt H; cbn [td_sizes td_bytes] in *; [lia|].
  destruct H as (_ & _ & _ & Hl). apply IH in Hl. lia.
Qed.

Lemma td_sizes_lookup len maxp : forall l rt i t,
  td_sizes len maxp rt l -> l !! i = Some t ->
  rt + td_bytes (take i l) + trb_buf_len t <= len
  /\ trb_td_size t = (if rt + td_bytes (take i l) + trb_buf_len t =? len then 0
                      else packets_left len maxp (rt + td_bytes (take i l))).
Proof.
  induction l as [|a l IH]; intros rt i t H Hi; [done|].
  destruct H as (H0 & Hle & Hsz & Hl). destruct i as [|i].
  - injection Hi as <-. cbn [take td_bytes]. rewrite !Z.add_0_r. done.
  - destruct (IH _ i t Hl Hi) as (Hle' & Hsz').
    cbn [take td_bytes]. rewrite !Z.add_assoc. done.
Qed.

(** The TD sizes never grow along the TD, and the last one is zero. *)
Lemma td_sizes_mono len maxp l i j ti tj :
  0 < maxp -> td_sizes len maxp 0 l -> (i <= j)%nat ->
  l !! i = Some ti -> l !! j = Some tj -> trb_td_size tj <= trb_td_size ti.
Proof.
  intros Hm Hl Hij Hi Hj.
  destruct (decide (i = j)) as [->|Hne]; [rewrite Hi in Hj; injection Hj as <-; lia|].
  pose proof (td_sizes_nonneg _ _ _ _ Hl) as Hnn.
  destruct (td_sizes_lookup _ _ _ _ _ _ Hl Hi) as (Hlei & ->).
  destruct (td_sizes_lookup _ _ _ _ _ _ Hl Hj) as (Hlej & ->).
  pose proof (td_bytes_take_mono l (S i) j Hnn ltac:(lia)) as Hmono.
  rewrite (td_bytes_take_S _ _ _ Hi) in Hmono.
  pose proof (td_bytes_nonneg (take i l) ltac:(by apply Forall_take)) as H0i.
  assert (0 <= trb_buf_len ti /\ 0 <= trb_buf_len tj) as [? ?].
  { rewrite Forall_lookup in Hnn. split; by eapply Hnn. }
  pose proof (packets_left_mono len maxp (0 + td_bytes (take i l))
                (0 + td_bytes (take j l)) Hm ltac:(lia)).
  pose proof (packets_left_range len maxp (0 + td_bytes (take j l)) Hm ltac:(lia)).
  pose proof (packets_left_range len maxp (0 + td_bytes (take i l)) Hm ltac:(lia)).
  destruct (0 + td_bytes (take i l) + _ =? len) eqn:Ei;
    destruct (0 + td_bytes (take j l) + _ =? len) eqn:Ej;
    rewrite ?Z.eqb_eq, ?Z.eqb_neq in *; lia.
Qed.

Lemma td_sizes_last len maxp l t :
  td_sizes len maxp 0 l -> last l = Some t -> trb_td_size t = 0.
Proof.
  intros Hl Hlast. rewrite last_lookup in Hlast.
  destruct (td_sizes_lookup _ _ _ _ _ _ Hl Hlast) as (_ & ->).
  pose proof (td_sizes_bytes _ _ _ _ Hl) as Hb.
  pose proof (td_bytes_take_S _ _ _ Hlast) as Hs.
  assert (Hlen : (0 < length l)%nat) by (apply lookup_lt_Some in Hlast; lia).
  replace (S (pred (length l))) with (length l) in Hs by lia.
  rewrite firstn_all in Hs.
  assert (E : (0 + td_bytes (take (pred (length l)) l) + trb_buf_len t =? len) = true)
    by (apply Z.eqb_eq; lia).
  by rewrite E.
Qed.

(** Where every TRB after the first carries data, only the last TRB has TD
    size zero. *)
Lemma td_sizes_pos len maxp l i t :
  0 < maxp -> td_sizes len maxp 0 l ->
  Forall (fun t => 0 < trb_buf_len t) (tail l) ->
  l !! i = Some t -> (S i < length l)%nat -> 0 < trb_td_size t.
Proof.
  intros Hm Hl Hpos Hi Hlt.
  destruct (lookup_lt_is_Some_2 l (S i) Hlt) as [t' Hi'].
  assert (Ht' : 0 < trb_buf_len t').
  { rewrite Forall_lookup in Hpos. apply (Hpos i). by destruct l. }
  destruct (td_sizes_lookup _ _ _ _ _ _ Hl Hi) as (_ & ->).
  destruct (td_sizes_lookup _ _ _ _ _ _ Hl Hi') as (Hle & _).
  rewrite (td_bytes_take_S _ _ _ Hi) in Hle.
  pose proof (td_sizes_nonneg _ _ _ _ Hl) as Hnn.
  pose proof (td_bytes_nonneg (take i l) ltac:(by apply Forall_take)) as H0i.
  assert (E : (0 + td_bytes (take i l) + trb_buf_len t =? len) = false)
    by (apply Z.eqb_neq; lia).
  rewrite E. apply packets_left_pos; [done|].
  assert (0 <= trb_buf_len t) by (rewrite Forall_lookup in Hnn; by eapply Hnn).
  lia.
Qed.

(** [xhci_queue_bulk_tx], with or without a scatterlist, on a well-formed
    ring with room: the TRBs of the TD in the ring. *)
Lemma xhci_queue_bulk_tx_ring (r0 : xhci_ring) (ep_info ep_state db ep_index : Z)
    (urb_id td_id : nat) (u : urb) (max_packet : Z) (zlp : bool) :
  ring_ok r0 -> ring_linked r0 -> trb_slot (length (segs r0)) (dequeue r0) ->
  Z.of_nat (ring_slots r0) < 2 ^ 32 ->
  ep_state_ok (Z.land ep_info EP_STATE_MASK) ->
  g_td_to_noop = false ->
  0 <= transfer_buffer_length u < 2 ^ 31 -> urb_buffer_ok u ->
  bulk_max_packet None u = Some max_packet -> 0 < wrap32 max_packet < 65536 ->
  wants_zlp u (wrap32 max_packet) = Some zlp ->
  room_on_ring false r0 (urb_trbs_needed u zlp) = Some true ->
  exists res r td l,
    xhci_queue_bulk_tx (Some r0) ep_info ep_state db ep_index urb_id td_id u = Some res
    /\ tx_ret res = 0
    /\ tx_ring res = Some r /\ tx_td res = Some td /\ td_trbs r td = Some l
    /\ l <> []
    /\ td_sizes (transfer_buffer_length u) (wrap32 max_packet) 0 l
    /\ Forall (fun t => 0 <= trb_buf_len t <= 65536) l
    /\ (carries_address u = true ->
        Forall (fun t => trb_buf_addr t mod 65536 + trb_buf_len t <= 65536) l)
    /\ (sg u = [] -> zlp = false -> Forall (fun t => 0 < trb_buf_len t) (tail l)).
Proof.
  intros Hok0 Hlink0 Hdeq0 Hsmall Hst Hnoop HL Hbuf Hmp Hmpr Hzlp Hroom.
  unfold urb_trbs_needed, urb_buffer_ok, carries_address in *.
  destruct (sg u) as [|s rest] eqn:Hsg.
  - destruct Hbuf as [Hdma Hend].
    destruct (xhci_queue_bulk_tx_layout r0 ep_info ep_state db ep_index urb_id td_id u
                max_packet zlp)
      as (res & Hres & Hret & Hcnt & Hlay & Hpos & r & td & c & Hr & Htd & _ & Hl);
      try done; [by apply bulk_max_packet_known|].
    apply (td_layout_given_back _ _ _ _ _ c) in Hlay.
    exists res, r, td, (given_back c (tx_trbs res)).
    split; [done|]. split; [done|]. split; [done|]. split; [done|]. split; [done|].
    split.
    { intros Hnil. apply (f_equal length) in Hnil.
      rewrite length_given_back, Hcnt in Hnil. cbn [length] in Hnil.
      pose proof (to_boundary_range (transfer_dma u)).
      pose proof (chunks_after_range (to_boundary (transfer_dma u))
                    (transfer_buffer_length u) ltac:(lia) ltac:(lia)).
      unfold bulk_trbs_needed in Hnil. destruct zlp; lia. }
    split; [by eapply td_layout_td_sizes|].
    split; [|split].
    + apply Forall_lookup. intros i t Hi.
      destruct (td_layout_lookup _ _ _ _ _ _ _ _ Hlay Hi) as (_ & Hblk & _).
      pose proof (td_layout_nonneg _ _ _ _ _ _ Hlay) as Hnn.
      rewrite Forall_lookup in Hnn. specialize (Hnn i t Hi). cbv beta in Hnn.
      pose proof (Z.mod_pos_bound
                    (transfer_dma u + td_bytes (take i (given_back c (tx_trbs res))))
                    65536 ltac:(lia)).
      lia.
    + intros Hwa. apply Forall_lookup. intros i t Hi.
      destruct (td_layout_lookup _ _ _ _ _ _ _ _ Hlay Hi) as (_ & Hblk & Ha & _).
      by rewrite (Ha Hwa).
    + intros _ Hz. rewrite tail_given_back. by apply Hpos.
  - destruct Hbuf as (Hsgs & Hcov & Hmax).
    destruct (queue_bulk_sg_tx_ok r0 ep_info ep_state db ep_index urb_id td_id u
                max_packet zlp)
      as (res & Hres & Hret & Hsum & Hall & Hsz & Hne & r & td & c & Hr & Htd & _ & Hl);
      try done; try (by rewrite Hsg).
    exists res, r, td, (given_back c (tx_trbs res)).
    unfold xhci_queue_bulk_tx. rewrite Hsg. cbn [length Nat.eqb negb].
    apply (Forall_given_back _ c) in Hall; [|done].
    split; [done|]. split; [done|]. split; [done|]. split; [done|]. split; [done|].
    split; [by destruct (tx_trbs res)|].
    split; [by apply td_sizes_given_back|].
    split; [|split].
    + eapply Forall_impl; [exact Hall|]. intros t [H0 Hblk]. cbv beta.
      pose proof (Z.mod_pos_bound (trb_buf_addr t) 65536 ltac:(lia)). lia.
    + intros _. eapply Forall_impl; [exact Hall|]. by intros t [_ Hblk].
    + done.
Qed.

(** C4.  [xhci_queue_bulk_tx] (and [queue_bulk_sg_tx], which it hands a URB
    with a scatterlist to) on a well-formed ring with room, for a transfer
    whose length fits an [int] and whose buffer holds it: the builder
    succeeds, and of the TRBs its TD has in the ring every one carries at
    most 64KB, its bytes lie within one 64KB-aligned block of the buffer
    address, and the lengths add up to the transfer length. *)
Theorem bulk_tx_split (r0 : xhci_ring) (ep_info ep_state db ep_index : Z)
    (urb_id td_id : nat) (u : urb) (max_packet : Z) (zlp : bool) :
  ring_ok r0 -> ring_linked r0 -> trb_slot (length (segs r0)) (dequeue r0) ->
  Z.of_nat (ring_slots r0) < 2 ^ 32 ->
  ep_state_ok (Z.land ep_info EP_STATE_MASK) ->
  g_td_to_noop = false ->
  0 <= transfer_buffer_length u < 2 ^ 31 -> urb_buffer_ok u ->
  bulk_max_packet None u = Some max_packet -> 0 < wrap32 max_packet < 65536 ->
  wants_zlp u (wrap32 max_packet) = Some zlp ->
  room_on_ring false r0 (urb_trbs_needed u zlp) = Some true ->
  exists res r td l,
    xhci_queue_bulk_tx (Some r0) ep_info ep_state db ep_index urb_id td_id u = Some res
    /\ tx_ret res = 0
    /\ tx_ring res = Some r /\ tx_td res = Some td /\ td_trbs r td = Some l
    /\ td_bytes l = transfer_buffer_length u
    /\ Forall (fun t => 0 <= trb_buf_len t <= 65536) l
    /\ (carries_address u = true -> Forall in_64k_block l).
Proof.
  intros Hok0 Hlink0 Hdeq0 Hsmall Hst Hnoop HL Hbuf Hmp Hmpr Hzlp Hroom.
  destruct (xhci_queue_bulk_tx_ring r0 ep_info ep_state db ep_index urb_id td_id u
              max_packet zlp)
    as (res & r & td & l & Hres & Hret & Hr & Htd & Hl & _ & Hsz & Hlen & Hblk & _);
    try done.
  exists res, r, td, l.
  split; [done|]. split; [done|]. split; [done|]. split; [done|]. split; [done|].
  split; [pose proof (td_sizes_bytes _ _ _ _ Hsz); lia|].
  split; [done|].
  intros Hwa. eapply Forall_impl; [exact (Hblk Hwa)|].
  intros t Ht. by apply in_64k_block_mod.
Qed.

(** C5 (amended).  In the TD that [xhci_queue_bulk_tx] (for a scatterlist,
    [queue_bulk_sg_tx]) puts in the ring, the TD size of a TRB that completes
    the transfer length is zero, and the TD size of every other TRB is the
    number of packets of the whole transfer less the whole packets queued
    before that TRB (so the packets of the TRB itself still count), capped at
    31.  Along the TD the field never grows and it is zero on the last TRB;
    in a TD for a buffer without scatterlist and without a zero-length packet
    it is zero on the last TRB only. *)
Theorem bulk_td_size (r0 : xhci_ring) (ep_info ep_state db ep_index : Z)
    (urb_id td_id : nat) (u : urb) (max_packet : Z) (zlp : bool) :
  ring_ok r0 -> ring_linked r0 -> trb_slot (length (segs r0)) (dequeue r0) ->
  Z.of_nat (ring_slots r0) < 2 ^ 32 ->
  ep_state_ok (Z.land ep_info EP_STATE_MASK) ->
  g_td_to_noop = false ->
  0 <= transfer_buffer_length u < 2 ^ 31 -> urb_buffer_ok u ->
  bulk_max_packet None u = Some max_packet -> 0 < wrap32 max_packet < 65536 ->
  wants_zlp u (wrap32 max_packet) = Some zlp ->
  room_on_ring false r0 (urb_trbs_needed u zlp) = Some true ->
  exists res r td l,
    xhci_queue_bulk_tx (Some r0) ep_info ep_state db ep_index urb_id td_id u = Some res
    /\ tx_ret res = 0
    /\ tx_ring res = Some r /\ tx_td res = Some td /\ td_trbs r td = Some l
    /\ (forall i t, l !! i = Some t ->
          trb_td_size t =
            if td_bytes (take i l) + trb_buf_len t =? transfer_buffer_length u
            then 0
            else packets_left (transfer_buffer_length u) (wrap32 max_packet)
                   (td_bytes (take i l)))
    /\ (forall i j ti tj, (i <= j)%nat ->
          l !! i = Some ti -> l !! j = Some tj -> trb_td_size tj <= trb_td_size ti)
    /\ (exists t, last l = Some t /\ trb_td_size t = 0)
    /\ (sg u = [] -> zlp = false -> forall i t,
          l !! i = Some t -> (S i < length l)%nat -> 0 < trb_td_size t).
Proof.
  intros Hok0 Hlink0 Hdeq0 Hsmall Hst Hnoop HL Hbuf Hmp Hmpr Hzlp Hroom.
  destruct (xhci_queue_bulk_tx_ring r0 ep_info ep_state db ep_index urb_id td_id u
              max_packet zlp)
    as (res & r & td & l & Hres & Hret & Hr & Htd & Hl & Hne & Hsz & Hlen & _ & Hpos);
    try done.
  exists res, r, td, l.
  split; [done|]. split; [done|]. split; [done|]. split; [done|]. split; [done|].
  split; [|split; [|split]].
  - intros i t Hi. by destruct (td_sizes_lookup _ _ _ _ _ _ Hsz Hi) as (_ & ->).
  - intros i j ti tj. eapply td_sizes_mono; [|exact Hsz]. lia.
  - destruct (last l) as [t|] eqn:Hlast.
    + exists t. split; [done|]. by eapply td_sizes_last.
    + by apply last_None in Hlast.
  - intros Hsg Hz i t Hi Hlt.
    assert (Hm : 0 < wrap32 max_packet) by lia.
    exact (td_sizes_pos _ _ _ i t Hm Hsz (Hpos Hsg Hz) Hi Hlt).
Qed.


(** *** Command completions on a well-formed command ring *)

(** C7 (amended).  A command completion whose command-TRB address is not the
    DMA address of the command ring's dequeue pointer, or whose dequeue
    pointer has no DMA address in its segment, sets a desync bit of
    [error_bitmask] and changes nothing else, so the dequeue cursor stays.
    Otherwise the handler records the result by the type of the command TRB
    at the dequeue pointer and advances the dequeue cursor by one [inc_deq]
    ([advanced] below; [r] is the ring after that step):
    - no-op: nothing is recorded;
    - Enable Slot: [CMD_DONE] and the slot id on success, [CMD_FAIL] and slot
      id 0 otherwise;
    - Disable Slot: [CMD_DONE] and the slot id on success, nothing otherwise;
    - Address Device: [CMD_DONE] on success and when the command was
      aborted, [CMD_FAIL] otherwise;
    - Configure Endpoint, Reset Device, Stop Endpoint, Evaluate Context:
      [CMD_DONE] on success, [CMD_FAIL] otherwise;
    - Set TR Dequeue: on success [SET_DEQ_PENDING] of the endpoint is cleared
      and [CMD_DONE] recorded, otherwise [CMD_FAIL];
    - Reset Endpoint: [EP_HALTED] of the endpoint is cleared and [CMD_DONE]
      recorded, whatever the completion code;
    - a TRB of no known command type: bit 6 of [error_bitmask] and
      [CMD_FAIL], except that with code [COMP_CMD_STOP] (the command ring was
      stopped) the handler records [CMD_DONE] and returns without advancing
      the cursor.
    The two cases that write to an endpoint return whenever the endpoint the
    command TRB names exists.  On a command ring whose
    segments end in their only link TRB and are linked in the order of the
    store, with the dequeue pointer on a TRB in front of the link TRB, the
    command TRB is there and [inc_deq] returns, with the dequeue pointer on
    the next TRB slot of the ring. *)
Theorem cmd_completion_dispatch (x : xhci_hcd) (event : xhci_event_cmd) (dq : Z) :
  xhci_trb_virt_to_dma (cmd_ring x) (Some (deq_seg (cmd_ring x)))
    (Some (dequeue (cmd_ring x))) = Some dq ->
  (dq = 0 ->
   handle_cmd_completion x event
   = Some (set_error_bitmask (Z.lor (error_bitmask x) (Z.shiftl 1 4)) x))
  /\ (dq <> 0 -> cmd_trb event <> dq ->
      handle_cmd_completion x event
      = Some (set_error_bitmask (Z.lor (error_bitmask x) (Z.shiftl 1 5)) x))
  /\ (dq <> 0 -> cmd_trb event = dq ->
      forall trb r,
        read_trb (cmd_ring x) (dequeue (cmd_ring x)) = Some trb ->
        inc_deq false (cmd_ring x) false = Some r ->
        let ty := Z.land (field3 trb) TRB_TYPE_BITMASK in
        let comp := GET_COMP_CODE (cev_status event) in
        let slot_id := TRB_TO_SLOT_ID (cev_flags event) in
        let ep := (slot_id, TRB_TO_EP_INDEX (field3 trb)) in
        let status := if comp =? COMP_SUCCESS then CMD_DONE else CMD_FAIL in
        let advanced (x1 : xhci_hcd) :=
          handle_cmd_completion x event = Some (set_cmd_ring r x1) in
        let flag_cleared (flag : Z) :=
          forall e, get_ep x ep = Some e ->
            exists x1,
              set_ep x ep (mk_ep (vep_ring e) (Z.land (vep_state e) (Z.lnot flag))
                             (stopped_td e) (stopped_trb e) (stopped_stream e)) = Some x1
              /\ advanced (set_g_cmd_status CMD_DONE x1) in
        (ty = TRB_TYPE TRB_CMD_NOOP -> advanced x)
        /\ (ty = TRB_TYPE TRB_ENABLE_SLOT ->
            advanced (set_g_cmd_status status
                        (set_g_slot_id (if comp =? COMP_SUCCESS then slot_id else 0) x)))
        /\ (ty = TRB_TYPE TRB_DISABLE_SLOT ->
            advanced (if comp =? COMP_SUCCESS
                      then set_g_cmd_status CMD_DONE (set_g_slot_id slot_id x) else x))
        /\ (ty = TRB_TYPE TRB_ADDR_DEV ->
            advanced (set_g_cmd_status
                        (if (comp =? COMP_SUCCESS) || (comp =? COMP_CMD_ABORT)
                         then CMD_DONE else CMD_FAIL) x))
        /\ (ty = TRB_TYPE TRB_CONFIG_EP \/ ty = TRB_TYPE TRB_RESET_DEV
            \/ ty = TRB_TYPE TRB_STOP_RING \/ ty = TRB_TYPE TRB_EVAL_CONTEXT ->
            advanced (set_g_cmd_status status x))
        /\ (ty = TRB_TYPE TRB_SET_DEQ -> comp <> COMP_SUCCESS ->
            advanced (set_g_cmd_status CMD_FAIL x))
        /\ (ty = TRB_TYPE TRB_SET_DEQ -> comp = COMP_SUCCESS ->
            flag_cleared SET_DEQ_PENDING)
        /\ (ty = TRB_TYPE TRB_RESET_EP -> flag_cleared EP_HALTED)
        /\ (cmd_type_known ty = false -> comp = COMP_CMD_STOP ->
            handle_cmd_completion x event = Some (set_g_cmd_status CMD_DONE x))
        /\ (cmd_type_known ty = false -> comp <> COMP_CMD_STOP ->
            advanced (set_g_cmd_status CMD_FAIL
                        (set_error_bitmask (Z.lor (error_bitmask x) (Z.shiftl 1 6)) x))))
  /\ (mem_ok (cmd_ring x) -> ring_linked (cmd_ring x) -> deq_ok (cmd_ring x) ->
      exists trb r,
        read_trb (cmd_ring x) (dequeue (cmd_ring x)) = Some trb
        /\ inc_deq false (cmd_ring x) false = Some r
        /\ dequeue r = slot_succ (length (segs (cmd_ring x))) (dequeue (cmd_ring x))).
Proof.
  intros Hdma.
  destruct (cmd_completion_dispatch_spec x event dq Hdma) as (H1 & H2 & H3).
  split; [exact H1|]. split; [exact H2|]. split; [exact H3|].
  intros Hmem Hlink Hdeq.
  destruct (slot_read (cmd_ring x) (dequeue (cmd_ring x)) Hmem Hlink (proj2 Hdeq))
    as (sg & t & t1 & _ & _ & Hrd & _).
  destruct (inc_deq_slot (cmd_ring x) Hmem Hlink Hdeq) as (r & Hr & Hd & _).
  by exists t, r.
Qed.

End RingEngine.

(** * Evaluations

    The code run on the concrete rings, requests and controller states
    defined above. *)


(** C1: the dequeue cursor of a transfer ring crosses a link TRB that carries
    the toggle flag and [cycle_state] stays as it was; the enqueue cursor that
    lands on the link TRB after the last TRB of a TD stays on it. *)
Lemma ring_cursor_advance_counterexample :
  exists t r1 r2,
    read_trb ex_ring (ptr_succ (dequeue ex_ring)) = Some t
    /\ is_link_trb t = true /\ tst (field3 t) LINK_TOGGLE = true
    /\ inc_deq 4 false ex_ring false = Some r1
    /\ dequeue r1 = (0, 0)%nat /\ cycle_state r1 = cycle_state ex_ring
    /\ inc_enq 4 false false ex_ring false false = Some r2
    /\ enqueue r2 = ptr_succ (enqueue ex_ring) /\ read_trb r2 (enqueue r2) = Some t.
Proof. repeat eexists. Qed.

Lemma ring_cursor_advance_witness :
  inc_deq 4 false ex_ring true
  = Some (toggle_cycle (deq_moved ex_ring 0 (0, 0)%nat)).
Proof.
  destruct (ring_cursor_advance 4 false ex_ring ltac:(lia)) as (_ & H & _).
  exact (H true (link_trb LINK_TOGGLE) ex_seg zero_trb eq_refl eq_refl eq_refl eq_refl eq_refl).
Defined.

(** C2: with more TRBs coming the link TRB's cycle bit is flipped at once,
    and with none coming it is left alone. *)
Lemma link_trb_handover_counterexample :
  exists t r1 t1 r2 t2,
    read_trb ex_ring (ptr_succ (enqueue ex_ring)) = Some t
    /\ is_link_trb t = true /\ tst (field3 t) TRB_CYCLE = false
    /\ inc_enq 4 false false ex_ring false true = Some r1
    /\ read_trb r1 (ptr_succ (enqueue ex_ring)) = Some t1
    /\ tst (field3 t1) TRB_CYCLE = true
    /\ inc_enq 4 false false ex_ring false false = Some r2
    /\ read_trb r2 (ptr_succ (enqueue ex_ring)) = Some t2
    /\ tst (field3 t2) TRB_CYCLE = false.
Proof. repeat eexists. Qed.

Lemma link_trb_handover_witness :
  exists r1,
    inc_enq 4 false false ex_ring false false = Some r1
    /\ segs r1 = segs ex_ring /\ enqueue r1 = (0, 3)%nat.
Proof.
  destruct (link_trb_handover 4 false ex_ring zero_trb (link_trb LINK_TOGGLE) zero_trb
              ex_seg eq_refl eq_refl eq_refl eq_refl eq_refl eq_refl) as [H _].
  destruct (H eq_refl) as (r1 & H1 & H2 & H3 & _).
  exists r1. repeat split; assumption.
Defined.

(** C3.  The room check does not see a dequeue pointer that rests on a link
    TRB, where [xhci_find_new_dequeue_state] leaves it after a TD that ends
    in front of the link TRB: its cursor steps over link TRBs and never
    equals the dequeue pointer.  On the ring of three TRB slots
    [room_on_ring] finds room for five TRBs, [prepare_ring] returns 0, and
    [xhci_queue_bulk_tx] queues five TRBs over the three slots: when it
    returns, the first TRB of its TD holds the fourth piece of the buffer. *)
Theorem room_check_overrun :
  (exists t, read_trb ex_ring_deq_link (dequeue ex_ring_deq_link) = Some t
             /\ is_link_trb t = true)
  /\ length (segs ex_ring_deq_link) = 1%nat
  /\ room_on_ring 4 false ex_ring_deq_link 5 = Some true
  /\ prepare_ring 4 false false ex_ring_deq_link EP_STATE_RUNNING 5
     = Some (0, ex_ring_deq_link)
  /\ exists res r td t,
       xhci_queue_bulk_tx 4 false false false false (Some ex_ring_deq_link) 1 0 0 0
         0%nat 0%nat (ex_bulk_urb 65536 327680 0 []) = Some res
       /\ tx_ret res = 0 /\ tx_ring res = Some r /\ tx_td res = Some td
       /\ read_trb r (td_first_trb td) = Some t
       /\ transfer_dma (ex_bulk_urb 65536 327680 0 []) = 65536
       /\ trb_buf_addr t = 262144.
Proof.
  split; [eexists; split; reflexivity|]. split; [reflexivity|].
  split; [reflexivity|]. split; [reflexivity|].
  eexists. eexists. eexists. eexists.
  split; [vm_compute; reflexivity|]. repeat split.
Qed.

(** C9: a submission against a halted endpoint passes [prepare_ring]. *)
Lemma submission_state_gate_counterexample :
  prepare_ring 4 false false ex_ring EP_STATE_HALTED 1 = Some (0, ex_ring).
Proof. reflexivity. Qed.


Lemma ex_ring16_ok : ring_ok 16 ex_ring16.
Proof. repeat split; try (vm_compute; lia); repeat constructor. Qed.

Lemma ex_ring16_linked : ring_linked ex_ring16.
Proof. intros [|i] sg H; [by injection H as <-|discriminate H]. Qed.

Lemma ex_ring16_deq : trb_slot 16 (length (segs ex_ring16)) (dequeue ex_ring16).
Proof. split; cbn; lia. Qed.

(** C4: a buffer of 200000 bytes at 65000, and a scatterlist of two entries
    for 2000 bytes. *)
Lemma bulk_tx_split_witness :
  (exists res r td l,
     xhci_queue_bulk_tx 16 false false false false (Some ex_ring16) 1 0 0 0 0%nat 0%nat
       (ex_bulk_urb 65000 200000 0 []) = Some res
     /\ tx_ring res = Some r /\ tx_td res = Some td /\ td_trbs 16 r td = Some l
     /\ td_bytes l = 200000 /\ Forall in_64k_block l)
  /\ (exists res r td l,
        xhci_queue_bulk_tx 16 false false false false (Some ex_ring16) 1 0 0 0 0%nat 0%nat
          (ex_bulk_urb 0 2000 0 [mk_sg 65024 1024; mk_sg 200000 3000]) = Some res
        /\ tx_ring res = Some r /\ tx_td res = Some td /\ td_trbs 16 r td = Some l
        /\ td_bytes l = 2000 /\ Forall in_64k_block l).
Proof.
  split.
  - destruct (bulk_tx_split 16 false false false false ex_ring16 1 0 0 0 0%nat 0%nat
                (ex_bulk_urb 65000 200000 0 []) 512 false ex_ring16_ok
                ex_ring16_linked ex_ring16_deq ltac:(vm_compute; reflexivity)
                ltac:(vm_compute; auto) eq_refl ltac:(simpl; lia)
                ltac:(unfold urb_buffer_ok; simpl; lia)
                eq_refl ltac:(vm_compute; split; reflexivity) eq_refl
                ltac:(vm_compute; reflexivity))
      as (res & r & td & l & H & _ & Hr & Htd & Hl & Hsum & _ & Hblk).
    exists res, r, td, l. split; [exact H|]. split; [exact Hr|]. split; [exact Htd|].
    split; [exact Hl|]. split; [exact Hsum|exact (Hblk eq_refl)].
  - destruct (bulk_tx_split 16 false false false false ex_ring16 1 0 0 0 0%nat 0%nat
                (ex_bulk_urb 0 2000 0 [mk_sg 65024 1024; mk_sg 200000 3000]) 512 false
                ex_ring16_ok ex_ring16_linked ex_ring16_deq ltac:(vm_compute; reflexivity)
                ltac:(vm_compute; auto) eq_refl ltac:(simpl; lia)
                ltac:(unfold urb_buffer_ok, sg_ok; simpl;
                      split; [repeat constructor; simpl; lia
                             |split; [lia|vm_compute; reflexivity]])
                eq_refl ltac:(vm_compute; split; reflexivity) eq_refl
                ltac:(vm_compute; reflexivity))
      as (res & r & td & l & H & _ & Hr & Htd & Hl & Hsum & _ & Hblk).
    exists res, r, td, l. split; [exact H|]. split; [exact Hr|]. split; [exact Htd|].
    split; [exact Hl|]. split; [exact Hsum|exact (Hblk eq_refl)].
Defined.

(** C5: 1024 bytes at 65024 in packets of 512 bytes take two TRBs of one
    packet each; the first TRB has TD size 2, while one packet remains after
    it.  And 66000 bytes of a scatterlist entry of 200000 bytes take the four
    TRBs of the entry; the TD size is zero from the second TRB on.  And 1024
    bytes with a zero-length packet behind them are two TRBs of TD size
    zero. *)
Lemma bulk_td_size_counterexample :
  (exists res r td l t,
     xhci_queue_bulk_tx 16 false false false false (Some ex_ring16) 1 0 0 0 0%nat 0%nat
       (ex_bulk_urb 65024 1024 0 []) = Some res
     /\ tx_ring res = Some r /\ tx_td res = Some td /\ td_trbs 16 r td = Some l
     /\ length l = 2%nat /\ l !! 0%nat = Some t
     /\ trb_buf_len t = 512 /\ (1024 - trb_buf_len t) / 512 = 1
     /\ trb_td_size t = 2)
  /\ (exists res r td l,
        xhci_queue_bulk_tx 16 false false false false (Some ex_ring16) 1 0 0 0 0%nat 0%nat
          (ex_bulk_urb 0 66000 0 [mk_sg 0 200000]) = Some res
        /\ tx_ring res = Some r /\ tx_td res = Some td /\ td_trbs 16 r td = Some l
        /\ trb_td_size <$> l = [31; 0; 0; 0])
  /\ (exists res r td l,
        xhci_queue_bulk_tx 16 false false false false (Some ex_ring16) 1 0 0 0 0%nat 0%nat
          (ex_bulk_urb 65536 1024 URB_ZERO_PACKET []) = Some res
        /\ tx_ring res = Some r /\ tx_td res = Some td /\ td_trbs 16 r td = Some l
        /\ trb_buf_len <$> l = [1024; 0] /\ trb_td_size <$> l = [0; 0]).
Proof.
  split; [|split].
  - do 5 eexists. split; [vm_compute; reflexivity|].
    split; [reflexivity|]. split; [reflexivity|].
    split; [vm_compute; reflexivity|]. repeat split.
  - do 4 eexists. split; [vm_compute; reflexivity|].
    split; [reflexivity|]. split; [reflexivity|].
    split; [vm_compute; reflexivity|]. reflexivity.
  - do 4 eexists. split; [vm_compute; reflexivity|].
    split; [reflexivity|]. split; [reflexivity|].
    split; [vm_compute; reflexivity|]. split; reflexivity.
Qed.

Lemma bulk_td_size_witness :
  exists res r td l,
    xhci_queue_bulk_tx 16 false false false false (Some ex_ring16) 1 0 0 0 0%nat 0%nat
      (ex_bulk_urb 0 66000 0 [mk_sg 0 200000]) = Some res
    /\ tx_ring res = Some r /\ tx_td res = Some td /\ td_trbs 16 r td = Some l
    /\ (exists t, last l = Some t /\ trb_td_size t = 0).
Proof.
  destruct (bulk_td_size 16 false false false false ex_ring16 1 0 0 0 0%nat 0%nat
              (ex_bulk_urb 0 66000 0 [mk_sg 0 200000]) 512 false ex_ring16_ok
              ex_ring16_linked ex_ring16_deq ltac:(vm_compute; reflexivity)
              ltac:(vm_compute; auto) eq_refl ltac:(simpl; lia)
              ltac:(unfold urb_buffer_ok, sg_ok; simpl;
                    split; [repeat constructor; simpl; lia
                           |split; [lia|vm_compute; reflexivity]])
              eq_refl ltac:(vm_compute; split; reflexivity) eq_refl
              ltac:(vm_compute; reflexivity))
    as (res & r & td & l & H & _ & Hr & Htd & Hl & _ & _ & Hlast & _).
  exists res, r, td, l. split; [exact H|]. split; [exact Hr|]. split; [exact Htd|].
  split; [exact Hl|exact Hlast].
Defined.

(** C6: a control transfer without data stage whose URB asks for a
    zero-length packet leaves three TRBs in the ring. *)
Lemma ctrl_tx_trbs_counterexample :
  exists res r t l,
    xhci_queue_ctrl_tx 16 false (Some ex_ring16) 1 0 0 0 0%nat 0%nat
      (ex_ctrl_urb URB_ZERO_PACKET) = Some res
    /\ tx_ring res = Some r /\ tx_td res = Some t /\ td_trbs 16 r t = Some l
    /\ transfer_buffer_length (ex_ctrl_urb URB_ZERO_PACKET) = 0
    /\ trb_type <$> l = [TRB_SETUP; TRB_DATA; TRB_STATUS].
Proof.
  eexists. eexists. eexists. eexists.
  split; [vm_compute; reflexivity|]. split; [reflexivity|]. split; [reflexivity|].
  split; [vm_compute; reflexivity|]. split; [reflexivity|vm_compute; reflexivity].
Qed.

(** C6: the control transfer without data stage and without zero-length
    packet on the ring of sixteen TRBs. *)
Lemma ctrl_tx_trbs_witness :
  exists res r t l,
    xhci_queue_ctrl_tx 16 false (Some ex_ring16) 1 0 0 0 0%nat 0%nat (ex_ctrl_urb 0)
    = Some res
    /\ tx_ring res = Some r /\ tx_td res = Some t /\ td_trbs 16 r t = Some l
    /\ trb_type <$> l = [TRB_SETUP; TRB_STATUS].
Proof.
  destruct (ctrl_tx_trbs 16 false ex_ring16 1 0 0 0 0%nat 0%nat (ex_ctrl_urb 0) ex_setup
              false ex_ring16_ok ex_ring16_linked ex_ring16_deq ltac:(vm_compute; reflexivity)
              ltac:(vm_compute; auto) ltac:(vm_compute; reflexivity) eq_refl eq_refl)
    as (res & r & t & l & H & _ & Hr & Ht & Hl & Hty & _).
  exists res, r, t, l. repeat split; assumption.
Defined.

(** C7: the command ring was stopped in front of a TRB of no known command;
    the completion matches the dequeue pointer, is no desync, and the dequeue
    pointer stays. *)
Lemma cmd_completion_dispatch_counterexample :
  exists t x',
    xhci_trb_virt_to_dma 4 (cmd_ring (ex_xhci ex_ring)) (Some 0%nat)
      (Some (dequeue (cmd_ring (ex_xhci ex_ring)))) = Some (cmd_trb ex_stop_event)
    /\ read_trb (cmd_ring (ex_xhci ex_ring)) (dequeue (cmd_ring (ex_xhci ex_ring))) = Some t
    /\ handle_cmd_completion 4 (ex_xhci ex_ring) ex_stop_event = Some x'
    /\ error_bitmask x' = 0
    /\ cmd_ring x' = cmd_ring (ex_xhci ex_ring).
Proof.
  eexists. eexists. split; [vm_compute; reflexivity|]. split; [vm_compute; reflexivity|].
  split; [vm_compute; reflexivity|]. split; reflexivity.
Qed.

(** C7: the completion of the Enable Slot command at the dequeue pointer
    records the slot and [CMD_DONE], and the dequeue pointer moves on, over
    the link TRB. *)
Lemma cmd_completion_dispatch_witness :
  handle_cmd_completion 4 (ex_xhci ex_cmd_ring) ex_done_event
  = Some (set_cmd_ring (deq_moved ex_cmd_ring 0 (0, 0)%nat)
            (set_g_cmd_status CMD_DONE (set_g_slot_id 1 (ex_xhci ex_cmd_ring)))).
Proof.
  destruct (cmd_completion_dispatch 4 (ex_xhci ex_cmd_ring) ex_done_event 4128 eq_refl)
    as (_ & _ & H & _).
  destruct (H ltac:(lia) eq_refl (mk_trb 0 0 0 (Z.lor (TRB_TYPE TRB_ENABLE_SLOT) 1))
              (deq_moved ex_cmd_ring 0 (0, 0)%nat) eq_refl eq_refl) as (_ & H2 & _).
  exact (H2 eq_refl).
Defined.

(** C8: an underrun event for the fourth TRB of the segment, with TD 0
    pending over the first two TRBs: no TD covers the address, and the event
    is dropped without an error, the event ring's dequeue cursor advanced.
    And an event for an endpoint whose context says disabled, with no TD
    pending: it is refused with [-ENODEV] and the event ring's dequeue cursor
    stays. *)
Lemma tx_event_unmatched_counterexample :
  (exists x',
     td_list (ex_ep_ring [0%nat]) = [0%nat]
     /\ trb_in_td 4 (ex_ep_ring [0%nat]) 0 (0, 0)%nat (td_last_trb ex_td) 4144 = Some None
     /\ GET_COMP_CODE (transfer_len ex_underrun_event) = COMP_UNDERRUN
     /\ handle_tx_event 4 ex_transfer_length ex_process_td ex_process_td ex_process_td
          (ex_tx_xhci [0%nat] 0 0) ex_underrun_event = Some (0, x')
     /\ dequeue (event_ring x') = (0, 1)%nat
     /\ devs x' = devs (ex_tx_xhci [0%nat] 0 0))
  /\ (let x := mk_xhci ex_ring ex_ev_ring
                 [None; Some (mk_dev [mk_ep (Some (ex_ep_ring [])) 0 None None 0]
                                [EP_STATE_DISABLED])] [] [] 0 0 0 0 in
      td_list (ex_ep_ring []) = []
      /\ handle_tx_event 4 ex_transfer_length ex_process_td ex_process_td ex_process_td
           x (ex_tx_event 4144) = Some (- ENODEV, x)).
Proof.
  split.
  - eexists. split; [reflexivity|]. split; [vm_compute; reflexivity|].
    split; [reflexivity|]. split; [vm_compute; reflexivity|]. split; reflexivity.
  - split; [reflexivity|vm_compute; reflexivity].
Qed.

Lemma ex_ev_ring_ok : event_ring_ok 4 ex_ev_ring.
Proof. repeat split; try (cbn; lia). repeat constructor. Qed.

(** C8: an event for an endpoint without pending TDs only moves the event
    ring's dequeue pointer; with TD 0 pending over the first two TRBs, an
    event for the fourth TRB is refused and nothing changes. *)
Lemma tx_event_unmatched_witness :
  (exists v,
     handle_tx_event 4 ex_transfer_length ex_process_td ex_process_td ex_process_td
       (ex_tx_xhci [] 0 0) (ex_tx_event 4144)
     = Some (0, set_erst_dequeue v
                  (set_event_ring (deq_moved ex_ev_ring 0 (0, 1)%nat) (ex_tx_xhci [] 0 0))))
  /\ handle_tx_event 4 ex_transfer_length ex_process_td ex_process_td ex_process_td
       (ex_tx_xhci [0%nat] 0 0) (ex_tx_event 4144)
     = Some (- ESHUTDOWN, ex_tx_xhci [0%nat] 0 0).
Proof.
  split.
  - destruct (tx_event_unmatched 4 ex_transfer_length ex_process_td ex_process_td
                ex_process_td (ex_tx_xhci [] 0 0) (ex_tx_event 4144)) as [_ H].
    destruct (H ltac:(vm_compute; lia) ltac:(vm_compute; lia)) as [_ H1].
    destruct (H1 (ex_dev []) (mk_ep (Some (ex_ep_ring [])) 0 None None 0) eq_refl eq_refl)
      as [_ H2].
    destruct (H2 (ex_ep_ring []) EP_STATE_RUNNING eq_refl eq_refl) as [_ H3].
    destruct (H3 ltac:(vm_compute; lia)) as (H4 & _ & _).
    destruct (H4 eq_refl ex_ev_ring_ok) as (r & v & Hr & Hv).
    injection Hr as <-. by exists v.
  - destruct (tx_event_unmatched 4 ex_transfer_length ex_process_td ex_process_td
                ex_process_td (ex_tx_xhci [0%nat] 0 0) (ex_tx_event 4144)) as [_ H].
    destruct (H ltac:(vm_compute; lia) ltac:(vm_compute; lia)) as [_ H1].
    destruct (H1 (ex_dev [0%nat]) (mk_ep (Some (ex_ep_ring [0%nat])) 0 None None 0)
                eq_refl eq_refl) as [_ H2].
    destruct (H2 (ex_ep_ring [0%nat]) EP_STATE_RUNNING eq_refl eq_refl) as [_ H3].
    destruct (H3 ltac:(vm_compute; lia)) as (_ & H4 & _).
    exact (H4 0%nat [] ex_td eq_refl eq_refl eq_refl).
Defined.


(** The dequeue cursor of the transfer ring moves from the last TRB of its
    segment over the link TRB; the enqueue cursor moves onto and over it. *)
Lemma inc_deq_keeps_ring_witness :
  exists r',
    inc_deq 4 false ex_ring false = Some r'
    /\ segs r' = segs ex_ring /\ enqueue r' = enqueue ex_ring
    /\ deq_updates r' = wrap32 (deq_updates ex_ring + 1).
Proof.
  eexists. split; [reflexivity|].
  destruct (inc_deq_keeps_ring 4 false ex_ring false _ eq_refl)
    as (H1 & H2 & _ & _ & _ & _ & H3 & _).
  repeat split; assumption.
Defined.

Lemma inc_enq_keeps_trbs_witness :
  exists r',
    inc_enq 4 false false ex_ring false true = Some r'
    /\ same_but_links ex_ring r' /\ dequeue r' = dequeue ex_ring
    /\ enq_updates r' = wrap32 (enq_updates ex_ring + 1).
Proof.
  eexists. split; [reflexivity|].
  destruct (inc_enq_keeps_trbs 4 false false ex_ring false true _ eq_refl)
    as (H1 & _ & H2 & _ & _ & _ & H3).
  repeat split; assumption.
Defined.

(** [prepare_ring] finds the enqueue cursor on the link TRB, hands the link
    TRB over and moves on; a TRB queued on the ring is read back. *)
Lemma prepare_ring_keeps_trbs_witness :
  exists r',
    prepare_ring 4 false false (enq_moved ex_ring 0 (0, 3)%nat) EP_STATE_RUNNING 1
    = Some (0, r')
    /\ same_but_links (enq_moved ex_ring 0 (0, 3)%nat) r'
    /\ dequeue r' = (0, 2)%nat /\ td_list r' = [].
Proof.
  eexists. split; [reflexivity|].
  destruct (prepare_ring_keeps_trbs 4 false (enq_moved ex_ring 0 (0, 3)%nat)
              EP_STATE_RUNNING 1 0 _ eq_refl)
    as (_ & _ & H1 & _ & H2 & _ & _ & _ & H3).
  repeat split; assumption.
Defined.

Lemma queue_trb_read_back_witness :
  exists r',
    queue_trb 4 false false ex_ring false false 1 2 3 (TRB_TYPE TRB_NORMAL) = Some r'
    /\ read_trb r' (0, 2)%nat = Some (mk_trb 1 2 3 (TRB_TYPE TRB_NORMAL))
    /\ dequeue r' = dequeue ex_ring.
Proof.
  eexists. split; [reflexivity|].
  destruct (queue_trb_read_back 4 false false ex_ring false false 1 2 3
              (TRB_TYPE TRB_NORMAL) _ eq_refl eq_refl)
    as (H1 & _ & _ & H2 & _).
  split; assumption.
Defined.

(** A TRB of 512 bytes that opens a TD of 1024 bytes has TD size 2; the
    event address 4112 lies in the segment at 4096; the event ring's dequeue
    pointer at 8192 goes to the register. *)
Lemma xhci_td_remainder_fits_witness :
  exists k, 0 <= k <= 31 /\ xhci_td_remainder 1024 0 512 512 = Some (Z.shiftl k 17).
Proof.
  destruct (xhci_td_remainder_fits 1024 0 512 512 _ eq_refl) as (k & Hk & Hv & _).
  exists k. split; [exact Hk|]. rewrite <- Hv. reflexivity.
Defined.

Lemma ex_seg_addresses (i : nat) (sg : xhci_segment) :
  segs (ex_ep_ring [0%nat]) !! i = Some sg ->
  0 <= dma sg /\ dma sg + Z.of_nat 4 * SIZEOF_TRB < 2 ^ 64.
Proof.
  destruct i as [|i]; [|discriminate]. intros [= <-]. split; [discriminate|reflexivity].
Qed.

Lemma ex_adj_addresses (i : nat) (sg : xhci_segment) :
  segs ex_ring_adj !! i = Some sg ->
  0 <= dma sg /\ dma sg + Z.of_nat 4 * SIZEOF_TRB < 2 ^ 64.
Proof.
  destruct i as [|[|i]]; [| |discriminate]; intros [= <-];
    (split; [discriminate|reflexivity]).
Qed.

(** A TD from the first TRB of the first segment to the first TRB of the
    second, whose array lies directly behind: the address just past the first
    segment is taken for a TRB of the first segment, with index
    [TRBS_PER_SEGMENT]. *)
Lemma trb_in_td_sound_witness :
  trb_in_td 4 ex_ring_adj 0 (0, 0)%nat (Some (1, 0)%nat) 4160 = Some (Some 0%nat)
  /\ exists sg,
       segs ex_ring_adj !! 0%nat = Some sg
       /\ dma sg <= 4160 <= dma sg + Z.of_nat 4 * SIZEOF_TRB
       /\ Z.to_nat ((4160 - dma sg) / SIZEOF_TRB) = 4%nat.
Proof.
  split; [reflexivity|].
  destruct (trb_in_td_sound 4 ex_ring_adj 0 (0, 0)%nat (Some (1, 0)%nat) 4160 0
              ex_adj_addresses eq_refl) as (sg & H1 & H2 & _).
  exists sg. split; [exact H1|]. split; [exact H2|].
  injection H1 as <-. reflexivity.
Defined.

Lemma event_deq_register_witness :
  xhci_set_hc_event_deq 4 (ex_xhci ex_ring)
  = Some (set_erst_dequeue 8192 (ex_xhci ex_ring)).
Proof.
  destruct (event_deq_register 4 (ex_xhci ex_ring) ex_ev_seg 0 eq_refl eq_refl
              ltac:(lia) ltac:(simpl; lia) ltac:(vm_compute; reflexivity) eq_refl)
    as [H _].
  exact H.
Defined.

(** The completion of the pending Enable Slot command: the handler moves
    the command ring's dequeue cursor, a transfer event for an endpoint
    without TDs moves the event ring's, and [xhci_handle_event] takes the
    completion event off the event ring. *)
Lemma cmd_completion_keeps_rings_witness :
  exists x',
    handle_cmd_completion 4 (ex_xhci ex_cmd_ring) ex_done_event = Some x'
    /\ event_ring x' = ex_ev_ring /\ segs (cmd_ring x') = [ex_cmd_seg].
Proof.
  eexists. split; [reflexivity|].
  destruct (cmd_completion_keeps_rings 4 (ex_xhci ex_cmd_ring) ex_done_event _ eq_refl)
    as (H1 & _ & _ & _ & H2 & _).
  split; assumption.
Defined.

Lemma ex_process_td_keeps : keeps_event_ring ex_process_td.
Proof. intros x td trb event ep status ret status' x'. by intros [= _ _ <-]. Qed.

Lemma tx_event_all_or_nothing_witness :
  exists x',
    handle_tx_event 4 ex_transfer_length ex_process_td ex_process_td ex_process_td
      (ex_tx_xhci [] 0 0) (ex_tx_event 4144) = Some (0, x')
    /\ deq_updates (event_ring x') = 1.
Proof.
  eexists. split; [reflexivity|].
  destruct (tx_event_all_or_nothing 4 ex_transfer_length ex_process_td ex_process_td
              ex_process_td (ex_tx_xhci [] 0 0) (ex_tx_event 4144) 0 _
              ex_process_td_keeps ex_process_td_keeps ex_process_td_keeps eq_refl)
    as [[[H|H] _]|(_ & _ & _ & H)]; [discriminate H|discriminate H|exact H].
Defined.

Lemma handle_event_consumes_once_witness :
  exists x',
    xhci_handle_event 4 ex_transfer_length ex_process_td ex_process_td ex_process_td
      false ex_port_status 0 (ex_event_xhci ex_completion_event) = Some (1, x')
    /\ deq_updates (event_ring x') = 1.
Proof.
  eexists. split; [reflexivity|].
  destruct (handle_event_consumes_once 4 ex_transfer_length ex_process_td ex_process_td
              ex_process_td false ex_port_status 0 (ex_event_xhci ex_completion_event)
              ex_completion_event 1 _
              ex_process_td_keeps ex_process_td_keeps ex_process_td_keeps eq_refl eq_refl)
    as [_ H].
  destruct (H eq_refl ltac:(discriminate) eq_refl) as (_ & _ & H3 & _). exact H3.
Defined.

(** A command for a ring with one free slot is refused; a no-op command on
    the idle ring of sixteen TRBs is queued at 4128 and completed. *)
Lemma queue_command_result_witness :
  exists x',
    queue_command 4 false 0 (ex_xhci ex_ring_full) 0 0 0 (TRB_TYPE TRB_CMD_NOOP) false
    = Some (- ENOMEM, x')
    /\ x' = ex_xhci ex_ring_full.
Proof.
  eexists. split; [reflexivity|].
  destruct (queue_command_result 4 false 0 (ex_xhci ex_ring_full) 0 0 0
              (TRB_TYPE TRB_CMD_NOOP) false (- ENOMEM) _ eq_refl)
    as [[_ H]|[H _]]; [exact H|discriminate H].
Defined.

Lemma noop_round_trip_witness :
  exists x1 x2,
    queue_cmd_noop 16 false 0 (ex_xhci ex_ring16) = Some (0, x1)
    /\ handle_cmd_completion 16 x1 (mk_cev 4128 (Z.shiftl COMP_SUCCESS 24) 0) = Some x2
    /\ dequeue (cmd_ring x2) = enqueue (cmd_ring x2)
    /\ error_bitmask x2 = 0.
Proof.
  destruct (noop_round_trip 16 false 0 (ex_xhci ex_ring16) ex_seg16 2
              (Z.shiftl COMP_SUCCESS 24) 0 ex_ring16_ok eq_refl eq_refl eq_refl
              ltac:(lia) eq_refl ltac:(simpl; lia) ltac:(vm_compute; reflexivity)
              ltac:(vm_compute; reflexivity))
    as (x1 & x2 & H1 & _ & H2 & _ & H3 & _ & H4 & _).
  exists x1, x2. repeat split; assumption.
Defined.

(** The TD over the first two TRBs of the endpoint ring, cancelled. *)
Lemma ex_td_trbs (k : nat) :
  (0 <= k <= 1)%nat ->
  exists t, read_trb (ex_ep_ring [0%nat]) (0%nat, k) = Some t /\ is_link_trb t = false.
Proof.
  intros Hk. exists zero_trb.
  destruct k as [|[|k]]; [split; reflexivity|split; reflexivity|lia].
Qed.

Lemma td_to_noop_segment_witness :
  exists r',
    td_to_noop 4 (ex_ep_ring [0%nat]) ex_td = Some r'
    /\ read_trb r' (0, 1)%nat = Some (noop_of zero_trb)
    /\ read_trb r' (0, 2)%nat = Some zero_trb
    /\ dequeue r' = dequeue (ex_ep_ring [0%nat]).
Proof.
  destruct (td_to_noop_segment 4 (ex_ep_ring [0%nat]) ex_td 0 0 1 eq_refl eq_refl eq_refl
              ltac:(lia) ltac:(simpl; lia) ex_td_trbs)
    as (r' & H1 & H2 & H3 & _ & H4 & _).
  exists r'. split; [exact H1|].
  split; [exact (proj1 (H2 1%nat zero_trb ltac:(lia) eq_refl))|].
  split; [|exact H4].
  rewrite (H3 (0, 2)%nat); [reflexivity|]. simpl. lia.
Defined.

Lemma ex_ep_ring_mem_ok (tdl : list nat) : mem_ok 4 (ex_ep_ring tdl).
Proof. repeat split; try (vm_compute; lia); repeat constructor. Qed.

Lemma ex_ep_ring_linked (tdl : list nat) : ring_linked (ex_ep_ring tdl).
Proof. intros [|i] sg H; [by injection H as <-|discriminate H]. Qed.

Lemma ex_ep_ring_deq_ok (tdl : list nat) : deq_ok 4 (ex_ep_ring tdl).
Proof. repeat split; cbn; lia. Qed.

(** The URB of eight bytes, short by three, with [URB_SHORT_NOT_OK]. *)
Lemma bulk_td_completed_witness :
  exists ret st x' u',
    process_bulk_intr_td_body 4 ex_no_cleanup (ex_tx_xhci [0%nat] 0 URB_SHORT_NOT_OK) 0
      (0, 1)%nat ex_short_event (1, 0) (- EINPROGRESS) = Some (ret, st, x')
    /\ urbs x' !! 0%nat = Some u' /\ actual_length u' = 5 /\ st = - EREMOTEIO.
Proof.
  destruct (bulk_td_completed 4 ex_no_cleanup (ex_tx_xhci [0%nat] 0 URB_SHORT_NOT_OK) 0
              (0, 1)%nat ex_short_event (1, 0) (- EINPROGRESS) (ex_dev [0%nat])
              EP_STATE_RUNNING (mk_ep (Some (ex_ep_ring [0%nat])) 0 None None 0)
              (ex_ep_ring [0%nat]) ex_td (ex_tx_urb 0 URB_SHORT_NOT_OK)
              eq_refl eq_refl eq_refl (or_intror eq_refl) ltac:(simpl; lia)
              eq_refl eq_refl eq_refl eq_refl
              (ex_ep_ring_mem_ok _) (ex_ep_ring_linked _) (ex_ep_ring_deq_ok _)
              ltac:(split; simpl; lia))
    as (ret & st & x' & u' & H0 & H1 & _ & H2 & _ & H3).
  exists ret, st, x', u'.
  split; [exact H0|]. split; [exact H1|]. split; [exact H2|exact H3].
Defined.

(** A control transfer for the ring with one free slot. *)
Lemma tx_refused_cleanly_witness :
  exists res,
    xhci_queue_ctrl_tx 4 false (Some ex_ring_full) 1 0 0 0 0%nat 0%nat (ex_ctrl_urb 0)
    = Some res
    /\ tx_ret res = - ENOMEM /\ tx_trbs res = [] /\ tx_db res = 0.
Proof.
  eexists. split; [reflexivity|].
  destruct (tx_refused_cleanly 4 false false false false ex_ring_full 1 0 0 0 0%nat 0%nat
              (ex_ctrl_urb 0) _ (or_introl eq_refl))
    as [H|(_ & _ & _ & H1 & H2)]; [discriminate H|].
  split; [reflexivity|]. split; [exact H1|exact H2].
Defined.

(** TD 0 of the endpoint ring completes on its last TRB. *)
Lemma finish_td_advances_witness :
  exists ret st x' e' r',
    finish_td 4 ex_no_cleanup (ex_tx_xhci [0%nat] 0 0) 0 (0, 1)%nat (ex_tx_event 4112)
      (1, 0) 0 false = Some (ret, st, x')
    /\ get_ep x' (1, 0) = Some e' /\ vep_ring e' = Some r'
    /\ td_list r' = [] /\ segs r' = [ex_seg] /\ dequeue r' = (0, 2)%nat.
Proof.
  destruct (finish_td_advances 4 ex_no_cleanup (ex_tx_xhci [0%nat] 0 0) 0 (0, 1)%nat
              (ex_tx_event 4112) (1, 0) 0 (ex_dev [0%nat]) EP_STATE_RUNNING
              (mk_ep (Some (ex_ep_ring [0%nat])) 0 None None 0) (ex_ep_ring [0%nat])
              ex_td (ex_tx_urb 0 0) (0, 1)%nat (or_introl eq_refl)
              eq_refl eq_refl eq_refl eq_refl eq_refl eq_refl eq_refl
              (ex_ep_ring_mem_ok _) (ex_ep_ring_linked _) (ex_ep_ring_deq_ok _)
              ltac:(split; simpl; lia))
    as (ret & st & x' & e' & r' & r1 & r2 & H0 & H1 & H2 & H3 & _ & _ & H4 & _ & _ & _
        & _ & _ & H5).
  exists ret, st, x', e', r'. repeat split; assumption.
Defined.

(** The search for a TRB of the first segment that starts in the second
    segment passes the link TRB with the toggle flag. *)
Lemma ex_ring2_linked : ring_linked ex_ring2.
Proof. intros [|[|i]] sg H; [by injection H as <- ..|discriminate H]. Qed.

Lemma ex_ring2_links (s : nat) :
  (s < length (segs ex_ring2))%nat -> is_Some (read_trb ex_ring2 (s, (4 - 1)%nat)).
Proof. destruct s as [|[|s]]; [by eexists|by eexists|cbn; lia]. Qed.

Lemma find_trb_seg_correct_witness :
  exists c',
    find_trb_seg 4 ex_ring2 1 (0, 1)%nat 1 = Some (Some 0%nat, c') /\ (c' = 0 \/ c' = 1).
Proof.
  destruct (find_trb_seg_correct 4 ex_ring2 1 (0, 1)%nat 1) as [_ H].
  destruct (H ex_ring2_linked ex_ring2_links ltac:(simpl; lia) ltac:(simpl; lia)
              ltac:(simpl; lia)) as (c' & H1 & _ & H2).
  exists c'. split; [exact H1|exact (H2 (or_intror eq_refl))].
Defined.

Lemma trb_in_td_total_witness :
  is_Some (trb_in_td 4 ex_ring2 0 (0, 0)%nat (Some (1, 1)%nat) 99999).
Proof.
  exact (trb_in_td_total 4 ex_ring2 0 (0, 0)%nat (Some (1, 1)%nat) 99999 ex_ring2_linked
           ltac:(simpl; lia)).
Defined.


Lemma room_on_ring_monotone_witness :
  room_on_ring 4 false ex_ring 1 = Some true.
Proof.
  apply (room_on_ring_monotone 4 false ex_ring 2 1); [lia|reflexivity].
Defined.

(** The status-stage event for TD 0 of a URB with five bytes on record. *)
Lemma ctrl_td_status_stage_witness :
  exists st x' u',
    process_ctrl_td_body 4 ex_no_cleanup (ex_tx_xhci [0%nat] 5 URB_SHORT_NOT_OK) 0
      (0, 1)%nat (ex_tx_event 4112) (1, 0) (- EINPROGRESS) = Some (1, st, x')
    /\ urbs x' !! 0%nat = Some u' /\ td_cnt u' = 1 /\ actual_length u' = 5
    /\ st = - EREMOTEIO.
Proof.
  destruct (ctrl_td_status_stage 4 ex_no_cleanup (ex_tx_xhci [0%nat] 5 URB_SHORT_NOT_OK) 0
              (0, 1)%nat (ex_tx_event 4112) (1, 0) (- EINPROGRESS) (ex_dev [0%nat])
              EP_STATE_RUNNING (mk_ep (Some (ex_ep_ring [0%nat])) 0 None None 0)
              (ex_ep_ring [0%nat]) ex_td (ex_tx_urb 5 URB_SHORT_NOT_OK)
              (or_introl eq_refl) eq_refl eq_refl eq_refl eq_refl
              ltac:(discriminate) eq_refl eq_refl eq_refl ltac:(simpl; lia)
              (ex_ep_ring_mem_ok _) (ex_ep_ring_linked _) (ex_ep_ring_deq_ok _)
              ltac:(split; simpl; lia))
    as (ret & st & x' & u' & H0 & Hret & H1 & Hc & _ & H2 & _ & H3).
  exists st, x', u'. rewrite Hret in H0.
  split; [exact H0|]. split; [exact H1|]. split; [exact Hc|]. split; [exact H2|exact H3].
Defined.

